(** * Canonical observation encoder of the Hanabi learning environment

    A shallow embedding of [hanabi_lib/canonical_encoders.cc] and of the
    properties its specification states about it.

    Conventions of the embedding.
    - A C++ [int] is a [Z].  The game dimensions the library admits are tiny,
      so no signed overflow (undefined behaviour) is reachable and none is
      modelled.
    - A [std::vector<T>] is a [list T], indexed with a [Z].  An index outside
      the vector ([operator[]], undefined behaviour, or [at], an exception)
      is the failure [OutOfRange].
    - [assert] is taken as enabled: a failed assertion is the failure
      [AssertFailed], tagged with the assertion that fired; [std::abort] is
      [Aborted].  Output to [std::cout] is not modelled.
    - A [float] is an exact rational ([Q]): rounding is not modelled, and
      equalities between computed numbers are stated with [==].  Where a
      statement depends on rounding, the module [Binary32] at the end of
      the embedding gives the belief estimators once more with a [float] as
      an IEEE 754 binary32 number. *)

From Stdlib Require Import ZArith QArith List Bool Lia.
From Stdlib Require SpecFloat.
Import ListNotations.
Open Scope Z_scope.

(** ** Failures and the error monad *)

Inductive assertion : Set :=
| SectionLength   (* offset - start_offset == XSectionLength(game) *)
| EncodingSize    (* offset == encoding.size(), len == encoding.size() *)
| HandsSize       (* hands.size() == num_players *)
| CardRange       (* card.Color() < NumColors, card.Rank() < num_ranks *)
| CardValid       (* card.IsValid(), !card.IsValid() *)
| TokenRange      (* information and life tokens within their maximum *)
| KnownCard       (* last_move->color >= 0, last_move->rank >= 0 *)
| SizeMismatch    (* ComputeCardCount: total_count vs deck and hands *)
| TotalZero       (* belief: total <= 0 *)
| OffsetInRange   (* offset - start_offset < len, offset < v1_belief.size() *)
| PerCardOffset   (* per_card_offset == colors*ranks + colors + ranks *)
| CountSize.      (* total_cards.size() == num_colors * num_ranks *)

Inductive failure : Set :=
| AssertFailed (a : assertion)
| Aborted
| OutOfRange
| DivisionByZero
| BadAlloc.

Inductive result (A : Type) : Type :=
| Ok (a : A)
| Fail (e : failure).

Arguments Ok {A} a.
Arguments Fail {A} e.

Definition bind {A B : Type} (c : result A) (k : A -> result B) : result B :=
  match c with
  | Ok a => k a
  | Fail e => Fail e
  end.

Declare Scope result_scope.
Delimit Scope result_scope with result.
Open Scope result_scope.

Notation "x <- c ;; k" := (bind c (fun x => k))
  (at level 61, c at next level, right associativity) : result_scope.
Notation "' pat <- c ;; k" := (bind c (fun x => match x with pat => k end))
  (at level 61, pat pattern, c at next level, right associativity) : result_scope.
Notation "c ;; k" := (bind c (fun _ => k))
  (at level 61, right associativity) : result_scope.

Definition assert (b : bool) (a : assertion) : result unit :=
  if b then Ok tt else Fail (AssertFailed a).

(** Range-based [for] over a vector, threading the loop state. *)
Fixpoint foldM {A S : Type} (body : S -> A -> result S) (l : list A) (s : S)
  : result S :=
  match l with
  | [] => Ok s
  | a :: l' =>
      match body s a with
      | Ok s' => foldM body l' s'
      | Fail e => Fail e
      end
  end.

(** The values [0, 1, ..., n-1] of the counter of
    [for (int i = 0; i < n; ++i)]; empty when [n <= 0]. *)
Definition range (n : Z) : list Z := map Z.of_nat (seq 0 (Z.to_nat n)).

Definition for_range {S : Type} (n : Z) (body : S -> Z -> result S) (s : S)
  : result S :=
  foldM body (range n) s.

(** ** Vectors *)

Notation "'vec'" := (list Q) (only parsing).

Fixpoint list_set {A : Type} (l : list A) (n : nat) (x : A) : list A :=
  match l, n with
  | [], _ => []
  | _ :: t, O => x :: t
  | h :: t, S n' => h :: list_set t n' x
  end.

Definition load {A : Type} (v : list A) (i : Z) : result A :=
  if 0 <=? i then
    match nth_error v (Z.to_nat i) with
    | Some x => Ok x
    | None => Fail OutOfRange
    end
  else Fail OutOfRange.

Definition store {A : Type} (v : list A) (i : Z) (x : A) : result (list A) :=
  if (0 <=? i) && (i <? Z.of_nat (length v))
  then Ok (list_set v (Z.to_nat i) x)
  else Fail OutOfRange.

(** [std::vector<T>(n, x)]: a negative [int] size converts to a huge
    [size_t] and the allocation throws. *)
Definition new_vector {A : Type} (n : Z) (x : A) : result (list A) :=
  if n <? 0 then Fail BadAlloc else Ok (repeat x (Z.to_nat n)).

Definition size {A : Type} (v : list A) : Z := Z.of_nat (length v).

(** Reading an entry in statements about a buffer. *)
Definition get (v : vec) (i : Z) : Q := nth (Z.to_nat i) v 0%Q.

Definition getz (v : list Z) (i : Z) : Z := nth (Z.to_nat i) v 0.

(** C++ integer division truncates; a zero divisor is undefined. *)
Definition int_div (a b : Z) : result Z :=
  if b =? 0 then Fail DivisionByZero else Ok (Z.quot a b).

Definition int_rem (a b : Z) : result Z :=
  if b =? 0 then Fail DivisionByZero else Ok (Z.rem a b).

(** Narrowing an [int] to [int8_t]. *)
Definition to_int8 (z : Z) : Z := (z + 128) mod 256 - 128.

(** ** Data model: the classes the encoder reads

    [HanabiGame], [HanabiCard], [HanabiHand], [HanabiMove],
    [HanabiHistoryItem] and [HanabiObservation] are declared in headers of
    the library that the encoder only consumes through accessors; each is a
    record of the accessors that [canonical_encoders.cc] calls. *)

Module HanabiCard.
Record t : Type := mk { Color : Z; Rank : Z; IsValid : bool }.
End HanabiCard.

Module CardKnowledge.
Record t : Type := mk {
  ColorPlausible : Z -> bool;
  RankPlausible : Z -> bool;
  ColorHinted : bool;
  Color : Z;
  RankHinted : bool;
  Rank : Z
}.
End CardKnowledge.

Module HanabiHand.
Record t : Type := mk {
  Cards : list HanabiCard.t;
  Knowledge : list CardKnowledge.t
}.
End HanabiHand.

Module HanabiMove.
Inductive Type_ : Set :=
| kInvalid | kPlay | kDiscard | kRevealColor | kRevealRank | kDeal.

Record t : Type := mk {
  MoveType : Type_;
  CardIndex : Z;
  TargetOffset : Z;
  Color : Z;
  Rank : Z
}.

Definition is_deal (ty : Type_) : bool :=
  match ty with kDeal => true | _ => false end.

Definition is_reveal (ty : Type_) : bool :=
  match ty with kRevealColor | kRevealRank => true | _ => false end.

Definition is_play_or_discard (ty : Type_) : bool :=
  match ty with kPlay | kDiscard => true | _ => false end.
End HanabiMove.

Module HanabiHistoryItem.
Record t : Type := mk {
  move : HanabiMove.t;
  player : Z;
  scored : bool;
  information_token : bool;
  color : Z;
  rank : Z;
  reveal_bitmask : Z
}.
End HanabiHistoryItem.

Module HanabiObservation.
Record t : Type := mk {
  Hands : list HanabiHand.t;
  DiscardPile : list HanabiCard.t;
  Fireworks : list Z;
  DeckSize : Z;
  InformationTokens : Z;
  LifeTokens : Z;
  LastMoves : list HanabiHistoryItem.t
}.
End HanabiObservation.

Module HanabiGame.
Inductive AgentObservationType : Set := kMinimal | kCardKnowledge | kSeer.

Record t : Type := mk {
  NumColors : Z;
  NumRanks : Z;
  NumPlayers : Z;
  HandSize : Z;
  MaxDeckSize : Z;
  MaxInformationTokens : Z;
  MaxLifeTokens : Z;
  NumberCardInstances : Z -> Z -> Z;
  ObservationType : AgentObservationType
}.

Definition is_minimal (ty : AgentObservationType) : bool :=
  match ty with kMinimal => true | _ => false end.
End HanabiGame.

Import HanabiGame.
Import HanabiObservation.

(** ** Layout calculator *)

(** Product of the dimensions of a shape. *)
Definition FlatLength (shape : list Z) : Z := fold_left Z.mul shape 1.

Definition GetLastNonDealMove (past_moves : list HanabiHistoryItem.t)
  : option HanabiHistoryItem.t :=
  find (fun item =>
          negb (HanabiMove.is_deal
                  (HanabiMove.MoveType (HanabiHistoryItem.move item))))
       past_moves.

Definition BitsPerCard (game : HanabiGame.t) : Z :=
  NumColors game * NumRanks game.

(** The card's one-hot index using a color-major ordering. *)
Definition CardIndex (color rank num_ranks : Z) : Z := color * num_ranks + rank.

Definition HandsSectionLength (game : HanabiGame.t) : Z :=
  NumPlayers game * HandSize game * BitsPerCard game + NumPlayers game.

Definition BoardSectionLength (game : HanabiGame.t) : Z :=
  MaxDeckSize game - NumPlayers game * HandSize game
  + NumColors game * NumRanks game
  + MaxInformationTokens game
  + MaxLifeTokens game.

Definition DiscardSectionLength (game : HanabiGame.t) : Z := MaxDeckSize game.

Definition LastActionSectionLength (game : HanabiGame.t) : Z :=
  NumPlayers game + 4 + NumPlayers game + NumColors game + NumRanks game
  + HandSize game + HandSize game + BitsPerCard game + 2.

Definition CardKnowledgeSectionLength (game : HanabiGame.t) : Z :=
  NumPlayers game * HandSize game
  * (BitsPerCard game + NumColors game + NumRanks game).

Definition Shape (game : HanabiGame.t) : list Z :=
  let l := HandsSectionLength game + BoardSectionLength game
           + DiscardSectionLength game + LastActionSectionLength game
           + (if is_minimal (ObservationType game) then 0
              else CardKnowledgeSectionLength game) in
  [l].

(** ** Own-hand summary *)

(** Body of the loop over the observer's cards: state is
    [(offset, encoding)]. *)
Definition EncodeOwnHand_card (game : HanabiGame.t) (fireworks : list Z)
  (st : Z * vec) (card : HanabiCard.t) : result (Z * vec) :=
  let '(offset, encoding) := st in
  assert (HanabiCard.Color card <? NumColors game) CardRange ;;
  assert (HanabiCard.Rank card <? NumRanks game) CardRange ;;
  assert (HanabiCard.IsValid card) CardValid ;;
  firework <- load fireworks (HanabiCard.Color card) ;;
  encoding <-
    (if HanabiCard.Rank card =? firework then store encoding offset 1%Q
     else if HanabiCard.Rank card <? firework
          then store encoding (offset + 1) 1%Q
          else store encoding (offset + 2) 1%Q) ;;
  Ok (offset + 3, encoding).

(** Returns the final offset (not the number of entries written). *)
Definition EncodeOwnHand_ (game : HanabiGame.t) (obs : HanabiObservation.t)
  (start_offset : Z) (encoding : vec) : result (vec * Z) :=
  let offset := start_offset in
  hand <- load (Hands obs) 0 ;;
  let cards := HanabiHand.Cards hand in
  let fireworks := Fireworks obs in
  '(offset, encoding) <-
    foldM (EncodeOwnHand_card game fireworks) cards (offset, encoding) ;;
  Ok (encoding, offset).

(** ** Hands section *)

(** Body of the loop over one player's cards: state is
    [(num_cards, offset, encoding)]. *)
Definition EncodeHands_card (game : HanabiGame.t) (show_own_cards : bool)
  (player : Z) (st : Z * Z * vec) (card : HanabiCard.t)
  : result (Z * Z * vec) :=
  let '(num_cards, offset, encoding) := st in
  let index :=
    offset + CardIndex (HanabiCard.Color card) (HanabiCard.Rank card)
                       (NumRanks game) in
  assert (HanabiCard.Color card <? NumColors game) CardRange ;;
  assert (HanabiCard.Rank card <? NumRanks game) CardRange ;;
  encoding <-
    (if player =? 0 then
       if show_own_cards then
         assert (HanabiCard.IsValid card) CardValid ;;
         store encoding index 1%Q
       else
         assert (negb (HanabiCard.IsValid card)) CardValid ;;
         Ok encoding
     else
       assert (HanabiCard.IsValid card) CardValid ;;
       store encoding index 1%Q) ;;
  Ok (num_cards + 1, offset + BitsPerCard game, encoding).

(** Body of the loop over players: state is [(offset, encoding)]. *)
Definition EncodeHands_player (game : HanabiGame.t)
  (hands : list HanabiHand.t) (show_own_cards : bool)
  (st : Z * vec) (player : Z) : result (Z * vec) :=
  let '(offset, encoding) := st in
  hand <- load hands player ;;
  '(num_cards, offset, encoding) <-
    foldM (EncodeHands_card game show_own_cards player)
          (HanabiHand.Cards hand) (0, offset, encoding) ;;
  let offset :=
    if num_cards <? HandSize game
    then offset + (HandSize game - num_cards) * BitsPerCard game
    else offset in
  Ok (offset, encoding).

(** Body of the second loop: the "hand is missing a card" bit. *)
Definition EncodeHands_missing (game : HanabiGame.t)
  (hands : list HanabiHand.t) (offset : Z) (encoding : vec) (player : Z)
  : result vec :=
  hand <- load hands player ;;
  if size (HanabiHand.Cards hand) <? HandSize game
  then store encoding (offset + player) 1%Q
  else Ok encoding.

Definition EncodeHands (game : HanabiGame.t) (obs : HanabiObservation.t)
  (start_offset : Z) (encoding : vec) (show_own_cards : bool)
  : result (vec * Z) :=
  let num_players := NumPlayers game in
  let offset := start_offset in
  let hands := Hands obs in
  assert (size hands =? num_players) HandsSize ;;
  '(offset, encoding) <-
    for_range num_players (EncodeHands_player game hands show_own_cards)
              (offset, encoding) ;;
  encoding <-
    for_range num_players (EncodeHands_missing game hands offset) encoding ;;
  let offset := offset + num_players in
  assert (offset - start_offset =? HandsSectionLength game) SectionLength ;;
  Ok (encoding, offset - start_offset).

(** ** Board section *)

(** The thermometer loop: for [i] from [0] below [n], the entry at
    [offset + i] is set to 1. *)
Definition set_prefix (offset n : Z) (encoding : vec) : result vec :=
  for_range n (fun encoding i => store encoding (offset + i) 1%Q) encoding.

(** Body of the loop over colors: state is [(offset, encoding)]. *)
Definition EncodeBoard_firework (game : HanabiGame.t) (fireworks : list Z)
  (st : Z * vec) (c : Z) : result (Z * vec) :=
  let '(offset, encoding) := st in
  fw <- load fireworks c ;;
  encoding <-
    (if fw >? 0 then store encoding (offset + fw - 1) 1%Q else Ok encoding) ;;
  Ok (offset + NumRanks game, encoding).

Definition EncodeBoard (game : HanabiGame.t) (obs : HanabiObservation.t)
  (start_offset : Z) (encoding : vec) : result (vec * Z) :=
  let offset := start_offset in
  encoding <- set_prefix offset (DeckSize obs) encoding ;;
  let offset := offset + (MaxDeckSize game - HandSize game * NumPlayers game) in
  '(offset, encoding) <-
    for_range (NumColors game) (EncodeBoard_firework game (Fireworks obs))
              (offset, encoding) ;;
  assert (InformationTokens obs >=? 0) TokenRange ;;
  assert (InformationTokens obs <=? MaxInformationTokens game) TokenRange ;;
  encoding <- set_prefix offset (InformationTokens obs) encoding ;;
  let offset := offset + MaxInformationTokens game in
  assert (LifeTokens obs >=? 0) TokenRange ;;
  assert (LifeTokens obs <=? MaxLifeTokens game) TokenRange ;;
  encoding <- set_prefix offset (LifeTokens obs) encoding ;;
  let offset := offset + MaxLifeTokens game in
  assert (offset - start_offset =? BoardSectionLength game) SectionLength ;;
  Ok (encoding, offset - start_offset).

(** ** Discards section *)

(** [++discard_counts[card.Color() * num_ranks + card.Rank()]] *)
Definition count_discard (num_ranks : Z) (discard_counts : list Z)
  (card : HanabiCard.t) : result (list Z) :=
  let index := HanabiCard.Color card * num_ranks + HanabiCard.Rank card in
  n <- load discard_counts index ;;
  store discard_counts index (n + 1).

(** Body of the loop over ranks, for color [c]. *)
Definition EncodeDiscards_rank (game : HanabiGame.t) (discard_counts : list Z)
  (c : Z) (st : Z * vec) (r : Z) : result (Z * vec) :=
  let '(offset, encoding) := st in
  num_discarded <- load discard_counts (c * NumRanks game + r) ;;
  encoding <- set_prefix offset num_discarded encoding ;;
  Ok (offset + NumberCardInstances game c r, encoding).

Definition EncodeDiscards_color (game : HanabiGame.t) (discard_counts : list Z)
  (st : Z * vec) (c : Z) : result (Z * vec) :=
  for_range (NumRanks game) (EncodeDiscards_rank game discard_counts c) st.

Definition EncodeDiscards (game : HanabiGame.t) (obs : HanabiObservation.t)
  (start_offset : Z) (encoding : vec) : result (vec * Z) :=
  let num_colors := NumColors game in
  let num_ranks := NumRanks game in
  let offset := start_offset in
  discard_counts <- new_vector (num_colors * num_ranks) 0 ;;
  discard_counts <-
    foldM (count_discard num_ranks) (DiscardPile obs) discard_counts ;;
  '(offset, encoding) <-
    for_range num_colors (EncodeDiscards_color game discard_counts)
              (offset, encoding) ;;
  assert (offset - start_offset =? DiscardSectionLength game) SectionLength ;;
  Ok (encoding, offset - start_offset).

(** ** Last-action section *)

(** Body of the loop over hand slots that writes the reveal outcome: state
    is [(mask, encoding)], [mask] being shifted left at each turn. *)
Definition EncodeLastAction_outcome (reveal_bitmask offset : Z)
  (st : Z * vec) (i : Z) : result (Z * vec) :=
  let '(mask, encoding) := st in
  encoding <-
    (if Z.land reveal_bitmask mask >? 0
     then store encoding (offset + i) 1%Q
     else Ok encoding) ;;
  Ok (Z.shiftl mask 1, encoding).

(** The branch taken when a last non-deal move exists; returns the encoding
    and the offset after the section. *)
Definition EncodeLastAction_move (game : HanabiGame.t)
  (last_move : HanabiHistoryItem.t) (offset : Z) (encoding : vec)
  : result (vec * Z) :=
  let num_colors := NumColors game in
  let num_ranks := NumRanks game in
  let num_players := NumPlayers game in
  let hand_size := HandSize game in
  let move := HanabiHistoryItem.move last_move in
  let last_move_type := HanabiMove.MoveType move in
  (* player_id *)
  encoding <- store encoding (offset + HanabiHistoryItem.player last_move) 1%Q ;;
  let offset := offset + num_players in
  (* move type *)
  encoding <-
    match last_move_type with
    | HanabiMove.kPlay => store encoding offset 1%Q
    | HanabiMove.kDiscard => store encoding (offset + 1) 1%Q
    | HanabiMove.kRevealColor => store encoding (offset + 2) 1%Q
    | HanabiMove.kRevealRank => store encoding (offset + 3) 1%Q
    | _ => Fail Aborted
    end ;;
  let offset := offset + 4 in
  (* target player (if hint action) *)
  encoding <-
    (if HanabiMove.is_reveal last_move_type then
       r <- int_rem (HanabiHistoryItem.player last_move
                     + HanabiMove.TargetOffset move) num_players ;;
       let observer_relative_target := to_int8 r in
       store encoding (offset + observer_relative_target) 1%Q
     else Ok encoding) ;;
  let offset := offset + num_players in
  (* color (if hint action) *)
  encoding <-
    match last_move_type with
    | HanabiMove.kRevealColor =>
        store encoding (offset + HanabiMove.Color move) 1%Q
    | _ => Ok encoding
    end ;;
  let offset := offset + num_colors in
  (* rank (if hint action) *)
  encoding <-
    match last_move_type with
    | HanabiMove.kRevealRank =>
        store encoding (offset + HanabiMove.Rank move) 1%Q
    | _ => Ok encoding
    end ;;
  let offset := offset + num_ranks in
  (* outcome (if hinted action) *)
  encoding <-
    (if HanabiMove.is_reveal last_move_type then
       '(_, encoding) <-
         for_range hand_size
           (EncodeLastAction_outcome
              (HanabiHistoryItem.reveal_bitmask last_move) offset)
           (1, encoding) ;;
       Ok encoding
     else Ok encoding) ;;
  let offset := offset + hand_size in
  (* position (if play or discard action) *)
  encoding <-
    (if HanabiMove.is_play_or_discard last_move_type
     then store encoding (offset + HanabiMove.CardIndex move) 1%Q
     else Ok encoding) ;;
  let offset := offset + hand_size in
  (* card (if play or discard action) *)
  encoding <-
    (if HanabiMove.is_play_or_discard last_move_type then
       assert (HanabiHistoryItem.color last_move >=? 0) KnownCard ;;
       assert (HanabiHistoryItem.rank last_move >=? 0) KnownCard ;;
       store encoding
             (offset + CardIndex (HanabiHistoryItem.color last_move)
                                 (HanabiHistoryItem.rank last_move) num_ranks)
             1%Q
     else Ok encoding) ;;
  let offset := offset + BitsPerCard game in
  (* was successful and/or added information token (if play action) *)
  encoding <-
    match last_move_type with
    | HanabiMove.kPlay =>
        encoding <-
          (if HanabiHistoryItem.scored last_move
           then store encoding offset 1%Q else Ok encoding) ;;
        if HanabiHistoryItem.information_token last_move
        then store encoding (offset + 1) 1%Q else Ok encoding
    | _ => Ok encoding
    end ;;
  let offset := offset + 2 in
  Ok (encoding, offset).

Definition EncodeLastAction_ (game : HanabiGame.t) (obs : HanabiObservation.t)
  (start_offset : Z) (encoding : vec) : result (vec * Z) :=
  let offset := start_offset in
  '(encoding, offset) <-
    match GetLastNonDealMove (LastMoves obs) with
    | None => Ok (encoding, offset + LastActionSectionLength game)
    | Some last_move => EncodeLastAction_move game last_move offset encoding
    end ;;
  assert (offset - start_offset =? LastActionSectionLength game)
         SectionLength ;;
  Ok (encoding, offset - start_offset).

(** ** Card-knowledge section *)

Definition EncodeCardKnowledge_rank (num_ranks : Z)
  (card_knowledge : CardKnowledge.t) (offset color : Z)
  (encoding : vec) (rank : Z) : result vec :=
  if CardKnowledge.RankPlausible card_knowledge rank
  then store encoding (offset + CardIndex color rank num_ranks) 1%Q
  else Ok encoding.

Definition EncodeCardKnowledge_color (num_ranks : Z)
  (card_knowledge : CardKnowledge.t) (offset : Z)
  (encoding : vec) (color : Z) : result vec :=
  if CardKnowledge.ColorPlausible card_knowledge color
  then for_range num_ranks
         (EncodeCardKnowledge_rank num_ranks card_knowledge offset color)
         encoding
  else Ok encoding.

(** Body of the loop over one hand's knowledge: state is
    [(num_cards, offset, encoding)]. *)
Definition EncodeCardKnowledge_card (game : HanabiGame.t)
  (st : Z * Z * vec) (card_knowledge : CardKnowledge.t)
  : result (Z * Z * vec) :=
  let '(num_cards, offset, encoding) := st in
  (* Add bits for plausible card. *)
  encoding <-
    for_range (NumColors game)
      (EncodeCardKnowledge_color (NumRanks game) card_knowledge offset)
      encoding ;;
  let offset := offset + BitsPerCard game in
  (* Add bits for explicitly revealed colors and ranks. *)
  encoding <-
    (if CardKnowledge.ColorHinted card_knowledge
     then store encoding (offset + CardKnowledge.Color card_knowledge) 1%Q
     else Ok encoding) ;;
  let offset := offset + NumColors game in
  encoding <-
    (if CardKnowledge.RankHinted card_knowledge
     then store encoding (offset + CardKnowledge.Rank card_knowledge) 1%Q
     else Ok encoding) ;;
  let offset := offset + NumRanks game in
  Ok (num_cards + 1, offset, encoding).

(** Body of the loop over players: state is [(offset, encoding)]. *)
Definition EncodeCardKnowledge_player (game : HanabiGame.t)
  (hands : list HanabiHand.t) (st : Z * vec) (player : Z)
  : result (Z * vec) :=
  let '(offset, encoding) := st in
  hand <- load hands player ;;
  '(num_cards, offset, encoding) <-
    foldM (EncodeCardKnowledge_card game) (HanabiHand.Knowledge hand)
          (0, offset, encoding) ;;
  let offset :=
    if num_cards <? HandSize game
    then offset + (HandSize game - num_cards)
                  * (BitsPerCard game + NumColors game + NumRanks game)
    else offset in
  Ok (offset, encoding).

Definition EncodeCardKnowledge (game : HanabiGame.t)
  (obs : HanabiObservation.t) (start_offset : Z) (encoding : vec)
  : result (vec * Z) :=
  let num_players := NumPlayers game in
  let offset := start_offset in
  let hands := Hands obs in
  assert (size hands =? num_players) HandsSize ;;
  '(offset, encoding) <-
    for_range num_players (EncodeCardKnowledge_player game hands)
              (offset, encoding) ;;
  assert (offset - start_offset =? CardKnowledgeSectionLength game)
         SectionLength ;;
  Ok (encoding, offset - start_offset).

(** ** Card-count estimator *)

(** State of the loops of [ComputeCardCount]: [(card_count, total_count)]. *)
Definition ComputeCardCount_full (game : HanabiGame.t) (color : Z)
  (st : list Z * Z) (rank : Z) : result (list Z * Z) :=
  let '(card_count, total_count) := st in
  let count := NumberCardInstances game color rank in
  card_count <- store card_count (color * NumRanks game + rank) count ;;
  Ok (card_count, total_count + count).

Definition ComputeCardCount_full_color (game : HanabiGame.t)
  (st : list Z * Z) (color : Z) : result (list Z * Z) :=
  for_range (NumRanks game) (ComputeCardCount_full game color) st.

(** [--card_count[index]; --total_count;] *)
Definition ComputeCardCount_remove (st : list Z * Z) (index : Z)
  : result (list Z * Z) :=
  let '(card_count, total_count) := st in
  n <- load card_count index ;;
  card_count <- store card_count index (n - 1) ;;
  Ok (card_count, total_count - 1).

Definition ComputeCardCount_discard (num_ranks : Z) (st : list Z * Z)
  (card : HanabiCard.t) : result (list Z * Z) :=
  ComputeCardCount_remove st
    (HanabiCard.Color card * num_ranks + HanabiCard.Rank card).

Definition ComputeCardCount_firework (num_ranks : Z) (fireworks : list Z)
  (st : list Z * Z) (c : Z) : result (list Z * Z) :=
  fw <- load fireworks c ;;
  if fw >? 0 then
    for_range fw
      (fun st rank => ComputeCardCount_remove st (c * num_ranks + rank)) st
  else Ok st.

Definition total_hand_size (hands : list HanabiHand.t) : Z :=
  fold_left (fun acc hand => acc + size (HanabiHand.Cards hand)) hands 0.

Definition ComputeCardCount (game : HanabiGame.t) (obs : HanabiObservation.t)
  : result (list Z) :=
  let num_colors := NumColors game in
  let num_ranks := NumRanks game in
  card_count <- new_vector (num_colors * num_ranks) 0 ;;
  let total_count := 0 in
  (* full deck card count *)
  st <- for_range num_colors (ComputeCardCount_full_color game)
          (card_count, total_count) ;;
  (* remove discard *)
  st <- foldM (ComputeCardCount_discard num_ranks) (DiscardPile obs) st ;;
  (* remove fireworks on board *)
  '(card_count, total_count) <-
    for_range num_colors (ComputeCardCount_firework num_ranks (Fireworks obs))
              st ;;
  (* sanity check *)
  assert (total_count =? DeckSize obs + total_hand_size (Hands obs))
         SizeMismatch ;;
  Ok card_count.

(** ** Belief estimator V0 *)

Definition Qpositive (q : Q) : bool := negb (Qle_bool q 0).

(** First inner loop of a slot: scale by the card count and accumulate;
    state is [(total, encoding)]. *)
Definition EncodeV0Belief_scale (card_count : list Z)
  (start_offset len base : Z) (st : Q * vec) (i : Z) : result (Q * vec) :=
  let '(total, encoding) := st in
  let offset := base + i in
  assert (offset - start_offset <? len) OffsetInRange ;;
  x <- load encoding offset ;;
  c <- load card_count i ;;
  let y := (x * inject_Z c)%Q in
  encoding <- store encoding offset y ;;
  Ok ((total + y)%Q, encoding).

(** Second inner loop of a slot: divide by the total. *)
Definition EncodeV0Belief_divide (total : Q) (base : Z)
  (encoding : vec) (i : Z) : result vec :=
  let offset := base + i in
  x <- load encoding offset ;;
  store encoding offset (x / total)%Q.

(** One hand slot, whose block starts at [base]. *)
Definition EncodeV0Belief_slot (bits : Z) (card_count : list Z)
  (start_offset len base : Z) (encoding : vec) : result vec :=
  '(total, encoding) <-
    for_range bits (EncodeV0Belief_scale card_count start_offset len base)
              (0%Q, encoding) ;;
  assert (Qpositive total) TotalZero ;;
  for_range bits (EncodeV0Belief_divide total base) encoding.

Definition EncodeV0Belief_player (bits : Z) (card_count : list Z)
  (hands : list HanabiHand.t) (start_offset len : Z)
  (player_offset per_card_offset : Z) (encoding : vec) (player_id : Z)
  : result vec :=
  hand <- load hands player_id ;;
  let num_cards := size (HanabiHand.Cards hand) in
  for_range num_cards
    (fun encoding card_idx =>
       EncodeV0Belief_slot bits card_count start_offset len
         (start_offset + player_offset * player_id
          + card_idx * per_card_offset)
         encoding)
    encoding.

(** Returns the encoding, the length of the section and the card count
    (the optional out-parameter [ret_card_count]). *)
Definition EncodeV0Belief_ (game : HanabiGame.t) (obs : HanabiObservation.t)
  (start_offset : Z) (encoding : vec) : result (vec * Z * list Z) :=
  let num_colors := NumColors game in
  let num_ranks := NumRanks game in
  let num_players := NumPlayers game in
  let hand_size := HandSize game in
  card_count <- ComputeCardCount game obs ;;
  (* card knowledge *)
  '(encoding, len) <- EncodeCardKnowledge game obs start_offset encoding ;;
  player_offset <- int_div len num_players ;;
  q <- int_div len hand_size ;;
  per_card_offset <- int_div q num_players ;;
  assert (per_card_offset
          =? num_colors * num_ranks + num_colors + num_ranks) PerCardOffset ;;
  encoding <-
    for_range num_players
      (EncodeV0Belief_player (num_colors * num_ranks) card_count (Hands obs)
         start_offset len player_offset per_card_offset)
      encoding ;;
  Ok (encoding, len, card_count).

(** ** Belief estimator V1 *)

(** [std::max(p, (float)0.0)] *)
Definition fmax0 (p : Q) : Q := if Qle_bool 0 p then p else 0%Q.

Definition EncodeV1Belief_total_card (v1_belief : vec)
  (player_offset per_card_offset i player_id : Z)
  (total_cards : vec) (card_idx : Z) : result vec :=
  let offset := player_offset * player_id + card_idx * per_card_offset + i in
  assert (offset <? size v1_belief) OffsetInRange ;;
  x <- load v1_belief offset ;;
  t <- load total_cards i ;;
  store total_cards i (t - x)%Q.

Definition EncodeV1Belief_total_player (hands : list HanabiHand.t)
  (v1_belief : vec) (player_offset per_card_offset i : Z)
  (total_cards : vec) (player_id : Z) : result vec :=
  hand <- load hands player_id ;;
  for_range (size (HanabiHand.Cards hand))
    (EncodeV1Belief_total_card v1_belief player_offset per_card_offset i
       player_id)
    total_cards.

(** First phase of a step: total cards remaining, belief excluded. *)
Definition EncodeV1Belief_total (num_players : Z) (hands : list HanabiHand.t)
  (card_count : list Z) (v1_belief : vec) (player_offset per_card_offset : Z)
  (total_cards : vec) (i : Z) : result vec :=
  c <- load card_count i ;;
  total_cards <- store total_cards i (inject_Z c) ;;
  for_range num_players
    (EncodeV1Belief_total_player hands v1_belief player_offset
       per_card_offset i)
    total_cards.

Definition EncodeV1Belief_candidate (card_knowledge total_cards v1_belief : vec)
  (base_offset : Z) (new_v1_belief : vec) (i : Z) : result vec :=
  let offset := base_offset + i in
  assert (offset <? size v1_belief) OffsetInRange ;;
  t <- load total_cards i ;;
  x <- load v1_belief offset ;;
  let p := fmax0 (t + x)%Q in
  k <- load card_knowledge offset ;;
  store new_v1_belief offset (p * k)%Q.

(** Second phase of a step: the candidate belief of every slot. *)
Definition EncodeV1Belief_new_player (bits : Z) (hands : list HanabiHand.t)
  (card_knowledge total_cards v1_belief : vec)
  (player_offset per_card_offset : Z)
  (new_v1_belief : vec) (player_id : Z) : result vec :=
  hand <- load hands player_id ;;
  for_range (size (HanabiHand.Cards hand))
    (fun new_v1_belief card_idx =>
       let base_offset :=
         player_offset * player_id + card_idx * per_card_offset in
       for_range bits
         (EncodeV1Belief_candidate card_knowledge total_cards v1_belief
            base_offset)
         new_v1_belief)
    new_v1_belief.

Definition EncodeV1Belief_blend (weight : Q) (new_v1_belief : vec)
  (base_offset : Z) (st : Q * vec) (i : Z) : result (Q * vec) :=
  let '(total, v1_belief) := st in
  let offset := i + base_offset in
  x <- load v1_belief offset ;;
  n <- load new_v1_belief offset ;;
  let y := ((1 - weight) * x + weight * n)%Q in
  v1_belief <- store v1_belief offset y ;;
  Ok ((total + y)%Q, v1_belief).

Definition EncodeV1Belief_divide (total : Q) (base_offset : Z)
  (v1_belief : vec) (i : Z) : result vec :=
  let offset := i + base_offset in
  x <- load v1_belief offset ;;
  store v1_belief offset (x / total)%Q.

(** One slot: interpolate and total, check the total, normalize.  With
    exact rationals a grid that sums to 1 has, for weight 0, a total of
    exactly 1 and is left as it was; with [float]s the total is 1 up to
    rounding only (see [Binary32.EncodeV1Belief_slot]). *)
Definition EncodeV1Belief_slot (bits : Z) (weight : Q) (new_v1_belief : vec)
  (base_offset : Z) (v1_belief : vec) : result vec :=
  '(total, v1_belief) <-
    for_range bits (EncodeV1Belief_blend weight new_v1_belief base_offset)
              (0%Q, v1_belief) ;;
  assert (Qpositive total) TotalZero ;;
  for_range bits (EncodeV1Belief_divide total base_offset) v1_belief.

(** Third phase of a step: interpolate and normalize. *)
Definition EncodeV1Belief_blend_player (bits : Z) (weight : Q)
  (hands : list HanabiHand.t) (new_v1_belief : vec)
  (player_offset per_card_offset : Z)
  (v1_belief : vec) (player_id : Z) : result vec :=
  hand <- load hands player_id ;;
  for_range (size (HanabiHand.Cards hand))
    (fun v1_belief card_idx =>
       EncodeV1Belief_slot bits weight new_v1_belief
         (player_offset * player_id + card_idx * per_card_offset) v1_belief)
    v1_belief.

(** One turn of the loop over [step]: state is
    [(total_cards, new_v1_belief, v1_belief)]. *)
Definition EncodeV1Belief_step (game : HanabiGame.t)
  (obs : HanabiObservation.t) (weight : Q)
  (card_knowledge : vec) (card_count : list Z)
  (player_offset per_card_offset : Z)
  (st : vec * vec * vec) (step : Z) : result (vec * vec * vec) :=
  let '(total_cards, new_v1_belief, v1_belief) := st in
  let bits := NumColors game * NumRanks game in
  let num_players := NumPlayers game in
  let hands := Hands obs in
  total_cards <-
    for_range bits
      (EncodeV1Belief_total num_players hands card_count v1_belief
         player_offset per_card_offset)
      total_cards ;;
  new_v1_belief <-
    for_range num_players
      (EncodeV1Belief_new_player bits hands card_knowledge total_cards
         v1_belief player_offset per_card_offset)
      new_v1_belief ;;
  v1_belief <-
    for_range num_players
      (EncodeV1Belief_blend_player bits weight hands new_v1_belief
         player_offset per_card_offset)
      v1_belief ;;
  Ok (total_cards, new_v1_belief, v1_belief).

(** Final loop: copy [v1_belief] into the encoding. *)
Definition EncodeV1Belief_copy (v1_belief : vec) (start_offset : Z)
  (encoding : vec) (i : Z) : result vec :=
  x <- load v1_belief i ;;
  store encoding (i + start_offset) x.

(** The function body, with its two local constants [num_iters] and
    [weight] as parameters. *)
Definition EncodeV1Belief_run (num_iters : Z) (weight : Q)
  (game : HanabiGame.t) (obs : HanabiObservation.t)
  (start_offset : Z) (encoding : vec) : result (vec * Z) :=
  let num_colors := NumColors game in
  let num_ranks := NumRanks game in
  let num_players := NumPlayers game in
  let hand_size := HandSize game in
  card_knowledge <- new_vector (CardKnowledgeSectionLength game) 0%Q ;;
  '(card_knowledge, len) <- EncodeCardKnowledge game obs 0 card_knowledge ;;
  assert (len =? size card_knowledge) EncodingSize ;;
  let v0_belief := card_knowledge in
  '(v0_belief, len, card_count) <- EncodeV0Belief_ game obs 0 v0_belief ;;
  assert (len =? size card_knowledge) EncodingSize ;;
  player_offset <- int_div len num_players ;;
  q <- int_div len hand_size ;;
  per_card_offset <- int_div q num_players ;;
  assert (per_card_offset
          =? num_colors * num_ranks + num_colors + num_ranks) PerCardOffset ;;
  let v1_belief := v0_belief in
  let new_v1_belief := v1_belief in
  let total_cards := repeat 0%Q (length card_count) in
  assert (size total_cards =? num_colors * num_ranks) CountSize ;;
  '(_, _, v1_belief) <-
    for_range num_iters
      (EncodeV1Belief_step game obs weight card_knowledge card_count
         player_offset per_card_offset)
      (total_cards, new_v1_belief, v1_belief) ;;
  encoding <-
    for_range (size v1_belief) (EncodeV1Belief_copy v1_belief start_offset)
              encoding ;;
  Ok (encoding, size v1_belief).

Definition V1_num_iters : Z := 100.
Definition V1_weight : Q := 1 # 10.

Definition EncodeV1Belief_ : HanabiGame.t -> HanabiObservation.t ->
                             Z -> vec -> result (vec * Z) :=
  EncodeV1Belief_run V1_num_iters V1_weight.

(** ** Public accessors *)

Definition EncodeLastAction (game : HanabiGame.t) (obs : HanabiObservation.t)
  : result vec :=
  encoding <- new_vector (LastActionSectionLength game) 0%Q ;;
  let offset := 0 in
  '(encoding, n) <- EncodeLastAction_ game obs offset encoding ;;
  let offset := offset + n in
  assert (offset =? size encoding) EncodingSize ;;
  Ok encoding.

Definition ExtractBelief_entry (encoding : vec)
  (bits_per_card encoding_sector_len slot : Z) (belief : vec) (k : Z)
  : result vec :=
  let belief_offset := slot * bits_per_card + k in
  let encoding_offset := slot * encoding_sector_len + k in
  x <- load encoding encoding_offset ;;
  store belief belief_offset x.

Definition ExtractBelief (encoding : vec) (game : HanabiGame.t)
  : result vec :=
  let bits_per_card := BitsPerCard game in
  let num_players := NumPlayers game in
  let hand_size := HandSize game in
  let encoding_sector_len := bits_per_card + NumColors game + NumRanks game in
  assert (encoding_sector_len * hand_size * num_players =? size encoding)
         EncodingSize ;;
  belief <- new_vector (num_players * hand_size * bits_per_card) 0%Q ;;
  for_range num_players
    (fun belief i =>
       for_range hand_size
         (fun belief j =>
            for_range bits_per_card
              (ExtractBelief_entry encoding bits_per_card encoding_sector_len
                 (i * hand_size + j))
              belief)
         belief)
    belief.

Definition EncodeV0Belief (game : HanabiGame.t) (obs : HanabiObservation.t)
  : result vec :=
  encoding <- new_vector (CardKnowledgeSectionLength game) 0%Q ;;
  '(encoding, len, _) <- EncodeV0Belief_ game obs 0 encoding ;;
  assert (len =? size encoding) EncodingSize ;;
  ExtractBelief encoding game.

(** The accessor with the two constants of [EncodeV1Belief_] exposed. *)
Definition EncodeV1Belief_with (num_iters : Z) (weight : Q)
  (game : HanabiGame.t) (obs : HanabiObservation.t) : result vec :=
  encoding <- new_vector (CardKnowledgeSectionLength game) 0%Q ;;
  '(encoding, len) <- EncodeV1Belief_run num_iters weight game obs 0 encoding ;;
  assert (len =? size encoding) EncodingSize ;;
  ExtractBelief encoding game.

Definition EncodeV1Belief : HanabiGame.t -> HanabiObservation.t -> result vec :=
  EncodeV1Belief_with V1_num_iters V1_weight.

Definition EncodeHandMask (game : HanabiGame.t) (obs : HanabiObservation.t)
  : result vec :=
  encoding <- new_vector (CardKnowledgeSectionLength game) 0%Q ;;
  '(encoding, _) <- EncodeCardKnowledge game obs 0 encoding ;;
  ExtractBelief encoding game.

Definition EncodeCardCount (game : HanabiGame.t) (obs : HanabiObservation.t)
  : result vec :=
  cc <- ComputeCardCount game obs ;;
  Ok (map inject_Z cc).

Definition EncodeOwnHand (game : HanabiGame.t) (obs : HanabiObservation.t)
  : result vec :=
  (* hard code 5 cards, empty slot will be all zero *)
  let len := 5 * 3 in
  encoding <- new_vector len 0%Q ;;
  '(encoding, offset) <- EncodeOwnHand_ game obs 0 encoding ;;
  assert (offset <=? len) EncodingSize ;;
  Ok encoding.

(** ** Top-level encoder *)

(** The four sections written before the card-knowledge section; returns
    the encoding and the offset reached. *)
Definition Encode_sections (game : HanabiGame.t) (obs : HanabiObservation.t)
  (show_own_cards : bool) (encoding : vec) : result (vec * Z) :=
  let offset := 0 in
  '(encoding, n) <- EncodeHands game obs offset encoding show_own_cards ;;
  let offset := offset + n in
  '(encoding, n) <- EncodeBoard game obs offset encoding ;;
  let offset := offset + n in
  '(encoding, n) <- EncodeDiscards game obs offset encoding ;;
  let offset := offset + n in
  '(encoding, n) <- EncodeLastAction_ game obs offset encoding ;;
  let offset := offset + n in
  Ok (encoding, offset).

Definition Encode (game : HanabiGame.t) (obs : HanabiObservation.t)
  (show_own_cards : bool) : result vec :=
  (* Make an empty bit string of the proper size. *)
  encoding <- new_vector (FlatLength (Shape game)) 0%Q ;;
  '(encoding, offset) <- Encode_sections game obs show_own_cards encoding ;;
  '(encoding, offset) <-
    (if negb (is_minimal (ObservationType game)) then
       '(encoding, n, _) <- EncodeV0Belief_ game obs offset encoding ;;
       Ok (encoding, offset + n)
     else Ok (encoding, offset)) ;;
  assert (offset =? size encoding) EncodingSize ;;
  Ok encoding.

(** * The belief estimators in binary32 arithmetic

    The belief estimators are the only part of the encoder that computes
    with [float]s (every other section stores the value 1 only).  This
    module embeds them once more, statement by statement as above, with a
    [float] as an IEEE 754 binary32 number: 24 bits of precision, the
    exponent of the infinities 128, every operation rounded to the nearest
    number, ties to even.  The integers (offsets, card counts) and the
    assertions are as above. *)

Module Binary32.

Notation "'fvec'" := (list SpecFloat.spec_float) (only parsing).

Definition prec : Z := 24.
Definition emax : Z := 128.

(** [0.0f] *)
Definition zero : SpecFloat.spec_float := SpecFloat.S754_zero false.

(** An [int] converted to [float]. *)
Definition of_int (z : Z) : SpecFloat.spec_float :=
  SpecFloat.binary_normalize prec emax z 0 false.

(** [1.0f] *)
Definition one : SpecFloat.spec_float := of_int 1.

Definition add : SpecFloat.spec_float -> SpecFloat.spec_float
                 -> SpecFloat.spec_float := SpecFloat.SFadd prec emax.
Definition sub : SpecFloat.spec_float -> SpecFloat.spec_float
                 -> SpecFloat.spec_float := SpecFloat.SFsub prec emax.
Definition mul : SpecFloat.spec_float -> SpecFloat.spec_float
                 -> SpecFloat.spec_float := SpecFloat.SFmul prec emax.
Definition div : SpecFloat.spec_float -> SpecFloat.spec_float
                 -> SpecFloat.spec_float := SpecFloat.SFdiv prec emax.

(** Not [total <= 0] (true of a NaN, as in C++). *)
Definition Fpositive (total : SpecFloat.spec_float) : bool :=
  negb (SpecFloat.SFleb total zero).

(** Reading an entry in statements about a buffer. *)
Definition get (v : fvec) (i : Z) : SpecFloat.spec_float :=
  nth (Z.to_nat i) v zero.

(** ** Card-knowledge section *)

Definition EncodeCardKnowledge_rank (num_ranks : Z)
  (card_knowledge : CardKnowledge.t) (offset color : Z)
  (encoding : fvec) (rank : Z) : result fvec :=
  if CardKnowledge.RankPlausible card_knowledge rank
  then store encoding (offset + CardIndex color rank num_ranks) one
  else Ok encoding.

Definition EncodeCardKnowledge_color (num_ranks : Z)
  (card_knowledge : CardKnowledge.t) (offset : Z)
  (encoding : fvec) (color : Z) : result fvec :=
  if CardKnowledge.ColorPlausible card_knowledge color
  then for_range num_ranks
         (EncodeCardKnowledge_rank num_ranks card_knowledge offset color)
         encoding
  else Ok encoding.

(** Body of the loop over one hand's knowledge: state is
    [(num_cards, offset, encoding)]. *)
Definition EncodeCardKnowledge_card (game : HanabiGame.t)
  (st : Z * Z * fvec) (card_knowledge : CardKnowledge.t)
  : result (Z * Z * fvec) :=
  let '(num_cards, offset, encoding) := st in
  (* Add bits for plausible card. *)
  encoding <-
    for_range (NumColors game)
      (EncodeCardKnowledge_color (NumRanks game) card_knowledge offset)
      encoding ;;
  let offset := offset + BitsPerCard game in
  (* Add bits for explicitly revealed colors and ranks. *)
  encoding <-
    (if CardKnowledge.ColorHinted card_knowledge
     then store encoding (offset + CardKnowledge.Color card_knowledge) one
     else Ok encoding) ;;
  let offset := offset + NumColors game in
  encoding <-
    (if CardKnowledge.RankHinted card_knowledge
     then store encoding (offset + CardKnowledge.Rank card_knowledge) one
     else Ok encoding) ;;
  let offset := offset + NumRanks game in
  Ok (num_cards + 1, offset, encoding).

(** Body of the loop over players: state is [(offset, encoding)]. *)
Definition EncodeCardKnowledge_player (game : HanabiGame.t)
  (hands : list HanabiHand.t) (st : Z * fvec) (player : Z)
  : result (Z * fvec) :=
  let '(offset, encoding) := st in
  hand <- load hands player ;;
  '(num_cards, offset, encoding) <-
    foldM (EncodeCardKnowledge_card game) (HanabiHand.Knowledge hand)
          (0, offset, encoding) ;;
  let offset :=
    if num_cards <? HandSize game
    then offset + (HandSize game - num_cards)
                  * (BitsPerCard game + NumColors game + NumRanks game)
    else offset in
  Ok (offset, encoding).

Definition EncodeCardKnowledge (game : HanabiGame.t)
  (obs : HanabiObservation.t) (start_offset : Z) (encoding : fvec)
  : result (fvec * Z) :=
  let num_players := NumPlayers game in
  let offset := start_offset in
  let hands := Hands obs in
  assert (size hands =? num_players) HandsSize ;;
  '(offset, encoding) <-
    for_range num_players (EncodeCardKnowledge_player game hands)
              (offset, encoding) ;;
  assert (offset - start_offset =? CardKnowledgeSectionLength game)
         SectionLength ;;
  Ok (encoding, offset - start_offset).

(** ** Belief estimator V0 *)

(** First inner loop of a slot:
    [encoding[offset] *= card_count[i]; total += encoding[offset];]
    the count is converted to [float] for the product; state is
    [(total, encoding)]. *)
Definition EncodeV0Belief_scale (card_count : list Z)
  (start_offset len base : Z) (st : SpecFloat.spec_float * fvec) (i : Z)
  : result (SpecFloat.spec_float * fvec) :=
  let '(total, encoding) := st in
  let offset := base + i in
  assert (offset - start_offset <? len) OffsetInRange ;;
  x <- load encoding offset ;;
  c <- load card_count i ;;
  let y := mul x (of_int c) in
  encoding <- store encoding offset y ;;
  Ok (add total y, encoding).

(** Second inner loop of a slot: [encoding[offset] /= total;] *)
Definition EncodeV0Belief_divide (total : SpecFloat.spec_float) (base : Z)
  (encoding : fvec) (i : Z) : result fvec :=
  let offset := base + i in
  x <- load encoding offset ;;
  store encoding offset (div x total).

(** One hand slot, whose block starts at [base]. *)
Definition EncodeV0Belief_slot (bits : Z) (card_count : list Z)
  (start_offset len base : Z) (encoding : fvec) : result fvec :=
  '(total, encoding) <-
    for_range bits (EncodeV0Belief_scale card_count start_offset len base)
              (zero, encoding) ;;
  assert (Fpositive total) TotalZero ;;
  for_range bits (EncodeV0Belief_divide total base) encoding.

Definition EncodeV0Belief_player (bits : Z) (card_count : list Z)
  (hands : list HanabiHand.t) (start_offset len : Z)
  (player_offset per_card_offset : Z) (encoding : fvec) (player_id : Z)
  : result fvec :=
  hand <- load hands player_id ;;
  let num_cards := size (HanabiHand.Cards hand) in
  for_range num_cards
    (fun encoding card_idx =>
       EncodeV0Belief_slot bits card_count start_offset len
         (start_offset + player_offset * player_id
          + card_idx * per_card_offset)
         encoding)
    encoding.

(** Returns the encoding, the length of the section and the card count
    (the optional out-parameter [ret_card_count]). *)
Definition EncodeV0Belief_ (game : HanabiGame.t) (obs : HanabiObservation.t)
  (start_offset : Z) (encoding : fvec) : result (fvec * Z * list Z) :=
  let num_colors := NumColors game in
  let num_ranks := NumRanks game in
  let num_players := NumPlayers game in
  let hand_size := HandSize game in
  card_count <- ComputeCardCount game obs ;;
  (* card knowledge *)
  '(encoding, len) <- EncodeCardKnowledge game obs start_offset encoding ;;
  player_offset <- int_div len num_players ;;
  q <- int_div len hand_size ;;
  per_card_offset <- int_div q num_players ;;
  assert (per_card_offset
          =? num_colors * num_ranks + num_colors + num_ranks) PerCardOffset ;;
  encoding <-
    for_range num_players
      (EncodeV0Belief_player (num_colors * num_ranks) card_count (Hands obs)
         start_offset len player_offset per_card_offset)
      encoding ;;
  Ok (encoding, len, card_count).

(** ** Belief estimator V1 *)

(** [std::max(p, (float)0.0)]: the second argument when the first is less
    than it, the first otherwise. *)
Definition fmax0 (p : SpecFloat.spec_float) : SpecFloat.spec_float :=
  if SpecFloat.SFltb p zero then zero else p.

Definition EncodeV1Belief_total_card (v1_belief : fvec)
  (player_offset per_card_offset i player_id : Z)
  (total_cards : fvec) (card_idx : Z) : result fvec :=
  let offset := player_offset * player_id + card_idx * per_card_offset + i in
  assert (offset <? size v1_belief) OffsetInRange ;;
  x <- load v1_belief offset ;;
  t <- load total_cards i ;;
  store total_cards i (sub t x).

Definition EncodeV1Belief_total_player (hands : list HanabiHand.t)
  (v1_belief : fvec) (player_offset per_card_offset i : Z)
  (total_cards : fvec) (player_id : Z) : result fvec :=
  hand <- load hands player_id ;;
  for_range (size (HanabiHand.Cards hand))
    (EncodeV1Belief_total_card v1_belief player_offset per_card_offset i
       player_id)
    total_cards.

(** First phase of a step: total cards remaining, belief excluded. *)
Definition EncodeV1Belief_total (num_players : Z) (hands : list HanabiHand.t)
  (card_count : list Z) (v1_belief : fvec) (player_offset per_card_offset : Z)
  (total_cards : fvec) (i : Z) : result fvec :=
  c <- load card_count i ;;
  total_cards <- store total_cards i (of_int c) ;;
  for_range num_players
    (EncodeV1Belief_total_player hands v1_belief player_offset
       per_card_offset i)
    total_cards.

Definition EncodeV1Belief_candidate
  (card_knowledge total_cards v1_belief : fvec)
  (base_offset : Z) (new_v1_belief : fvec) (i : Z) : result fvec :=
  let offset := base_offset + i in
  assert (offset <? size v1_belief) OffsetInRange ;;
  t <- load total_cards i ;;
  x <- load v1_belief offset ;;
  let p := fmax0 (add t x) in
  k <- load card_knowledge offset ;;
  store new_v1_belief offset (mul p k).

(** Second phase of a step: the candidate belief of every slot. *)
Definition EncodeV1Belief_new_player (bits : Z) (hands : list HanabiHand.t)
  (card_knowledge total_cards v1_belief : fvec)
  (player_offset per_card_offset : Z)
  (new_v1_belief : fvec) (player_id : Z) : result fvec :=
  hand <- load hands player_id ;;
  for_range (size (HanabiHand.Cards hand))
    (fun new_v1_belief card_idx =>
       let base_offset :=
         player_offset * player_id + card_idx * per_card_offset in
       for_range bits
         (EncodeV1Belief_candidate card_knowledge total_cards v1_belief
            base_offset)
         new_v1_belief)
    new_v1_belief.

(** [v1_belief[offset] = (1 - weight) * v1_belief[offset]
                        + weight * new_v1_belief[offset];
     total += v1_belief[offset];] with the [int] 1 converted to [float]. *)
Definition EncodeV1Belief_blend (weight : SpecFloat.spec_float)
  (new_v1_belief : fvec) (base_offset : Z)
  (st : SpecFloat.spec_float * fvec) (i : Z)
  : result (SpecFloat.spec_float * fvec) :=
  let '(total, v1_belief) := st in
  let offset := i + base_offset in
  x <- load v1_belief offset ;;
  n <- load new_v1_belief offset ;;
  let y := add (mul (sub (of_int 1) weight) x) (mul weight n) in
  v1_belief <- store v1_belief offset y ;;
  Ok (add total y, v1_belief).

(** [v1_belief[offset] /= total;] *)
Definition EncodeV1Belief_divide (total : SpecFloat.spec_float)
  (base_offset : Z) (v1_belief : fvec) (i : Z) : result fvec :=
  let offset := i + base_offset in
  x <- load v1_belief offset ;;
  store v1_belief offset (div x total).

Definition EncodeV1Belief_slot (bits : Z) (weight : SpecFloat.spec_float)
  (new_v1_belief : fvec) (base_offset : Z) (v1_belief : fvec)
  : result fvec :=
  '(total, v1_belief) <-
    for_range bits (EncodeV1Belief_blend weight new_v1_belief base_offset)
              (zero, v1_belief) ;;
  assert (Fpositive total) TotalZero ;;
  for_range bits (EncodeV1Belief_divide total base_offset) v1_belief.

(** Third phase of a step: interpolate and normalize. *)
Definition EncodeV1Belief_blend_player (bits : Z)
  (weight : SpecFloat.spec_float)
  (hands : list HanabiHand.t) (new_v1_belief : fvec)
  (player_offset per_card_offset : Z)
  (v1_belief : fvec) (player_id : Z) : result fvec :=
  hand <- load hands player_id ;;
  for_range (size (HanabiHand.Cards hand))
    (fun v1_belief card_idx =>
       EncodeV1Belief_slot bits weight new_v1_belief
         (player_offset * player_id + card_idx * per_card_offset) v1_belief)
    v1_belief.

(** One turn of the loop over [step]: state is
    [(total_cards, new_v1_belief, v1_belief)]. *)
Definition EncodeV1Belief_step (game : HanabiGame.t)
  (obs : HanabiObservation.t) (weight : SpecFloat.spec_float)
  (card_knowledge : fvec) (card_count : list Z)
  (player_offset per_card_offset : Z)
  (st : fvec * fvec * fvec) (step : Z) : result (fvec * fvec * fvec) :=
  let '(total_cards, new_v1_belief, v1_belief) := st in
  let bits := NumColors game * NumRanks game in
  let num_players := NumPlayers game in
  let hands := Hands obs in
  total_cards <-
    for_range bits
      (EncodeV1Belief_total num_players hands card_count v1_belief
         player_offset per_card_offset)
      total_cards ;;
  new_v1_belief <-
    for_range num_players
      (EncodeV1Belief_new_player bits hands card_knowledge total_cards
         v1_belief player_offset per_card_offset)
      new_v1_belief ;;
  v1_belief <-
    for_range num_players
      (EncodeV1Belief_blend_player bits weight hands new_v1_belief
         player_offset per_card_offset)
      v1_belief ;;
  Ok (total_cards, new_v1_belief, v1_belief).

(** Final loop: copy [v1_belief] into the encoding. *)
Definition EncodeV1Belief_copy (v1_belief : fvec) (start_offset : Z)
  (encoding : fvec) (i : Z) : result fvec :=
  x <- load v1_belief i ;;
  store encoding (i + start_offset) x.

(** The function body, with its two local constants [num_iters] and
    [weight] as parameters. *)
Definition EncodeV1Belief_run (num_iters : Z) (weight : SpecFloat.spec_float)
  (game : HanabiGame.t) (obs : HanabiObservation.t)
  (start_offset : Z) (encoding : fvec) : result (fvec * Z) :=
  let num_colors := NumColors game in
  let num_ranks := NumRanks game in
  let num_players := NumPlayers game in
  let hand_size := HandSize game in
  card_knowledge <- new_vector (CardKnowledgeSectionLength game) zero ;;
  '(card_knowledge, len) <- EncodeCardKnowledge game obs 0 card_knowledge ;;
  assert (len =? size card_knowledge) EncodingSize ;;
  let v0_belief := card_knowledge in
  '(v0_belief, len, card_count) <- EncodeV0Belief_ game obs 0 v0_belief ;;
  assert (len =? size card_knowledge) EncodingSize ;;
  player_offset <- int_div len num_players ;;
  q <- int_div len hand_size ;;
  per_card_offset <- int_div q num_players ;;
  assert (per_card_offset
          =? num_colors * num_ranks + num_colors + num_ranks) PerCardOffset ;;
  let v1_belief := v0_belief in
  let new_v1_belief := v1_belief in
  let total_cards := repeat zero (length card_count) in
  assert (size total_cards =? num_colors * num_ranks) CountSize ;;
  '(_, _, v1_belief) <-
    for_range num_iters
      (EncodeV1Belief_step game obs weight card_knowledge card_count
         player_offset per_card_offset)
      (total_cards, new_v1_belief, v1_belief) ;;
  encoding <-
    for_range (size v1_belief) (EncodeV1Belief_copy v1_belief start_offset)
              encoding ;;
  Ok (encoding, size v1_belief).

(** ** Public accessors *)

Definition ExtractBelief_entry (encoding : fvec)
  (bits_per_card encoding_sector_len slot : Z) (belief : fvec) (k : Z)
  : result fvec :=
  let belief_offset := slot * bits_per_card + k in
  let encoding_offset := slot * encoding_sector_len + k in
  x <- load encoding encoding_offset ;;
  store belief belief_offset x.

Definition ExtractBelief (encoding : fvec) (game : HanabiGame.t)
  : result fvec :=
  let bits_per_card := BitsPerCard game in
  let num_players := NumPlayers game in
  let hand_size := HandSize game in
  let encoding_sector_len := bits_per_card + NumColors game + NumRanks game in
  assert (encoding_sector_len * hand_size * num_players =? size encoding)
         EncodingSize ;;
  belief <- new_vector (num_players * hand_size * bits_per_card) zero ;;
  for_range num_players
    (fun belief i =>
       for_range hand_size
         (fun belief j =>
            for_range bits_per_card
              (ExtractBelief_entry encoding bits_per_card encoding_sector_len
                 (i * hand_size + j))
              belief)
         belief)
    belief.

Definition EncodeV0Belief (game : HanabiGame.t) (obs : HanabiObservation.t)
  : result fvec :=
  encoding <- new_vector (CardKnowledgeSectionLength game) zero ;;
  '(encoding, len, _) <- EncodeV0Belief_ game obs 0 encoding ;;
  assert (len =? size encoding) EncodingSize ;;
  ExtractBelief encoding game.

(** The accessor with the two constants of [EncodeV1Belief_] exposed. *)
Definition EncodeV1Belief_with (num_iters : Z)
  (weight : SpecFloat.spec_float)
  (game : HanabiGame.t) (obs : HanabiObservation.t) : result fvec :=
  encoding <- new_vector (CardKnowledgeSectionLength game) zero ;;
  '(encoding, len) <- EncodeV1Belief_run num_iters weight game obs 0 encoding ;;
  assert (len =? size encoding) EncodingSize ;;
  ExtractBelief encoding game.

End Binary32.

(** * Vocabulary of the statements *)

(** ** Buffers that only receive ones

    The four bit sections and the card-knowledge section never read the
    buffer and only store the value 1.  [writes W enc enc'] says that [enc']
    is [enc] with exactly the entries at the indices in [W] set to 1. *)

Definition writes (W : Z -> Prop) (enc enc' : vec) : Prop :=
  size enc' = size enc /\
  (forall j, W j -> 0 <= j < size enc) /\
  (forall j, 0 <= j ->
             (W j /\ get enc' j = 1%Q) \/ (~ W j /\ get enc' j = get enc j)).

(** A buffer that started from zeros holds only zeros and ones. *)
Definition is_bit (q : Q) : Prop := q = 0%Q \/ q = 1%Q.

Definition bits_only (enc : vec) : Prop := forall j, 0 <= j -> is_bit (get enc j).


(** A field of [width] entries starting at [off] that is one-hot at [k],
    resp. all zero. *)
Definition one_hot (enc : vec) (off width k : Z) : Prop :=
  forall i, 0 <= i < width ->
            get enc (off + i) = if i =? k then 1%Q else 0%Q.

Definition all_zero (enc : vec) (off width : Z) : Prop :=
  forall i, 0 <= i < width -> get enc (off + i) = 0%Q.

(** ** The section lengths as the specification words them *)

Module LayoutSpec.
Definition Hands (game : HanabiGame.t) : Z :=
  NumPlayers game * HandSize game * (NumColors game * NumRanks game)
  + NumPlayers game.

Definition Board (game : HanabiGame.t) : Z :=
  (MaxDeckSize game - NumPlayers game * HandSize game)
  + NumColors game * NumRanks game
  + MaxInformationTokens game + MaxLifeTokens game.

Definition Discards (game : HanabiGame.t) : Z := MaxDeckSize game.

Definition LastAction (game : HanabiGame.t) : Z :=
  NumPlayers game + 4 + NumPlayers game + NumColors game + NumRanks game
  + HandSize game + HandSize game + NumColors game * NumRanks game + 2.

Definition CardKnowledge (game : HanabiGame.t) : Z :=
  NumPlayers game * HandSize game
  * (NumColors game * NumRanks game + NumColors game + NumRanks game).

Definition Total (game : HanabiGame.t) : Z :=
  Hands game + Board game + Discards game + LastAction game
  + match ObservationType game with
    | kMinimal => 0
    | _ => CardKnowledge game
    end.
End LayoutSpec.

(** ** Fields of the last-action section, as offsets from its start *)

Module LastActionField.
Definition acting_player (game : HanabiGame.t) : Z := 0.
Definition move_type (game : HanabiGame.t) : Z := NumPlayers game.
Definition target_player (game : HanabiGame.t) : Z := NumPlayers game + 4.
Definition color (game : HanabiGame.t) : Z :=
  NumPlayers game + 4 + NumPlayers game.
Definition rank (game : HanabiGame.t) : Z := color game + NumColors game.
Definition outcome (game : HanabiGame.t) : Z := rank game + NumRanks game.
Definition position (game : HanabiGame.t) : Z := outcome game + HandSize game.
Definition card (game : HanabiGame.t) : Z := position game + HandSize game.
Definition play (game : HanabiGame.t) : Z := card game + BitsPerCard game.
End LastActionField.

(** The history holds no move other than deals. *)
Definition only_deals (obs : HanabiObservation.t) : Prop :=
  forall item, In item (LastMoves obs) ->
    HanabiMove.MoveType (HanabiHistoryItem.move item) = HanabiMove.kDeal.

(** Scenario C: the most recent non-deal move is a color hint given by
    the player at relative position 0 to the player at relative position 1,
    revealing color 2 and touching hand slots 0 and 3. *)
Definition color_hint_scenario (game : HanabiGame.t)
  (obs : HanabiObservation.t) : Prop :=
  exists item,
    GetLastNonDealMove (LastMoves obs) = Some item /\
    HanabiMove.MoveType (HanabiHistoryItem.move item)
      = HanabiMove.kRevealColor /\
    HanabiHistoryItem.player item = 0 /\
    HanabiMove.TargetOffset (HanabiHistoryItem.move item) = 1 /\
    HanabiMove.Color (HanabiHistoryItem.move item) = 2 /\
    (forall i, 0 <= i < HandSize game ->
       Z.testbit (HanabiHistoryItem.reveal_bitmask item) i
       = (i =? 0) || (i =? 3)).

(** What the encoder produces in scenario C; [type_bit] is the index, among
    the four move-type entries, of the entry that is set. *)
Definition color_hint_encoding (type_bit : Z) (game : HanabiGame.t)
  (enc : vec) : Prop :=
  size enc = LastActionSectionLength game /\
  one_hot enc (LastActionField.acting_player game) (NumPlayers game) 0 /\
  one_hot enc (LastActionField.move_type game) 4 type_bit /\
  one_hot enc (LastActionField.target_player game) (NumPlayers game) 1 /\
  one_hot enc (LastActionField.color game) (NumColors game) 2 /\
  all_zero enc (LastActionField.rank game) (NumRanks game) /\
  (forall i, 0 <= i < HandSize game ->
     get enc (LastActionField.outcome game + i)
     = if (i =? 0) || (i =? 3) then 1%Q else 0%Q) /\
  all_zero enc (LastActionField.position game)
           (HandSize game + BitsPerCard game + 2).

(** ** Concrete games and observations *)

(** The standard deck: 3, 2, 2, 2, 1 copies by ascending rank. *)
Definition standard_instances (c r : Z) : Z :=
  if r =? 0 then 3 else if r =? 4 then 1 else 2.

(** Scenario A: 5 colors, 5 ranks, 2 players, hands of 5. *)
Definition standard_game : HanabiGame.t :=
  HanabiGame.mk 5 5 2 5 50 8 3 standard_instances kCardKnowledge.

Definition no_knowledge : CardKnowledge.t :=
  CardKnowledge.mk (fun _ => true) (fun _ => true) false (-1) false (-1).

Definition hidden_card : HanabiCard.t := HanabiCard.mk (-1) (-1) false.

Definition fresh_own_hand : HanabiHand.t :=
  HanabiHand.mk (repeat hidden_card 5) (repeat no_knowledge 5).

Definition fresh_partner_hand : HanabiHand.t :=
  HanabiHand.mk
    [HanabiCard.mk 0 0 true; HanabiCard.mk 1 1 true; HanabiCard.mk 2 2 true;
     HanabiCard.mk 3 3 true; HanabiCard.mk 4 4 true]
    (repeat no_knowledge 5).

Definition deal_item : HanabiHistoryItem.t :=
  HanabiHistoryItem.mk (HanabiMove.mk HanabiMove.kDeal (-1) (-1) 0 0)
                       (-1) false false (-1) (-1) 0.

Definition fresh_observation : HanabiObservation.t :=
  HanabiObservation.mk [fresh_own_hand; fresh_partner_hand] []
                       [0; 0; 0; 0; 0] 40 8 3 [deal_item; deal_item].

Definition color_hint_item : HanabiHistoryItem.t :=
  HanabiHistoryItem.mk (HanabiMove.mk HanabiMove.kRevealColor (-1) 1 2 (-1))
                       0 false false (-1) (-1) 9.

Definition color_hint_observation : HanabiObservation.t :=
  HanabiObservation.mk [fresh_own_hand; fresh_partner_hand] []
                       [0; 0; 0; 0; 0] 40 7 3
                       [deal_item; color_hint_item; deal_item].

(** ** Own-hand summary *)

(** Where a card stands with respect to the firework of its color: its
    rank is below the level reached (already played), at the level (the
    next card to play), or above it. *)
Inductive firework_state : Set := Below | At | Above.

Definition card_state (fireworks : list Z) (card : HanabiCard.t)
  : firework_state :=
  let level := getz fireworks (HanabiCard.Color card) in
  if HanabiCard.Rank card <? level then Below
  else if HanabiCard.Rank card =? level then At
  else Above.

(** The order of the three entries of a group in the specification's
    words (below, at, above) and in the encoder (at, below, above). *)
Definition stated_entry (st : firework_state) : Z :=
  match st with Below => 0 | At => 1 | Above => 2 end.

Definition encoded_entry (st : firework_state) : Z :=
  match st with At => 0 | Below => 1 | Above => 2 end.

(** One group of three entries per card of the observer's hand, one-hot at
    the entry of the card's state; the rest of the 15 entries zero. *)
Definition own_hand_summary (entry : firework_state -> Z)
  (obs : HanabiObservation.t) (enc : vec) : Prop :=
  size enc = 15 /\
  exists hand, nth_error (Hands obs) 0 = Some hand /\
    (forall k card, 0 <= k ->
       nth_error (HanabiHand.Cards hand) (Z.to_nat k) = Some card ->
       one_hot enc (3 * k) 3 (entry (card_state (Fireworks obs) card))) /\
    (forall j, 3 * size (HanabiHand.Cards hand) <= j -> get enc j = 0%Q).

(** What the own-hand accessor requires of the observation. *)
Definition own_hand_visible (game : HanabiGame.t) (obs : HanabiObservation.t)
  : Prop :=
  exists hand, nth_error (Hands obs) 0 = Some hand /\
    size (HanabiHand.Cards hand) <= 5 /\
    forall card, In card (HanabiHand.Cards hand) ->
      HanabiCard.IsValid card = true /\
      0 <= HanabiCard.Color card < NumColors game /\
      HanabiCard.Color card < size (Fireworks obs) /\
      HanabiCard.Rank card < NumRanks game.

(** An observation whose own hand is shown, with the red firework at 1. *)
Definition shown_own_hand : HanabiHand.t :=
  HanabiHand.mk
    [HanabiCard.mk 0 0 true; HanabiCard.mk 0 1 true; HanabiCard.mk 0 2 true]
    (repeat no_knowledge 3).

Definition shown_observation : HanabiObservation.t :=
  HanabiObservation.mk [shown_own_hand; fresh_partner_hand] []
                       [1; 0; 0; 0; 0] 41 8 3 [].

(** ** Card counts *)

Definition sum_list (l : list Z) : Z := fold_right Z.add 0 l.

Definition count_if {A : Type} (p : A -> bool) (l : list A) : Z :=
  Z.of_nat (length (filter p l)).

Definition is_card (c r : Z) (card : HanabiCard.t) : bool :=
  (HanabiCard.Color card =? c) && (HanabiCard.Rank card =? r).

(** Copies of the card [(c, r)] in the discard pile. *)
Definition discarded (obs : HanabiObservation.t) (c r : Z) : Z :=
  count_if (is_card c r) (DiscardPile obs).

(** Whether the card [(c, r)] lies on the firework of its color. *)
Definition played (obs : HanabiObservation.t) (c r : Z) : Z :=
  if r <? getz (Fireworks obs) c then 1 else 0.

(** Copies of [(c, r)] neither discarded nor played. *)
Definition remaining (game : HanabiGame.t) (obs : HanabiObservation.t)
  (c r : Z) : Z :=
  NumberCardInstances game c r - discarded obs c r - played obs c r.

(** The discard pile holds cards of the game and every firework is at most
    complete. *)
Definition piles_in_range (game : HanabiGame.t) (obs : HanabiObservation.t)
  : Prop :=
  (forall card, In card (DiscardPile obs) ->
     0 <= HanabiCard.Color card < NumColors game /\
     0 <= HanabiCard.Rank card < NumRanks game) /\
  NumColors game <= size (Fireworks obs) /\
  (forall c, 0 <= c < NumColors game ->
     getz (Fireworks obs) c <= NumRanks game).

(** No card value has been discarded or played more often than the deck
    holds copies of it. *)
Definition piles_within_deck (game : HanabiGame.t) (obs : HanabiObservation.t)
  : Prop :=
  forall c r, 0 <= c < NumColors game -> 0 <= r < NumRanks game ->
    discarded obs c r + played obs c r <= NumberCardInstances game c r.


(** Loop invariant of the first phase of [ComputeCardCount]: the entries
    before [pos] hold the full-deck counts, the others are still zero, and
    [total_count] is the sum of the entries. *)
Definition full_deck_upto (game : HanabiGame.t) (pos : Z) (st : list Z * Z)
  : Prop :=
  size (fst st) = NumColors game * NumRanks game /\
  snd st = sum_list (fst st) /\
  (forall j, pos <= j -> getz (fst st) j = 0) /\
  (forall c r, 0 <= c -> 0 <= r < NumRanks game ->
     c * NumRanks game + r < pos ->
     getz (fst st) (c * NumRanks game + r) = NumberCardInstances game c r).

(** Four copies of the red 1 discarded, although the deck holds three. *)
Definition overdiscarded_observation : HanabiObservation.t :=
  HanabiObservation.mk [fresh_own_hand; fresh_partner_hand]
    (repeat (HanabiCard.mk 0 0 true) 4)
    [0; 0; 0; 0; 0] 36 8 3 [].

(** One red 1 discarded (scenario B). *)
Definition one_discard_observation : HanabiObservation.t :=
  HanabiObservation.mk [fresh_own_hand; fresh_partner_hand]
    [HanabiCard.mk 0 0 true]
    [0; 0; 0; 0; 0] 39 8 3 [].

(** Loop invariant of the removal phases of [ComputeCardCount]: the
    entry of every card of the game is that of [base] less [f]. *)
Definition counts_minus (game : HanabiGame.t) (f : Z -> Z -> Z)
  (base : list Z) (st : list Z * Z) : Prop :=
  size (fst st) = NumColors game * NumRanks game /\
  snd st = sum_list (fst st) /\
  forall c r, 0 <= c < NumColors game -> 0 <= r < NumRanks game ->
    getz (fst st) (c * NumRanks game + r)
    = getz base (c * NumRanks game + r) - f c r.

(** ** Discards section *)

(** Width of the field of the card with color-major index [q]. *)
Definition field_width (game : HanabiGame.t) (q : Z) : Z :=
  NumberCardInstances game (q / NumRanks game) (q mod NumRanks game).

(** Offset of the field with color-major index [p]: the widths of the
    fields of the cards that precede it in color-major order. *)
Definition fields_before (game : HanabiGame.t) (p : Z) : Z :=
  sum_list (map (field_width game) (range p)).

Definition discard_field_offset (game : HanabiGame.t) (c r : Z) : Z :=
  fields_before game (CardIndex c r (NumRanks game)).

(** The deck holds [MaxDeckSize] cards, a non-negative number of each. *)
Definition deck_complete (game : HanabiGame.t) : Prop :=
  0 <= NumColors game /\ 0 <= NumRanks game /\
  (forall c r, 0 <= c < NumColors game -> 0 <= r < NumRanks game ->
     0 <= NumberCardInstances game c r) /\
  fields_before game (NumColors game * NumRanks game) = MaxDeckSize game.

(** The discard pile holds cards of the game, no more of any than the deck
    does. *)
Definition discards_from_deck (game : HanabiGame.t)
  (obs : HanabiObservation.t) : Prop :=
  (forall card, In card (DiscardPile obs) ->
     0 <= HanabiCard.Color card < NumColors game /\
     0 <= HanabiCard.Rank card < NumRanks game) /\
  (forall c r, 0 <= c < NumColors game -> 0 <= r < NumRanks game ->
     discarded obs c r <= NumberCardInstances game c r).

(** The section starting at [start]: for each card a thermometer of the
    number of its discarded copies, as wide as the deck holds copies. *)
Definition discard_thermometers (game : HanabiGame.t)
  (obs : HanabiObservation.t) (start : Z) (enc : vec) : Prop :=
  forall c r, 0 <= c < NumColors game -> 0 <= r < NumRanks game ->
  forall i, 0 <= i < NumberCardInstances game c r ->
    get enc (start + discard_field_offset game c r + i)
    = if i <? discarded obs c r then 1%Q else 0%Q.

(** Loop invariant of [EncodeDiscards]: the offset and the entries set when
    the fields before index [p] are written. *)
Definition discards_upto (game : HanabiGame.t) (discard_counts : list Z)
  (start : Z) (enc0 : vec) (p : Z) (st : Z * vec) : Prop :=
  fst st = start + fields_before game p /\
  writes (fun j => exists q, 0 <= q < p /\
                     start + fields_before game q <= j
                     < start + fields_before game q + getz discard_counts q)
         enc0 (snd st).

(** ** Card-knowledge section *)

(** Entries of one hand slot: the plausibility grid and the two hints. *)
Definition slot_width (game : HanabiGame.t) : Z :=
  BitsPerCard game + NumColors game + NumRanks game.

(** The plausibility grid of a slot: the cross product of the plausible
    colors and the plausible ranks. *)
Definition plausible (k : CardKnowledge.t) (c r : Z) : bool :=
  CardKnowledge.ColorPlausible k c && CardKnowledge.RankPlausible k r.

(** Indices set for one slot whose block starts at [off]. *)
Definition knowledge_writes (game : HanabiGame.t) (k : CardKnowledge.t)
  (off j : Z) : Prop :=
  (exists c r, 0 <= c < NumColors game /\ 0 <= r < NumRanks game /\
               plausible k c r = true /\
               j = off + CardIndex c r (NumRanks game)) \/
  (CardKnowledge.ColorHinted k = true /\
   j = off + BitsPerCard game + CardKnowledge.Color k) \/
  (CardKnowledge.RankHinted k = true /\
   j = off + BitsPerCard game + NumColors game + CardKnowledge.Rank k).

(** Indices set for the knowledge of one hand whose block starts at [off]. *)
Definition hand_knowledge_writes (game : HanabiGame.t)
  (K : list CardKnowledge.t) (off j : Z) : Prop :=
  exists i k, 0 <= i /\ nth_error K (Z.to_nat i) = Some k /\
              knowledge_writes game k (off + i * slot_width game) j.

(** Indices set for the whole section starting at [start]. *)
Definition card_knowledge_writes (game : HanabiGame.t)
  (obs : HanabiObservation.t) (start j : Z) : Prop :=
  exists p hand, 0 <= p /\ nth_error (Hands obs) (Z.to_nat p) = Some hand /\
    hand_knowledge_writes game (HanabiHand.Knowledge hand)
      (start + p * (HandSize game * slot_width game)) j.

(** Dimensions for which the layout is not degenerate. *)
Definition positive_dimensions (game : HanabiGame.t) : Prop :=
  0 < NumColors game /\ 0 < NumRanks game /\
  0 < NumPlayers game /\ 0 < HandSize game.

(** ** Belief *)

(** The sum [f 0 + f 1 + ... + f (n-1)], accumulated from the left as the
    loops do. *)
Definition qsum (f : Z -> Q) (n : Z) : Q :=
  fold_left (fun acc i => (acc + f i)%Q) (range n) 0%Q.

(** Entry [i] of the block at [base], weighted by the count of card [i],
    and the total of the block before normalization. *)
Definition weighted (card_count : list Z) (enc : vec) (base i : Z) : Q :=
  (get enc (base + i) * inject_Z (getz card_count i))%Q.

Definition block_total (card_count : list Z) (enc : vec) (base bits : Z) : Q :=
  qsum (weighted card_count enc base) bits.

(** [enc'] is [enc] with the block of [bits] entries at [base] weighted by
    the card counts and divided by its total. *)
Definition block_normalized (card_count : list Z) (base bits : Z)
  (enc enc' : vec) : Prop :=
  size enc' = size enc /\
  (0 < block_total card_count enc base bits)%Q /\
  (forall i, 0 <= i < bits ->
     get enc' (base + i)
     = (weighted card_count enc base i
        / block_total card_count enc base bits)%Q) /\
  (forall j, 0 <= j -> ~ (base <= j < base + bits) ->
     get enc' j = get enc j).

(** No hand holds more cards than [HandSize]. *)
Definition hands_fit (game : HanabiGame.t) (obs : HanabiObservation.t) : Prop :=
  forall hand, In hand (Hands obs) ->
    size (HanabiHand.Cards hand) <= HandSize game.

(** Start of the block of slot [k] of player [p] in a card-knowledge
    section that starts at [start]. *)
Definition slot_base (game : HanabiGame.t) (start p k : Z) : Z :=
  start + (p * HandSize game + k) * slot_width game.

(** Slot [k] of player [p] holds a card. *)
Definition occupied (obs : HanabiObservation.t) (p k : Z) : Prop :=
  exists hand, 0 <= p /\ nth_error (Hands obs) (Z.to_nat p) = Some hand /\
               0 <= k < size (HanabiHand.Cards hand).

(** [j] indexes the plausibility grid of an occupied slot among [done]. *)
Definition in_grid (game : HanabiGame.t) (obs : HanabiObservation.t)
  (start : Z) (done : Z -> Z -> Prop) (j : Z) : Prop :=
  exists p k, occupied obs p k /\ done p k /\
    slot_base game start p k <= j
    < slot_base game start p k + BitsPerCard game.

(** [enc] is [raw] with the grids of the occupied slots among [done]
    weighted by the card counts and normalized. *)
Definition belief_upto (game : HanabiGame.t) (obs : HanabiObservation.t)
  (start : Z) (card_count : list Z) (raw : vec) (done : Z -> Z -> Prop)
  (enc : vec) : Prop :=
  size enc = size raw /\
  (forall p k, occupied obs p k -> done p k ->
     let base := slot_base game start p k in
     (0 < block_total card_count raw base (BitsPerCard game))%Q /\
     forall i, 0 <= i < BitsPerCard game ->
       get enc (base + i)
       = (weighted card_count raw base i
          / block_total card_count raw base (BitsPerCard game))%Q) /\
  (forall j, 0 <= j -> ~ in_grid game obs start done j ->
     get enc j = get raw j).

(** The V0 belief section computed in place from the raw card-knowledge
    section [raw]. *)
Definition belief_of (game : HanabiGame.t) (obs : HanabiObservation.t)
  (start : Z) (card_count : list Z) (raw enc : vec) : Prop :=
  belief_upto game obs start card_count raw (fun _ _ => True) enc.

(** Offset of the grid of slot [k] of player [p] in an extracted belief. *)
Definition belief_slot (game : HanabiGame.t) (p k : Z) : Z :=
  (p * HandSize game + k) * BitsPerCard game.

(** Loop invariant of [ExtractBelief]: the grids of the slots before the
    one of linear index [s], and the first [i] entries of that one, are
    copied. *)
Definition extract_upto (game : HanabiGame.t) (encoding : vec) (s i : Z)
  (belief : vec) : Prop :=
  size belief = NumPlayers game * HandSize game * BitsPerCard game /\
  forall s' i', 0 <= s' -> 0 <= i' < BitsPerCard game ->
    s' < s \/ (s' = s /\ i' < i) ->
    get belief (s' * BitsPerCard game + i')
    = get encoding (s' * slot_width game + i').

(** A hint recorded in the knowledge of a card names a color, resp. a rank,
    of the game. *)
Definition knowledge_in_range (game : HanabiGame.t)
  (obs : HanabiObservation.t) : Prop :=
  forall hand kn, In hand (Hands obs) -> In kn (HanabiHand.Knowledge hand) ->
    (CardKnowledge.ColorHinted kn = true ->
     0 <= CardKnowledge.Color kn < NumColors game) /\
    (CardKnowledge.RankHinted kn = true ->
     0 <= CardKnowledge.Rank kn < NumRanks game).

(** No hand carries knowledge of more cards than [HandSize]. *)
Definition knowledge_fits (game : HanabiGame.t) (obs : HanabiObservation.t)
  : Prop :=
  forall hand, In hand (Hands obs) ->
    size (HanabiHand.Knowledge hand) <= HandSize game.

(** The plausibility grid of slot [k] of player [p]; empty when the hand
    has no knowledge of that slot. *)
Definition slot_plausible (obs : HanabiObservation.t) (p k c r : Z) : bool :=
  match nth_error (Hands obs) (Z.to_nat p) with
  | Some hand =>
      match nth_error (HanabiHand.Knowledge hand) (Z.to_nat k) with
      | Some kn => plausible kn c r
      | None => false
      end
  | None => false
  end.

Definition grid_bit (game : HanabiGame.t) (obs : HanabiObservation.t)
  (p k i : Z) : Q :=
  if slot_plausible obs p k (i / NumRanks game) (i mod NumRanks game)
  then 1%Q else 0%Q.

(** Total of a slot before normalization: the remaining counts of the
    cards of its plausibility grid. *)
Definition weighted_total (game : HanabiGame.t) (obs : HanabiObservation.t)
  (card_count : list Z) (p k : Z) : Q :=
  qsum (fun i => (grid_bit game obs p k i * inject_Z (getz card_count i))%Q)
       (BitsPerCard game).

(** Sum of the belief of slot [k] of player [p]. *)
Definition slot_sum (game : HanabiGame.t) (belief : vec) (p k : Z) : Q :=
  qsum (fun i => get belief (belief_slot game p k + i)) (BitsPerCard game).

(** The belief of every occupied slot is a distribution supported by the
    plausibility grid of the slot. *)
Definition belief_distribution (game : HanabiGame.t)
  (obs : HanabiObservation.t) (belief : vec) : Prop :=
  forall p k, occupied obs p k ->
    (slot_sum game belief p k == 1)%Q /\
    forall c r, 0 <= c < NumColors game -> 0 <= r < NumRanks game ->
      slot_plausible obs p k c r = false ->
      (get belief (belief_slot game p k + CardIndex c r (NumRanks game))
       == 0)%Q.

(** Two buffers of one size with equal entries, as rationals. *)
Definition same_entries (v w : vec) : Prop :=
  size v = size w /\ forall j, 0 <= j -> (get v j == get w j)%Q.

(** The grid of every occupied slot sums to 1. *)
Definition grids_sum_to_one (game : HanabiGame.t)
  (obs : HanabiObservation.t) (start : Z) (enc : vec) : Prop :=
  forall p k, occupied obs p k ->
    (qsum (fun i => get enc (slot_base game start p k + i))
          (BitsPerCard game) == 1)%Q.

(** ** Sections of the full encoding *)

(** [enc'] is [enc] with some entries between [lo] and [hi] set to 1. *)
Definition touched (lo hi : Z) (enc enc' : vec) : Prop :=
  size enc' = size enc /\
  forall j, 0 <= j ->
    get enc' j = get enc j \/ (lo <= j < hi /\ get enc' j = 1%Q).

(** A game the library admits. *)
Definition valid_game (game : HanabiGame.t) : Prop :=
  positive_dimensions game /\ deck_complete game /\
  NumPlayers game <= 128 /\
  NumPlayers game * HandSize game <= MaxDeckSize game /\
  0 <= MaxInformationTokens game /\ 0 <= MaxLifeTokens game.

(** A card that is seen names a card of the game; a hidden one is
    invalid (the library gives it color and rank -1). *)
Definition card_shown (game : HanabiGame.t) (card : HanabiCard.t) : Prop :=
  HanabiCard.IsValid card = true /\
  0 <= HanabiCard.Color card < NumColors game /\
  0 <= HanabiCard.Rank card < NumRanks game.

Definition card_hidden (game : HanabiGame.t) (card : HanabiCard.t) : Prop :=
  HanabiCard.IsValid card = false /\
  HanabiCard.Color card < NumColors game /\
  HanabiCard.Rank card < NumRanks game.

(** The hands: one per player, none larger than [HandSize]; the observer's
    cards are all shown or all hidden as [show_own_cards] says, the others
    are shown. *)
Definition hands_well_formed (game : HanabiGame.t)
  (obs : HanabiObservation.t) (show_own_cards : bool) : Prop :=
  size (Hands obs) = NumPlayers game /\
  hands_fit game obs /\
  forall p hand card, 0 <= p ->
    nth_error (Hands obs) (Z.to_nat p) = Some hand ->
    In card (HanabiHand.Cards hand) ->
    if (p =? 0) && negb show_own_cards
    then card_hidden game card else card_shown game card.

Definition board_well_formed (game : HanabiGame.t)
  (obs : HanabiObservation.t) : Prop :=
  DeckSize obs <= MaxDeckSize game - NumPlayers game * HandSize game /\
  NumColors game <= size (Fireworks obs) /\
  (forall c, 0 <= c < NumColors game ->
     getz (Fireworks obs) c <= NumRanks game) /\
  0 <= InformationTokens obs <= MaxInformationTokens game /\
  0 <= LifeTokens obs <= MaxLifeTokens game.

(** The last move other than a deal, if any: a play or a discard of a
    known card from a slot of the hand, or a hint about a color or a rank of
    the game to a player [TargetOffset] seats after the acting one. *)
Definition last_move_well_formed (game : HanabiGame.t)
  (obs : HanabiObservation.t) : Prop :=
  match GetLastNonDealMove (LastMoves obs) with
  | None => True
  | Some item =>
      let move := HanabiHistoryItem.move item in
      0 <= HanabiHistoryItem.player item < NumPlayers game /\
      match HanabiMove.MoveType move with
      | HanabiMove.kPlay | HanabiMove.kDiscard =>
          0 <= HanabiMove.CardIndex move < HandSize game /\
          0 <= HanabiHistoryItem.color item < NumColors game /\
          0 <= HanabiHistoryItem.rank item < NumRanks game
      | HanabiMove.kRevealColor =>
          0 <= HanabiMove.TargetOffset move /\
          0 <= HanabiMove.Color move < NumColors game
      | HanabiMove.kRevealRank =>
          0 <= HanabiMove.TargetOffset move /\
          0 <= HanabiMove.Rank move < NumRanks game
      | _ => False
      end
  end.

(** Cards neither discarded nor played, over the whole deck. *)
Definition unseen_total (game : HanabiGame.t) (obs : HanabiObservation.t)
  : Z :=
  sum_list
    (map (fun q => remaining game obs (q / NumRanks game) (q mod NumRanks game))
         (range (NumColors game * NumRanks game))).

(** Some card that the knowledge of slot [k] of player [p] allows is still
    unseen. *)
Definition slot_has_candidate (game : HanabiGame.t)
  (obs : HanabiObservation.t) (p k : Z) : Prop :=
  exists c r, 0 <= c < NumColors game /\ 0 <= r < NumRanks game /\
              slot_plausible obs p k c r = true /\
              0 < remaining game obs c r.

(** The knowledge and the counts behind the belief section: hints are in
    range, no card was discarded or played more often than the deck holds
    it, the unseen cards are as many as the deck and the hands hold, and
    every occupied slot has a candidate. *)
Definition belief_well_formed (game : HanabiGame.t)
  (obs : HanabiObservation.t) : Prop :=
  knowledge_fits game obs /\ knowledge_in_range game obs /\
  piles_in_range game obs /\ piles_within_deck game obs /\
  unseen_total game obs = DeckSize obs + total_hand_size (Hands obs) /\
  forall p k, occupied obs p k -> slot_has_candidate game obs p k.

Definition well_formed (game : HanabiGame.t) (obs : HanabiObservation.t)
  (show_own_cards : bool) : Prop :=
  hands_well_formed game obs show_own_cards /\
  board_well_formed game obs /\
  discards_from_deck game obs /\
  last_move_well_formed game obs /\
  (is_minimal (ObservationType game) = false -> belief_well_formed game obs).

(** Where the last section of the full encoding starts. *)
Definition belief_start (game : HanabiGame.t) : Z :=
  HandsSectionLength game + BoardSectionLength game
  + DiscardSectionLength game + LastActionSectionLength game.

(** The knowledge held about slot [k] of player [p], if any. *)
Definition slot_knowledge (obs : HanabiObservation.t) (p k : Z)
  : option CardKnowledge.t :=
  match nth_error (Hands obs) (Z.to_nat p) with
  | Some hand => nth_error (HanabiHand.Knowledge hand) (Z.to_nat k)
  | None => None
  end.

(** The raw hint entries of a slot: one-hot at the hinted color, resp.
    rank, and zero without a hint. *)
Definition color_hint_bit (obs : HanabiObservation.t) (p k c : Z) : Q :=
  match slot_knowledge obs p k with
  | Some kn =>
      if CardKnowledge.ColorHinted kn && (CardKnowledge.Color kn =? c)
      then 1%Q else 0%Q
  | None => 0%Q
  end.

Definition rank_hint_bit (obs : HanabiObservation.t) (p k r : Z) : Q :=
  match slot_knowledge obs p k with
  | Some kn =>
      if CardKnowledge.RankHinted kn && (CardKnowledge.Rank kn =? r)
      then 1%Q else 0%Q
  | None => 0%Q
  end.

(** The belief section as it stands in the full encoding [out]: the grid
    of an occupied slot holds the plausibility bits weighted by the card
    counts and normalized; every other grid, and the hint entries of every
    slot, hold the raw bits. *)
Definition belief_in_place (game : HanabiGame.t) (obs : HanabiObservation.t)
  (card_count : list Z) (out : vec) : Prop :=
  let base := slot_base game (belief_start game) in
  (forall p k, occupied obs p k ->
     (qsum (fun i => get out (base p k + i)) (BitsPerCard game) == 1)%Q /\
     forall i, 0 <= i < BitsPerCard game ->
       get out (base p k + i)
       = (grid_bit game obs p k i * inject_Z (getz card_count i)
          / weighted_total game obs card_count p k)%Q) /\
  (forall p k, 0 <= p < NumPlayers game -> 0 <= k < HandSize game ->
     (~ occupied obs p k ->
      forall i, 0 <= i < BitsPerCard game ->
        get out (base p k + i) = grid_bit game obs p k i) /\
     (forall c, 0 <= c < NumColors game ->
        get out (base p k + BitsPerCard game + c) = color_hint_bit obs p k c) /\
     (forall r, 0 <= r < NumRanks game ->
        get out (base p k + BitsPerCard game + NumColors game + r)
        = rank_hint_bit obs p k r)).

(** An observation after a discard by the partner, who holds four cards,
    and two hints to them: a green hint (color 2) that touched the first and
    the last card, and a 3 hint (rank 2) that touched the two cards between
    them. *)
Definition green_knowledge : CardKnowledge.t :=
  CardKnowledge.mk (fun c => c =? 2) (fun r => negb (r =? 2)) true 2 false (-1).

Definition three_knowledge : CardKnowledge.t :=
  CardKnowledge.mk (fun c => negb (c =? 2)) (fun r => r =? 2) false (-1) true 2.

Definition hinted_partner_hand : HanabiHand.t :=
  HanabiHand.mk
    [HanabiCard.mk 2 0 true; HanabiCard.mk 1 2 true; HanabiCard.mk 0 2 true;
     HanabiCard.mk 2 3 true]
    [green_knowledge; three_knowledge; three_knowledge; green_knowledge].

Definition hinted_observation : HanabiObservation.t :=
  HanabiObservation.mk [fresh_own_hand; hinted_partner_hand]
                       [HanabiCard.mk 0 0 true]
                       [0; 0; 0; 0; 0] 40 7 3
                       [deal_item; color_hint_item; deal_item].

Definition standard_counts : list Z :=
  [3; 2; 2; 2; 1; 3; 2; 2; 2; 1; 3; 2; 2; 2; 1; 3; 2; 2; 2; 1; 3; 2; 2; 2; 1].

Definition hinted_counts : list Z :=
  [2; 2; 2; 2; 1; 3; 2; 2; 2; 1; 3; 2; 2; 2; 1; 3; 2; 2; 2; 1; 3; 2; 2; 2; 1].

(** ** Entries set by each section

    For a section that starts at [start], the indices of the entries that
    its encoder sets to 1. *)

(** Fields of the board section, as offsets from its start. *)
Module BoardField.
Definition deck (game : HanabiGame.t) : Z := 0.
Definition fireworks (game : HanabiGame.t) : Z :=
  MaxDeckSize game - NumPlayers game * HandSize game.
Definition information (game : HanabiGame.t) : Z :=
  fireworks game + NumColors game * NumRanks game.
Definition life (game : HanabiGame.t) : Z :=
  information game + MaxInformationTokens game.
End BoardField.

(** A field of [width] entries starting at [off] whose first [v] entries
    are 1 and whose other entries are 0. *)
Definition thermometer (enc : vec) (off width v : Z) : Prop :=
  forall i, 0 <= i < width ->
            get enc (off + i) = if i <? v then 1%Q else 0%Q.

Definition board_writes (game : HanabiGame.t) (obs : HanabiObservation.t)
  (start j : Z) : Prop :=
  start <= j < start + DeckSize obs \/
  (exists c, 0 <= c < NumColors game /\ 0 < getz (Fireworks obs) c /\
     j = start + BoardField.fireworks game + c * NumRanks game
         + getz (Fireworks obs) c - 1) \/
  start + BoardField.information game <= j
  < start + BoardField.information game + InformationTokens obs \/
  start + BoardField.life game <= j
  < start + BoardField.life game + LifeTokens obs.

(** The board section: the deck size, the information tokens and the life
    tokens as thermometers, and one entry per card of every firework, set
    for the card on top. *)
Definition board_layout (game : HanabiGame.t) (obs : HanabiObservation.t)
  (start : Z) (enc : vec) : Prop :=
  thermometer enc (start + BoardField.deck game) (BoardField.fireworks game)
              (DeckSize obs) /\
  (forall c r, 0 <= c < NumColors game -> 0 <= r < NumRanks game ->
     get enc (start + BoardField.fireworks game + CardIndex c r (NumRanks game))
     = if r + 1 =? getz (Fireworks obs) c then 1%Q else 0%Q) /\
  thermometer enc (start + BoardField.information game)
              (MaxInformationTokens game) (InformationTokens obs) /\
  thermometer enc (start + BoardField.life game) (MaxLifeTokens game)
              (LifeTokens obs).

(** Whether the cards of player [p] are written: those of the observer
    only when [show_own_cards] is set. *)
Definition shows_hand (show_own_cards : bool) (p : Z) : bool :=
  negb (p =? 0) || show_own_cards.

(** What [EncodeHands] asserts of a card of player [p]: valid exactly when
    the hand is written, color and rank below those of the game. *)
Definition card_checked (game : HanabiGame.t) (show_own_cards : bool)
  (p : Z) (card : HanabiCard.t) : Prop :=
  HanabiCard.IsValid card = shows_hand show_own_cards p /\
  HanabiCard.Color card < NumColors game /\
  HanabiCard.Rank card < NumRanks game.

(** The card in slot [k] of player [p], if any. *)
Definition hand_card (obs : HanabiObservation.t) (p k : Z)
  : option HanabiCard.t :=
  match nth_error (Hands obs) (Z.to_nat p) with
  | Some hand => nth_error (HanabiHand.Cards hand) (Z.to_nat k)
  | None => None
  end.

(** Start of the block of slot [k] of player [p] in a hands section, and
    start of the bits that tell which hands are short of a card. *)
Definition hand_slot (game : HanabiGame.t) (start p k : Z) : Z :=
  start + (p * HandSize game + k) * BitsPerCard game.

Definition missing_card_field (game : HanabiGame.t) : Z :=
  NumPlayers game * HandSize game * BitsPerCard game.

Definition hands_writes (game : HanabiGame.t) (obs : HanabiObservation.t)
  (show_own_cards : bool) (start j : Z) : Prop :=
  (exists p k card, 0 <= p /\ 0 <= k /\ hand_card obs p k = Some card /\
     shows_hand show_own_cards p = true /\
     j = hand_slot game start p k
         + CardIndex (HanabiCard.Color card) (HanabiCard.Rank card)
                     (NumRanks game)) \/
  (exists p hand, 0 <= p /\
     nth_error (Hands obs) (Z.to_nat p) = Some hand /\
     size (HanabiHand.Cards hand) < HandSize game /\
     j = start + missing_card_field game + p).

(** The hands section: the block of a slot is one-hot at the card it
    holds when the hand is written, and zero otherwise; then one bit per
    player, set when the hand holds fewer cards than [HandSize]. *)
Definition hands_layout (game : HanabiGame.t) (obs : HanabiObservation.t)
  (show_own_cards : bool) (start : Z) (enc : vec) : Prop :=
  (forall p k, 0 <= p < NumPlayers game -> 0 <= k < HandSize game ->
     match hand_card obs p k with
     | Some card =>
         if shows_hand show_own_cards p
         then one_hot enc (hand_slot game start p k) (BitsPerCard game)
                      (CardIndex (HanabiCard.Color card)
                                 (HanabiCard.Rank card) (NumRanks game))
         else all_zero enc (hand_slot game start p k) (BitsPerCard game)
     | None => all_zero enc (hand_slot game start p k) (BitsPerCard game)
     end) /\
  (forall p hand, 0 <= p ->
     nth_error (Hands obs) (Z.to_nat p) = Some hand ->
     get enc (start + missing_card_field game + p)
     = if size (HanabiHand.Cards hand) <? HandSize game then 1%Q else 0%Q).

(** A game in progress: two fireworks started, one complete, tokens
    spent. *)
Definition midgame_observation : HanabiObservation.t :=
  HanabiObservation.mk [fresh_own_hand; hinted_partner_hand] []
                       [2; 0; 5; 1; 0] 32 5 2 [deal_item].

(** Index of a move type among the four move-type entries. *)
Definition type_index (ty : HanabiMove.Type_) : Z :=
  match ty with
  | HanabiMove.kPlay => 0
  | HanabiMove.kDiscard => 1
  | HanabiMove.kRevealColor => 2
  | HanabiMove.kRevealRank => 3
  | _ => -1
  end.

(** The target of a hint, relative to the observer, as the encoder
    computes it. *)
Definition hint_target (game : HanabiGame.t) (item : HanabiHistoryItem.t)
  : Z :=
  to_int8 (Z.rem (HanabiHistoryItem.player item
                  + HanabiMove.TargetOffset (HanabiHistoryItem.move item))
                 (NumPlayers game)).

Definition move_writes (game : HanabiGame.t) (item : HanabiHistoryItem.t)
  (start j : Z) : Prop :=
  let move := HanabiHistoryItem.move item in
  let ty := HanabiMove.MoveType move in
  let o1 := start + NumPlayers game in
  let o2 := o1 + 4 in
  let o3 := o2 + NumPlayers game in
  let o4 := o3 + NumColors game in
  let o5 := o4 + NumRanks game in
  let o6 := o5 + HandSize game in
  let o7 := o6 + HandSize game in
  let o8 := o7 + BitsPerCard game in
  j = start + HanabiHistoryItem.player item \/
  j = o1 + type_index ty \/
  (HanabiMove.is_reveal ty = true /\ j = o2 + hint_target game item) \/
  (ty = HanabiMove.kRevealColor /\ j = o3 + HanabiMove.Color move) \/
  (ty = HanabiMove.kRevealRank /\ j = o4 + HanabiMove.Rank move) \/
  (HanabiMove.is_reveal ty = true /\
   exists i, 0 <= i < HandSize game /\
             Z.testbit (HanabiHistoryItem.reveal_bitmask item) i = true /\
             j = o5 + i) \/
  (HanabiMove.is_play_or_discard ty = true /\
   j = o6 + HanabiMove.CardIndex move) \/
  (HanabiMove.is_play_or_discard ty = true /\
   j = o7 + CardIndex (HanabiHistoryItem.color item)
                      (HanabiHistoryItem.rank item) (NumRanks game)) \/
  (ty = HanabiMove.kPlay /\ HanabiHistoryItem.scored item = true /\
   j = o8) \/
  (ty = HanabiMove.kPlay /\
   HanabiHistoryItem.information_token item = true /\ j = o8 + 1).

Definition last_action_writes (game : HanabiGame.t)
  (obs : HanabiObservation.t) (start j : Z) : Prop :=
  match GetLastNonDealMove (LastMoves obs) with
  | Some item => move_writes game item start j
  | None => False
  end.

(** A field that is one-hot at [k] when [b] holds and zero otherwise. *)
Definition one_hot_if (b : bool) (enc : vec) (off width k : Z) : Prop :=
  if b then one_hot enc off width k else all_zero enc off width.

Definition is_type (ty ty' : HanabiMove.Type_) : bool :=
  type_index ty =? type_index ty'.

(** The last-action section for the move [item]: who moved, which kind of
    move, and by kind of move the target, the color or the rank and the
    touched slots of a hint, the slot and the card of a play or a discard,
    and the two outcome flags of a play. *)
Definition last_action_layout (game : HanabiGame.t)
  (item : HanabiHistoryItem.t) (start : Z) (enc : vec) : Prop :=
  let move := HanabiHistoryItem.move item in
  let ty := HanabiMove.MoveType move in
  one_hot enc (start + LastActionField.acting_player game) (NumPlayers game)
          (HanabiHistoryItem.player item) /\
  one_hot enc (start + LastActionField.move_type game) 4 (type_index ty) /\
  one_hot_if (HanabiMove.is_reveal ty) enc
             (start + LastActionField.target_player game) (NumPlayers game)
             (Z.rem (HanabiHistoryItem.player item
                     + HanabiMove.TargetOffset move) (NumPlayers game)) /\
  one_hot_if (is_type ty HanabiMove.kRevealColor) enc
             (start + LastActionField.color game) (NumColors game)
             (HanabiMove.Color move) /\
  one_hot_if (is_type ty HanabiMove.kRevealRank) enc
             (start + LastActionField.rank game) (NumRanks game)
             (HanabiMove.Rank move) /\
  (forall i, 0 <= i < HandSize game ->
     get enc (start + LastActionField.outcome game + i)
     = if HanabiMove.is_reveal ty
          && Z.testbit (HanabiHistoryItem.reveal_bitmask item) i
       then 1%Q else 0%Q) /\
  one_hot_if (HanabiMove.is_play_or_discard ty) enc
             (start + LastActionField.position game) (HandSize game)
             (HanabiMove.CardIndex move) /\
  one_hot_if (HanabiMove.is_play_or_discard ty) enc
             (start + LastActionField.card game) (BitsPerCard game)
             (CardIndex (HanabiHistoryItem.color item)
                        (HanabiHistoryItem.rank item) (NumRanks game)) /\
  get enc (start + LastActionField.play game)
  = (if is_type ty HanabiMove.kPlay && HanabiHistoryItem.scored item
     then 1%Q else 0%Q) /\
  get enc (start + LastActionField.play game + 1)
  = (if is_type ty HanabiMove.kPlay
        && HanabiHistoryItem.information_token item
     then 1%Q else 0%Q).

(** A successful play of the red 3 from slot 1 that earned no token, as
    the last move of the observation. *)
Definition play_item : HanabiHistoryItem.t :=
  HanabiHistoryItem.mk (HanabiMove.mk HanabiMove.kPlay 1 (-1) (-1) (-1))
                       1 true false 0 2 0.

Definition played_observation : HanabiObservation.t :=
  HanabiObservation.mk [fresh_own_hand; hinted_partner_hand] []
                       [3; 0; 0; 0; 0] 38 7 3
                       [deal_item; play_item; color_hint_item].

Definition discards_writes (game : HanabiGame.t)
  (obs : HanabiObservation.t) (start j : Z) : Prop :=
  exists q, 0 <= q < NumColors game * NumRanks game /\
    start + fields_before game q <= j
    < start + fields_before game q
      + discarded obs (q / NumRanks game) (q mod NumRanks game).

(** A vector of [n] zeros, as [std::vector<float>(n, 0)] makes it. *)
Definition zeros (n : Z) : vec := repeat 0%Q (Z.to_nat n).

(** ** Refinement steps of the V1 belief *)

(** A loop over the occupied slots that has processed the slots among
    [done]: the grid of each is related by [Rel] to what it was, and
    nothing else has changed. *)
Definition slots_done (game : HanabiGame.t) (obs : HanabiObservation.t)
  (Rel : Z -> vec -> vec -> Prop) (v0 : vec) (done : Z -> Z -> Prop)
  (v : vec) : Prop :=
  size v = size v0 /\
  (forall p k, occupied obs p k -> done p k ->
     Rel (slot_base game 0 p k) v0 v) /\
  (forall j, 0 <= j -> ~ in_grid game obs 0 done j -> get v j = get v0 j).

(** The candidate belief of the grid at [base]:
    [max(total_cards[i] + v1_belief[offset], 0) * card_knowledge[offset]]. *)
Definition candidate_of (bits : Z) (card_knowledge total_cards v1_belief : vec)
  (base : Z) (new new' : vec) : Prop :=
  forall i, 0 <= i < bits ->
    get new' (base + i)
    = (fmax0 (get total_cards i + get v1_belief (base + i))
       * get card_knowledge (base + i))%Q.

(** [(1 - weight) * v1_belief[j] + weight * new_v1_belief[j]]. *)
Definition blended (weight : Q) (v1_belief new_v1_belief : vec) (j : Z) : Q :=
  ((1 - weight) * get v1_belief j + weight * get new_v1_belief j)%Q.

(** The grid at [base] interpolated and divided by its total, which is
    positive. *)
Definition normalized_blend (bits : Z) (weight : Q) (new : vec) (base : Z)
  (v1 v1' : vec) : Prop :=
  (0 < qsum (fun i => blended weight v1 new (base + i)) bits)%Q /\
  forall i, 0 <= i < bits ->
    get v1' (base + i)
    = (blended weight v1 new (base + i)
       / qsum (fun i => blended weight v1 new (base + i)) bits)%Q.

(** What every refinement step keeps: the grid of every occupied slot
    sums to 1 and is 0 where the card knowledge is. *)
Definition refined_belief (game : HanabiGame.t) (obs : HanabiObservation.t)
  (card_knowledge v1 : vec) : Prop :=
  size v1 = CardKnowledgeSectionLength game /\
  grids_sum_to_one game obs 0 v1 /\
  forall p k i, occupied obs p k -> 0 <= i < BitsPerCard game ->
    get card_knowledge (slot_base game 0 p k + i) = 0%Q ->
    (get v1 (slot_base game 0 p k + i) == 0)%Q.

(** No entry of the grid of an occupied slot is negative. *)
Definition grids_nonneg (game : HanabiGame.t) (obs : HanabiObservation.t)
  (v1 : vec) : Prop :=
  forall p k i, occupied obs p k -> 0 <= i < BitsPerCard game ->
    (0 <= get v1 (slot_base game 0 p k + i))%Q.

(** ** Examples of the further properties *)

(** The card-knowledge section of the hinted observation. *)
Definition raw_hinted_knowledge : vec :=
  Eval vm_compute in
    match EncodeCardKnowledge standard_game hinted_observation 0
                              (repeat 0%Q 350) with
    | Ok (raw, _) => raw
    | Fail _ => []
    end.


(** The V0 belief of the hinted observation. *)
Definition hinted_belief :=
  Eval vm_compute in
    match EncodeV0Belief standard_game hinted_observation with
    | Ok belief => belief
    | Fail _ => []
    end.

(** The own-hand summary of the observation whose own hand is shown. *)
Definition shown_summary : vec :=
  Eval vm_compute in
    match EncodeOwnHand standard_game shown_observation with
    | Ok enc => enc
    | Fail _ => []
    end.

(** The board section of the observation whose deck (41 cards) is larger
    than the deck field of the standard game (40 entries). *)
Definition overfull_board : vec :=
  Eval vm_compute in
    match EncodeBoard standard_game shown_observation 0 (repeat 0%Q 76) with
    | Ok (enc, _) => enc
    | Fail _ => []
    end.

(** The hands section of the hinted observation. *)
Definition hinted_hands_section : vec :=
  Eval vm_compute in
    match EncodeHands standard_game hinted_observation 0 (repeat 0%Q 252)
                      false with
    | Ok (enc, _) => enc
    | Fail _ => []
    end.

(** The last-action section of the observation whose last move is a
    play. *)
Definition played_last_action : vec :=
  Eval vm_compute in
    match EncodeLastAction_ standard_game played_observation 0
                            (repeat 0%Q 55) with
    | Ok (enc, _) => enc
    | Fail _ => []
    end.

Definition hinted_v1_belief :=
  Eval vm_compute in
    match EncodeV1Belief_with 1 (1 # 10) standard_game hinted_observation with
    | Ok belief => belief
    | Fail _ => []
    end.

(** The discards section of the observation with four red 1s discarded. *)
Definition overdiscarded_section : vec :=
  Eval vm_compute in
    match EncodeDiscards standard_game overdiscarded_observation 0
                         (repeat 0%Q 50) with
    | Ok (enc, _) => enc
    | Fail _ => []
    end.

(** ** Beliefs in binary32 arithmetic *)

(** Every entry of [v] is within [eps] of the entry of [w] at its index. *)
Definition close_entries (eps : SpecFloat.spec_float)
  (v w : list SpecFloat.spec_float) : bool :=
  forallb (fun xy => SpecFloat.SFleb
                       (SpecFloat.SFabs (Binary32.sub (fst xy) (snd xy))) eps)
          (combine v w).

(** [2^-24] *)
Definition two_pow_minus_24 : SpecFloat.spec_float :=
  SpecFloat.S754_finite false 8388608 (-47).

(** The V0 belief of the hinted observation, and its V1 belief after one
    step of weight 0. *)
Definition hinted_v0_binary32 :=
  Eval vm_compute in
    match Binary32.EncodeV0Belief standard_game hinted_observation with
    | Ok belief => belief
    | Fail _ => []
    end.

Definition hinted_v1_binary32 :=
  Eval vm_compute in
    match Binary32.EncodeV1Belief_with 1 Binary32.zero standard_game
                                       hinted_observation with
    | Ok belief => belief
    | Fail _ => []
    end.

(** The V0 belief of the fresh observation, and its V1 belief after the
    100 steps of the code, of weight 0. *)
Definition fresh_v0_binary32 :=
  Eval vm_compute in
    match Binary32.EncodeV0Belief standard_game fresh_observation with
    | Ok belief => belief
    | Fail _ => []
    end.

Definition fresh_v1_binary32 :=
  Eval vm_compute in
    match Binary32.EncodeV1Belief_with V1_num_iters Binary32.zero
                                       standard_game fresh_observation with
    | Ok belief => belief
    | Fail _ => []
    end.

(** * Properties of the encoder *)

(** ** The error monad and the loops *)

Lemma bind_Ok {A B : Type} (c : result A) (k : A -> result B) (b : B) :
  bind c k = Ok b -> exists a, c = Ok a /\ k a = Ok b.
Proof. destruct c as [a|e]; simpl; intros H; [eauto | discriminate]. Qed.

Lemma assert_inv (b : bool) (a : assertion) (u : unit) :
  assert b a = Ok u -> b = true.
Proof. destruct b; simpl; [reflexivity | discriminate]. Qed.

Lemma assert_true (b : bool) (a : assertion) :
  b = true -> assert b a = Ok tt.
Proof. intros ->. reflexivity. Qed.

Lemma foldM_app {A S : Type} (body : S -> A -> result S) (l1 l2 : list A)
  (s : S) :
  foldM body (l1 ++ l2) s = bind (foldM body l1 s) (foldM body l2).
Proof.
  revert s. induction l1 as [|a l1 IH]; intros s; simpl; [reflexivity|].
  destruct (body s a); simpl; [apply IH | reflexivity].
Qed.

Lemma range_length (n : Z) : length (range n) = Z.to_nat n.
Proof. unfold range. now rewrite length_map, length_seq. Qed.

Lemma range_nonpos (n : Z) : n <= 0 -> range n = [].
Proof.
  intros H. unfold range. replace (Z.to_nat n) with 0%nat by lia. reflexivity.
Qed.

Lemma range_succ (n : Z) : 0 <= n -> range (n + 1) = range n ++ [n].
Proof.
  intros H. unfold range.
  replace (Z.to_nat (n + 1)) with (Z.to_nat n + 1)%nat by lia.
  rewrite seq_app, map_app. simpl. now rewrite Z2Nat.id.
Qed.

Lemma for_range_nonpos {S : Type} (n : Z) (body : S -> Z -> result S) (s : S) :
  n <= 0 -> for_range n body s = Ok s.
Proof. intros H. unfold for_range. now rewrite range_nonpos. Qed.

Lemma for_range_succ {S : Type} (n : Z) (body : S -> Z -> result S) (s : S) :
  0 <= n ->
  for_range (n + 1) body s = bind (for_range n body s) (fun s' => body s' n).
Proof.
  intros H. unfold for_range. rewrite range_succ, foldM_app by assumption.
  destruct (foldM body (range n) s) as [s'|e]; simpl; [|reflexivity].
  now destruct (body s' n).
Qed.

(** Partial correctness of a counted loop, by an invariant on the counter. *)
Lemma for_range_inv {S : Type} (I : Z -> S -> Prop)
  (body : S -> Z -> result S) (n : Z) (s s' : S) :
  0 <= n ->
  for_range n body s = Ok s' ->
  I 0 s ->
  (forall i t t', 0 <= i < n -> I i t -> body t i = Ok t' -> I (i + 1) t') ->
  I n s'.
Proof.
  intros Hn Hrun H0 Hstep.
  enough (G : forall m, 0 <= m -> m <= n ->
                        forall r, for_range m body s = Ok r -> I m r)
    by (apply (G n); auto; lia).
  clear s' Hrun.
  intros m Hm. pattern m. apply natlike_ind; [| |assumption]; clear m Hm.
  - intros _ r Hr. rewrite for_range_nonpos in Hr by lia.
    now injection Hr as <-.
  - intros m Hm IH Hle r Hr. unfold Z.succ in *.
    rewrite for_range_succ in Hr by assumption.
    apply bind_Ok in Hr. destruct Hr as (t & Ht & Hr).
    apply (Hstep m t r); [lia | apply IH; [lia | assumption] | assumption].
Qed.

(** Progress of a counted loop: every turn succeeds under the invariant. *)
Lemma for_range_progress {S : Type} (I : Z -> S -> Prop)
  (body : S -> Z -> result S) (n : Z) (s : S) :
  0 <= n ->
  I 0 s ->
  (forall i t, 0 <= i < n -> I i t ->
               exists t', body t i = Ok t' /\ I (i + 1) t') ->
  exists s', for_range n body s = Ok s' /\ I n s'.
Proof.
  intros Hn H0 Hstep.
  enough (G : forall m, 0 <= m -> m <= n ->
                        exists r, for_range m body s = Ok r /\ I m r)
    by (apply (G n); auto; lia).
  intros m Hm. pattern m. apply natlike_ind; [| |assumption]; clear m Hm.
  - intros _. exists s. split; [apply for_range_nonpos; lia | assumption].
  - intros m Hm IH Hle. unfold Z.succ in *.
    destruct IH as (t & Ht & It); [lia|].
    destruct (Hstep m t) as (t' & Ht' & It'); [lia | assumption |].
    exists t'. split; [|assumption].
    rewrite for_range_succ by assumption. rewrite Ht. simpl. exact Ht'.
Qed.

(** An invariant that does not mention the counter holds whatever the
    bound. *)
Lemma for_range_preserves {S : Type} (I : S -> Prop)
  (body : S -> Z -> result S) (n : Z) (s s' : S) :
  for_range n body s = Ok s' ->
  I s ->
  (forall i t t', I t -> body t i = Ok t' -> I t') ->
  I s'.
Proof.
  intros Hrun H0 Hstep. destruct (Z.le_gt_cases 0 n) as [Hn|Hn].
  - apply (for_range_inv (fun _ => I) body n s s' Hn Hrun H0).
    intros i t t' _. apply Hstep.
  - rewrite for_range_nonpos in Hrun by lia. now injection Hrun as <-.
Qed.

Lemma nth_error_snoc {A : Type} (l : list A) (a : A) :
  nth_error (l ++ [a]) (length l) = Some a.
Proof. rewrite nth_error_app2 by lia. now rewrite Nat.sub_diag. Qed.

(** The same two principles for a loop over the elements of a vector; the
    invariant is indexed by the number of elements already visited. *)
Lemma foldM_inv {A S : Type} (I : Z -> S -> Prop)
  (body : S -> A -> result S) (l : list A) (s s' : S) :
  foldM body l s = Ok s' ->
  I 0 s ->
  (forall k a t t', 0 <= k -> nth_error l (Z.to_nat k) = Some a ->
                    I k t -> body t a = Ok t' -> I (k + 1) t') ->
  I (size l) s'.
Proof.
  revert s'. unfold size.
  induction l as [|a l IH] using rev_ind; intros s' Hrun H0 Hstep.
  - simpl in Hrun. now injection Hrun as <-.
  - rewrite foldM_app in Hrun. apply bind_Ok in Hrun.
    destruct Hrun as (t & Ht & Hrun). simpl in Hrun.
    destruct (body t a) as [t'|] eqn:Hb; [|discriminate].
    injection Hrun as <-.
    rewrite length_app. simpl.
    replace (Z.of_nat (length l + 1)) with (Z.of_nat (length l) + 1) by lia.
    apply (Hstep _ a t); [lia | | | assumption].
    + rewrite Nat2Z.id. apply nth_error_snoc.
    + apply IH; [assumption | assumption |].
      intros k b u u' Hk Hnth. apply Hstep; [assumption|].
      rewrite nth_error_app1; [assumption|].
      apply nth_error_Some. congruence.
Qed.

Lemma foldM_progress {A S : Type} (I : Z -> S -> Prop)
  (body : S -> A -> result S) (l : list A) (s : S) :
  I 0 s ->
  (forall k a t, 0 <= k -> nth_error l (Z.to_nat k) = Some a -> I k t ->
                 exists t', body t a = Ok t' /\ I (k + 1) t') ->
  exists s', foldM body l s = Ok s' /\ I (size l) s'.
Proof.
  unfold size.
  induction l as [|a l IH] using rev_ind; intros H0 Hstep.
  - exists s. split; [reflexivity | assumption].
  - destruct IH as (t & Ht & It); [assumption | |].
    { intros k b u Hk Hnth. apply Hstep; [assumption|].
      rewrite nth_error_app1; [assumption|].
      apply nth_error_Some. congruence. }
    destruct (Hstep (Z.of_nat (length l)) a t) as (t' & Ht' & It');
      [lia | rewrite Nat2Z.id; apply nth_error_snoc | assumption |].
    exists t'. rewrite foldM_app, Ht. simpl. rewrite Ht'. split; [reflexivity|].
    rewrite length_app. simpl.
    now replace (Z.of_nat (length l + 1)) with (Z.of_nat (length l) + 1) by lia.
Qed.

(** ** Vectors *)

Lemma length_list_set {A : Type} (l : list A) (n : nat) (x : A) :
  length (list_set l n x) = length l.
Proof.
  revert n. induction l as [|h t IH]; intros [|n]; simpl; auto.
Qed.

Lemma nth_list_set_eq {A : Type} (l : list A) (n : nat) (x d : A) :
  (n < length l)%nat -> nth n (list_set l n x) d = x.
Proof.
  revert n. induction l as [|h t IH]; intros [|n]; simpl; intros H;
    try lia; auto. apply IH. lia.
Qed.

Lemma nth_list_set_neq {A : Type} (l : list A) (n m : nat) (x d : A) :
  n <> m -> nth m (list_set l n x) d = nth m l d.
Proof.
  revert n m. induction l as [|h t IH]; intros [|n] [|m]; simpl; intros H;
    try congruence; auto.
Qed.

Lemma list_set_same {A : Type} (l : list A) (n : nat) (d : A) :
  list_set l n (nth n l d) = l.
Proof.
  revert n. induction l as [|h t IH]; intros [|n]; simpl; auto.
  now rewrite IH.
Qed.

Lemma store_inv {A : Type} (v v' : list A) (i : Z) (x : A) :
  store v i x = Ok v' ->
  0 <= i < size v /\ v' = list_set v (Z.to_nat i) x.
Proof.
  unfold store, size. destruct (0 <=? i) eqn:H1; simpl; [|discriminate].
  destruct (i <? Z.of_nat (length v)) eqn:H2; [|discriminate].
  intros H. injection H as <-. split; [lia | reflexivity].
Qed.

Lemma store_ok {A : Type} (v : list A) (i : Z) (x : A) :
  0 <= i < size v -> store v i x = Ok (list_set v (Z.to_nat i) x).
Proof.
  unfold store, size. intros H.
  replace (0 <=? i) with true by lia.
  replace (i <? Z.of_nat (length v)) with true by lia. reflexivity.
Qed.

Lemma store_size {A : Type} (v v' : list A) (i : Z) (x : A) :
  store v i x = Ok v' -> size v' = size v.
Proof.
  intros H. apply store_inv in H. destruct H as (_ & ->).
  unfold size. now rewrite length_list_set.
Qed.

Lemma load_inv {A : Type} (v : list A) (i : Z) (x : A) :
  load v i = Ok x ->
  0 <= i < size v /\ nth_error v (Z.to_nat i) = Some x.
Proof.
  unfold load, size. destruct (0 <=? i) eqn:H1; [|discriminate].
  destruct (nth_error v (Z.to_nat i)) as [y|] eqn:H2; [|discriminate].
  intros H. injection H as <-. split; [|reflexivity].
  assert (Z.to_nat i < length v)%nat by (apply nth_error_Some; congruence).
  lia.
Qed.

Lemma load_ok {A : Type} (v : list A) (i : Z) (d : A) :
  0 <= i < size v -> load v i = Ok (nth (Z.to_nat i) v d).
Proof.
  unfold load, size. intros H. replace (0 <=? i) with true by lia.
  rewrite (nth_error_nth' v d) by lia. reflexivity.
Qed.

Lemma load_nth_error {A : Type} (v : list A) (i : Z) (x : A) :
  0 <= i -> nth_error v (Z.to_nat i) = Some x -> load v i = Ok x.
Proof.
  intros Hi H. unfold load. replace (0 <=? i) with true by lia. now rewrite H.
Qed.

Lemma load_nth {A : Type} (v : list A) (i : Z) (x d : A) :
  load v i = Ok x -> nth (Z.to_nat i) v d = x.
Proof.
  intros H. apply load_inv in H. destruct H as (_ & H).
  now apply nth_error_nth.
Qed.

Lemma load_get (v : vec) (i : Z) (x : Q) : load v i = Ok x -> x = get v i.
Proof. intros H. symmetry. now apply load_nth. Qed.

Lemma get_store_eq (v v' : vec) (i : Z) (x : Q) :
  store v i x = Ok v' -> get v' i = x.
Proof.
  intros H. apply store_inv in H. destruct H as (Hi & ->).
  unfold get. apply nth_list_set_eq. unfold size in Hi. lia.
Qed.

Lemma get_store_neq (v v' : vec) (i j : Z) (x : Q) :
  store v i x = Ok v' -> 0 <= j -> j <> i -> get v' j = get v j.
Proof.
  intros H Hj Hne. apply store_inv in H. destruct H as (Hi & ->).
  unfold get. apply nth_list_set_neq. lia.
Qed.

Lemma get_beyond (v : vec) (i : Z) : size v <= i -> get v i = 0%Q.
Proof. unfold get, size. intros H. apply nth_overflow. lia. Qed.

Lemma new_vector_inv {A : Type} (n : Z) (x : A) (v : list A) :
  new_vector n x = Ok v -> 0 <= n /\ v = repeat x (Z.to_nat n).
Proof.
  unfold new_vector. destruct (n <? 0) eqn:H; [discriminate|].
  intros E. injection E as <-. split; [lia | reflexivity].
Qed.

Lemma new_vector_ok {A : Type} (n : Z) (x : A) :
  0 <= n -> new_vector n x = Ok (repeat x (Z.to_nat n)).
Proof. unfold new_vector. intros H. now replace (n <? 0) with false by lia. Qed.

Lemma size_repeat {A : Type} (x : A) (n : Z) :
  0 <= n -> size (repeat x (Z.to_nat n)) = n.
Proof. intros H. unfold size. rewrite repeat_length. lia. Qed.

Lemma get_repeat (x : Q) (n : nat) (i : Z) : get (repeat 0%Q n) i = 0%Q.
Proof.
  unfold get. destruct (Nat.lt_ge_cases (Z.to_nat i) n) as [H|H].
  - now rewrite nth_repeat_lt.
  - apply nth_overflow. now rewrite repeat_length.
Qed.

(** Two buffers of one length with the same entries are equal. *)
Lemma vec_ext (v w : vec) :
  size v = size w -> (forall j, 0 <= j < size v -> get v j = get w j) -> v = w.
Proof.
  unfold size, get. intros Hlen H.
  apply (nth_ext v w 0%Q 0%Q); [lia|].
  intros n Hn. specialize (H (Z.of_nat n)).
  rewrite Nat2Z.id in H. apply H. lia.
Qed.

(** ** Buffers that only receive ones *)

Lemma writes_size W enc enc' : writes W enc enc' -> size enc' = size enc.
Proof. now intros (H & _). Qed.

Lemma writes_range W enc enc' j : writes W enc enc' -> W j -> 0 <= j < size enc.
Proof. intros (_ & H & _). apply H. Qed.

Lemma writes_in W enc enc' j : writes W enc enc' -> W j -> get enc' j = 1%Q.
Proof.
  intros (_ & Hr & H) Hw. destruct (H j) as [(_ & E)|(N & _)];
    [apply Hr in Hw; lia | assumption | contradiction].
Qed.

Lemma writes_out W enc enc' j :
  writes W enc enc' -> 0 <= j -> ~ W j -> get enc' j = get enc j.
Proof.
  intros (_ & _ & H) Hj Hw. destruct (H j Hj) as [(Y & _)|(_ & E)];
    [contradiction | assumption].
Qed.

Lemma writes_none enc : writes (fun _ => False) enc enc.
Proof.
  split; [reflexivity|]. split; [intros j []|].
  intros j Hj. right. split; [tauto | reflexivity].
Qed.

Lemma writes_ext (W W' : Z -> Prop) enc enc' :
  (forall j, W j <-> W' j) -> writes W enc enc' -> writes W' enc enc'.
Proof.
  intros E (Hs & Hr & H). split; [assumption|]. split.
  - intros j Hj. apply Hr. now apply E.
  - intros j Hj. destruct (H j Hj) as [(Y & G)|(N & G)];
      [left | right]; (split; [|assumption]); rewrite <- E; assumption.
Qed.

Lemma writes_trans (W1 W2 : Z -> Prop) e0 e1 e2 :
  writes W1 e0 e1 -> writes W2 e1 e2 ->
  writes (fun j => W1 j \/ W2 j) e0 e2.
Proof.
  intros (Hs1 & Hr1 & H1) (Hs2 & Hr2 & H2). split; [congruence|]. split.
  - intros j [Hj|Hj]; [now apply Hr1 | rewrite <- Hs1; now apply Hr2].
  - intros j Hj. destruct (H2 j Hj) as [(Y2 & G2)|(N2 & G2)].
    + left. auto.
    + destruct (H1 j Hj) as [(Y1 & G1)|(N1 & G1)].
      * left. split; [auto | congruence].
      * right. split; [tauto | congruence].
Qed.

Lemma writes_store enc enc' i :
  store enc i 1%Q = Ok enc' -> writes (fun j => j = i) enc enc'.
Proof.
  intros H. split; [now apply store_size in H|]. split.
  - intros j ->. now apply store_inv in H.
  - intros j Hj. destruct (Z.eq_dec j i) as [->|Hne].
    + left. split; [reflexivity | now apply get_store_eq in H].
    + right. split; [assumption | now apply (get_store_neq _ _ _ _ _ H)].
Qed.

(** Running the same writes on a buffer that already holds them changes
    nothing: the result of a section encoder is a fixed point of it. *)
Lemma writes_idem W e0 e1 e2 : writes W e0 e1 -> writes W e1 e2 -> e2 = e1.
Proof.
  intros H1 H2. apply vec_ext; [apply (writes_size _ _ _ H2)|].
  intros j Hj. destruct (proj2 (proj2 H2) j) as [(Y & G)|(N & G)];
    [lia | | assumption].
  rewrite G. symmetry. now apply (writes_in _ _ _ _ H1).
Qed.

Lemma bits_only_zeros n : bits_only (repeat 0%Q n).
Proof. intros j _. left. apply get_repeat. exact 0%Q. Qed.

Lemma writes_bits W enc enc' : writes W enc enc' -> bits_only enc -> bits_only enc'.
Proof.
  intros (_ & _ & H) Hb j Hj. destruct (H j Hj) as [(_ & ->)|(_ & ->)];
    [now right | now apply Hb].
Qed.

(** The writes of a counted loop are the union of the writes of its turns. *)
Lemma writes_for_range (Wi : Z -> Z -> Prop) (n : Z)
  (body : vec -> Z -> result vec) (enc enc' : vec) :
  for_range n body enc = Ok enc' ->
  (forall i t t', 0 <= i < n -> body t i = Ok t' -> writes (Wi i) t t') ->
  writes (fun j => exists i, 0 <= i < n /\ Wi i j) enc enc'.
Proof.
  intros Hrun Hbody. destruct (Z.le_gt_cases 0 n) as [Hn|Hn].
  - apply (for_range_inv
             (fun m t => writes (fun j => exists i, 0 <= i < m /\ Wi i j) enc t)
             body n enc enc' Hn Hrun).
    + eapply writes_ext; [|apply writes_none].
      intros j. split; [intros [] | intros (i & Hi & _); lia].
    + intros i t t' Hi Ht Hb. apply Hbody in Hb; [|assumption].
      eapply writes_ext; [|exact (writes_trans _ _ _ _ _ Ht Hb)].
      intros j. split.
      * intros [(k & Hk & Hw)|Hw]; [exists k | exists i]; split; auto; lia.
      * intros (k & Hk & Hw). destruct (Z.eq_dec k i) as [->|Hne];
          [now right | left; exists k; split; auto; lia].
  - rewrite for_range_nonpos in Hrun by lia. injection Hrun as <-.
    eapply writes_ext; [|apply writes_none].
    intros j. split; [intros [] | intros (i & Hi & _); lia].
Qed.

(** The thermometer loop. *)
Lemma set_prefix_writes offset n enc enc' :
  set_prefix offset n enc = Ok enc' ->
  writes (fun j => offset <= j < offset + n) enc enc'.
Proof.
  intros H. unfold set_prefix in H.
  apply (writes_for_range (fun i j => j = offset + i)) in H.
  - eapply writes_ext; [|exact H]. intros j. split.
    + intros (i & Hi & ->). lia.
    + intros Hj. exists (j - offset). lia.
  - intros i t t' _ Hs. now apply writes_store.
Qed.

Lemma set_prefix_ok offset n enc :
  0 <= offset -> offset + n <= size enc ->
  exists enc', set_prefix offset n enc = Ok enc'.
Proof.
  intros Ho Hn. destruct (Z.le_gt_cases 0 n) as [H0|H0].
  - destruct (for_range_progress (fun _ t => size t = size enc)
                (fun encoding i => store encoding (offset + i) 1%Q) n enc)
      as (enc' & H & _); [assumption | reflexivity | | now exists enc'].
    intros i t Hi Ht. rewrite store_ok by lia. eexists. split; [reflexivity|].
    unfold size in *. now rewrite length_list_set.
  - exists enc. apply for_range_nonpos. lia.
Qed.

(** ** Layout calculator *)

(** C2: [Shape] is the one-element shape holding the sum of the Hands,
    Board, Discards and LastAction section lengths of the specification,
    plus the CardKnowledge length unless the observation type is minimal.
    [Shape] takes the game alone, so its value cannot depend on an
    observation; the product of its dimensions is that same sum. *)
Theorem Shape_is_sum_of_sections (game : HanabiGame.t) :
  Shape game = [LayoutSpec.Total game] /\
  FlatLength (Shape game) = LayoutSpec.Total game /\
  HandsSectionLength game = LayoutSpec.Hands game /\
  BoardSectionLength game = LayoutSpec.Board game /\
  DiscardSectionLength game = LayoutSpec.Discards game /\
  LastActionSectionLength game = LayoutSpec.LastAction game /\
  CardKnowledgeSectionLength game = LayoutSpec.CardKnowledge game.
Proof.
  assert (E : Shape game = [LayoutSpec.Total game]).
  { unfold Shape, LayoutSpec.Total, HandsSectionLength, BoardSectionLength,
      DiscardSectionLength, LastActionSectionLength,
      CardKnowledgeSectionLength, BitsPerCard, LayoutSpec.Hands,
      LayoutSpec.Board, LayoutSpec.Discards, LayoutSpec.LastAction,
      LayoutSpec.CardKnowledge.
    now destruct (ObservationType game). }
  split; [exact E|]. split.
  - rewrite E. unfold FlatLength. simpl.
    now destruct (LayoutSpec.Total game).
  - repeat split.
Qed.

(** ** Last-action section *)

Lemma store_progress {A : Type} (v : list A) (i : Z) (x : A) :
  0 <= i < size v -> exists v', store v i x = Ok v' /\ size v' = size v.
Proof.
  intros H. exists (list_set v (Z.to_nat i) x). split; [now apply store_ok|].
  unfold size. now rewrite length_list_set.
Qed.

Lemma GetLastNonDealMove_none (moves : list HanabiHistoryItem.t) :
  (forall item, In item moves ->
     HanabiMove.MoveType (HanabiHistoryItem.move item) = HanabiMove.kDeal) ->
  GetLastNonDealMove moves = None.
Proof.
  unfold GetLastNonDealMove. induction moves as [|m l IH]; intros H; simpl.
  - reflexivity.
  - rewrite (H m) by now left. simpl. apply IH. intros item Hi. apply H.
    now right.
Qed.

(** C9: when the history holds no move other than deals, the last-action
    encoder stores nothing and still consumes the full width of its section
    (the buffer comes back unchanged together with the static section
    length), so the accessor returns the all-zero vector of that length. *)
Theorem EncodeLastAction_without_move (game : HanabiGame.t)
  (obs : HanabiObservation.t) :
  0 <= LastActionSectionLength game ->
  only_deals obs ->
  (forall start enc,
     EncodeLastAction_ game obs start enc
     = Ok (enc, LastActionSectionLength game)) /\
  EncodeLastAction game obs
  = Ok (repeat 0%Q (Z.to_nat (LastActionSectionLength game))).
Proof.
  intros Hlen Hdeals.
  assert (E : forall start enc,
             EncodeLastAction_ game obs start enc
             = Ok (enc, LastActionSectionLength game)).
  { intros start enc. unfold EncodeLastAction_.
    rewrite (GetLastNonDealMove_none _ Hdeals). cbn [bind].
    replace (start + LastActionSectionLength game - start)
      with (LastActionSectionLength game) by lia.
    now rewrite Z.eqb_refl. }
  split; [exact E|].
  unfold EncodeLastAction. rewrite new_vector_ok by assumption. cbn [bind].
  rewrite E. cbn [bind]. rewrite size_repeat by assumption.
  rewrite Z.add_0_l, Z.eqb_refl. reflexivity.
Qed.

Lemma EncodeLastAction_without_move_witness :
  (forall start enc,
     EncodeLastAction_ standard_game fresh_observation start enc
     = Ok (enc, LastActionSectionLength standard_game)) /\
  EncodeLastAction standard_game fresh_observation
  = Ok (repeat 0%Q (Z.to_nat (LastActionSectionLength standard_game))).
Proof.
  apply EncodeLastAction_without_move.
  - vm_compute. discriminate.
  - intros item [<-|[<-|[]]]; reflexivity.
Defined.

Lemma land_pow2 (a i : Z) :
  0 <= i -> Z.land a (2 ^ i) = if Z.testbit a i then 2 ^ i else 0.
Proof.
  intros Hi. apply Z.bits_inj'. intros n Hn.
  rewrite Z.land_spec, Z.pow2_bits_eqb by assumption.
  destruct (Z.eqb_spec i n) as [->|Hne].
  - destruct (Z.testbit a n) eqn:E; simpl.
    + rewrite Z.pow2_bits_eqb by assumption. now rewrite Z.eqb_refl.
    + now rewrite Z.bits_0.
  - rewrite andb_false_r. destruct (Z.testbit a i).
    + rewrite Z.pow2_bits_eqb by assumption. symmetry. now apply Z.eqb_neq.
    + now rewrite Z.bits_0.
Qed.

(** The loop that unpacks the reveal bitmask sets the slot [i] exactly
    when bit [i] of the mask is set. *)
Lemma EncodeLastAction_outcome_loop (bm off n : Z) (enc : vec) :
  0 <= off -> off + n <= size enc ->
  exists m enc',
    for_range n (EncodeLastAction_outcome bm off) (1, enc) = Ok (m, enc') /\
    writes (fun j => exists i, 0 <= i < n /\ Z.testbit bm i = true
                               /\ j = off + i) enc enc'.
Proof.
  intros Hoff Hn. destruct (Z.le_gt_cases 0 n) as [H0|H0].
  - destruct (for_range_progress
                (fun k st =>
                   fst st = 2 ^ k /\
                   writes (fun j => exists i, 0 <= i < k
                                              /\ Z.testbit bm i = true
                                              /\ j = off + i) enc (snd st))
                (EncodeLastAction_outcome bm off) n (1, enc) H0)
      as ((m & enc') & Hrun & _ & Hw).
    + split; [reflexivity|]. simpl.
      eapply writes_ext; [|apply writes_none].
      intros j. split; [intros [] | intros (i & Hi & _); lia].
    + intros i (mask & t) Hi (Hm & Hw). simpl in Hm, Hw. subst mask.
      unfold EncodeLastAction_outcome. rewrite land_pow2 by lia.
      assert (Hp : 0 < 2 ^ i) by (apply Z.pow_pos_nonneg; lia).
      assert (Hsh : Z.shiftl (2 ^ i) 1 = 2 ^ (i + 1)).
      { rewrite Z.shiftl_mul_pow2 by lia. rewrite Z.pow_add_r by lia. lia. }
      destruct (Z.testbit bm i) eqn:Hb.
      * replace (2 ^ i >? 0) with true by lia.
        destruct (store_progress t (off + i) 1%Q) as (t' & Ht & Hs).
        { rewrite (writes_size _ _ _ Hw). lia. }
        rewrite Ht. cbn [bind]. eexists. split; [reflexivity|].
        split; [exact Hsh|]. simpl.
        eapply writes_ext;
          [|exact (writes_trans _ _ _ _ _ Hw (writes_store _ _ _ Ht))].
        intros j. split.
        -- intros [(k & Hk & Hbk & ->)| ->];
             [exists k | exists i]; repeat split; auto; lia.
        -- intros (k & Hk & Hbk & ->). destruct (Z.eq_dec k i) as [->|Hne];
             [now right | left; exists k; repeat split; auto; lia].
      * replace (0 >? 0) with false by lia. cbn [bind].
        eexists. split; [reflexivity|]. split; [exact Hsh|]. simpl.
        eapply writes_ext; [|exact Hw].
        intros j. split.
        -- intros (k & Hk & Hbk & ->). exists k. repeat split; auto; lia.
        -- intros (k & Hk & Hbk & ->). destruct (Z.eq_dec k i) as [->|Hne];
             [congruence | exists k; repeat split; auto; lia].
    + now exists m, enc'.
  - exists 1, enc. split; [apply for_range_nonpos; lia|].
    eapply writes_ext; [|apply writes_none].
    intros j. split; [intros [] | intros (i & Hi & _); lia].
Qed.

Ltac step_store :=
  match goal with
  | |- context [bind (store ?e ?i ?x) _] =>
      let e' := fresh "enc" in
      let E := fresh "St" in
      let S := fresh "Sz" in
      destruct (store_progress e i x) as (e' & E & S);
      [ | rewrite E; cbn [bind]]
  end.

(** The entries of the last-action vector in scenario C: the set entries
    are those of the acting player, of the move type (the third of the
    four), of the target player, of the color, and of the touched slots. *)
Lemma EncodeLastAction_color_hint_entries (game : HanabiGame.t)
  (obs : HanabiObservation.t) :
  2 <= NumPlayers game -> 3 <= NumColors game -> 0 <= NumRanks game ->
  4 <= HandSize game ->
  color_hint_scenario game obs ->
  exists enc,
    EncodeLastAction game obs = Ok enc /\
    size enc = LastActionSectionLength game /\
    forall j, 0 <= j ->
      let W :=
        j = 0 \/ j = NumPlayers game + 2 \/ j = NumPlayers game + 4 + 1 \/
        j = NumPlayers game + 4 + NumPlayers game + 2 \/
        exists i, 0 <= i < HandSize game /\ ((i =? 0) || (i =? 3) = true) /\
                  j = NumPlayers game + 4 + NumPlayers game + NumColors game
                      + NumRanks game + i in
      (W -> get enc j = 1%Q) /\ (~ W -> get enc j = 0%Q).
Proof.
  intros HP HC HR HH (item & Hlast & Hty & Hpl & Hto & Hco & Hbm).
  assert (HCR : 0 <= NumColors game * NumRanks game) by nia.
  assert (HL : 0 <= LastActionSectionLength game)
    by (unfold LastActionSectionLength, BitsPerCard; lia).
  unfold EncodeLastAction. rewrite new_vector_ok by assumption. cbn [bind].
  pose proof (size_repeat 0%Q _ HL) as Sz0.
  set (enc0 := repeat 0%Q (Z.to_nat (LastActionSectionLength game))) in *.
  unfold EncodeLastAction_. rewrite Hlast. unfold EncodeLastAction_move.
  rewrite Hty, Hpl, Hto, Hco.
  cbv beta iota zeta delta [HanabiMove.is_reveal HanabiMove.is_play_or_discard].
  unfold LastActionSectionLength, BitsPerCard in *.
  step_store; [lia|].
  step_store; [lia|].
  unfold int_rem. replace (NumPlayers game =? 0) with false by lia.
  cbn [bind]. rewrite Z.rem_small by lia.
  change (to_int8 (0 + 1)) with 1.
  step_store; [lia|].
  step_store; [lia|].
  destruct (EncodeLastAction_outcome_loop
              (HanabiHistoryItem.reveal_bitmask item)
              (0 + NumPlayers game + 4 + NumPlayers game + NumColors game
               + NumRanks game) (HandSize game) enc3)
    as (m & enc4 & Hloop & Hw); [lia | lia |].
  rewrite Hloop. cbn [bind].
  match goal with
  | |- context [assert (?a =? ?b) SectionLength] =>
      replace (a =? b) with true by lia
  end.
  cbn [bind assert].
  pose proof (writes_size _ _ _ Hw) as Sz4.
  replace (0 + _ =? size enc4) with true by lia. cbn [bind].
  exists enc4. split; [reflexivity|]. split; [lia|].
  pose proof (writes_trans _ _ _ _ _
                (writes_trans _ _ _ _ _
                   (writes_trans _ _ _ _ _
                      (writes_trans _ _ _ _ _ (writes_store _ _ _ St)
                                    (writes_store _ _ _ St0))
                      (writes_store _ _ _ St1))
                   (writes_store _ _ _ St2)) Hw) as Hall.
  intros j Hj. split.
  - intros HW. apply (writes_in _ _ _ _ Hall).
    destruct HW as [->|[->|[->|[->|(i & Hi & Hb & ->)]]]].
    + left; left; left; left. lia.
    + left; left; left; right. lia.
    + left; left; right. lia.
    + left; right. lia.
    + right. exists i. rewrite Hbm by assumption. repeat split; auto; lia.
  - intros HW. rewrite (writes_out _ _ _ _ Hall Hj).
    + unfold enc0. apply get_repeat. exact 0%Q.
    + intros [[[[->| ->]| ->]| ->]|(i & Hi & Hb & ->)]; apply HW.
      * left. lia.
      * right; left. lia.
      * right; right; left. lia.
      * right; right; right; left. lia.
      * right; right; right; right. exists i. rewrite <- Hbm by assumption.
        repeat split; auto; lia.
Qed.

(** C6 (amended): in scenario C the last-action section has the
    acting-player entry 0 set, the move-type entry 2 set (the move types are
    laid out as play, discard, reveal color, reveal rank), the target-player
    entry 1 set, the color entry 2 set, the rank field all zero, exactly the
    entries 0 and 3 of the touched-slot field set, and nothing else. *)
Theorem EncodeLastAction_color_hint (game : HanabiGame.t)
  (obs : HanabiObservation.t) :
  2 <= NumPlayers game -> 3 <= NumColors game -> 0 <= NumRanks game ->
  4 <= HandSize game ->
  color_hint_scenario game obs ->
  exists enc,
    EncodeLastAction game obs = Ok enc /\ color_hint_encoding 2 game enc.
Proof.
  intros HP HC HR HH Hsc.
  destruct (EncodeLastAction_color_hint_entries game obs HP HC HR HH Hsc)
    as (enc & Hrun & Hsize & Hget).
  assert (HCR : 0 <= NumColors game * NumRanks game) by nia.
  exists enc. split; [exact Hrun|].
  unfold color_hint_encoding, one_hot, all_zero, LastActionField.position,
    LastActionField.outcome, LastActionField.rank, LastActionField.color,
    LastActionField.target_player, LastActionField.move_type,
    LastActionField.acting_player, BitsPerCard.
  split; [exact Hsize|].
  repeat split; intros i Hi.
  - destruct (Z.eqb_spec i 0) as [->|Hne].
    + apply Hget; [lia|]. now left.
    + apply Hget; [lia|]. intros [H|[H|[H|[H|(k & Hk & _ & H)]]]]; lia.
  - destruct (Z.eqb_spec i 2) as [->|Hne].
    + apply Hget; [lia|]. right; left. lia.
    + apply Hget; [lia|]. intros [H|[H|[H|[H|(k & Hk & _ & H)]]]]; lia.
  - destruct (Z.eqb_spec i 1) as [->|Hne].
    + apply Hget; [lia|]. right; right; left. lia.
    + apply Hget; [lia|]. intros [H|[H|[H|[H|(k & Hk & _ & H)]]]]; lia.
  - destruct (Z.eqb_spec i 2) as [->|Hne].
    + apply Hget; [lia|]. right; right; right; left. lia.
    + apply Hget; [lia|]. intros [H|[H|[H|[H|(k & Hk & _ & H)]]]]; lia.
  - apply Hget; [lia|]. intros [H|[H|[H|[H|(k & Hk & _ & H)]]]]; lia.
  - destruct ((i =? 0) || (i =? 3)) eqn:Hb.
    + apply Hget; [lia|]. right; right; right; right. exists i.
      repeat split; auto; lia.
    + apply Hget; [lia|]. intros [H|[H|[H|[H|(k & Hk & Hbk & H)]]]]; lia.
  - apply Hget; [lia|]. intros [H|[H|[H|[H|(k & Hk & _ & H)]]]]; lia.
Qed.

Lemma color_hint_observation_scenario :
  color_hint_scenario standard_game color_hint_observation.
Proof.
  exists color_hint_item. repeat split.
  intros i Hi. change (HandSize standard_game) with 5 in Hi.
  assert (H : i = 0 \/ i = 1 \/ i = 2 \/ i = 3 \/ i = 4) by lia.
  destruct H as [->|[->|[->|[->| ->]]]]; reflexivity.
Qed.

Lemma EncodeLastAction_color_hint_witness :
  exists enc,
    EncodeLastAction standard_game color_hint_observation = Ok enc /\
    color_hint_encoding 2 standard_game enc.
Proof.
  apply EncodeLastAction_color_hint.
  - vm_compute. discriminate.
  - vm_compute. discriminate.
  - vm_compute. discriminate.
  - vm_compute. discriminate.
  - exact color_hint_observation_scenario.
Defined.

(** C6 as stated fails: in scenario C on the standard game the move-type
    entry 1 (the entry of a discard) stays zero. *)
Lemma EncodeLastAction_color_hint_not_type_bit_1 :
  color_hint_scenario standard_game color_hint_observation /\
  ~ (exists enc,
       EncodeLastAction standard_game color_hint_observation = Ok enc /\
       color_hint_encoding 1 standard_game enc).
Proof.
  split; [exact color_hint_observation_scenario|].
  intros (enc & Hrun & _ & _ & Hty & _).
  specialize (Hty 1 ltac:(lia)).
  vm_compute in Hrun. injection Hrun as <-.
  vm_compute in Hty. discriminate.
Qed.

(** ** Own-hand summary *)

Lemma get_store (v v' : vec) (i j : Z) (x : Q) :
  store v i x = Ok v' -> 0 <= j ->
  get v' j = if j =? i then x else get v j.
Proof.
  intros H Hj. destruct (Z.eqb_spec j i) as [->|Hne].
  - now apply get_store_eq in H.
  - now apply (get_store_neq _ _ _ _ _ H).
Qed.

(** The three-way branch of the loop body stores at the entry of the
    card's state, in the order at, below, above. *)
Lemma EncodeOwnHand_card_entry (fireworks : list Z) (card : HanabiCard.t)
  (firework : Z) (encoding : vec) (offset : Z) :
  load fireworks (HanabiCard.Color card) = Ok firework ->
  (if HanabiCard.Rank card =? firework then store encoding offset 1%Q
   else if HanabiCard.Rank card <? firework
        then store encoding (offset + 1) 1%Q
        else store encoding (offset + 2) 1%Q)
  = store encoding (offset + encoded_entry (card_state fireworks card)) 1%Q.
Proof.
  intros Hl. unfold card_state, getz. rewrite (load_nth _ _ _ 0 Hl).
  destruct (Z.eqb_spec (HanabiCard.Rank card) firework) as [E|E].
  - replace (HanabiCard.Rank card <? firework) with false by lia. simpl.
    now rewrite Z.add_0_r.
  - destruct (HanabiCard.Rank card <? firework); reflexivity.
Qed.

(** C7 (amended): for an observation whose own hand is visible (at most
    five valid cards), the accessor returns 15 entries, one group of three
    per card of the observer's hand with exactly one entry set, the three
    entries standing, in order, for a card at, below and above the firework
    level of its color; the groups past the hand are zero. *)
Theorem EncodeOwnHand_groups (game : HanabiGame.t) (obs : HanabiObservation.t) :
  own_hand_visible game obs ->
  exists enc,
    EncodeOwnHand game obs = Ok enc /\ own_hand_summary encoded_entry obs enc.
Proof.
  intros (hand & Hhand & Hlen & Hcards).
  unfold EncodeOwnHand. change (5 * 3) with 15.
  rewrite new_vector_ok by lia. cbn [bind].
  set (enc0 := repeat 0%Q (Z.to_nat 15)).
  assert (Hload : load (Hands obs) 0 = Ok hand)
    by (apply load_nth_error; [lia | exact Hhand]).
  unfold EncodeOwnHand_. rewrite Hload. cbn [bind].
  destruct (foldM_progress
              (fun k st =>
                 fst st = 3 * k /\ size (snd st) = 15 /\
                 (forall k' card, 0 <= k' < k ->
                    nth_error (HanabiHand.Cards hand) (Z.to_nat k')
                    = Some card ->
                    one_hot (snd st) (3 * k') 3
                      (encoded_entry (card_state (Fireworks obs) card))) /\
                 (forall j, 3 * k <= j -> get (snd st) j = 0%Q))
              (EncodeOwnHand_card game (Fireworks obs))
              (HanabiHand.Cards hand) (0, enc0))
    as ((offset & enc) & Hrun & Hoff & Hsize & Hgroups & Hzero).
  - cbn [fst snd]. repeat split; [intros; lia|].
    intros j _. apply get_repeat. exact 0%Q.
  - intros k card (offset & t) Hk Hnth (Hoff & Hsize & Hgroups & Hzero).
    cbn [fst snd] in Hoff, Hsize, Hgroups, Hzero. subst offset.
    assert (Hin : In card (HanabiHand.Cards hand))
      by (eapply nth_error_In; eassumption).
    destruct (Hcards card Hin) as (Hv & Hc & Hcf & Hr).
    assert (Hk5 : k < size (HanabiHand.Cards hand)).
    { unfold size.
      assert (Z.to_nat k < length (HanabiHand.Cards hand))%nat
        by (apply nth_error_Some; congruence). lia. }
    unfold EncodeOwnHand_card.
    rewrite (assert_true (HanabiCard.Color card <? NumColors game))
      by lia. cbn [bind].
    rewrite (assert_true (HanabiCard.Rank card <? NumRanks game))
      by lia. cbn [bind].
    rewrite (assert_true _ _ Hv). cbn [bind].
    rewrite (load_ok _ _ 0) by lia. cbn [bind].
    rewrite (EncodeOwnHand_card_entry (Fireworks obs) card)
      by (apply load_ok; lia).
    set (e := encoded_entry (card_state (Fireworks obs) card)).
    assert (He : 0 <= e < 3)
      by (unfold e; destruct (card_state (Fireworks obs) card); simpl; lia).
    destruct (store_progress t (3 * k + e) 1%Q) as (t' & Ht & Hs); [lia|].
    rewrite Ht. cbn [bind]. eexists. split; [reflexivity|]. cbn [fst snd].
    repeat split; [lia | lia | |].
    + intros k' card' Hk' Hnth' i Hi.
      rewrite (get_store _ _ _ _ _ Ht) by lia.
      destruct (Z.eq_dec k' k) as [->|Hne].
      * assert (card' = card) by congruence. subst card'. fold e.
        destruct (Z.eqb_spec (3 * k + i) (3 * k + e)) as [E|E];
          destruct (Z.eqb_spec i e) as [E'|E']; try lia; [reflexivity|].
        apply Hzero. lia.
      * replace (3 * k' + i =? 3 * k + e) with false by lia.
        apply (Hgroups k' card'); [lia | assumption | assumption].
    + intros j Hj. rewrite (get_store _ _ _ _ _ Ht) by lia.
      replace (j =? 3 * k + e) with false by lia. apply Hzero. lia.
  - cbn [fst snd] in Hoff, Hsize, Hgroups, Hzero. rewrite Hrun. cbn [bind].
    rewrite (assert_true (offset <=? 15)) by lia. cbn [bind].
    exists enc. split; [reflexivity|]. split; [assumption|].
    exists hand. split; [assumption|]. split; [|assumption].
    intros k card Hk Hnth. apply (Hgroups k card); [|assumption].
    split; [assumption|]. unfold size.
    assert (Z.to_nat k < length (HanabiHand.Cards hand))%nat
      by (apply nth_error_Some; congruence). lia.
Qed.

Lemma shown_observation_visible :
  own_hand_visible standard_game shown_observation.
Proof.
  exists shown_own_hand. split; [reflexivity|]. split; [vm_compute; discriminate|].
  intros card [<-|[<-|[<-|[]]]]; repeat split; vm_compute; congruence.
Qed.

Lemma EncodeOwnHand_groups_witness :
  exists enc,
    EncodeOwnHand standard_game shown_observation = Ok enc /\
    own_hand_summary encoded_entry shown_observation enc.
Proof. apply EncodeOwnHand_groups. exact shown_observation_visible. Defined.

(** C7 as stated fails: the first card of the shown hand is below the red
    firework, and its group is set at entry 1, not at entry 0. *)
Lemma EncodeOwnHand_not_below_at_above :
  own_hand_visible standard_game shown_observation /\
  ~ (exists enc,
       EncodeOwnHand standard_game shown_observation = Ok enc /\
       own_hand_summary stated_entry shown_observation enc).
Proof.
  split; [exact shown_observation_visible|].
  intros (enc & Hrun & _ & hand & Hhand & Hgroups & _).
  injection Hhand as <-.
  specialize (Hgroups 0 (HanabiCard.mk 0 0 true) ltac:(lia) eq_refl
                      0 ltac:(lia)).
  vm_compute in Hrun. injection Hrun as <-.
  vm_compute in Hgroups. discriminate.
Qed.

(** ** Card-count estimator *)

Lemma nth_store {A : Type} (v v' : list A) (i j : Z) (x d : A) :
  store v i x = Ok v' -> 0 <= j ->
  nth (Z.to_nat j) v' d = if j =? i then x else nth (Z.to_nat j) v d.
Proof.
  intros H Hj. apply store_inv in H. destruct H as (Hi & ->).
  destruct (Z.eqb_spec j i) as [->|Hne].
  - apply nth_list_set_eq. unfold size in Hi. lia.
  - apply nth_list_set_neq. lia.
Qed.

Lemma getz_store (v v' : list Z) (i j x : Z) :
  store v i x = Ok v' -> 0 <= j ->
  getz v' j = if j =? i then x else getz v j.
Proof. apply nth_store. Qed.

Lemma load_getz (v : list Z) (i x : Z) : load v i = Ok x -> x = getz v i.
Proof. intros H. symmetry. now apply load_nth. Qed.

Lemma sum_list_set (l : list Z) (n : nat) (x : Z) :
  (n < length l)%nat ->
  sum_list (list_set l n x) = sum_list l - nth n l 0 + x.
Proof.
  revert n. induction l as [|h t IH]; intros [|n]; simpl; intros H; try lia.
  rewrite IH by lia. lia.
Qed.

Lemma sum_list_store (v v' : list Z) (i x : Z) :
  store v i x = Ok v' -> sum_list v' = sum_list v - getz v i + x.
Proof.
  intros H. apply store_inv in H. destruct H as (Hi & ->).
  apply sum_list_set. unfold size in Hi. lia.
Qed.

Lemma sum_list_repeat_0 (n : nat) : sum_list (repeat 0 n) = 0.
Proof. induction n as [|n IH]; simpl; [reflexivity | exact IH]. Qed.

Lemma getz_repeat_0 (n : nat) (i : Z) : getz (repeat 0 n) i = 0.
Proof.
  unfold getz. destruct (Nat.lt_ge_cases (Z.to_nat i) n) as [H|H].
  - now rewrite nth_repeat_lt.
  - apply nth_overflow. now rewrite repeat_length.
Qed.

(** The color-major index is one-to-one on cards of the game and orders
    them lexicographically. *)
Lemma CardIndex_inj (R c r c' r' : Z) :
  0 <= r < R -> 0 <= r' < R -> c * R + r = c' * R + r' -> c = c' /\ r = r'.
Proof. intros Hr Hr' E. destruct (Z.lt_trichotomy c c') as [H|[H|H]]; nia. Qed.

Lemma CardIndex_lt (R c r c' r' : Z) :
  0 <= r < R -> 0 <= r' < R ->
  c * R + r < c' * R + r' <-> c < c' \/ (c = c' /\ r < r').
Proof. intros Hr Hr'. destruct (Z.lt_trichotomy c c') as [H|[H|H]]; nia. Qed.

Lemma CardIndex_range (C R c r : Z) :
  0 <= c < C -> 0 <= r < R -> 0 <= c * R + r < C * R.
Proof. intros Hc Hr. nia. Qed.

(** First phase: the full deck. *)
Lemma ComputeCardCount_full_ranks (game : HanabiGame.t) (c : Z)
  (st : list Z * Z) :
  0 <= c < NumColors game -> 0 <= NumRanks game ->
  full_deck_upto game (c * NumRanks game) st ->
  exists st',
    for_range (NumRanks game) (ComputeCardCount_full game c) st = Ok st' /\
    full_deck_upto game ((c + 1) * NumRanks game) st'.
Proof.
  intros Hc HR Hst.
  destruct (for_range_progress
              (fun r st => full_deck_upto game (c * NumRanks game + r) st)
              (ComputeCardCount_full game c) (NumRanks game) st HR)
    as (st' & Hrun & Hst').
  - now rewrite Z.add_0_r.
  - intros r (cc & total) Hr (Hsize & Hsum & Hzero & Hdone).
    cbn [fst snd] in Hsize, Hsum, Hzero, Hdone.
    unfold ComputeCardCount_full.
    pose proof (CardIndex_range _ _ _ _ Hc Hr) as Hidx.
    destruct (store_progress cc (c * NumRanks game + r)
                (NumberCardInstances game c r)) as (cc' & Hs & Hsz); [lia|].
    rewrite Hs. cbn [bind]. eexists. split; [reflexivity|].
    unfold full_deck_upto. cbn [fst snd]. repeat split.
    + lia.
    + rewrite (sum_list_store _ _ _ _ Hs), (Hzero (c * NumRanks game + r))
        by lia. lia.
    + intros j Hj. rewrite (getz_store _ _ _ _ _ Hs) by lia.
      replace (j =? c * NumRanks game + r) with false by lia.
      apply Hzero. lia.
    + intros c' r' Hc' Hr' Hlt.
      rewrite (getz_store _ _ _ _ _ Hs) by nia.
      destruct (Z.eqb_spec (c' * NumRanks game + r')
                           (c * NumRanks game + r)) as [E|E].
      * apply CardIndex_inj in E; [|lia|lia]. destruct E as (-> & ->).
        reflexivity.
      * apply Hdone; [assumption | assumption | lia].
  - exists st'. split; [assumption|].
    now replace ((c + 1) * NumRanks game)
      with (c * NumRanks game + NumRanks game) by lia.
Qed.

Lemma ComputeCardCount_full_colors (game : HanabiGame.t) :
  0 <= NumColors game -> 0 <= NumRanks game ->
  exists st,
    for_range (NumColors game) (ComputeCardCount_full_color game)
      (repeat 0 (Z.to_nat (NumColors game * NumRanks game)), 0) = Ok st /\
    full_deck_upto game (NumColors game * NumRanks game) st.
Proof.
  intros HC HR.
  apply (for_range_progress
           (fun c st => full_deck_upto game (c * NumRanks game) st)
           (ComputeCardCount_full_color game) (NumColors game) _ HC).
  - unfold full_deck_upto. cbn [fst snd]. repeat split.
    + apply size_repeat. nia.
    + now rewrite sum_list_repeat_0.
    + intros j _. apply getz_repeat_0.
    + intros c r Hc Hr Hlt. nia.
  - intros c st Hc Hst. unfold ComputeCardCount_full_color.
    now apply ComputeCardCount_full_ranks.
Qed.

(** Removing one card: the entry and the total both drop by one. *)
Lemma ComputeCardCount_remove_inv (cc : list Z) (total index : Z)
  (st' : list Z * Z) :
  ComputeCardCount_remove (cc, total) index = Ok st' ->
  0 <= index < size cc /\
  size (fst st') = size cc /\
  snd st' = total - 1 /\
  sum_list (fst st') = sum_list cc - 1 /\
  forall j, 0 <= j ->
    getz (fst st') j = if j =? index then getz cc j - 1 else getz cc j.
Proof.
  unfold ComputeCardCount_remove. intros H.
  apply bind_Ok in H. destruct H as (n & Hl & H).
  apply bind_Ok in H. destruct H as (cc' & Hs & H).
  injection H as <-. cbn [fst snd].
  apply load_getz in Hl. subst n.
  split; [now apply store_inv in Hs|].
  split; [now apply store_size in Hs|].
  split; [reflexivity|].
  split; [rewrite (sum_list_store _ _ _ _ Hs); lia|].
  intros j Hj. rewrite (getz_store _ _ _ _ _ Hs) by assumption.
  now destruct (Z.eqb_spec j index) as [->|].
Qed.

Lemma ComputeCardCount_remove_ok (cc : list Z) (total index : Z) :
  0 <= index < size cc ->
  exists st', ComputeCardCount_remove (cc, total) index = Ok st'.
Proof.
  intros H. unfold ComputeCardCount_remove.
  rewrite (load_ok _ _ 0) by assumption. cbn [bind].
  rewrite store_ok by assumption. cbn [bind]. eauto.
Qed.




Lemma count_if_cons {A : Type} (p : A -> bool) (a : A) (l : list A) :
  count_if p (a :: l) = (if p a then 1 else 0) + count_if p l.
Proof.
  unfold count_if. simpl. destruct (p a); simpl length; lia.
Qed.

(** Second phase: the discard pile. *)
Lemma ComputeCardCount_discards (game : HanabiGame.t)
  (pile : list HanabiCard.t) (st : list Z * Z) :
  (forall card, In card pile ->
     0 <= HanabiCard.Color card < NumColors game /\
     0 <= HanabiCard.Rank card < NumRanks game) ->
  size (fst st) = NumColors game * NumRanks game ->
  snd st = sum_list (fst st) ->
  exists st',
    foldM (ComputeCardCount_discard (NumRanks game)) pile st = Ok st' /\
    counts_minus game (fun c r => count_if (is_card c r) pile) (fst st) st'.
Proof.
  revert st. induction pile as [|card pile IH]; intros (cc & total) Hin Hsz Hsum;
    cbn [fst snd] in *.
  - exists (cc, total). split; [reflexivity|].
    repeat split; cbn [fst snd]; auto. intros c r _ _.
    unfold count_if. simpl. lia.
  - destruct (Hin card (or_introl eq_refl)) as (Hc & Hr).
    pose proof (CardIndex_range _ _ _ _ Hc Hr) as Hidx.
    cbn [foldM]. unfold ComputeCardCount_discard at 1.
    destruct (ComputeCardCount_remove_ok cc total
                (HanabiCard.Color card * NumRanks game + HanabiCard.Rank card))
      as ((cc1 & t1) & H1); [lia|].
    rewrite H1.
    pose proof (ComputeCardCount_remove_inv _ _ _ _ H1)
      as (_ & Hsz1 & Ht1 & Hsum1 & Hget1). cbn [fst snd] in *.
    destruct (IH (cc1, t1)) as (st' & Hrun & Hsz' & Hsum' & Hget');
      [intros c Hc'; apply Hin; now right | cbn [fst snd]; lia
      | cbn [fst snd]; lia |].
    exists st'. split; [exact Hrun|]. split; [exact Hsz'|].
    split; [exact Hsum'|]. intros c r Hc' Hr'. cbn [fst snd] in Hget'.
    rewrite (Hget' c r Hc' Hr'), Hget1, count_if_cons by nia.
    unfold is_card.
    destruct (Z.eqb_spec (c * NumRanks game + r)
                (HanabiCard.Color card * NumRanks game + HanabiCard.Rank card))
      as [E|E].
    + apply CardIndex_inj in E; [|lia|lia]. destruct E as (-> & ->).
      rewrite !Z.eqb_refl. cbn [andb]. lia.
    + destruct (Z.eqb_spec (HanabiCard.Color card) c) as [Ec|Ec];
        destruct (Z.eqb_spec (HanabiCard.Rank card) r) as [Er|Er];
        cbn [andb]; lia.
Qed.

(** Third phase: the cards played on one firework, then on all. *)
Lemma ComputeCardCount_firework_ranks (game : HanabiGame.t) (c fw : Z)
  (st : list Z * Z) :
  0 <= c < NumColors game -> 0 <= fw <= NumRanks game ->
  size (fst st) = NumColors game * NumRanks game ->
  snd st = sum_list (fst st) ->
  exists st',
    for_range fw
      (fun st rank =>
         ComputeCardCount_remove st (c * NumRanks game + rank)) st = Ok st' /\
    counts_minus game
      (fun c' r' => if (c' =? c) && (r' <? fw) then 1 else 0) (fst st) st'.
Proof.
  intros Hc Hfw Hsz Hsum.
  apply (for_range_progress
           (fun k st' =>
              counts_minus game
                (fun c' r' => if (c' =? c) && (r' <? k) then 1 else 0)
                (fst st) st')); [lia | |].
  - repeat split; auto. intros c' r' _ Hr'.
    replace (r' <? 0) with false by lia. rewrite andb_false_r. lia.
  - intros k (cc & total) Hk (Hsz' & Hsum' & Hget'). cbn [fst snd] in *.
    assert (Hidx : 0 <= c * NumRanks game + k < NumColors game * NumRanks game)
      by (apply CardIndex_range; lia).
    destruct (ComputeCardCount_remove_ok cc total (c * NumRanks game + k))
      as ((cc1 & t1) & H1); [lia|].
    exists (cc1, t1). split; [exact H1|].
    pose proof (ComputeCardCount_remove_inv _ _ _ _ H1)
      as (_ & Hsz1 & Ht1 & Hsum1 & Hget1). cbn [fst snd] in *.
    repeat split; cbn [fst snd]; [lia | lia |].
    intros c' r' Hc' Hr'. rewrite Hget1, (Hget' c' r' Hc' Hr') by nia.
    destruct (Z.eqb_spec (c' * NumRanks game + r') (c * NumRanks game + k))
      as [E|E].
    + apply CardIndex_inj in E; [|lia|lia]. destruct E as (-> & ->).
      rewrite Z.eqb_refl. cbn [andb].
      replace (k <? k) with false by lia.
      replace (k <? k + 1) with true by lia. lia.
    + destruct (Z.eqb_spec c' c) as [->|Ec]; cbn [andb]; [|lia].
      assert (r' <> k) by (intros ->; apply E; reflexivity).
      destruct (Z.ltb_spec r' k); destruct (Z.ltb_spec r' (k + 1)); lia.
Qed.

Lemma ComputeCardCount_fireworks (game : HanabiGame.t)
  (obs : HanabiObservation.t) (st : list Z * Z) :
  0 <= NumColors game ->
  NumColors game <= size (Fireworks obs) ->
  (forall c, 0 <= c < NumColors game ->
     getz (Fireworks obs) c <= NumRanks game) ->
  size (fst st) = NumColors game * NumRanks game ->
  snd st = sum_list (fst st) ->
  exists st',
    for_range (NumColors game)
      (ComputeCardCount_firework (NumRanks game) (Fireworks obs)) st
    = Ok st' /\
    counts_minus game (played obs) (fst st) st'.
Proof.
  intros HC Hfsz Hfw Hsz Hsum.
  destruct (for_range_progress
              (fun c st' =>
                 counts_minus game
                   (fun c' r' => if c' <? c then played obs c' r' else 0)
                   (fst st) st')
              (ComputeCardCount_firework (NumRanks game) (Fireworks obs))
              (NumColors game) st HC)
    as (st' & Hrun & Hsz' & Hsum' & Hget').
  - repeat split; auto. intros c' r' Hc' _.
    replace (c' <? 0) with false by lia. lia.
  - intros c (cc & total) Hc (Hsz' & Hsum' & Hget'). cbn [fst snd] in *.
    unfold ComputeCardCount_firework.
    rewrite (load_ok _ _ 0) by lia. cbn [bind].
    fold (getz (Fireworks obs) c).
    destruct (Z.gtb_spec (getz (Fireworks obs) c) 0) as [Hpos|Hnpos].
    + destruct (ComputeCardCount_firework_ranks game c
                  (getz (Fireworks obs) c) (cc, total))
        as (st1 & H1 & Hsz1 & Hsum1 & Hget1);
        [lia | specialize (Hfw c Hc); lia | exact Hsz' | exact Hsum' |].
      exists st1. split; [exact H1|]. cbn [fst snd] in *.
      repeat split; [exact Hsz1 | exact Hsum1 |].
      intros c' r' Hc' Hr'.
      rewrite (Hget1 c' r' Hc' Hr'), (Hget' c' r' Hc' Hr').
      unfold played.
      destruct (Z.eqb_spec c' c) as [->|Ec]; cbn [andb].
      * replace (c <? c) with false by lia.
        replace (c <? c + 1) with true by lia. lia.
      * destruct (Z.ltb_spec c' c); destruct (Z.ltb_spec c' (c + 1)); lia.
    + exists (cc, total). split; [reflexivity|]. cbn [fst snd].
      repeat split; [exact Hsz' | exact Hsum' |].
      intros c' r' Hc' Hr'. cbn [fst snd]. rewrite (Hget' c' r' Hc' Hr').
      unfold played.
      destruct (Z.ltb_spec c' c); destruct (Z.ltb_spec c' (c + 1));
        try lia.
      assert (c' = c) by lia. subst c'.
      replace (r' <? getz (Fireworks obs) c) with false by lia. lia.
  - exists st'. split; [exact Hrun|]. repeat split; auto.
    intros c' r' Hc' Hr'. rewrite (Hget' c' r' Hc' Hr').
    now replace (c' <? NumColors game) with true by lia.
Qed.

(** The three phases together: the counts computed before the sanity
    check, and the outcome of the check. *)
Lemma ComputeCardCount_entries (game : HanabiGame.t)
  (obs : HanabiObservation.t) :
  0 <= NumColors game -> 0 <= NumRanks game -> piles_in_range game obs ->
  exists cc,
    size cc = NumColors game * NumRanks game /\
    (forall c r, 0 <= c < NumColors game -> 0 <= r < NumRanks game ->
       getz cc (c * NumRanks game + r) = remaining game obs c r) /\
    ComputeCardCount game obs
    = if sum_list cc =? DeckSize obs + total_hand_size (Hands obs)
      then Ok cc else Fail (AssertFailed SizeMismatch).
Proof.
  intros HC HR (Hpile & Hfsz & Hfw).
  destruct (ComputeCardCount_full_colors game HC HR)
    as (st1 & H1 & Hsz1 & Hsum1 & _ & Hget1).
  destruct (ComputeCardCount_discards game (DiscardPile obs) st1
              Hpile Hsz1 Hsum1) as (st2 & H2 & Hsz2 & Hsum2 & Hget2).
  destruct (ComputeCardCount_fireworks game obs st2 HC Hfsz Hfw Hsz2 Hsum2)
    as ((cc & total) & H3 & Hsz3 & Hsum3 & Hget3).
  cbn [fst snd] in *.
  exists cc. split; [exact Hsz3|]. split.
  - intros c r Hc Hr. rewrite (Hget3 c r Hc Hr), (Hget2 c r Hc Hr).
    rewrite Hget1 by nia. reflexivity.
  - unfold ComputeCardCount. rewrite new_vector_ok by nia. cbn [bind].
    rewrite H1. cbn [bind]. rewrite H2. cbn [bind]. rewrite H3. cbn [bind].
    subst total.
    now destruct (sum_list cc =? DeckSize obs + total_hand_size (Hands obs)).
Qed.


Lemma fresh_piles_in_range : piles_in_range standard_game fresh_observation.
Proof.
  split; [intros card []|]. split; [vm_compute; discriminate|].
  intros c Hc. change (NumColors standard_game) with 5 in Hc.
  assert (H : c = 0 \/ c = 1 \/ c = 2 \/ c = 3 \/ c = 4) by lia.
  destruct H as [->|[->|[->|[->| ->]]]]; vm_compute; discriminate.
Qed.



Lemma ComputeCardCount_size (game : HanabiGame.t) (obs : HanabiObservation.t)
  (cc : list Z) :
  ComputeCardCount game obs = Ok cc ->
  size cc = NumColors game * NumRanks game.
Proof.
  unfold ComputeCardCount. intros H.
  apply bind_Ok in H. destruct H as (cc0 & H0 & H).
  apply new_vector_inv in H0. destruct H0 as (HN & ->).
  apply bind_Ok in H. destruct H as (st1 & H1 & H).
  apply bind_Ok in H. destruct H as (st2 & H2 & H).
  apply bind_Ok in H. destruct H as ((cc3 & total) & H3 & H).
  apply bind_Ok in H. destruct H as (u & _ & H). injection H as <-.
  set (N := NumColors game * NumRanks game) in *.
  assert (I1 : size (fst st1) = N).
  { apply (for_range_preserves (fun st => size (fst st) = N) _ _ _ _ H1).
    - cbn [fst]. now apply size_repeat.
    - intros c t t' It Hb. unfold ComputeCardCount_full_color in Hb.
      apply (for_range_preserves (fun st => size (fst st) = N) _ _ _ _ Hb It).
      intros r (v & n) u' Iu Hr. unfold ComputeCardCount_full in Hr.
      apply bind_Ok in Hr. destruct Hr as (v' & Hs & Hr). injection Hr as <-.
      cbn [fst] in *. now rewrite (store_size _ _ _ _ Hs). }
  assert (Hrem : forall (st st' : list Z * Z) i,
             size (fst st) = N -> ComputeCardCount_remove st i = Ok st' ->
             size (fst st') = N).
  { intros (v & n) st' i Iv Hr. apply ComputeCardCount_remove_inv in Hr.
    cbn [fst] in *. destruct Hr as (_ & -> & _). assumption. }
  assert (I2 : size (fst st2) = N).
  { apply (foldM_inv (fun _ st => size (fst st) = N) _ _ _ _ H2 I1).
    intros k card t t' _ _ It Hb. now apply (Hrem t t' _ It Hb). }
  change (size (fst (cc3, total)) = N).
  apply (for_range_preserves (fun st => size (fst st) = N) _ _ _ _ H3 I2).
  intros c t t' It Hb. unfold ComputeCardCount_firework in Hb.
  apply bind_Ok in Hb. destruct Hb as (fw & _ & Hb).
  destruct (fw >? 0); [|now injection Hb as <-].
  apply (for_range_preserves (fun st => size (fst st) = N) _ _ _ _ Hb It).
  intros r u0 u0' Iu Hr. now apply (Hrem u0 u0' _ Iu Hr).
Qed.

(** ** Discards section *)

Lemma sum_list_app (l1 l2 : list Z) :
  sum_list (l1 ++ l2) = sum_list l1 + sum_list l2.
Proof. induction l1 as [|a l1 IH]; simpl; [reflexivity | rewrite IH; lia]. Qed.

Lemma fields_before_0 (game : HanabiGame.t) : fields_before game 0 = 0.
Proof. reflexivity. Qed.

Lemma fields_before_succ (game : HanabiGame.t) (p : Z) :
  0 <= p ->
  fields_before game (p + 1) = fields_before game p + field_width game p.
Proof.
  intros Hp. unfold fields_before.
  rewrite range_succ, map_app, sum_list_app by assumption. simpl. lia.
Qed.

Lemma field_width_at (game : HanabiGame.t) (c r : Z) :
  0 <= r < NumRanks game ->
  field_width game (c * NumRanks game + r) = NumberCardInstances game c r.
Proof.
  intros Hr. unfold field_width.
  rewrite Z.add_comm, Z.div_add, Z.mod_add by lia.
  now rewrite Z.div_small, Z.mod_small by lia.
Qed.

Lemma index_split (C R q : Z) :
  0 <= q < C * R -> 0 <= R ->
  0 <= q / R < C /\ 0 <= q mod R < R /\ q = q / R * R + q mod R.
Proof.
  intros Hq HR.
  assert (HRpos : 0 < R).
  { destruct (Z.eq_dec R 0) as [->|]; [rewrite Z.mul_0_r in Hq|]; lia. }
  pose proof (Z.div_mod q R ltac:(lia)).
  pose proof (Z.mod_pos_bound q R HRpos).
  repeat split; try lia.
  - apply Z.div_pos; lia.
  - apply Z.div_lt_upper_bound; lia.
Qed.

Lemma field_width_nonneg (game : HanabiGame.t) (q : Z) :
  deck_complete game -> 0 <= q < NumColors game * NumRanks game ->
  0 <= field_width game q.
Proof.
  intros (HC & HR & Hinst & _) Hq.
  destruct (index_split _ _ _ Hq HR) as (Hc & Hr & _).
  now apply Hinst.
Qed.

Lemma fields_before_mono (game : HanabiGame.t) (p p' : Z) :
  deck_complete game ->
  0 <= p <= p' -> p' <= NumColors game * NumRanks game ->
  fields_before game p <= fields_before game p'.
Proof.
  intros Hdeck Hp.
  replace p' with (p + (p' - p)) by lia.
  assert (Hd : 0 <= p' - p) by lia. revert Hd.
  generalize (p' - p) as d. intros d Hd. pattern d.
  apply natlike_ind; [| |exact Hd]; clear d Hd.
  - rewrite Z.add_0_r. lia.
  - intros d Hd IH Hle. unfold Z.succ in *.
    replace (p + (d + 1)) with (p + d + 1) in * by lia.
    rewrite fields_before_succ by lia.
    pose proof (field_width_nonneg game (p + d) Hdeck). lia.
Qed.

(** The counting loop over the discard pile. *)
Lemma count_discards (game : HanabiGame.t) (pile : list HanabiCard.t)
  (dc : list Z) :
  (forall card, In card pile ->
     0 <= HanabiCard.Color card < NumColors game /\
     0 <= HanabiCard.Rank card < NumRanks game) ->
  size dc = NumColors game * NumRanks game ->
  exists dc',
    foldM (count_discard (NumRanks game)) pile dc = Ok dc' /\
    size dc' = NumColors game * NumRanks game /\
    forall c r, 0 <= c < NumColors game -> 0 <= r < NumRanks game ->
      getz dc' (c * NumRanks game + r)
      = getz dc (c * NumRanks game + r) + count_if (is_card c r) pile.
Proof.
  revert dc. induction pile as [|card pile IH]; intros dc Hin Hsz.
  - exists dc. split; [reflexivity|]. split; [assumption|].
    intros c r _ _. unfold count_if. simpl. lia.
  - destruct (Hin card (or_introl eq_refl)) as (Hc & Hr).
    pose proof (CardIndex_range _ _ _ _ Hc Hr) as Hidx.
    cbn [foldM]. unfold count_discard at 1.
    rewrite (load_ok _ _ 0) by lia. cbn [bind].
    destruct (store_progress dc
                (HanabiCard.Color card * NumRanks game + HanabiCard.Rank card)
                (nth (Z.to_nat (HanabiCard.Color card * NumRanks game
                                + HanabiCard.Rank card)) dc 0 + 1))
      as (dc1 & Hs & Hsz1); [lia|].
    rewrite Hs.
    destruct (IH dc1) as (dc' & Hrun & Hsz' & Hget');
      [intros c Hc'; apply Hin; now right | lia |].
    exists dc'. split; [exact Hrun|]. split; [exact Hsz'|].
    intros c r Hc' Hr'.
    rewrite (Hget' c r Hc' Hr'), (getz_store _ _ _ _ _ Hs), count_if_cons
      by nia.
    unfold is_card, getz.
    destruct (Z.eqb_spec (c * NumRanks game + r)
                (HanabiCard.Color card * NumRanks game + HanabiCard.Rank card))
      as [E|E].
    + apply CardIndex_inj in E; [|lia|lia]. destruct E as (-> & ->).
      rewrite !Z.eqb_refl. cbn [andb]. lia.
    + destruct (Z.eqb_spec (HanabiCard.Color card) c) as [Ec|Ec];
        destruct (Z.eqb_spec (HanabiCard.Rank card) r) as [Er|Er];
        cbn [andb]; lia.
Qed.

(** The fields of one color, then of all colors. *)
Lemma EncodeDiscards_ranks (game : HanabiGame.t) (dc : list Z)
  (start : Z) (enc0 : vec) (c : Z) (st : Z * vec) :
  deck_complete game ->
  0 <= c < NumColors game ->
  size dc = NumColors game * NumRanks game ->
  (forall q, 0 <= q < NumColors game * NumRanks game ->
     getz dc q <= field_width game q) ->
  0 <= start -> start + MaxDeckSize game <= size enc0 ->
  discards_upto game dc start enc0 (c * NumRanks game) st ->
  exists st',
    for_range (NumRanks game) (EncodeDiscards_rank game dc c) st = Ok st' /\
    discards_upto game dc start enc0 ((c + 1) * NumRanks game) st'.
Proof.
  intros Hdeck Hc Hsz Hle Hstart Hroom Hst.
  pose proof Hdeck as (HC & HR & Hinst & Htotal).
  destruct (for_range_progress
              (fun r st =>
                 discards_upto game dc start enc0 (c * NumRanks game + r) st)
              (EncodeDiscards_rank game dc c) (NumRanks game) st HR)
    as (st' & Hrun & Hst').
  - now rewrite Z.add_0_r.
  - intros r (offset & enc) Hr (Hoff & Hw). cbn [fst snd] in Hoff, Hw.
    set (p := c * NumRanks game + r) in *.
    assert (Hp : 0 <= p < NumColors game * NumRanks game)
      by (apply CardIndex_range; lia).
    pose proof (fields_before_mono game 0 p Hdeck ltac:(lia) ltac:(lia))
      as Hlo.
    pose proof (fields_before_mono game (p + 1)
                  (NumColors game * NumRanks game) Hdeck ltac:(lia)
                  ltac:(lia)) as Hhi.
    rewrite fields_before_0 in Hlo.
    rewrite fields_before_succ, Htotal in Hhi by lia.
    pose proof (Hle p Hp) as Hdp.
    unfold EncodeDiscards_rank. fold p.
    rewrite (load_ok _ _ 0) by lia. cbn [bind]. fold (getz dc p).
    destruct (set_prefix_ok offset (getz dc p) enc) as (enc' & Hset);
      [lia | rewrite (writes_size _ _ _ Hw); lia |].
    rewrite Hset. cbn [bind]. eexists. split; [reflexivity|].
    split; cbn [fst snd].
    + replace (c * NumRanks game + (r + 1)) with (p + 1) by lia.
      rewrite fields_before_succ by lia. unfold p at 2.
      rewrite field_width_at by lia. lia.
    + apply set_prefix_writes in Hset.
      eapply writes_ext; [|exact (writes_trans _ _ _ _ _ Hw Hset)].
      intros j. replace (c * NumRanks game + (r + 1)) with (p + 1) by lia.
      split.
      * intros [(q & Hq & Hj)|Hj]; [exists q | exists p]; split; lia.
      * intros (q & Hq & Hj). destruct (Z.eq_dec q p) as [->|Hne];
          [right; lia | left; exists q; split; lia].
  - exists st'. split; [assumption|].
    now replace ((c + 1) * NumRanks game)
      with (c * NumRanks game + NumRanks game) by lia.
Qed.

Lemma EncodeDiscards_colors (game : HanabiGame.t) (dc : list Z)
  (start : Z) (enc0 : vec) :
  deck_complete game ->
  size dc = NumColors game * NumRanks game ->
  (forall q, 0 <= q < NumColors game * NumRanks game ->
     getz dc q <= field_width game q) ->
  0 <= start -> start + MaxDeckSize game <= size enc0 ->
  exists st',
    for_range (NumColors game) (EncodeDiscards_color game dc) (start, enc0)
    = Ok st' /\
    discards_upto game dc start enc0 (NumColors game * NumRanks game) st'.
Proof.
  intros Hdeck Hsz Hle Hstart Hroom.
  pose proof Hdeck as (HC & HR & Hinst & Htotal).
  apply (for_range_progress
           (fun c st => discards_upto game dc start enc0 (c * NumRanks game) st)
           (EncodeDiscards_color game dc) (NumColors game) _ HC).
  - split; cbn [fst snd].
    + rewrite Z.mul_0_l, fields_before_0. lia.
    + eapply writes_ext; [|apply writes_none].
      intros j. split; [intros [] | intros (q & Hq & _); lia].
  - intros c st Hc Hst. unfold EncodeDiscards_color.
    now apply EncodeDiscards_ranks.
Qed.

(** C8 (amended): on a buffer whose Discards section is still zero, and
    for a discard pile that holds cards of the game only and no more copies
    of any card than the deck holds, [EncodeDiscards] consumes [MaxDeckSize]
    entries and leaves, in color-major order, one field per card, as wide as
    the deck holds copies of it, whose first [k] entries are 1 and whose
    other entries are 0, [k] being the number of copies of that card in the
    discard pile; nothing outside the section is touched.  With a single
    red 1 discarded its field shows one leading 1 and every other field is
    zero (the witness below).  The encoder does not check the pile against
    the deck (the lemma after the witness). *)
Theorem EncodeDiscards_thermometers (game : HanabiGame.t)
  (obs : HanabiObservation.t) (start : Z) (enc : vec) :
  deck_complete game ->
  discards_from_deck game obs ->
  0 <= start -> start + MaxDeckSize game <= size enc ->
  all_zero enc start (MaxDeckSize game) ->
  exists enc',
    EncodeDiscards game obs start enc = Ok (enc', MaxDeckSize game) /\
    size enc' = size enc /\
    discard_thermometers game obs start enc' /\
    (forall j, 0 <= j -> j < start \/ start + MaxDeckSize game <= j ->
               get enc' j = get enc j).
Proof.
  intros Hdeck (Hpile & Hcount) Hstart Hroom Hzero.
  pose proof Hdeck as (HC & HR & Hinst & Htotal).
  assert (HN : 0 <= NumColors game * NumRanks game) by nia.
  destruct (count_discards game (DiscardPile obs)
              (repeat 0 (Z.to_nat (NumColors game * NumRanks game))) Hpile
              (size_repeat 0 _ HN)) as (dc & Hdc & Hsz & Hget).
  assert (Hdcq : forall c r, 0 <= c < NumColors game ->
                   0 <= r < NumRanks game ->
                   getz dc (c * NumRanks game + r) = discarded obs c r).
  { intros c r Hc Hr. rewrite (Hget c r Hc Hr), getz_repeat_0.
    reflexivity. }
  assert (Hle : forall q, 0 <= q < NumColors game * NumRanks game ->
                  getz dc q <= field_width game q).
  { intros q Hq. destruct (index_split _ _ _ Hq HR) as (Hc & Hr & E).
    rewrite E at 1. rewrite (Hdcq _ _ Hc Hr). now apply Hcount. }
  destruct (EncodeDiscards_colors game dc start enc Hdeck Hsz Hle Hstart Hroom)
    as ((offset & enc') & Hrun & Hoff & Hw).
  cbn [fst snd] in Hoff, Hw. rewrite Htotal in Hoff.
  assert (Hbound : forall q, 0 <= q < NumColors game * NumRanks game ->
             0 <= fields_before game q /\
             fields_before game q + field_width game q <= MaxDeckSize game).
  { intros q Hq. split.
    - rewrite <- (fields_before_0 game).
      apply fields_before_mono; [assumption | lia | lia].
    - rewrite <- fields_before_succ, <- Htotal by lia.
      apply fields_before_mono; [assumption | lia | lia]. }
  exists enc'. split; [|split; [exact (writes_size _ _ _ Hw)|split]].
  - unfold EncodeDiscards. rewrite new_vector_ok by assumption. cbn [bind].
    rewrite Hdc. cbn [bind]. rewrite Hrun. cbn [bind].
    unfold DiscardSectionLength. subst offset.
    replace (start + MaxDeckSize game - start) with (MaxDeckSize game) by lia.
    now rewrite Z.eqb_refl.
  - intros c r Hc Hr i Hi. unfold discard_field_offset, CardIndex.
    set (p := c * NumRanks game + r).
    assert (Hp : 0 <= p < NumColors game * NumRanks game)
      by (apply CardIndex_range; lia).
    assert (Hwp : field_width game p = NumberCardInstances game c r)
      by (apply field_width_at; lia).
    pose proof (Hbound p Hp) as (Hlo & Hhi).
    assert (Hdp : getz dc p = discarded obs c r) by now apply Hdcq.
    destruct (Z.ltb_spec i (discarded obs c r)) as [Hlt|Hge].
    + apply (writes_in _ _ _ _ Hw). exists p. rewrite Hdp. lia.
    + rewrite (writes_out _ _ _ _ Hw).
      * replace (start + fields_before game p + i)
          with (start + (fields_before game p + i)) by lia.
        apply Hzero. lia.
      * lia.
      * intros (q & Hq & Hj). pose proof (Hle q Hq) as Hdq.
        destruct (Z.lt_trichotomy q p) as [Hqp|[->|Hqp]].
        -- pose proof (fields_before_mono game (q + 1) p Hdeck
                         ltac:(lia) ltac:(lia)) as Hm.
           rewrite fields_before_succ in Hm by lia. lia.
        -- rewrite Hdp in Hj. lia.
        -- pose proof (fields_before_mono game (p + 1) q Hdeck
                         ltac:(lia) ltac:(lia)) as Hm.
           rewrite fields_before_succ in Hm by lia. lia.
  - intros j Hj Hout. apply (writes_out _ _ _ _ Hw Hj).
    intros (q & Hq & Hjq). pose proof (Hle q Hq) as Hdq.
    pose proof (Hbound q Hq) as (Hlo & Hhi). lia.
Qed.

Lemma standard_deck_complete : deck_complete standard_game.
Proof.
  split; [vm_compute; discriminate|]. split; [vm_compute; discriminate|].
  split; [|reflexivity].
  intros c r _ _. simpl. unfold standard_instances.
  destruct (r =? 0); [lia|]. destruct (r =? 4); lia.
Qed.

Lemma one_discard_from_deck :
  discards_from_deck standard_game one_discard_observation.
Proof.
  split.
  - intros card [<-|[]]. vm_compute. repeat split; discriminate.
  - intros c r _ _. unfold discarded, count_if. simpl.
    unfold standard_instances.
    destruct (is_card c r _); simpl length;
      destruct (r =? 0); try lia; destruct (r =? 4); lia.
Qed.

Lemma EncodeDiscards_thermometers_witness :
  exists enc',
    EncodeDiscards standard_game one_discard_observation 0
      (repeat 0%Q 50) = Ok (enc', MaxDeckSize standard_game) /\
    size enc' = size (repeat 0%Q 50) /\
    discard_thermometers standard_game one_discard_observation 0 enc' /\
    (forall j, 0 <= j -> j < 0 \/ 0 + MaxDeckSize standard_game <= j ->
               get enc' j = get (repeat 0%Q 50) j).
Proof.
  apply EncodeDiscards_thermometers.
  - exact standard_deck_complete.
  - exact one_discard_from_deck.
  - lia.
  - vm_compute. discriminate.
  - intros i _. apply get_repeat. exact 0%Q.
Defined.

(** C8 as stated, for every observation, fails: with four red 1s in the
    discard pile, of which the deck holds three, [EncodeDiscards] returns
    with the entries 0 to 3 set, so the fourth copy runs over into the field
    of the red 2 (offset 3), of which none is discarded. *)
Lemma EncodeDiscards_overfull_field :
  ~ discards_from_deck standard_game overdiscarded_observation /\
  EncodeDiscards standard_game overdiscarded_observation 0 (repeat 0%Q 50)
  = Ok (overdiscarded_section, MaxDeckSize standard_game) /\
  all_zero (repeat 0%Q 50) 0 (MaxDeckSize standard_game) /\
  discarded overdiscarded_observation 0 1 = 0 /\
  discard_field_offset standard_game 0 1 = 3 /\
  get overdiscarded_section (0 + discard_field_offset standard_game 0 1 + 0)
  = 1%Q /\
  ~ discard_thermometers standard_game overdiscarded_observation 0
      overdiscarded_section.
Proof.
  split.
  { intros (_ & H). specialize (H 0 0 ltac:(cbn; lia) ltac:(cbn; lia)).
    vm_compute in H. now apply H. }
  split; [reflexivity|].
  split; [intros i _; apply get_repeat; exact 0%Q|].
  split; [reflexivity|]. split; [reflexivity|]. split; [reflexivity|].
  intros H. specialize (H 0 1 ltac:(cbn; lia) ltac:(cbn; lia) 0).
  assert (Hi : 0 <= 0 < NumberCardInstances standard_game 0 1)
    by (vm_compute; split; [discriminate | reflexivity]).
  specialize (H Hi). vm_compute in H. discriminate H.
Qed.

(** ** Card-knowledge section *)

(** A loop that only stores into the buffer succeeds when each of its turns
    does on a buffer of the same size. *)
Lemma for_range_same_size (n : Z) (body : vec -> Z -> result vec) (enc : vec) :
  (forall i t, 0 <= i < n -> size t = size enc ->
               exists t', body t i = Ok t' /\ size t' = size t) ->
  exists enc', for_range n body enc = Ok enc' /\ size enc' = size enc.
Proof.
  intros Hbody. destruct (Z.le_gt_cases 0 n) as [Hn|Hn].
  - apply (for_range_progress (fun _ t => size t = size enc));
      [assumption | reflexivity |].
    intros i t Hi Ht. destruct (Hbody i t Hi Ht) as (t' & E & S).
    exists t'. split; [assumption | congruence].
  - exists enc. split; [apply for_range_nonpos; lia | reflexivity].
Qed.

Lemma EncodeCardKnowledge_ranks_writes (R : Z) (k : CardKnowledge.t)
  (off c : Z) (enc enc' : vec) :
  for_range R (EncodeCardKnowledge_rank R k off c) enc = Ok enc' ->
  writes (fun j => exists r, 0 <= r < R /\
                     CardKnowledge.RankPlausible k r = true /\
                     j = off + CardIndex c r R) enc enc'.
Proof.
  intros H.
  apply (writes_for_range
           (fun r j => CardKnowledge.RankPlausible k r = true /\
                       j = off + CardIndex c r R)) in H; [exact H|].
  intros r t t' _ Hb. unfold EncodeCardKnowledge_rank in Hb.
  destruct (CardKnowledge.RankPlausible k r) eqn:E.
  - eapply writes_ext; [|exact (writes_store _ _ _ Hb)].
    intros j. tauto.
  - injection Hb as <-. eapply writes_ext; [|apply writes_none].
    intros j. split; [tauto | intros (F & _); discriminate].
Qed.

Lemma EncodeCardKnowledge_colors_writes (game : HanabiGame.t)
  (k : CardKnowledge.t) (off : Z) (enc enc' : vec) :
  for_range (NumColors game)
    (EncodeCardKnowledge_color (NumRanks game) k off) enc = Ok enc' ->
  writes (fun j => exists c r,
                     0 <= c < NumColors game /\ 0 <= r < NumRanks game /\
                     plausible k c r = true /\
                     j = off + CardIndex c r (NumRanks game)) enc enc'.
Proof.
  intros H.
  apply (writes_for_range
           (fun c j => exists r, 0 <= r < NumRanks game /\
                                 plausible k c r = true /\
                                 j = off + CardIndex c r (NumRanks game)))
    in H.
  - eapply writes_ext; [|exact H]. intros j. split.
    + intros (c & Hc & r & Hr & Hp & ->). now exists c, r.
    + intros (c & r & Hc & Hr & Hp & ->). exists c. split; [assumption|].
      now exists r.
  - intros c t t' _ Hb. unfold EncodeCardKnowledge_color in Hb.
    unfold plausible.
    destruct (CardKnowledge.ColorPlausible k c) eqn:E.
    + apply EncodeCardKnowledge_ranks_writes in Hb.
      eapply writes_ext; [|exact Hb]. intros j. cbn [andb]. tauto.
    + injection Hb as <-. eapply writes_ext; [|apply writes_none].
      intros j. split; [tauto | intros (r & _ & F & _); discriminate].
Qed.

(** One slot: partial correctness. *)
Lemma EncodeCardKnowledge_card_writes (game : HanabiGame.t)
  (n off : Z) (enc : vec) (k : CardKnowledge.t) (st' : Z * Z * vec) :
  EncodeCardKnowledge_card game (n, off, enc) k = Ok st' ->
  fst (fst st') = n + 1 /\
  snd (fst st') = off + slot_width game /\
  writes (knowledge_writes game k off) enc (snd st').
Proof.
  unfold EncodeCardKnowledge_card. intros H.
  apply bind_Ok in H. destruct H as (e1 & H1 & H).
  apply bind_Ok in H. destruct H as (e2 & H2 & H).
  apply bind_Ok in H. destruct H as (e3 & H3 & H).
  injection H as <-. cbn [fst snd].
  split; [reflexivity|]. split; [unfold slot_width; lia|].
  apply EncodeCardKnowledge_colors_writes in H1.
  assert (W2 : writes (fun j => CardKnowledge.ColorHinted k = true /\
                                j = off + BitsPerCard game
                                    + CardKnowledge.Color k) e1 e2).
  { destruct (CardKnowledge.ColorHinted k).
    - eapply writes_ext; [|exact (writes_store _ _ _ H2)]. intros j. tauto.
    - injection H2 as <-. eapply writes_ext; [|apply writes_none].
      intros j. split; [tauto | intros (F & _); discriminate]. }
  assert (W3 : writes (fun j => CardKnowledge.RankHinted k = true /\
                                j = off + BitsPerCard game + NumColors game
                                    + CardKnowledge.Rank k) e2 e3).
  { destruct (CardKnowledge.RankHinted k).
    - eapply writes_ext; [|exact (writes_store _ _ _ H3)]. intros j. tauto.
    - injection H3 as <-. eapply writes_ext; [|apply writes_none].
      intros j. split; [tauto | intros (F & _); discriminate]. }
  eapply writes_ext;
    [|exact (writes_trans _ _ _ _ _ (writes_trans _ _ _ _ _ H1 W2) W3)].
  intros j. unfold knowledge_writes. tauto.
Qed.

(** One slot: progress, when the indices to set lie in the buffer. *)
Lemma EncodeCardKnowledge_card_ok (game : HanabiGame.t)
  (n off : Z) (enc : vec) (k : CardKnowledge.t) :
  (forall j, knowledge_writes game k off j -> 0 <= j < size enc) ->
  exists st', EncodeCardKnowledge_card game (n, off, enc) k = Ok st'.
Proof.
  intros Hr. unfold EncodeCardKnowledge_card.
  destruct (for_range_same_size (NumColors game)
              (EncodeCardKnowledge_color (NumRanks game) k off) enc)
    as (e1 & H1 & S1).
  { intros c t Hc St. unfold EncodeCardKnowledge_color.
    destruct (CardKnowledge.ColorPlausible k c) eqn:Ec;
      [|exists t; split; reflexivity].
    apply for_range_same_size.
    intros r u Hrr Su. unfold EncodeCardKnowledge_rank.
    destruct (CardKnowledge.RankPlausible k r) eqn:Er;
      [|exists u; split; reflexivity].
    apply store_progress. rewrite Su, St. apply Hr. left.
    exists c, r. unfold plausible. rewrite Ec, Er. auto. }
  rewrite H1. cbn [bind].
  assert (E2 : exists e2,
             (if CardKnowledge.ColorHinted k
              then store e1 (off + BitsPerCard game + CardKnowledge.Color k)
                         1%Q
              else Ok e1) = Ok e2 /\ size e2 = size e1).
  { destruct (CardKnowledge.ColorHinted k) eqn:E;
      [|exists e1; split; reflexivity].
    apply store_progress. rewrite S1. apply Hr. right; left. auto. }
  destruct E2 as (e2 & H2 & S2). rewrite H2. cbn [bind].
  assert (E3 : exists e3,
             (if CardKnowledge.RankHinted k
              then store e2 (off + BitsPerCard game + NumColors game
                             + CardKnowledge.Rank k) 1%Q
              else Ok e2) = Ok e3 /\ size e3 = size e2).
  { destruct (CardKnowledge.RankHinted k) eqn:E;
      [|exists e2; split; reflexivity].
    apply store_progress. rewrite S2, S1. apply Hr. right; right. auto. }
  destruct E3 as (e3 & H3 & S3). rewrite H3. cbn [bind]. eauto.
Qed.

Lemma nth_error_size {A : Type} (l : list A) (i : Z) (x : A) :
  0 <= i -> nth_error l (Z.to_nat i) = Some x -> i < size l.
Proof.
  intros Hi H. unfold size.
  assert (Z.to_nat i < length l)%nat by (apply nth_error_Some; congruence).
  lia.
Qed.

(** The knowledge of one hand: partial correctness and progress. *)
Lemma EncodeCardKnowledge_hand_writes (game : HanabiGame.t)
  (K : list CardKnowledge.t) (off : Z) (enc : vec) (st' : Z * Z * vec) :
  foldM (EncodeCardKnowledge_card game) K (0, off, enc) = Ok st' ->
  fst (fst st') = size K /\
  snd (fst st') = off + size K * slot_width game /\
  writes (hand_knowledge_writes game K off) enc (snd st').
Proof.
  intros H.
  pose proof
    (foldM_inv
       (fun i st =>
          fst (fst st) = i /\
          snd (fst st) = off + i * slot_width game /\
          writes (fun j => exists i' k,
                      0 <= i' < i /\ nth_error K (Z.to_nat i') = Some k /\
                      knowledge_writes game k (off + i' * slot_width game) j)
                 enc (snd st))
       _ _ _ _ H) as G.
  destruct G as (Hn & Ho & Hw).
  - cbn [fst snd]. split; [reflexivity|]. split; [lia|].
    eapply writes_ext; [|apply writes_none].
    intros j. split; [intros [] | intros (i & k & Hi & _); lia].
  - intros i k ((n & o) & t) t' Hi Hnth (Hn & Ho & Hw) Hb.
    cbn [fst snd] in Hn, Ho, Hw. subst n o.
    apply EncodeCardKnowledge_card_writes in Hb.
    destruct Hb as (Hn' & Ho' & Hw').
    split; [assumption|]. split; [lia|].
    eapply writes_ext; [|exact (writes_trans _ _ _ _ _ Hw Hw')].
    intros j. split.
    + intros [(i' & k' & Hi' & Hk' & Hj)|Hj].
      * exists i', k'. repeat split; auto; lia.
      * exists i, k. repeat split; auto; lia.
    + intros (i' & k' & Hi' & Hk' & Hj).
      destruct (Z.eq_dec i' i) as [->|Hne].
      * right. assert (k' = k) by congruence. now subst k'.
      * left. exists i', k'. repeat split; auto; lia.
  - split; [assumption|]. split; [assumption|].
    eapply writes_ext; [|exact Hw]. intros j. split.
    + intros (i & k & Hi & Hk & Hj). exists i, k. repeat split; auto; lia.
    + intros (i & k & Hi & Hk & Hj). exists i, k. repeat split; auto.
      now apply (nth_error_size _ _ k).
Qed.

Lemma EncodeCardKnowledge_hand_ok (game : HanabiGame.t)
  (K : list CardKnowledge.t) (off : Z) (enc : vec) :
  (forall j, hand_knowledge_writes game K off j -> 0 <= j < size enc) ->
  exists st', foldM (EncodeCardKnowledge_card game) K (0, off, enc) = Ok st'.
Proof.
  intros Hr.
  destruct (foldM_progress
              (fun i st =>
                 fst (fst st) = i /\
                 snd (fst st) = off + i * slot_width game /\
                 size (snd st) = size enc)
              (EncodeCardKnowledge_card game) K (0, off, enc))
    as (st' & H & _).
  - cbn [fst snd]. repeat split. lia.
  - intros i k ((n & o) & t) Hi Hnth (Hn & Ho & Hs).
    cbn [fst snd] in Hn, Ho, Hs. subst n o.
    destruct (EncodeCardKnowledge_card_ok game i
                (off + i * slot_width game) t k) as (t' & Ht').
    { intros j Hj. rewrite Hs. apply Hr. now exists i, k. }
    exists t'. split; [assumption|].
    apply EncodeCardKnowledge_card_writes in Ht'.
    destruct Ht' as (Hn' & Ho' & Hw').
    split; [assumption|]. split; [lia|].
    rewrite (writes_size _ _ _ Hw'). assumption.
  - now exists st'.
Qed.

(** One player. *)
Lemma EncodeCardKnowledge_player_writes (game : HanabiGame.t)
  (hands : list HanabiHand.t) (off : Z) (enc : vec) (p : Z)
  (st' : Z * vec) :
  EncodeCardKnowledge_player game hands (off, enc) p = Ok st' ->
  exists hand,
    0 <= p /\ nth_error hands (Z.to_nat p) = Some hand /\
    fst st' = off + Z.max (size (HanabiHand.Knowledge hand)) (HandSize game)
                    * slot_width game /\
    writes (hand_knowledge_writes game (HanabiHand.Knowledge hand) off)
           enc (snd st').
Proof.
  unfold EncodeCardKnowledge_player. intros H.
  apply bind_Ok in H. destruct H as (hand & Hl & H).
  apply bind_Ok in H. destruct H as (((n & o) & t) & Hf & H).
  injection H as <-. cbn [fst snd].
  apply load_inv in Hl. destruct Hl as (Hp & Hnth).
  apply EncodeCardKnowledge_hand_writes in Hf.
  destruct Hf as (Hn & Ho & Hw). cbn [fst snd] in Hn, Ho, Hw. subst n o.
  exists hand. split; [lia|]. split; [assumption|]. split; [|assumption].
  fold (slot_width game).
  destruct (Z.ltb_spec (size (HanabiHand.Knowledge hand)) (HandSize game)).
  - rewrite Z.max_r by lia. lia.
  - rewrite Z.max_l by lia. lia.
Qed.

Lemma EncodeCardKnowledge_player_ok (game : HanabiGame.t)
  (hands : list HanabiHand.t) (off : Z) (enc : vec) (p : Z)
  (hand : HanabiHand.t) :
  0 <= p -> nth_error hands (Z.to_nat p) = Some hand ->
  (forall j, hand_knowledge_writes game (HanabiHand.Knowledge hand) off j ->
             0 <= j < size enc) ->
  exists st', EncodeCardKnowledge_player game hands (off, enc) p = Ok st'.
Proof.
  intros Hp Hnth Hr. unfold EncodeCardKnowledge_player.
  rewrite (load_nth_error _ _ _ Hp Hnth). cbn [bind].
  destruct (EncodeCardKnowledge_hand_ok game _ off enc Hr)
    as (((n & o) & t) & H).
  rewrite H. cbn [bind]. eauto.
Qed.

Lemma slot_width_pos (game : HanabiGame.t) :
  positive_dimensions game -> 0 < slot_width game.
Proof. intros (HC & HR & _). unfold slot_width, BitsPerCard. nia. Qed.

Lemma CardKnowledgeSectionLength_slots (game : HanabiGame.t) :
  CardKnowledgeSectionLength game
  = NumPlayers game * (HandSize game * slot_width game).
Proof. unfold CardKnowledgeSectionLength, slot_width. lia. Qed.

(** What a successful run of [EncodeCardKnowledge] tells: the hands are as
    many as the players, no hand carries more knowledge than [HandSize], and
    the entries set are exactly those of [card_knowledge_writes]. *)
Lemma EncodeCardKnowledge_inv (game : HanabiGame.t)
  (obs : HanabiObservation.t) (start : Z) (enc enc' : vec) (len : Z) :
  positive_dimensions game ->
  EncodeCardKnowledge game obs start enc = Ok (enc', len) ->
  len = CardKnowledgeSectionLength game /\
  size (Hands obs) = NumPlayers game /\
  (forall p hand, 0 <= p -> nth_error (Hands obs) (Z.to_nat p) = Some hand ->
     size (HanabiHand.Knowledge hand) <= HandSize game) /\
  writes (card_knowledge_writes game obs start) enc enc'.
Proof.
  intros Hdim H. pose proof (slot_width_pos game Hdim) as Hsw.
  destruct Hdim as (HC & HR & HP & HH).
  unfold EncodeCardKnowledge in H.
  apply bind_Ok in H. destruct H as (u & Ha & H).
  apply assert_inv, Z.eqb_eq in Ha.
  apply bind_Ok in H. destruct H as ((off & t) & Hloop & H).
  apply bind_Ok in H. destruct H as (u' & Hb & H).
  apply assert_inv, Z.eqb_eq in Hb. injection H as <- <-.
  split; [assumption|]. split; [assumption|].
  rewrite CardKnowledgeSectionLength_slots in Hb.
  set (sw := slot_width game) in *. set (Hs := HandSize game) in *.
  assert (HP0 : 0 <= NumPlayers game) by lia.
  pose proof
    (for_range_inv
       (fun p st =>
          start + p * (Hs * sw) <= fst st /\
          (fst st = start + p * (Hs * sw) ->
           (forall p' hand, 0 <= p' < p ->
              nth_error (Hands obs) (Z.to_nat p') = Some hand ->
              size (HanabiHand.Knowledge hand) <= Hs) /\
           writes (fun j => exists p' hand,
                       0 <= p' < p /\
                       nth_error (Hands obs) (Z.to_nat p') = Some hand /\
                       hand_knowledge_writes game (HanabiHand.Knowledge hand)
                         (start + p' * (Hs * sw)) j)
                  enc (snd st)))
       _ _ _ _ HP0 Hloop) as G.
  destruct G as (_ & G).
  - cbn [fst snd]. split; [lia|]. intros _. split; [intros; lia|].
    eapply writes_ext; [|apply writes_none].
    intros j. split; [intros [] | intros (p & h & Hp & _); lia].
  - intros p (o & e) st' Hp (Hge & Hinv) Hbody. cbn [fst snd] in Hge, Hinv.
    apply EncodeCardKnowledge_player_writes in Hbody.
    destruct Hbody as (hand & _ & Hnth & Ho' & Hw').
    fold sw Hs in Ho'.
    assert (Hmax : Hs * sw <= Z.max (size (HanabiHand.Knowledge hand)) Hs * sw)
      by nia.
    split; [lia|]. intros Heq.
    assert (Heq0 : o = start + p * (Hs * sw)) by lia.
    assert (Hsz : size (HanabiHand.Knowledge hand) <= Hs) by nia.
    destruct (Hinv Heq0) as (Hsizes & Hw). split.
    + intros p' hand' Hp' Hnth'. destruct (Z.eq_dec p' p) as [->|Hne].
      * assert (hand' = hand) by congruence. now subst hand'.
      * apply (Hsizes p' hand'); [lia | assumption].
    + eapply writes_ext; [|exact (writes_trans _ _ _ _ _ Hw Hw')].
      intros j. rewrite Heq0. split.
      * intros [(p' & h' & Hp' & Hn' & Hj)|Hj].
        -- exists p', h'. repeat split; auto; lia.
        -- exists p, hand. repeat split; auto; lia.
      * intros (p' & h' & Hp' & Hn' & Hj).
        destruct (Z.eq_dec p' p) as [->|Hne].
        -- right. assert (h' = hand) by congruence. now subst h'.
        -- left. exists p', h'. repeat split; auto; lia.
  - cbn [fst snd] in G. destruct G as (Hsizes & Hw); [lia|]. split.
    + intros p hand Hp Hnth. apply (Hsizes p hand); [|assumption].
      split; [assumption|]. rewrite <- Ha.
      now apply (nth_error_size _ _ hand).
    + eapply writes_ext; [|exact Hw]. intros j. split.
      * intros (p & h & Hp & Hn & Hj). exists p, h. repeat split; auto; lia.
      * intros (p & h & Hp & Hn & Hj). exists p, h. repeat split; auto.
        rewrite <- Ha. now apply (nth_error_size _ _ h).
Qed.

(** Progress of [EncodeCardKnowledge]: it depends on the buffer through
    its size only. *)
Lemma EncodeCardKnowledge_ok (game : HanabiGame.t)
  (obs : HanabiObservation.t) (start : Z) (enc : vec) :
  0 <= NumPlayers game ->
  size (Hands obs) = NumPlayers game ->
  (forall p hand, 0 <= p -> nth_error (Hands obs) (Z.to_nat p) = Some hand ->
     size (HanabiHand.Knowledge hand) <= HandSize game) ->
  (forall j, card_knowledge_writes game obs start j -> 0 <= j < size enc) ->
  exists enc',
    EncodeCardKnowledge game obs start enc
    = Ok (enc', CardKnowledgeSectionLength game).
Proof.
  intros HP Hhands Hsizes Hr.
  set (sw := slot_width game). set (Hs := HandSize game).
  destruct (for_range_progress
              (fun p st =>
                 fst st = start + p * (Hs * sw) /\ size (snd st) = size enc)
              (EncodeCardKnowledge_player game (Hands obs))
              (NumPlayers game) (start, enc) HP)
    as ((off & enc') & Hloop & Hoff & _).
  - cbn [fst snd]. split; [lia | reflexivity].
  - intros p (o & t) Hp (Ho & Hs'). cbn [fst snd] in Ho, Hs'. subst o.
    destruct (nth_error (Hands obs) (Z.to_nat p)) as [hand|] eqn:Hnth.
    2:{ apply nth_error_None in Hnth. unfold size in Hhands. lia. }
    destruct (EncodeCardKnowledge_player_ok game (Hands obs)
                (start + p * (Hs * sw)) t p hand) as (st' & Hst');
      [lia | assumption | |].
    { intros j Hj. rewrite Hs'. apply Hr. exists p, hand.
      repeat split; auto; lia. }
    exists st'. split; [assumption|].
    apply EncodeCardKnowledge_player_writes in Hst'.
    destruct Hst' as (hand' & _ & Hnth' & Ho' & Hw').
    assert (hand' = hand) by congruence. subst hand'.
    fold sw Hs in Ho'. rewrite Z.max_r in Ho'
      by (apply (Hsizes p hand); [lia | assumption]).
    split; [lia|]. rewrite (writes_size _ _ _ Hw'). assumption.
  - cbn [fst snd] in Hoff. exists enc'. unfold EncodeCardKnowledge.
    rewrite (assert_true (size (Hands obs) =? NumPlayers game)) by lia.
    cbn [bind]. rewrite Hloop. cbn [bind].
    rewrite CardKnowledgeSectionLength_slots. fold sw Hs.
    replace (off - start) with (NumPlayers game * (Hs * sw)) by lia.
    now rewrite Z.eqb_refl.
Qed.

(** The encoder run on its own output returns it unchanged. *)
Lemma EncodeCardKnowledge_idempotent (game : HanabiGame.t)
  (obs : HanabiObservation.t) (start : Z) (enc enc' : vec) (len : Z) :
  positive_dimensions game ->
  EncodeCardKnowledge game obs start enc = Ok (enc', len) ->
  EncodeCardKnowledge game obs start enc' = Ok (enc', len).
Proof.
  intros Hdim H.
  destruct (EncodeCardKnowledge_inv _ _ _ _ _ _ Hdim H)
    as (-> & Hhands & Hsizes & Hw).
  destruct (EncodeCardKnowledge_ok game obs start enc') as (enc2 & H2);
    [destruct Hdim; lia | assumption | assumption | |].
  - intros j Hj. rewrite (writes_size _ _ _ Hw).
    now apply (writes_range _ _ _ _ Hw).
  - destruct (EncodeCardKnowledge_inv _ _ _ _ _ _ Hdim H2)
      as (_ & _ & _ & Hw2).
    rewrite H2. f_equal. f_equal. exact (writes_idem _ _ _ _ Hw Hw2).
Qed.

(** ** Belief estimator V0: one slot *)

Lemma qsum_0 (f : Z -> Q) : qsum f 0 = 0%Q.
Proof. reflexivity. Qed.

Lemma qsum_succ (f : Z -> Q) (n : Z) :
  0 <= n -> qsum f (n + 1) = (qsum f n + f n)%Q.
Proof.
  intros Hn. unfold qsum. rewrite range_succ by assumption.
  now rewrite fold_left_app.
Qed.

Lemma Qpositive_spec (q : Q) : Qpositive q = true <-> (0 < q)%Q.
Proof.
  unfold Qpositive. rewrite negb_true_iff. split.
  - intros H. apply Qnot_le_lt. intros Hle.
    apply Qle_bool_iff in Hle. congruence.
  - intros H. destruct (Qle_bool q 0) eqn:E; [|reflexivity].
    apply Qle_bool_iff in E. exfalso. exact (Qlt_not_le _ _ H E).
Qed.

(** The first inner loop. *)
Lemma EncodeV0Belief_scale_inv (cc : list Z) (start len base bits : Z)
  (enc enc1 : vec) (total : Q) :
  0 <= bits ->
  for_range bits (EncodeV0Belief_scale cc start len base) (0%Q, enc)
  = Ok (total, enc1) ->
  size enc1 = size enc /\
  total = block_total cc enc base bits /\
  (forall i, 0 <= i < bits ->
     0 <= base + i < size enc /\ base + i - start < len /\ i < size cc /\
     get enc1 (base + i) = weighted cc enc base i) /\
  (forall j, 0 <= j -> ~ (base <= j < base + bits) -> get enc1 j = get enc j).
Proof.
  intros Hbits H.
  pose proof
    (for_range_inv
       (fun m st =>
          size (snd st) = size enc /\
          fst st = block_total cc enc base m /\
          (forall i, 0 <= i < m ->
             0 <= base + i < size enc /\ base + i - start < len /\
             i < size cc /\
             get (snd st) (base + i) = weighted cc enc base i) /\
          (forall j, 0 <= j -> ~ (base <= j < base + m) ->
             get (snd st) j = get enc j))
       _ _ _ _ Hbits H) as G.
  apply G; clear G.
  - cbn [fst snd]. repeat split; intros; lia.
  - intros m (t & e) st' Hm (Hs & Ht & Hin & Hout) Hb.
    cbn [fst snd] in Hs, Ht, Hin, Hout.
    unfold EncodeV0Belief_scale in Hb.
    apply bind_Ok in Hb. destruct Hb as (u & Ha & Hb).
    apply assert_inv in Ha.
    apply bind_Ok in Hb. destruct Hb as (x & Hx & Hb).
    apply bind_Ok in Hb. destruct Hb as (c & Hc & Hb).
    apply bind_Ok in Hb. destruct Hb as (e' & He & Hb).
    injection Hb as <-. cbn [fst snd].
    pose proof (load_inv _ _ _ Hx) as (Hxr & _).
    pose proof (load_inv _ _ _ Hc) as (Hcr & _).
    apply load_get in Hx. apply load_getz in Hc. subst x c.
    rewrite (Hout (base + m)) in He |- * by lia.
    fold (weighted cc enc base m) in He |- *.
    split; [rewrite (store_size _ _ _ _ He); assumption|].
    split; [unfold block_total; rewrite qsum_succ by lia;
            now rewrite Ht|].
    split.
    + intros i Hi. destruct (Z.eq_dec i m) as [->|Hne].
      * split; [lia|]. split; [lia|]. split; [lia|].
        now apply get_store_eq in He.
      * destruct (Hin i) as (A & B & C & D); [lia|].
        split; [exact A|]. split; [exact B|]. split; [exact C|].
        rewrite (get_store_neq _ _ _ _ _ He); [exact D | lia | lia].
    + intros j Hj Hnot. rewrite (get_store_neq _ _ _ _ _ He) by lia.
      apply Hout; [assumption | lia].
Qed.

Lemma EncodeV0Belief_scale_ok (cc : list Z) (start len base bits : Z)
  (enc : vec) :
  0 <= bits -> 0 <= base -> base + bits <= size enc ->
  base + bits - start <= len -> bits <= size cc ->
  exists st,
    for_range bits (EncodeV0Belief_scale cc start len base) (0%Q, enc)
    = Ok st.
Proof.
  intros Hbits Hbase Hroom Hlen Hcc.
  destruct (for_range_progress (fun _ st => size (snd st) = size enc)
              (EncodeV0Belief_scale cc start len base) bits (0%Q, enc) Hbits)
    as (st & H & _); [reflexivity | | now exists st].
  intros m (t & e) Hm Hs. cbn [fst snd] in Hs.
  unfold EncodeV0Belief_scale.
  rewrite (assert_true (base + m - start <? len)) by lia. cbn [bind].
  rewrite (load_ok _ _ 0%Q) by lia. cbn [bind].
  rewrite (load_ok _ _ 0) by lia. cbn [bind].
  rewrite store_ok by lia. cbn [bind]. eexists. split; [reflexivity|].
  cbn [snd]. unfold size in *. now rewrite length_list_set.
Qed.

(** The second inner loop. *)
Lemma EncodeV0Belief_divide_inv (total : Q) (base bits : Z) (enc enc' : vec) :
  0 <= bits ->
  for_range bits (EncodeV0Belief_divide total base) enc = Ok enc' ->
  size enc' = size enc /\
  (forall i, 0 <= i < bits ->
     get enc' (base + i) = (get enc (base + i) / total)%Q) /\
  (forall j, 0 <= j -> ~ (base <= j < base + bits) -> get enc' j = get enc j).
Proof.
  intros Hbits H.
  pose proof
    (for_range_inv
       (fun m e =>
          (0 < m -> 0 <= base) /\
          size e = size enc /\
          (forall i, 0 <= i < m ->
             get e (base + i) = (get enc (base + i) / total)%Q) /\
          (forall j, 0 <= j -> ~ (base <= j < base + m) ->
             get e j = get enc j))
       _ _ _ _ Hbits H) as G.
  apply G; clear G.
  - repeat split; intros; lia.
  - intros m e e' Hm (Hb0 & Hs & Hin & Hout) Hb.
    unfold EncodeV0Belief_divide in Hb.
    apply bind_Ok in Hb. destruct Hb as (x & Hx & Hb).
    pose proof (load_inv _ _ _ Hx) as (Hxr & _).
    assert (Hbase : 0 <= base) by lia.
    apply load_get in Hx. subst x.
    rewrite (Hout (base + m)) in Hb by lia.
    split; [intros _; exact Hbase|].
    split; [rewrite (store_size _ _ _ _ Hb); assumption|]. split.
    + intros i Hi. destruct (Z.eq_dec i m) as [->|Hne].
      * now apply get_store_eq in Hb.
      * rewrite (get_store_neq _ _ _ _ _ Hb) by lia. apply Hin. lia.
    + intros j Hj Hnot. rewrite (get_store_neq _ _ _ _ _ Hb) by lia.
      apply Hout; [assumption | lia].
Qed.

Lemma EncodeV0Belief_divide_ok (total : Q) (base bits : Z) (enc : vec) :
  0 <= bits -> 0 <= base -> base + bits <= size enc ->
  exists enc', for_range bits (EncodeV0Belief_divide total base) enc = Ok enc'.
Proof.
  intros Hbits Hbase Hroom.
  destruct (for_range_same_size bits (EncodeV0Belief_divide total base) enc)
    as (enc' & H & _); [|now exists enc'].
  intros m e Hm Hs. unfold EncodeV0Belief_divide.
  rewrite (load_ok _ _ 0%Q) by lia. cbn [bind].
  apply store_progress. lia.
Qed.

(** One slot: the block is weighted and normalized, the rest untouched. *)
Lemma EncodeV0Belief_slot_inv (bits : Z) (cc : list Z)
  (start len base : Z) (enc enc' : vec) :
  0 <= bits ->
  EncodeV0Belief_slot bits cc start len base enc = Ok enc' ->
  block_normalized cc base bits enc enc' /\
  (0 < bits -> 0 <= base /\ base + bits <= size enc /\
               base + bits - start <= len /\ bits <= size cc).
Proof.
  intros Hbits H. unfold EncodeV0Belief_slot in H.
  apply bind_Ok in H. destruct H as ((total & e1) & H1 & H).
  apply bind_Ok in H. destruct H as (u & Ha & H).
  apply assert_inv, Qpositive_spec in Ha.
  apply EncodeV0Belief_scale_inv in H1; [|assumption].
  destruct H1 as (S1 & -> & Hin1 & Hout1).
  apply EncodeV0Belief_divide_inv in H; [|assumption].
  destruct H as (S2 & Hin2 & Hout2).
  split.
  - split; [congruence|]. split; [assumption|]. split.
    + intros i Hi. rewrite (Hin2 i Hi).
      destruct (Hin1 i Hi) as (_ & _ & _ & ->). reflexivity.
    + intros j Hj Hnot. rewrite (Hout2 j Hj Hnot). now apply Hout1.
  - intros Hpos.
    destruct (Hin1 0) as (A0 & _); [lia|].
    destruct (Hin1 (bits - 1)) as (A1 & B1 & C1 & _); [lia|]. lia.
Qed.

Lemma EncodeV0Belief_slot_ok (bits : Z) (cc : list Z)
  (start len base : Z) (enc : vec) :
  0 <= bits -> 0 <= base -> base + bits <= size enc ->
  base + bits - start <= len -> bits <= size cc ->
  (0 < block_total cc enc base bits)%Q ->
  exists enc', EncodeV0Belief_slot bits cc start len base enc = Ok enc'.
Proof.
  intros Hbits Hbase Hroom Hlen Hcc Hpos. unfold EncodeV0Belief_slot.
  destruct (EncodeV0Belief_scale_ok cc start len base bits enc)
    as ((total & e1) & H1); try assumption.
  rewrite H1. cbn [bind].
  apply EncodeV0Belief_scale_inv in H1; [|assumption].
  destruct H1 as (S1 & -> & _).
  rewrite (assert_true (Qpositive _)) by now apply Qpositive_spec.
  cbn [bind]. apply EncodeV0Belief_divide_ok; [assumption | assumption | lia].
Qed.

(** ** Belief estimator V0: all slots *)

Lemma qsum_ext (f g : Z -> Q) (n : Z) :
  (forall i, 0 <= i < n -> f i = g i) -> qsum f n = qsum g n.
Proof.
  intros H. destruct (Z.le_gt_cases 0 n) as [Hn|Hn].
  - revert H. pattern n. apply natlike_ind; [| |exact Hn]; clear n Hn.
    + reflexivity.
    + intros n Hn IH H. unfold Z.succ. rewrite !qsum_succ by assumption.
      rewrite IH by (intros i Hi; apply H; lia). rewrite H by lia.
      reflexivity.
  - unfold qsum. rewrite range_nonpos by lia. reflexivity.
Qed.

Lemma occupied_fits (game : HanabiGame.t) (obs : HanabiObservation.t)
  (p k : Z) :
  hands_fit game obs -> occupied obs p k -> 0 <= p /\ 0 <= k < HandSize game.
Proof.
  intros Hfit (hand & Hp & Hnth & Hk). split; [assumption|].
  specialize (Hfit hand (nth_error_In _ _ Hnth)). lia.
Qed.

(** The grids of two distinct slots do not meet. *)
Lemma slot_grids_disjoint (game : HanabiGame.t) (start p k p' k' i i' : Z) :
  positive_dimensions game ->
  0 <= k < HandSize game -> 0 <= k' < HandSize game ->
  0 <= i < BitsPerCard game -> 0 <= i' < BitsPerCard game ->
  slot_base game start p k + i = slot_base game start p' k' + i' ->
  p = p' /\ k = k'.
Proof.
  intros (HC & HR & HP & HH) Hk Hk' Hi Hi' E. unfold slot_base in E.
  assert (Hsw : BitsPerCard game <= slot_width game)
    by (unfold slot_width; lia).
  assert (E' : (p * HandSize game + k) * slot_width game + i
               = (p' * HandSize game + k') * slot_width game + i') by lia.
  apply CardIndex_inj in E'; [|lia|lia]. destruct E' as (E' & _).
  now apply CardIndex_inj in E'.
Qed.

(** Normalizing the grid of one more slot. *)
Lemma belief_upto_step (game : HanabiGame.t) (obs : HanabiObservation.t)
  (start : Z) (cc : list Z) (raw : vec) (done : Z -> Z -> Prop)
  (enc enc' : vec) (p k : Z) :
  positive_dimensions game -> hands_fit game obs -> 0 <= start ->
  belief_upto game obs start cc raw done enc ->
  occupied obs p k -> ~ done p k ->
  block_normalized cc (slot_base game start p k) (BitsPerCard game) enc enc' ->
  belief_upto game obs start cc raw
    (fun p' k' => done p' k' \/ (p' = p /\ k' = k)) enc'.
Proof.
  intros Hdim Hfit Hstart (Hs & Hdone & Hrest) Hocc Hnew
    (Hs' & Hpos & Hin & Hout).
  pose proof (occupied_fits _ _ _ _ Hfit Hocc) as (Hp & Hk).
  set (base := slot_base game start p k) in *.
  assert (Hraw : forall i, 0 <= i < BitsPerCard game ->
                   get enc (base + i) = get raw (base + i)).
  { intros i Hi. apply Hrest.
    - unfold base, slot_base. destruct Hdim as (HC & HR & HP & HH).
      unfold slot_width, BitsPerCard in *. nia.
    - intros (p' & k' & Hocc' & Hd' & Hj).
      pose proof (occupied_fits _ _ _ _ Hfit Hocc') as (Hp' & Hk').
      destruct (slot_grids_disjoint game start p k p' k' i
                  (base + i - slot_base game start p' k') Hdim Hk Hk' Hi)
        as (-> & ->); [lia | unfold base; lia | contradiction]. }
  assert (Hw : forall i, 0 <= i < BitsPerCard game ->
                 weighted cc enc base i = weighted cc raw base i).
  { intros i Hi. unfold weighted. now rewrite Hraw. }
  assert (Ht : block_total cc enc base (BitsPerCard game)
               = block_total cc raw base (BitsPerCard game))
    by (apply qsum_ext; exact Hw).
  split; [congruence|]. split.
  - intros p' k' Hocc' [Hd'|(-> & ->)].
    + destruct (Hdone p' k' Hocc' Hd') as (Hpos' & Hin').
      split; [assumption|]. intros i Hi. rewrite <- (Hin' i Hi).
      pose proof (occupied_fits _ _ _ _ Hfit Hocc') as (Hp' & Hk').
      apply Hout.
      * unfold slot_base. destruct Hdim as (HC & HR & HP & HH).
        unfold slot_width, BitsPerCard in *. nia.
      * intros Hj.
        destruct (slot_grids_disjoint game start p' k' p k i
                    (slot_base game start p' k' + i - base) Hdim Hk' Hk Hi)
          as (-> & ->); [lia | unfold base; lia | contradiction].
    + cbv zeta. fold base. rewrite <- Ht. split; [assumption|].
      intros i Hi. rewrite (Hin i Hi), (Hw i Hi). reflexivity.
  - intros j Hj Hnot. rewrite Hout.
    + apply Hrest; [assumption|]. intros (p' & k' & Hocc' & Hd' & Hj').
      apply Hnot. exists p', k'. auto.
    + assumption.
    + intros Hj'. apply Hnot. exists p, k. unfold base in Hj'. auto.
Qed.

Lemma belief_upto_ext (game : HanabiGame.t) (obs : HanabiObservation.t)
  (start : Z) (cc : list Z) (raw : vec) (done done' : Z -> Z -> Prop)
  (enc : vec) :
  (forall p k, occupied obs p k -> (done p k <-> done' p k)) ->
  belief_upto game obs start cc raw done enc ->
  belief_upto game obs start cc raw done' enc.
Proof.
  intros E (Hs & Hdone & Hrest). split; [assumption|]. split.
  - intros p k Hocc Hd. apply Hdone; [assumption|]. now apply E.
  - intros j Hj Hnot. apply Hrest; [assumption|].
    intros (p & k & Hocc & Hd & Hjj). apply Hnot. exists p, k.
    split; [assumption|]. split; [now apply E | assumption].
Qed.

Lemma belief_upto_none (game : HanabiGame.t) (obs : HanabiObservation.t)
  (start : Z) (cc : list Z) (raw : vec) :
  belief_upto game obs start cc raw (fun _ _ => False) raw.
Proof.
  split; [reflexivity|]. split; [intros p k _ []|]. intros j _ _. reflexivity.
Qed.

(** A slot whose grid is not normalized yet still holds the raw bits. *)
Lemma belief_upto_fresh (game : HanabiGame.t) (obs : HanabiObservation.t)
  (start : Z) (cc : list Z) (raw : vec) (done : Z -> Z -> Prop)
  (enc : vec) (p k : Z) :
  positive_dimensions game -> hands_fit game obs -> 0 <= start ->
  belief_upto game obs start cc raw done enc ->
  occupied obs p k -> ~ done p k ->
  block_total cc enc (slot_base game start p k) (BitsPerCard game)
  = block_total cc raw (slot_base game start p k) (BitsPerCard game).
Proof.
  intros Hdim Hfit Hstart (Hs & Hdone & Hrest) Hocc Hnew.
  pose proof (occupied_fits _ _ _ _ Hfit Hocc) as (Hp & Hk).
  apply qsum_ext. intros i Hi. unfold weighted. f_equal. apply Hrest.
  - unfold slot_base. destruct Hdim as (HC & HR & HP & HH).
    unfold slot_width, BitsPerCard in *. nia.
  - intros (p' & k' & Hocc' & Hd' & Hj).
    pose proof (occupied_fits _ _ _ _ Hfit Hocc') as (Hp' & Hk').
    destruct (slot_grids_disjoint game start p k p' k' i
                (slot_base game start p k + i - slot_base game start p' k')
                Hdim Hk Hk' Hi)
      as (-> & ->); [lia | lia | contradiction].
Qed.

Lemma slot_base_offsets (game : HanabiGame.t) (start p k : Z) :
  start + HandSize game * slot_width game * p + k * slot_width game
  = slot_base game start p k.
Proof. unfold slot_base. lia. Qed.

Lemma slot_in_section (game : HanabiGame.t) (start p k : Z) :
  positive_dimensions game ->
  0 <= start -> 0 <= p < NumPlayers game -> 0 <= k < HandSize game ->
  0 <= slot_base game start p k /\
  slot_base game start p k + slot_width game
  <= start + CardKnowledgeSectionLength game.
Proof.
  intros Hdim Hstart Hp Hk. pose proof (slot_width_pos game Hdim) as Hsw.
  rewrite CardKnowledgeSectionLength_slots. unfold slot_base.
  destruct Hdim as (HC & HR & HP & HH).
  set (s := p * HandSize game + k).
  assert (Hs0 : 0 <= s) by (unfold s; nia).
  assert (Hs1 : s + 1 <= NumPlayers game * HandSize game) by (unfold s; nia).
  assert (Hm : (s + 1) * slot_width game
               <= NumPlayers game * HandSize game * slot_width game)
    by (apply Z.mul_le_mono_nonneg_r; lia).
  assert (Hm0 : 0 <= s * slot_width game) by (apply Z.mul_nonneg_nonneg; lia).
  lia.
Qed.

(** Normalizing slot [k] of player [p] after the slots before it. *)
Lemma EncodeV0Belief_slot_step (game : HanabiGame.t)
  (obs : HanabiObservation.t) (start len : Z) (cc : list Z) (raw : vec)
  (e e' : vec) (p k : Z) :
  positive_dimensions game -> hands_fit game obs -> 0 <= start ->
  occupied obs p k ->
  belief_upto game obs start cc raw
    (fun p' k' => p' < p \/ (p' = p /\ k' < k)) e ->
  EncodeV0Belief_slot (BitsPerCard game) cc start len
    (start + HandSize game * slot_width game * p + k * slot_width game) e
  = Ok e' ->
  belief_upto game obs start cc raw
    (fun p' k' => p' < p \/ (p' = p /\ k' < k + 1)) e'.
Proof.
  intros Hdim Hfit Hstart Hocc He Hb.
  assert (Hbits : 0 <= BitsPerCard game)
    by (destruct Hdim as (HC & HR & _); unfold BitsPerCard; nia).
  apply EncodeV0Belief_slot_inv in Hb; [|assumption].
  destruct Hb as (Hb & _). rewrite slot_base_offsets in Hb.
  eapply belief_upto_ext;
    [|eapply (belief_upto_step game obs start cc raw _ e e' p k);
      try eassumption].
  - intros p' k' _. cbv beta. split.
    + intros [[Hlt|(-> & Hlt)]|(-> & ->)]; lia.
    + intros [Hlt|(-> & Hlt)]; [left; left; assumption|].
      destruct (Z.eq_dec k' k) as [->|Hne]; [right; auto|].
      left; right. split; [reflexivity | lia].
  - intros [Hlt|(_ & Hlt)]; lia.
Qed.

Lemma belief_upto_player_start (game : HanabiGame.t)
  (obs : HanabiObservation.t) (start : Z) (cc : list Z) (raw enc : vec)
  (p : Z) :
  belief_upto game obs start cc raw (fun p' _ => p' < p) enc ->
  belief_upto game obs start cc raw
    (fun p' k' => p' < p \/ (p' = p /\ k' < 0)) enc.
Proof.
  apply belief_upto_ext. intros p' k' (h & _ & _ & Hk').
  split; [auto | intros [Hlt|(_ & Hlt)]; [auto | lia]].
Qed.

Lemma belief_upto_player_end (game : HanabiGame.t)
  (obs : HanabiObservation.t) (start : Z) (cc : list Z) (raw enc : vec)
  (p : Z) (hand : HanabiHand.t) :
  nth_error (Hands obs) (Z.to_nat p) = Some hand ->
  belief_upto game obs start cc raw
    (fun p' k' => p' < p \/ (p' = p /\ k' < size (HanabiHand.Cards hand)))
    enc ->
  belief_upto game obs start cc raw (fun p' _ => p' < p + 1) enc.
Proof.
  intros Hnth. apply belief_upto_ext.
  intros p' k' (hand' & Hp' & Hnth' & Hk'). split.
  - intros [Hlt|(-> & Hlt)]; lia.
  - intros Hlt. destruct (Z.eq_dec p' p) as [->|Hne]; [|lia].
    right. split; [reflexivity|].
    assert (hand' = hand) by congruence. subst hand'. lia.
Qed.

(** The loop over the cards of player [p]. *)
Lemma EncodeV0Belief_player_inv (game : HanabiGame.t)
  (obs : HanabiObservation.t) (start len : Z) (cc : list Z) (raw : vec)
  (enc enc' : vec) (p : Z) :
  positive_dimensions game -> hands_fit game obs -> 0 <= start ->
  EncodeV0Belief_player (BitsPerCard game) cc (Hands obs) start len
    (HandSize game * slot_width game) (slot_width game) enc p = Ok enc' ->
  belief_upto game obs start cc raw (fun p' _ => p' < p) enc ->
  belief_upto game obs start cc raw (fun p' _ => p' < p + 1) enc'.
Proof.
  intros Hdim Hfit Hstart H Hinv. unfold EncodeV0Belief_player in H.
  apply bind_Ok in H. destruct H as (hand & Hl & H).
  apply load_inv in Hl. destruct Hl as (Hp & Hnth).
  assert (Hsz0 : 0 <= size (HanabiHand.Cards hand)) by (unfold size; lia).
  apply (belief_upto_player_end _ _ _ _ _ _ _ hand Hnth).
  apply (for_range_inv
           (fun k e =>
              belief_upto game obs start cc raw
                (fun p' k' => p' < p \/ (p' = p /\ k' < k)) e)
           _ _ _ _ Hsz0 H).
  - now apply belief_upto_player_start.
  - intros k e e' Hk He Hb.
    apply (EncodeV0Belief_slot_step game obs start len cc raw e e' p k);
      try assumption.
    exists hand. split; [lia|]. split; [assumption | lia].
Qed.

Lemma EncodeV0Belief_player_ok (game : HanabiGame.t)
  (obs : HanabiObservation.t) (start : Z) (cc : list Z) (raw : vec)
  (enc : vec) (p : Z) :
  positive_dimensions game -> hands_fit game obs -> 0 <= start ->
  0 <= p < NumPlayers game -> size (Hands obs) = NumPlayers game ->
  size cc = BitsPerCard game ->
  start + CardKnowledgeSectionLength game <= size raw ->
  (forall p k, occupied obs p k ->
     (0 < block_total cc raw (slot_base game start p k)
                      (BitsPerCard game))%Q) ->
  belief_upto game obs start cc raw (fun p' _ => p' < p) enc ->
  exists enc',
    EncodeV0Belief_player (BitsPerCard game) cc (Hands obs) start
      (CardKnowledgeSectionLength game)
      (HandSize game * slot_width game) (slot_width game) enc p = Ok enc'.
Proof.
  intros Hdim Hfit Hstart Hp Hhands Hcc Hroom Hpos Hinv.
  unfold EncodeV0Belief_player.
  destruct (nth_error (Hands obs) (Z.to_nat p)) as [hand|] eqn:Hnth.
  2:{ apply nth_error_None in Hnth. unfold size in Hhands. lia. }
  rewrite (load_nth_error _ _ _ (proj1 Hp) Hnth). cbn [bind].
  assert (Hsz0 : 0 <= size (HanabiHand.Cards hand)) by (unfold size; lia).
  assert (Hbits : 0 <= BitsPerCard game)
    by (destruct Hdim as (HC & HR & _); unfold BitsPerCard; nia).
  destruct (for_range_progress
              (fun k e =>
                 belief_upto game obs start cc raw
                   (fun p' k' => p' < p \/ (p' = p /\ k' < k)) e)
              (fun encoding card_idx =>
                 EncodeV0Belief_slot (BitsPerCard game) cc start
                   (CardKnowledgeSectionLength game)
                   (start + HandSize game * slot_width game * p
                    + card_idx * slot_width game) encoding)
              (size (HanabiHand.Cards hand)) enc Hsz0)
    as (enc' & H & _); [now apply belief_upto_player_start | |now exists enc'].
  intros k e Hk He.
  assert (Hocc : occupied obs p k)
    by (exists hand; split; [lia|]; split; [assumption | lia]).
  pose proof (occupied_fits _ _ _ _ Hfit Hocc) as (_ & HkH).
  pose proof (slot_in_section game start p k Hdim Hstart Hp HkH)
    as (Hb0 & Hb1).
  assert (Hsw : BitsPerCard game <= slot_width game)
    by (destruct Hdim as (HC & HR & _); unfold slot_width; lia).
  destruct (EncodeV0Belief_slot_ok (BitsPerCard game) cc start
              (CardKnowledgeSectionLength game)
              (start + HandSize game * slot_width game * p
               + k * slot_width game) e) as (e' & He').
  - assumption.
  - rewrite slot_base_offsets. assumption.
  - rewrite slot_base_offsets, (proj1 He). lia.
  - rewrite slot_base_offsets. lia.
  - lia.
  - rewrite slot_base_offsets.
    rewrite (belief_upto_fresh game obs start cc raw _ e p k Hdim Hfit
               Hstart He Hocc) by (intros [Hlt|(_ & Hlt)]; lia).
    now apply Hpos.
  - exists e'. split; [exact He'|].
    now apply (EncodeV0Belief_slot_step game obs start
                 (CardKnowledgeSectionLength game) cc raw e e' p k).
Qed.

Lemma int_div_mul (a b : Z) : b <> 0 -> int_div (a * b) b = Ok a.
Proof.
  intros Hb. unfold int_div. replace (b =? 0) with false by lia.
  now rewrite Z.quot_mul.
Qed.

(** The offsets that [EncodeV0Belief_] derives from the section length. *)
Lemma CardKnowledge_offsets (game : HanabiGame.t) :
  positive_dimensions game ->
  int_div (CardKnowledgeSectionLength game) (NumPlayers game)
  = Ok (HandSize game * slot_width game) /\
  int_div (CardKnowledgeSectionLength game) (HandSize game)
  = Ok (NumPlayers game * slot_width game) /\
  int_div (NumPlayers game * slot_width game) (NumPlayers game)
  = Ok (slot_width game).
Proof.
  intros (HC & HR & HP & HH). rewrite CardKnowledgeSectionLength_slots.
  repeat split.
  - rewrite Z.mul_comm. apply int_div_mul. lia.
  - replace (NumPlayers game * (HandSize game * slot_width game))
      with (NumPlayers game * slot_width game * HandSize game) by lia.
    apply int_div_mul. lia.
  - rewrite Z.mul_comm. apply int_div_mul. lia.
Qed.

Lemma belief_upto_all (game : HanabiGame.t) (obs : HanabiObservation.t)
  (start : Z) (cc : list Z) (raw enc : vec) :
  size (Hands obs) = NumPlayers game ->
  belief_upto game obs start cc raw (fun p' _ => p' < NumPlayers game) enc ->
  belief_of game obs start cc raw enc.
Proof.
  intros Hhands. apply belief_upto_ext.
  intros p k (hand & Hp & Hnth & _). split; [auto|]. intros _.
  rewrite <- Hhands. now apply (nth_error_size _ _ hand).
Qed.

(** What a successful run of [EncodeV0Belief_] tells. *)
Lemma EncodeV0Belief_inv (game : HanabiGame.t) (obs : HanabiObservation.t)
  (start : Z) (enc enc' : vec) (len : Z) (cc : list Z) :
  positive_dimensions game -> hands_fit game obs -> 0 <= start ->
  EncodeV0Belief_ game obs start enc = Ok (enc', len, cc) ->
  exists raw,
    ComputeCardCount game obs = Ok cc /\
    EncodeCardKnowledge game obs start enc = Ok (raw, len) /\
    belief_of game obs start cc raw enc'.
Proof.
  intros Hdim Hfit Hstart H. unfold EncodeV0Belief_ in H.
  apply bind_Ok in H. destruct H as (cc0 & Hcc & H).
  apply bind_Ok in H. destruct H as ((raw & len0) & Hck & H).
  apply bind_Ok in H. destruct H as (po & Hpo & H).
  apply bind_Ok in H. destruct H as (q & Hq & H).
  apply bind_Ok in H. destruct H as (pco & Hpco & H).
  apply bind_Ok in H. destruct H as (u & _ & H).
  apply bind_Ok in H. destruct H as (e & Hloop & H).
  injection H as <- <- <-.
  exists raw. split; [assumption|]. split; [assumption|].
  destruct (EncodeCardKnowledge_inv _ _ _ _ _ _ Hdim Hck)
    as (-> & Hhands & _ & _).
  destruct (CardKnowledge_offsets game Hdim) as (E1 & E2 & E3).
  rewrite E1 in Hpo. injection Hpo as <-.
  rewrite E2 in Hq. injection Hq as <-.
  rewrite E3 in Hpco. injection Hpco as <-.
  apply (belief_upto_all _ _ _ _ _ _ Hhands).
  assert (HP0 : 0 <= NumPlayers game) by (destruct Hdim as (_ & _ & ? & _); lia).
  apply (for_range_inv
           (fun p e => belief_upto game obs start cc0 raw (fun p' _ => p' < p) e)
           _ _ _ _ HP0 Hloop).
  - eapply belief_upto_ext; [|apply belief_upto_none].
    intros p k (h & Hp & _). split; [intros [] | lia].
  - intros p t t' Hp Ht Hb.
    now apply (EncodeV0Belief_player_inv game obs start
                 (CardKnowledgeSectionLength game) cc0 raw t t' p).
Qed.

(** Progress of [EncodeV0Belief_]: the two sub-computations succeed and
    every occupied slot has a positive total. *)
Lemma EncodeV0Belief_ok (game : HanabiGame.t) (obs : HanabiObservation.t)
  (start : Z) (enc raw : vec) (len : Z) (cc : list Z) :
  positive_dimensions game -> hands_fit game obs -> 0 <= start ->
  ComputeCardCount game obs = Ok cc ->
  EncodeCardKnowledge game obs start enc = Ok (raw, len) ->
  start + len <= size enc ->
  (forall p k, occupied obs p k ->
     (0 < block_total cc raw (slot_base game start p k)
                      (BitsPerCard game))%Q) ->
  exists enc', EncodeV0Belief_ game obs start enc = Ok (enc', len, cc).
Proof.
  intros Hdim Hfit Hstart Hcc Hck Hroom Hpos.
  destruct (EncodeCardKnowledge_inv _ _ _ _ _ _ Hdim Hck)
    as (-> & Hhands & _ & Hw).
  destruct (CardKnowledge_offsets game Hdim) as (E1 & E2 & E3).
  assert (HP0 : 0 <= NumPlayers game) by (destruct Hdim as (_ & _ & ? & _); lia).
  pose proof (ComputeCardCount_size _ _ _ Hcc) as Hsz.
  destruct (for_range_progress
              (fun p e => belief_upto game obs start cc raw (fun p' _ => p' < p) e)
              (EncodeV0Belief_player (BitsPerCard game) cc (Hands obs) start
                 (CardKnowledgeSectionLength game)
                 (HandSize game * slot_width game) (slot_width game))
              (NumPlayers game) raw HP0) as (enc' & Hloop & _).
  - eapply belief_upto_ext; [|apply belief_upto_none].
    intros p k (h & Hp & _). split; [intros [] | lia].
  - intros p t Hp Ht.
    destruct (EncodeV0Belief_player_ok game obs start cc raw t p)
      as (t' & Ht'); try assumption.
    { rewrite (writes_size _ _ _ Hw). assumption. }
    exists t'. split; [assumption|].
    now apply (EncodeV0Belief_player_inv game obs start
                 (CardKnowledgeSectionLength game) cc raw t t' p).
  - exists enc'. unfold EncodeV0Belief_. rewrite Hcc. cbn [bind].
    rewrite Hck. cbn [bind]. rewrite E1. cbn [bind]. rewrite E2. cbn [bind].
    rewrite E3. cbn [bind].
    rewrite (assert_true (slot_width game =? _))
      by (unfold slot_width, BitsPerCard; lia).
    cbn [bind]. unfold BitsPerCard in Hloop. rewrite Hloop. reflexivity.
Qed.

(** ** Extraction of the grids *)

Lemma extract_upto_next (game : HanabiGame.t) (encoding : vec) (s : Z)
  (belief : vec) :
  extract_upto game encoding s (BitsPerCard game) belief <->
  extract_upto game encoding (s + 1) 0 belief.
Proof.
  split; intros (Hs & H); (split; [assumption|]);
    intros s' i' Hs' Hi' Hlt; apply H; try assumption; lia.
Qed.

Lemma ExtractBelief_entries (game : HanabiGame.t) (encoding : vec) (s : Z)
  (belief : vec) :
  positive_dimensions game ->
  size encoding = slot_width game * HandSize game * NumPlayers game ->
  0 <= s < NumPlayers game * HandSize game ->
  extract_upto game encoding s 0 belief ->
  exists belief',
    for_range (BitsPerCard game)
      (ExtractBelief_entry encoding (BitsPerCard game) (slot_width game) s)
      belief = Ok belief' /\
    extract_upto game encoding (s + 1) 0 belief'.
Proof.
  intros Hdim Hsize Hs Hinv.
  assert (Hbits : 0 < BitsPerCard game)
    by (destruct Hdim as (HC & HR & _); unfold BitsPerCard; nia).
  assert (Hsw : BitsPerCard game <= slot_width game)
    by (destruct Hdim as (HC & HR & _); unfold slot_width; lia).
  assert (Hbits0 : 0 <= BitsPerCard game) by lia.
  destruct (for_range_progress
              (fun i b => extract_upto game encoding s i b)
              (ExtractBelief_entry encoding (BitsPerCard game)
                 (slot_width game) s)
              (BitsPerCard game) belief Hbits0 Hinv)
    as (b' & Hrun & Hb').
  - intros i b Hi (Hsz & Hcopied). unfold ExtractBelief_entry.
    assert (Hs1 : (s + 1) * slot_width game
                  <= NumPlayers game * HandSize game * slot_width game)
      by (apply Z.mul_le_mono_nonneg_r; lia).
    assert (Hs2 : (s + 1) * BitsPerCard game
                  <= NumPlayers game * HandSize game * BitsPerCard game)
      by (apply Z.mul_le_mono_nonneg_r; lia).
    assert (Hs3 : 0 <= s * slot_width game) by (apply Z.mul_nonneg_nonneg; lia).
    assert (Hs4 : 0 <= s * BitsPerCard game)
      by (apply Z.mul_nonneg_nonneg; lia).
    rewrite (load_ok _ _ 0%Q) by lia. cbn [bind].
    fold (get encoding (s * slot_width game + i)).
    destruct (store_progress b (s * BitsPerCard game + i)
                (get encoding (s * slot_width game + i)))
      as (b1 & Hst & Hsz1); [lia|].
    exists b1. split; [assumption|]. split; [lia|].
    intros s' i' Hs' Hi' Hlt.
    assert (0 <= s' * BitsPerCard game) by (apply Z.mul_nonneg_nonneg; lia).
    rewrite (get_store _ _ _ _ _ Hst) by lia.
    destruct (Z.eqb_spec (s' * BitsPerCard game + i')
                (s * BitsPerCard game + i)) as [E|E].
    + apply CardIndex_inj in E; [|lia|lia]. destruct E as (-> & ->).
      reflexivity.
    + apply Hcopied; try assumption.
      destruct Hlt as [Hlt|(-> & Hlt)]; [now left | right].
      split; [reflexivity|].
      assert (i' <> i) by (intros ->; now apply E). lia.
  - exists b'. split; [assumption|]. now apply extract_upto_next.
Qed.

Lemma ExtractBelief_spec (game : HanabiGame.t) (encoding : vec) :
  positive_dimensions game ->
  size encoding = slot_width game * HandSize game * NumPlayers game ->
  exists belief,
    ExtractBelief encoding game = Ok belief /\
    size belief = NumPlayers game * HandSize game * BitsPerCard game /\
    forall p k i, 0 <= p < NumPlayers game -> 0 <= k < HandSize game ->
      0 <= i < BitsPerCard game ->
      get belief (belief_slot game p k + i)
      = get encoding (slot_base game 0 p k + i).
Proof.
  intros Hdim Hsize. pose proof Hdim as (HC & HR & HP & HH).
  assert (Hbits : 0 < BitsPerCard game) by (unfold BitsPerCard; nia).
  assert (HN : 0 <= NumPlayers game * HandSize game * BitsPerCard game)
    by nia.
  assert (HP0 : 0 <= NumPlayers game) by lia.
  assert (HH0 : 0 <= HandSize game) by lia.
  unfold ExtractBelief. fold (slot_width game).
  rewrite (assert_true (_ =? size encoding)) by lia. cbn [bind].
  rewrite new_vector_ok by assumption. cbn [bind].
  destruct (for_range_progress
              (fun p b => extract_upto game encoding (p * HandSize game) 0 b)
              (fun belief i =>
                 for_range (HandSize game)
                   (fun belief j =>
                      for_range (BitsPerCard game)
                        (ExtractBelief_entry encoding (BitsPerCard game)
                           (slot_width game) (i * HandSize game + j))
                        belief)
                   belief)
              (NumPlayers game)
              (repeat 0%Q
                 (Z.to_nat (NumPlayers game * HandSize game
                            * BitsPerCard game)))
              HP0) as (belief & Hrun & Hsz & Hcopied).
  - split; [now apply size_repeat|]. intros s' i' Hs' Hi' Hlt. lia.
  - intros p b Hp Hb.
    destruct (for_range_progress
                (fun k b' =>
                   extract_upto game encoding (p * HandSize game + k) 0 b')
                (fun belief j =>
                   for_range (BitsPerCard game)
                     (ExtractBelief_entry encoding (BitsPerCard game)
                        (slot_width game) (p * HandSize game + j))
                     belief)
                (HandSize game) b HH0) as (b' & Hrun' & Hb').
    + now rewrite Z.add_0_r.
    + intros k t Hk Ht.
      replace (p * HandSize game + (k + 1))
        with (p * HandSize game + k + 1) by lia.
      apply ExtractBelief_entries; try assumption. nia.
    + exists b'. split; [assumption|].
      now replace ((p + 1) * HandSize game)
        with (p * HandSize game + HandSize game) by lia.
  - exists belief. split; [assumption|]. split; [assumption|].
    intros p k i Hp Hk Hi. unfold belief_slot, slot_base.
    rewrite Z.add_0_l. apply Hcopied; [nia | assumption | left; nia].
Qed.

Lemma ExtractBelief_inv (game : HanabiGame.t) (encoding belief : vec) :
  positive_dimensions game ->
  ExtractBelief encoding game = Ok belief ->
  size encoding = CardKnowledgeSectionLength game /\
  size belief = NumPlayers game * HandSize game * BitsPerCard game /\
  forall p k i, 0 <= p < NumPlayers game -> 0 <= k < HandSize game ->
    0 <= i < BitsPerCard game ->
    get belief (belief_slot game p k + i)
    = get encoding (slot_base game 0 p k + i).
Proof.
  intros Hdim H.
  assert (Hsize : size encoding
                  = slot_width game * HandSize game * NumPlayers game).
  { unfold ExtractBelief in H. apply bind_Ok in H.
    destruct H as (u & Ha & _). apply assert_inv, Z.eqb_eq in Ha.
    unfold slot_width. lia. }
  destruct (ExtractBelief_spec game encoding Hdim Hsize)
    as (b & Hb & Hsz & Hget).
  rewrite Hb in H. injection H as <-.
  split; [rewrite CardKnowledgeSectionLength_slots; lia|].
  split; assumption.
Qed.

(** ** The standard game and the example observations are well formed *)

Lemma standard_positive_dimensions : positive_dimensions standard_game.
Proof. repeat split. Qed.

Lemma standard_valid_game : valid_game standard_game.
Proof.
  split; [exact standard_positive_dimensions|].
  split; [exact standard_deck_complete|].
  cbn. lia.
Qed.

(** Case analysis on a player of a two-player observation. *)
Lemma two_hands (own partner hand : HanabiHand.t) (p : Z) :
  0 <= p -> nth_error [own; partner] (Z.to_nat p) = Some hand ->
  (p = 0 /\ hand = own) \/ (p = 1 /\ hand = partner).
Proof.
  intros Hp Hnth. pose proof (nth_error_size _ _ _ Hp Hnth) as Hlt.
  change (size [own; partner]) with 2 in Hlt.
  assert (H : p = 0 \/ p = 1) by lia.
  destruct H as [-> | ->]; cbn in Hnth; injection Hnth as <-; auto.
Qed.

Ltac in_cases H :=
  cbn in H;
  repeat match type of H with
         | _ \/ _ => destruct H as [H|H]
         | False => destruct H
         end;
  try subst.

Ltac solve_card :=
  unfold card_shown, card_hidden; cbn; repeat split; first [reflexivity | lia].

Lemma fresh_hands_fit : hands_fit standard_game fresh_observation.
Proof. intros hand [<-|[<-|[]]]; vm_compute; discriminate. Qed.

Lemma hinted_hands_fit : hands_fit standard_game hinted_observation.
Proof. intros hand [<-|[<-|[]]]; vm_compute; discriminate. Qed.

Lemma fresh_knowledge_fits : knowledge_fits standard_game fresh_observation.
Proof. intros hand [<-|[<-|[]]]; vm_compute; discriminate. Qed.

Lemma hinted_knowledge_fits : knowledge_fits standard_game hinted_observation.
Proof. intros hand [<-|[<-|[]]]; vm_compute; discriminate. Qed.

Lemma fresh_knowledge_in_range :
  knowledge_in_range standard_game fresh_observation.
Proof.
  intros hand kn [<-|[<-|[]]] Hkn; in_cases Hkn;
    split; intros H; discriminate H.
Qed.

Lemma hinted_knowledge_in_range :
  knowledge_in_range standard_game hinted_observation.
Proof.
  intros hand kn [<-|[<-|[]]] Hkn; in_cases Hkn;
    split; intros H; first [discriminate H | cbn; lia].
Qed.

Lemma fresh_hands_well_formed :
  hands_well_formed standard_game fresh_observation false.
Proof.
  split; [reflexivity|]. split; [exact fresh_hands_fit|].
  intros p hand card Hp Hnth Hin.
  destruct (two_hands _ _ _ _ Hp Hnth) as [(-> & ->)|(-> & ->)];
    in_cases Hin; solve_card.
Qed.

Lemma hinted_hands_well_formed :
  hands_well_formed standard_game hinted_observation false.
Proof.
  split; [reflexivity|]. split; [exact hinted_hands_fit|].
  intros p hand card Hp Hnth Hin.
  destruct (two_hands _ _ _ _ Hp Hnth) as [(-> & ->)|(-> & ->)];
    in_cases Hin; solve_card.
Qed.

Lemma no_fireworks_in_range (c : Z) :
  0 <= c < NumColors standard_game ->
  getz [0; 0; 0; 0; 0] c <= NumRanks standard_game.
Proof.
  intros Hc. change (NumColors standard_game) with 5 in Hc.
  assert (H : c = 0 \/ c = 1 \/ c = 2 \/ c = 3 \/ c = 4) by lia.
  destruct H as [->|[->|[->|[->| ->]]]]; vm_compute; discriminate.
Qed.

Lemma fresh_board_well_formed :
  board_well_formed standard_game fresh_observation.
Proof.
  split; [cbn; lia|]. split; [vm_compute; discriminate|].
  split; [exact no_fireworks_in_range | cbn; lia].
Qed.

Lemma hinted_board_well_formed :
  board_well_formed standard_game hinted_observation.
Proof.
  split; [cbn; lia|]. split; [vm_compute; discriminate|].
  split; [exact no_fireworks_in_range | cbn; lia].
Qed.

Lemma no_discards_from_deck (obs : HanabiObservation.t) :
  DiscardPile obs = [] -> discards_from_deck standard_game obs.
Proof.
  intros E. split; [rewrite E; intros card []|].
  intros c r _ _. unfold discarded, count_if. rewrite E. cbn.
  unfold standard_instances. destruct (r =? 0); [lia|].
  destruct (r =? 4); lia.
Qed.

Lemma red_one_discarded_from_deck (obs : HanabiObservation.t) :
  DiscardPile obs = [HanabiCard.mk 0 0 true] ->
  discards_from_deck standard_game obs.
Proof.
  intros E. split.
  - rewrite E. intros card [<-|[]]. vm_compute. repeat split; discriminate.
  - intros c r _ _. unfold discarded, count_if. rewrite E. simpl.
    unfold standard_instances.
    destruct (is_card c r _); simpl length;
      destruct (r =? 0); try lia; destruct (r =? 4); lia.
Qed.

(** The slots that hold a card, in a two-player observation. *)
Lemma two_hands_occupied (obs : HanabiObservation.t)
  (own partner : HanabiHand.t) (p k : Z) :
  Hands obs = [own; partner] -> occupied obs p k ->
  (p = 0 /\ 0 <= k < size (HanabiHand.Cards own)) \/
  (p = 1 /\ 0 <= k < size (HanabiHand.Cards partner)).
Proof.
  intros E (hand & Hp & Hnth & Hk). rewrite E in Hnth.
  destruct (two_hands _ _ _ _ Hp Hnth) as [(-> & ->)|(-> & ->)]; auto.
Qed.

Lemma fresh_card_counts :
  ComputeCardCount standard_game fresh_observation = Ok standard_counts.
Proof. reflexivity. Qed.

Lemma hinted_card_counts :
  ComputeCardCount standard_game hinted_observation = Ok hinted_counts.
Proof. reflexivity. Qed.

Ltac five_cases k :=
  let H := fresh in
  assert (H : k = 0 \/ k = 1 \/ k = 2 \/ k = 3 \/ k = 4) by lia;
  destruct H as [->|[->|[->|[->| ->]]]].

Lemma fresh_piles_within_deck :
  piles_within_deck standard_game fresh_observation.
Proof.
  intros c r Hc Hr. change (NumColors standard_game) with 5 in Hc.
  change (NumRanks standard_game) with 5 in Hr.
  five_cases c; five_cases r; vm_compute; discriminate.
Qed.

Lemma hinted_piles_in_range : piles_in_range standard_game hinted_observation.
Proof.
  split; [intros card [<-|[]]; vm_compute; repeat split; discriminate|].
  split; [vm_compute; discriminate | exact no_fireworks_in_range].
Qed.

Lemma hinted_piles_within_deck :
  piles_within_deck standard_game hinted_observation.
Proof.
  intros c r Hc Hr. change (NumColors standard_game) with 5 in Hc.
  change (NumRanks standard_game) with 5 in Hr.
  five_cases c; five_cases r; vm_compute; discriminate.
Qed.

(** Every card is a candidate for a slot without hints; a red 1 is. *)
Lemma fresh_candidates (p k : Z) :
  occupied fresh_observation p k ->
  slot_has_candidate standard_game fresh_observation p k.
Proof.
  intros Hocc. exists 0, 0.
  destruct (two_hands_occupied fresh_observation fresh_own_hand
              fresh_partner_hand p k eq_refl Hocc)
    as [(-> & Hk)|(-> & Hk)];
    change (size _) with 5 in Hk; five_cases k;
    repeat split; try reflexivity; discriminate.
Qed.

(** The green 1 is a candidate for the slots with a green hint, the red 3
    for those with a 3 hint. *)
Lemma hinted_candidates (p k : Z) :
  occupied hinted_observation p k ->
  slot_has_candidate standard_game hinted_observation p k.
Proof.
  intros Hocc.
  destruct (two_hands_occupied hinted_observation fresh_own_hand
              hinted_partner_hand p k eq_refl Hocc)
    as [(-> & Hk)|(-> & Hk)].
  - exists 0, 1. change (size _) with 5 in Hk. five_cases k;
      repeat split; try reflexivity; discriminate.
  - change (size _) with 4 in Hk.
    assert (H : k = 0 \/ k = 1 \/ k = 2 \/ k = 3) by lia.
    destruct H as [->|[->|[->| ->]]];
      [exists 2, 0 | exists 0, 2 | exists 0, 2 | exists 2, 0];
      repeat split; try reflexivity; discriminate.
Qed.

Lemma fresh_belief_well_formed :
  belief_well_formed standard_game fresh_observation.
Proof.
  split; [exact fresh_knowledge_fits|].
  split; [exact fresh_knowledge_in_range|].
  split; [exact fresh_piles_in_range|].
  split; [exact fresh_piles_within_deck|].
  split; [reflexivity | exact fresh_candidates].
Qed.

Lemma hinted_belief_well_formed :
  belief_well_formed standard_game hinted_observation.
Proof.
  split; [exact hinted_knowledge_fits|].
  split; [exact hinted_knowledge_in_range|].
  split; [exact hinted_piles_in_range|].
  split; [exact hinted_piles_within_deck|].
  split; [reflexivity | exact hinted_candidates].
Qed.

Lemma fresh_well_formed : well_formed standard_game fresh_observation false.
Proof.
  split; [exact fresh_hands_well_formed|].
  split; [exact fresh_board_well_formed|].
  split; [now apply no_discards_from_deck|].
  split; [exact I|]. intros _. exact fresh_belief_well_formed.
Qed.

Lemma hinted_well_formed : well_formed standard_game hinted_observation false.
Proof.
  split; [exact hinted_hands_well_formed|].
  split; [exact hinted_board_well_formed|].
  split; [now apply red_one_discarded_from_deck|].
  split; [unfold last_move_well_formed; cbn; lia|].
  intros _. exact hinted_belief_well_formed.
Qed.

(** ** The raw plausibility grids *)

Lemma hands_nth_In {A : Type} (l : list A) (i : Z) (x : A) :
  nth_error l (Z.to_nat i) = Some x -> In x l.
Proof. apply nth_error_In. Qed.

Lemma slot_base_ge (game : HanabiGame.t) (start p k : Z) :
  positive_dimensions game -> 0 <= p -> 0 <= k ->
  start <= slot_base game start p k.
Proof.
  intros Hdim Hp Hk. pose proof (slot_width_pos game Hdim) as Hsw.
  destruct Hdim as (HC & HR & HP & HH). unfold slot_base.
  assert (0 <= (p * HandSize game + k) * slot_width game)
    by (apply Z.mul_nonneg_nonneg; nia).
  lia.
Qed.

(** Where the card-knowledge encoder writes: inside the section. *)
Lemma card_knowledge_writes_range (game : HanabiGame.t)
  (obs : HanabiObservation.t) (start j : Z) :
  positive_dimensions game -> size (Hands obs) = NumPlayers game ->
  knowledge_fits game obs -> knowledge_in_range game obs ->
  card_knowledge_writes game obs start j ->
  start <= j < start + CardKnowledgeSectionLength game.
Proof.
  intros Hdim Hhands Hfit Hkr (p & hand & Hp & Hnth & i & kn & Hi & Hkn & Hw).
  pose proof (nth_error_size _ _ _ Hp Hnth) as Hp'. rewrite Hhands in Hp'.
  pose proof (nth_error_size _ _ _ Hi Hkn) as Hi'.
  pose proof (Hfit hand (hands_nth_In _ _ _ Hnth)) as Hsz.
  destruct (Hkr hand kn (hands_nth_In _ _ _ Hnth) (hands_nth_In _ _ _ Hkn))
    as (Hcol & Hrk).
  assert (H0 : 0 <= 0) by lia.
  assert (Hpr : 0 <= p < NumPlayers game) by lia.
  assert (Hir : 0 <= i < HandSize game) by lia.
  destruct (slot_in_section game 0 p i Hdim H0 Hpr Hir) as (Hlo & Hhi).
  unfold slot_base in Hlo, Hhi.
  assert (Hoff : start + p * (HandSize game * slot_width game)
                 + i * slot_width game
                 = start + (p * HandSize game + i) * slot_width game) by lia.
  rewrite Hoff in Hw. clear Hoff.
  destruct Hdim as (HC & HR & HP & HH).
  destruct Hw as [(c & r & Hc & Hr & _ & ->)|[(Hh & ->)|(Hh & ->)]];
    unfold slot_width, BitsPerCard, CardIndex in *.
  - pose proof (CardIndex_range _ _ _ _ Hc Hr). lia.
  - specialize (Hcol Hh). lia.
  - specialize (Hrk Hh). lia.
Qed.

(** On a section that was zero, the grid entries of the raw section are the
    plausibility bits. *)
Lemma EncodeCardKnowledge_grid_bits (game : HanabiGame.t)
  (obs : HanabiObservation.t) (start : Z) (enc raw : vec) (len : Z) :
  positive_dimensions game -> knowledge_in_range game obs -> 0 <= start ->
  EncodeCardKnowledge game obs start enc = Ok (raw, len) ->
  (forall j, start <= j < start + CardKnowledgeSectionLength game ->
             get enc j = 0%Q) ->
  forall p k i, 0 <= p < NumPlayers game -> 0 <= k < HandSize game ->
    0 <= i < BitsPerCard game ->
    get raw (slot_base game start p k + i) = grid_bit game obs p k i.
Proof.
  intros Hdim Hkr Hstart Hck Hzero p k i Hp Hk Hi.
  destruct (EncodeCardKnowledge_inv _ _ _ _ _ _ Hdim Hck)
    as (_ & Hhands & Hsizes & Hw).
  pose proof (slot_in_section game start p k Hdim Hstart Hp Hk) as (Hlo & Hhi).
  pose proof (slot_base_ge game start p k Hdim (proj1 Hp) (proj1 Hk)) as Hge.
  pose proof Hdim as (HC & HR & HP & HH).
  assert (Hsw : BitsPerCard game <= slot_width game)
    by (unfold slot_width; lia).
  assert (Hsplit : 0 <= i / NumRanks game < NumColors game /\
                   0 <= i mod NumRanks game < NumRanks game /\
                   i = i / NumRanks game * NumRanks game
                       + i mod NumRanks game)
    by (apply index_split; [exact Hi | lia]).
  destruct Hsplit as (Hc & Hr & Ei).
  unfold grid_bit.
  destruct (slot_plausible obs p k (i / NumRanks game) (i mod NumRanks game))
    eqn:Hpl.
  - apply (writes_in _ _ _ _ Hw). unfold slot_plausible in Hpl.
    destruct (nth_error (Hands obs) (Z.to_nat p)) as [hand|] eqn:Hnth;
      [|discriminate].
    destruct (nth_error (HanabiHand.Knowledge hand) (Z.to_nat k))
      as [kn|] eqn:Hkn; [|discriminate].
    exists p, hand. split; [lia|]. split; [assumption|].
    exists k, kn. split; [lia|]. split; [assumption|]. left.
    exists (i / NumRanks game), (i mod NumRanks game).
    split; [assumption|]. split; [assumption|]. split; [assumption|].
    unfold slot_base, CardIndex. lia.
  - rewrite (writes_out _ _ _ _ Hw); [apply Hzero; lia | lia |].
    intros (p' & hand & Hp' & Hnth & k' & kn & Hk' & Hkn & Hkw).
    pose proof (nth_error_size _ _ _ Hk' Hkn) as Hk'sz.
    pose proof (Hsizes p' hand Hp' Hnth) as Hfit.
    destruct (Hkr hand kn (hands_nth_In _ _ _ Hnth) (hands_nth_In _ _ _ Hkn))
      as (Hcol & Hrk).
    assert (Hslot : forall o, 0 <= o < slot_width game ->
              slot_base game start p k + i
              = start + p' * (HandSize game * slot_width game)
                + k' * slot_width game + o ->
              p' = p /\ k' = k /\ o = i).
    { intros o Ho E. unfold slot_base in E.
      assert (E' : (p * HandSize game + k) * slot_width game + i
                   = (p' * HandSize game + k') * slot_width game + o) by lia.
      apply CardIndex_inj in E'; [|lia|lia]. destruct E' as (E' & ->).
      apply CardIndex_inj in E'; [|lia|lia]. destruct E' as (-> & ->). auto. }
    destruct Hkw as [(c & r & Hc' & Hr' & Hpl' & E)|[(Hh & E)|(Hh & E)]];
      unfold slot_width, BitsPerCard, CardIndex in *.
    + pose proof (CardIndex_range _ _ _ _ Hc' Hr') as Hcr.
      destruct (Hslot (c * NumRanks game + r)) as (-> & -> & Eo); [lia|lia|].
      rewrite Ei in Eo at 1.
      apply CardIndex_inj in Eo; [|lia|lia]. destruct Eo as (Ec & Er).
      unfold slot_plausible in Hpl. rewrite Hnth, Hkn in Hpl.
      rewrite <- Ec, <- Er in Hpl. congruence.
    + specialize (Hcol Hh).
      destruct (Hslot (NumColors game * NumRanks game
                       + CardKnowledge.Color kn)) as (_ & _ & Eo);
        [lia | lia | lia].
    + specialize (Hrk Hh).
      destruct (Hslot (NumColors game * NumRanks game + NumColors game
                       + CardKnowledge.Rank kn)) as (_ & _ & Eo);
        [lia | lia | lia].
Qed.

(** ** Normalized blocks are distributions *)

Lemma qsum_div (f : Z -> Q) (t : Q) (n : Z) :
  0 <= n -> (qsum (fun i => f i / t) n == qsum f n / t)%Q.
Proof.
  intros Hn. pattern n. apply natlike_ind; [| |exact Hn]; clear n Hn.
  - rewrite !qsum_0. unfold Qdiv. ring.
  - intros n Hn IH. unfold Z.succ. rewrite !qsum_succ by assumption.
    rewrite IH. unfold Qdiv. ring.
Qed.

Lemma Qdiv_self (t : Q) : (0 < t)%Q -> (t / t == 1)%Q.
Proof.
  intros H. unfold Qdiv. apply Qmult_inv_r.
  intros E. rewrite E in H. exact (Qlt_irrefl _ H).
Qed.


(** The total of the raw grid of an occupied slot, on a section that was
    zero, is the count-weighted size of its plausibility grid. *)
Lemma raw_block_total (game : HanabiGame.t) (obs : HanabiObservation.t)
  (start : Z) (enc raw : vec) (len : Z) (cc : list Z) (p k : Z) :
  positive_dimensions game -> hands_fit game obs ->
  knowledge_in_range game obs -> 0 <= start ->
  EncodeCardKnowledge game obs start enc = Ok (raw, len) ->
  (forall j, start <= j < start + CardKnowledgeSectionLength game ->
             get enc j = 0%Q) ->
  occupied obs p k ->
  (forall i, 0 <= i < BitsPerCard game ->
     weighted cc raw (slot_base game start p k) i
     = (grid_bit game obs p k i * inject_Z (getz cc i))%Q) /\
  block_total cc raw (slot_base game start p k) (BitsPerCard game)
  = weighted_total game obs cc p k.
Proof.
  intros Hdim Hfit Hkr Hstart Hck Hzero Hocc.
  destruct (EncodeCardKnowledge_inv _ _ _ _ _ _ Hdim Hck)
    as (_ & Hhands & _ & _).
  pose proof (occupied_fits _ _ _ _ Hfit Hocc) as (Hp & Hk).
  assert (Hp' : 0 <= p < NumPlayers game).
  { destruct Hocc as (hand & _ & Hnth & _). split; [assumption|].
    rewrite <- Hhands. now apply (nth_error_size _ _ hand). }
  assert (Hbits : forall i, 0 <= i < BitsPerCard game ->
            weighted cc raw (slot_base game start p k) i
            = (grid_bit game obs p k i * inject_Z (getz cc i))%Q).
  { intros i Hi. unfold weighted.
    now rewrite (EncodeCardKnowledge_grid_bits game obs start enc raw len
                   Hdim Hkr Hstart Hck Hzero p k i Hp' Hk Hi). }
  split; [exact Hbits|]. apply qsum_ext; exact Hbits.
Qed.

(** The grid of an occupied slot, after [EncodeV0Belief_] on a section
    that was zero. *)
Lemma belief_of_grid (game : HanabiGame.t) (obs : HanabiObservation.t)
  (start : Z) (enc raw enc' : vec) (len : Z) (cc : list Z) (p k : Z) :
  positive_dimensions game -> hands_fit game obs ->
  knowledge_in_range game obs -> 0 <= start ->
  EncodeCardKnowledge game obs start enc = Ok (raw, len) ->
  (forall j, start <= j < start + CardKnowledgeSectionLength game ->
             get enc j = 0%Q) ->
  belief_of game obs start cc raw enc' ->
  occupied obs p k ->
  (0 < weighted_total game obs cc p k)%Q /\
  forall i, 0 <= i < BitsPerCard game ->
    get enc' (slot_base game start p k + i)
    = (grid_bit game obs p k i * inject_Z (getz cc i)
       / weighted_total game obs cc p k)%Q.
Proof.
  intros Hdim Hfit Hkr Hstart Hck Hzero (_ & Hdone & _) Hocc.
  destruct (raw_block_total game obs start enc raw len cc p k Hdim Hfit Hkr
              Hstart Hck Hzero Hocc) as (Hbits & Ht).
  destruct (Hdone p k Hocc I) as (Hpos & Hin). cbv zeta in Hpos, Hin.
  rewrite Ht in Hpos, Hin. split; [exact Hpos|].
  intros i Hi. rewrite (Hin i Hi), (Hbits i Hi). reflexivity.
Qed.


Lemma CardKnowledgeSectionLength_nonneg (game : HanabiGame.t) :
  positive_dimensions game -> 0 <= CardKnowledgeSectionLength game.
Proof.
  intros Hdim. pose proof (slot_width_pos game Hdim).
  rewrite CardKnowledgeSectionLength_slots.
  destruct Hdim as (HC & HR & HP & HH). nia.
Qed.





(** ** Belief estimator V1 *)

Lemma belief_of_sums (game : HanabiGame.t) (obs : HanabiObservation.t)
  (start : Z) (cc : list Z) (raw enc : vec) :
  positive_dimensions game ->
  belief_of game obs start cc raw enc ->
  grids_sum_to_one game obs start enc.
Proof.
  intros Hdim (_ & Hdone & _) p k Hocc.
  destruct (Hdone p k Hocc I) as (Hpos & Hin). cbv zeta in Hpos, Hin.
  assert (Hbits : 0 <= BitsPerCard game)
    by (destruct Hdim as (HC & HR & _); unfold BitsPerCard; nia).
  rewrite (qsum_ext _ _ _ Hin).
  rewrite (qsum_div (weighted cc raw (slot_base game start p k)) _ _ Hbits).
  now apply Qdiv_self.
Qed.

(** [EncodeV0Belief_] run on the raw section gives what it gives on the
    buffer the raw section was computed from. *)
Lemma EncodeV0Belief_on_raw (game : HanabiGame.t) (obs : HanabiObservation.t)
  (start : Z) (enc raw : vec) (len : Z) :
  positive_dimensions game ->
  EncodeCardKnowledge game obs start enc = Ok (raw, len) ->
  EncodeV0Belief_ game obs start raw = EncodeV0Belief_ game obs start enc.
Proof.
  intros Hdim Hck. unfold EncodeV0Belief_.
  rewrite (EncodeCardKnowledge_idempotent _ _ _ _ _ _ Hdim Hck), Hck.
  reflexivity.
Qed.

(** The offsets of an occupied slot lie in the section. *)
Lemma occupied_in_section (game : HanabiGame.t) (obs : HanabiObservation.t)
  (p k i : Z) (hand : HanabiHand.t) :
  positive_dimensions game -> hands_fit game obs ->
  size (Hands obs) = NumPlayers game ->
  0 <= p -> nth_error (Hands obs) (Z.to_nat p) = Some hand ->
  0 <= k < size (HanabiHand.Cards hand) -> 0 <= i < BitsPerCard game ->
  0 <= HandSize game * slot_width game * p + k * slot_width game + i
  < CardKnowledgeSectionLength game.
Proof.
  intros Hdim Hfit Hhands Hp Hnth Hk Hi.
  pose proof (nth_error_size _ _ _ Hp Hnth) as Hp'. rewrite Hhands in Hp'.
  pose proof (Hfit hand (hands_nth_In _ _ _ Hnth)) as Hsz.
  assert (Hpr : 0 <= p < NumPlayers game) by lia.
  assert (Hkr : 0 <= k < HandSize game) by lia.
  destruct (slot_in_section game 0 p k Hdim (Z.le_refl 0) Hpr Hkr)
    as (Hlo & Hhi).
  rewrite <- slot_base_offsets in Hlo, Hhi.
  assert (Hsw : BitsPerCard game <= slot_width game)
    by (destruct Hdim as (HC & HR & _); unfold slot_width; lia).
  lia.
Qed.

(** First phase of a step: it succeeds and keeps the size. *)
Lemma EncodeV1Belief_total_ok (game : HanabiGame.t)
  (obs : HanabiObservation.t) (cc : list Z) (v1 tc : vec) :
  positive_dimensions game -> hands_fit game obs ->
  size (Hands obs) = NumPlayers game ->
  size cc = BitsPerCard game -> size tc = BitsPerCard game ->
  size v1 = CardKnowledgeSectionLength game ->
  exists tc',
    for_range (BitsPerCard game)
      (EncodeV1Belief_total (NumPlayers game) (Hands obs) cc v1
         (HandSize game * slot_width game) (slot_width game)) tc = Ok tc' /\
    size tc' = size tc.
Proof.
  intros Hdim Hfit Hhands Hcc Htc Hv1.
  apply for_range_same_size. intros i t Hi Ht.
  unfold EncodeV1Belief_total.
  rewrite (load_ok _ _ 0) by lia. cbn [bind].
  destruct (store_progress t i (inject_Z (nth (Z.to_nat i) cc 0)))
    as (t1 & Hs1 & Hsz1); [lia|].
  rewrite Hs1. cbn [bind].
  destruct (for_range_same_size (NumPlayers game)
              (EncodeV1Belief_total_player (Hands obs) v1
                 (HandSize game * slot_width game) (slot_width game) i) t1)
    as (t2 & H2 & Hsz2); [|exists t2; split; [assumption | lia]].
  intros p u Hp Hu. unfold EncodeV1Belief_total_player.
  destruct (nth_error (Hands obs) (Z.to_nat p)) as [hand|] eqn:Hnth.
  2:{ apply nth_error_None in Hnth. unfold size in Hhands. lia. }
  rewrite (load_nth_error _ _ _ (proj1 Hp) Hnth). cbn [bind].
  apply for_range_same_size. intros k w Hk Hw.
  unfold EncodeV1Belief_total_card.
  pose proof (occupied_in_section game obs p k i hand Hdim Hfit Hhands
                (proj1 Hp) Hnth Hk Hi) as Hoff.
  rewrite (assert_true (_ <? size v1)) by lia. cbn [bind].
  rewrite (load_ok _ _ 0%Q) by lia. cbn [bind].
  rewrite (load_ok _ _ 0%Q) by lia. cbn [bind].
  apply store_progress. lia.
Qed.

(** Second phase of a step: it succeeds and keeps the size. *)
Lemma EncodeV1Belief_new_ok (game : HanabiGame.t)
  (obs : HanabiObservation.t) (ck tc v1 new : vec) :
  positive_dimensions game -> hands_fit game obs ->
  size (Hands obs) = NumPlayers game ->
  size tc = BitsPerCard game ->
  size ck = CardKnowledgeSectionLength game ->
  size v1 = CardKnowledgeSectionLength game ->
  size new = CardKnowledgeSectionLength game ->
  exists new',
    for_range (NumPlayers game)
      (EncodeV1Belief_new_player (BitsPerCard game) (Hands obs) ck tc v1
         (HandSize game * slot_width game) (slot_width game)) new = Ok new' /\
    size new' = size new.
Proof.
  intros Hdim Hfit Hhands Htc Hck Hv1 Hnew.
  apply for_range_same_size. intros p u Hp Hu.
  unfold EncodeV1Belief_new_player.
  destruct (nth_error (Hands obs) (Z.to_nat p)) as [hand|] eqn:Hnth.
  2:{ apply nth_error_None in Hnth. unfold size in Hhands. lia. }
  rewrite (load_nth_error _ _ _ (proj1 Hp) Hnth). cbn [bind].
  apply for_range_same_size. intros k w Hk Hw.
  apply for_range_same_size. intros i x Hi Hx.
  unfold EncodeV1Belief_candidate.
  pose proof (occupied_in_section game obs p k i hand Hdim Hfit Hhands
                (proj1 Hp) Hnth Hk Hi) as Hoff.
  rewrite (assert_true (_ <? size v1)) by lia. cbn [bind].
  rewrite (load_ok _ _ 0%Q) by lia. cbn [bind].
  rewrite (load_ok _ _ 0%Q) by lia. cbn [bind].
  rewrite (load_ok _ _ 0%Q) by lia. cbn [bind].
  apply store_progress. lia.
Qed.

Lemma qsum_Qeq (f g : Z -> Q) (n : Z) :
  (forall i, 0 <= i < n -> (f i == g i)%Q) -> (qsum f n == qsum g n)%Q.
Proof.
  intros H. destruct (Z.le_gt_cases 0 n) as [Hn|Hn].
  - revert H. pattern n. apply natlike_ind; [| |exact Hn]; clear n Hn.
    + intros _. reflexivity.
    + intros n Hn IH H. unfold Z.succ. rewrite !qsum_succ by assumption.
      rewrite IH by (intros i Hi; apply H; lia). rewrite (H n) by lia.
      reflexivity.
  - unfold qsum. rewrite range_nonpos by lia. reflexivity.
Qed.

(** The interpolation loop of a slot, for any weight. *)
Lemma EncodeV1Belief_blend_loop (weight : Q) (new v1 : vec) (base bits : Z) :
  0 <= bits -> 0 <= base -> base + bits <= size v1 -> size new = size v1 ->
  exists total v1',
    for_range bits (EncodeV1Belief_blend weight new base) (0%Q, v1)
    = Ok (total, v1') /\
    size v1' = size v1 /\
    total = qsum (fun i => ((1 - weight) * get v1 (i + base)
                            + weight * get new (i + base))%Q) bits /\
    (forall i, 0 <= i < bits ->
       get v1' (i + base)
       = ((1 - weight) * get v1 (i + base) + weight * get new (i + base))%Q) /\
    (forall j, 0 <= j -> ~ (base <= j < base + bits) -> get v1' j = get v1 j).
Proof.
  intros Hbits Hbase Hroom Hnew.
  destruct (for_range_progress
              (fun m st =>
                 size (snd st) = size v1 /\
                 fst st = qsum (fun i => ((1 - weight) * get v1 (i + base)
                                          + weight * get new (i + base))%Q) m /\
                 (forall i, 0 <= i < m ->
                    get (snd st) (i + base)
                    = ((1 - weight) * get v1 (i + base)
                       + weight * get new (i + base))%Q) /\
                 (forall j, 0 <= j -> ~ (base <= j < base + m) ->
                    get (snd st) j = get v1 j))
              (EncodeV1Belief_blend weight new base) bits (0%Q, v1) Hbits)
    as ((total & v1') & Hrun & Hs & Ht & Hin & Hout).
  - cbn [fst snd]. repeat split; intros; lia.
  - intros m (t & e) Hm (Hs & Ht & Hin & Hout). cbn [fst snd] in *.
    unfold EncodeV1Belief_blend.
    rewrite (load_ok _ _ 0%Q) by lia. cbn [bind].
    rewrite (load_ok _ _ 0%Q) by lia. cbn [bind].
    fold (get e (m + base)). fold (get new (m + base)).
    rewrite (Hout (m + base)) by lia.
    destruct (store_progress e (m + base)
                ((1 - weight) * get v1 (m + base)
                 + weight * get new (m + base))%Q) as (e' & He & Hs');
      [lia|].
    rewrite He. cbn [bind]. eexists. split; [reflexivity|]. cbn [fst snd].
    split; [lia|]. split; [rewrite qsum_succ by lia; now rewrite Ht|]. split.
    + intros i Hi. rewrite (get_store _ _ _ _ _ He) by lia.
      destruct (Z.eqb_spec (i + base) (m + base)) as [E|E].
      * now replace i with m by lia.
      * apply Hin. lia.
    + intros j Hj Hnot. rewrite (get_store _ _ _ _ _ He) by lia.
      replace (j =? m + base) with false by lia. apply Hout; [assumption|lia].
  - cbn [fst snd] in *. exists total, v1'. auto.
Qed.

(** The normalization loop of a slot. *)
Lemma EncodeV1Belief_divide_loop (total : Q) (v1 : vec) (base bits : Z) :
  0 <= bits -> 0 <= base -> base + bits <= size v1 ->
  exists v1',
    for_range bits (EncodeV1Belief_divide total base) v1 = Ok v1' /\
    size v1' = size v1 /\
    (forall i, 0 <= i < bits ->
       get v1' (i + base) = (get v1 (i + base) / total)%Q) /\
    (forall j, 0 <= j -> ~ (base <= j < base + bits) -> get v1' j = get v1 j).
Proof.
  intros Hbits Hbase Hroom.
  destruct (for_range_progress
              (fun m e =>
                 size e = size v1 /\
                 (forall i, 0 <= i < m ->
                    get e (i + base) = (get v1 (i + base) / total)%Q) /\
                 (forall j, 0 <= j -> ~ (base <= j < base + m) ->
                    get e j = get v1 j))
              (EncodeV1Belief_divide total base) bits v1 Hbits)
    as (v1' & Hrun & Hs & Hin & Hout).
  - repeat split; intros; lia.
  - intros m e Hm (Hs & Hin & Hout). unfold EncodeV1Belief_divide.
    rewrite (load_ok _ _ 0%Q) by lia. cbn [bind].
    fold (get e (m + base)). rewrite (Hout (m + base)) by lia.
    destruct (store_progress e (m + base) (get v1 (m + base) / total)%Q)
      as (e' & He & Hs'); [lia|].
    exists e'. split; [assumption|]. split; [lia|]. split.
    + intros i Hi. rewrite (get_store _ _ _ _ _ He) by lia.
      destruct (Z.eqb_spec (i + base) (m + base)) as [E|E].
      * now replace i with m by lia.
      * apply Hin. lia.
    + intros j Hj Hnot. rewrite (get_store _ _ _ _ _ He) by lia.
      replace (j =? m + base) with false by lia. apply Hout; [assumption|lia].
  - exists v1'. auto.
Qed.

(** With weight 0 a slot whose grid sums to 1 keeps its entries. *)
Lemma EncodeV1Belief_slot_weight_0 (new v1 v0 : vec) (base bits : Z) :
  0 <= bits -> 0 <= base -> base + bits <= size v1 -> size new = size v1 ->
  same_entries v1 v0 ->
  (qsum (fun i => get v0 (base + i)) bits == 1)%Q ->
  exists v1',
    EncodeV1Belief_slot bits 0%Q new base v1 = Ok v1' /\
    same_entries v1' v0.
Proof.
  intros Hbits Hbase Hroom Hnew (Hsz & Hsame) Hsum.
  unfold EncodeV1Belief_slot.
  destruct (EncodeV1Belief_blend_loop 0%Q new v1 base bits Hbits Hbase Hroom
              Hnew) as (total & e1 & H1 & Hs1 & Ht & Hin1 & Hout1).
  rewrite H1. cbn [bind].
  assert (Htotal : (total == 1)%Q).
  { rewrite Ht, <- Hsum. apply qsum_Qeq. intros i Hi.
    rewrite (Z.add_comm i base), (Hsame (base + i)) by lia. ring. }
  assert (Hpos : Qpositive total = true)
    by (apply Qpositive_spec; rewrite Htotal; reflexivity).
  rewrite (assert_true _ _ Hpos). cbn [bind].
  destruct (EncodeV1Belief_divide_loop total e1 base bits Hbits Hbase)
    as (e2 & H2 & Hs2 & Hin2 & Hout2); [lia|].
  exists e2. split; [assumption|]. split; [lia|].
  intros j Hj.
  destruct (Z_le_dec base j) as [Hlo|Hlo];
    [destruct (Z_lt_dec j (base + bits)) as [Hhi|Hhi]|].
  - replace j with (j - base + base) by lia.
    rewrite Hin2, Hin1 by lia. rewrite Htotal.
    rewrite <- (Hsame (j - base + base)) by lia. field.
  - rewrite Hout2, Hout1 by lia. now apply Hsame.
  - rewrite Hout2, Hout1 by lia. now apply Hsame.
Qed.

Lemma same_entries_refl (v : vec) : same_entries v v.
Proof. split; [reflexivity|]. intros j _. reflexivity. Qed.

(** Third phase of a step with weight 0: every grid keeps its entries. *)
Lemma EncodeV1Belief_blend_weight_0 (game : HanabiGame.t)
  (obs : HanabiObservation.t) (new v1 v0 : vec) :
  positive_dimensions game -> hands_fit game obs ->
  size (Hands obs) = NumPlayers game ->
  size v0 = CardKnowledgeSectionLength game ->
  size new = CardKnowledgeSectionLength game ->
  grids_sum_to_one game obs 0 v0 ->
  same_entries v1 v0 ->
  exists v1',
    for_range (NumPlayers game)
      (EncodeV1Belief_blend_player (BitsPerCard game) 0%Q (Hands obs) new
         (HandSize game * slot_width game) (slot_width game)) v1 = Ok v1' /\
    same_entries v1' v0.
Proof.
  intros Hdim Hfit Hhands Hv0 Hnew Hsum Hsame.
  assert (HP0 : 0 <= NumPlayers game) by (destruct Hdim as (_ & _ & ? & _); lia).
  assert (Hbits : 0 < BitsPerCard game)
    by (destruct Hdim as (HC & HR & _); unfold BitsPerCard; nia).
  apply (for_range_progress (fun _ e => same_entries e v0)); try assumption.
  intros p e Hp He. unfold EncodeV1Belief_blend_player.
  destruct (nth_error (Hands obs) (Z.to_nat p)) as [hand|] eqn:Hnth.
  2:{ apply nth_error_None in Hnth. unfold size in Hhands. lia. }
  rewrite (load_nth_error _ _ _ (proj1 Hp) Hnth). cbn [bind].
  assert (Hsz0 : 0 <= size (HanabiHand.Cards hand)) by (unfold size; lia).
  apply (for_range_progress (fun _ e => same_entries e v0)); try assumption.
  intros k t Hk Ht.
  pose proof (occupied_in_section game obs p k 0 hand Hdim Hfit Hhands
                (proj1 Hp) Hnth Hk ltac:(lia)) as Hlo.
  pose proof (occupied_in_section game obs p k (BitsPerCard game - 1) hand
                Hdim Hfit Hhands (proj1 Hp) Hnth Hk ltac:(lia)) as Hhi.
  apply EncodeV1Belief_slot_weight_0; try assumption.
  - lia.
  - lia.
  - rewrite (proj1 Ht). lia.
  - rewrite (proj1 Ht). lia.
  - assert (Hocc : occupied obs p k)
      by (exists hand; split; [lia|]; split; [assumption | lia]).
    specialize (Hsum p k Hocc). rewrite <- slot_base_offsets in Hsum.
    exact Hsum.
Qed.

(** A whole step with weight 0. *)
Lemma EncodeV1Belief_step_weight_0 (game : HanabiGame.t)
  (obs : HanabiObservation.t) (ck : vec) (cc : list Z)
  (tc new v1 v0 : vec) (step : Z) :
  positive_dimensions game -> hands_fit game obs ->
  size (Hands obs) = NumPlayers game ->
  size cc = BitsPerCard game -> size tc = BitsPerCard game ->
  size ck = CardKnowledgeSectionLength game ->
  size v0 = CardKnowledgeSectionLength game ->
  size new = CardKnowledgeSectionLength game ->
  grids_sum_to_one game obs 0 v0 ->
  same_entries v1 v0 ->
  exists tc' new' v1',
    EncodeV1Belief_step game obs 0%Q ck cc
      (HandSize game * slot_width game) (slot_width game) (tc, new, v1) step
    = Ok (tc', new', v1') /\
    size tc' = BitsPerCard game /\
    size new' = CardKnowledgeSectionLength game /\
    same_entries v1' v0.
Proof.
  intros Hdim Hfit Hhands Hcc Htc Hck Hv0 Hnew Hsum Hsame.
  unfold EncodeV1Belief_step.
  change (NumColors game * NumRanks game) with (BitsPerCard game).
  assert (Hv1 : size v1 = CardKnowledgeSectionLength game)
    by (rewrite (proj1 Hsame); assumption).
  destruct (EncodeV1Belief_total_ok game obs cc v1 tc Hdim Hfit Hhands Hcc
              Htc Hv1) as (tc' & H1 & Hs1).
  rewrite H1. cbn [bind].
  destruct (EncodeV1Belief_new_ok game obs ck tc' v1 new Hdim Hfit Hhands
              ltac:(lia) Hck Hv1 Hnew) as (new' & H2 & Hs2).
  rewrite H2. cbn [bind].
  destruct (EncodeV1Belief_blend_weight_0 game obs new' v1 v0 Hdim Hfit
              Hhands Hv0 ltac:(lia) Hsum Hsame) as (v1' & H3 & Hs3).
  rewrite H3. cbn [bind].
  exists tc', new', v1'. repeat split; try lia; apply Hs3.
Qed.

(** The final loop copies [v1_belief] over a buffer of its size. *)
Lemma EncodeV1Belief_copy_all (v1 enc : vec) :
  size enc = size v1 ->
  for_range (size v1) (EncodeV1Belief_copy v1 0) enc = Ok v1.
Proof.
  intros Hsz.
  assert (Hn : 0 <= size v1) by (unfold size; lia).
  destruct (for_range_progress
              (fun m e => size e = size v1 /\
                          forall i, 0 <= i < m -> get e i = get v1 i)
              (EncodeV1Belief_copy v1 0) (size v1) enc Hn)
    as (enc' & Hrun & Hs & Hget).
  - split; [assumption | intros; lia].
  - intros m e Hm (Hs & Hget). unfold EncodeV1Belief_copy.
    rewrite (load_ok _ _ 0%Q) by lia. cbn [bind]. fold (get v1 m).
    destruct (store_progress e (m + 0) (get v1 m)) as (e' & He & Hs');
      [lia|].
    exists e'. split; [assumption|]. split; [lia|].
    intros i Hi. rewrite (get_store _ _ _ _ _ He) by lia.
    destruct (Z.eqb_spec i (m + 0)) as [->|E];
      [now rewrite Z.add_0_r | apply Hget; lia].
  - rewrite Hrun. f_equal. apply vec_ext; [assumption|].
    intros j Hj. apply Hget. lia.
Qed.

(** Facts on a successful run of [EncodeV0Belief_] on the zero buffer of
    the accessors. *)
Lemma EncodeV0Belief_zero_facts (game : HanabiGame.t)
  (obs : HanabiObservation.t) (v0 : vec) (len : Z) (cc : list Z) :
  positive_dimensions game -> hands_fit game obs ->
  EncodeV0Belief_ game obs 0
    (repeat 0%Q (Z.to_nat (CardKnowledgeSectionLength game)))
  = Ok (v0, len, cc) ->
  exists raw,
    EncodeCardKnowledge game obs 0
      (repeat 0%Q (Z.to_nat (CardKnowledgeSectionLength game)))
    = Ok (raw, len) /\
    len = CardKnowledgeSectionLength game /\
    size raw = CardKnowledgeSectionLength game /\
    size v0 = CardKnowledgeSectionLength game /\
    size cc = BitsPerCard game /\
    size (Hands obs) = NumPlayers game /\
    grids_sum_to_one game obs 0 v0.
Proof.
  intros Hdim Hfit H.
  pose proof (CardKnowledgeSectionLength_nonneg game Hdim) as HL.
  destruct (EncodeV0Belief_inv _ _ _ _ _ _ _ Hdim Hfit (Z.le_refl 0) H)
    as (raw & Hcc & Hck & Hbel).
  destruct (EncodeCardKnowledge_inv _ _ _ _ _ _ Hdim Hck)
    as (Hlen & Hhands & _ & Hw).
  pose proof (writes_size _ _ _ Hw) as Hsr.
  rewrite size_repeat in Hsr by assumption.
  exists raw. repeat split; try assumption.
  - rewrite (proj1 Hbel). assumption.
  - now apply ComputeCardCount_size in Hcc.
  - intros p k Hocc. now apply (belief_of_sums game obs 0 cc raw v0 Hdim Hbel).
Qed.

(** [EncodeV1Belief_run] after its preamble: the refinement loop from the
    V0 belief, then the copy. *)
Lemma EncodeV1Belief_run_loop (game : HanabiGame.t)
  (obs : HanabiObservation.t) (v0 raw : vec) (len : Z) (cc : list Z)
  (n : Z) (w : Q) (encoding : vec) :
  positive_dimensions game -> hands_fit game obs ->
  EncodeV0Belief_ game obs 0
    (repeat 0%Q (Z.to_nat (CardKnowledgeSectionLength game)))
  = Ok (v0, len, cc) ->
  EncodeCardKnowledge game obs 0
    (repeat 0%Q (Z.to_nat (CardKnowledgeSectionLength game)))
  = Ok (raw, len) ->
  EncodeV1Belief_run n w game obs 0 encoding
  = bind (for_range n
            (EncodeV1Belief_step game obs w raw cc
               (HandSize game * slot_width game) (slot_width game))
            (repeat 0%Q (length cc), v0, v0))
         (fun st =>
            let '(_, _, v1) := st in
            bind (for_range (size v1) (EncodeV1Belief_copy v1 0) encoding)
                 (fun encoding => Ok (encoding, size v1))).
Proof.
  intros Hdim Hfit Hv0 Hck.
  destruct (EncodeV0Belief_zero_facts game obs v0 len cc Hdim Hfit Hv0)
    as (raw' & Hck' & Hlen & Hsr & Hsv & Hcc & Hhands & _).
  assert (raw' = raw) by congruence. subst raw'.
  pose proof (CardKnowledgeSectionLength_nonneg game Hdim) as HL.
  destruct (CardKnowledge_offsets game Hdim) as (E1 & E2 & E3).
  unfold EncodeV1Belief_run. rewrite new_vector_ok by assumption.
  cbn [bind]. rewrite Hck. cbn [bind].
  rewrite (assert_true (len =? size raw)) by lia. cbn [bind].
  rewrite (EncodeV0Belief_on_raw _ _ _ _ _ _ Hdim Hck), Hv0. cbn [bind].
  rewrite (assert_true (len =? size raw)) by lia. cbn [bind].
  subst len. rewrite E1. cbn [bind]. rewrite E2. cbn [bind].
  rewrite E3. cbn [bind].
  rewrite (assert_true (slot_width game =? _))
    by (unfold slot_width, BitsPerCard; lia).
  cbn [bind].
  assert (Hst : size (repeat 0%Q (length cc))
                = NumColors game * NumRanks game).
  { unfold size in *. rewrite repeat_length. exact Hcc. }
  rewrite (assert_true (size (repeat 0%Q (length cc)) =? _)) by lia.
  cbn [bind]. reflexivity.
Qed.

(** With no iteration the result is the V0 belief itself; with weight 0 it
    has the same entries after any number of iterations. *)
Lemma EncodeV1Belief_run_weight_0 (game : HanabiGame.t)
  (obs : HanabiObservation.t) (v0 : vec) (len : Z) (cc : list Z) :
  positive_dimensions game -> hands_fit game obs ->
  EncodeV0Belief_ game obs 0
    (repeat 0%Q (Z.to_nat (CardKnowledgeSectionLength game)))
  = Ok (v0, len, cc) ->
  (forall w,
     EncodeV1Belief_run 0 w game obs 0
       (repeat 0%Q (Z.to_nat (CardKnowledgeSectionLength game)))
     = Ok (v0, len)) /\
  (forall n, 0 <= n ->
     exists v1,
       EncodeV1Belief_run n 0%Q game obs 0
         (repeat 0%Q (Z.to_nat (CardKnowledgeSectionLength game)))
       = Ok (v1, len) /\ same_entries v1 v0).
Proof.
  intros Hdim Hfit Hv0.
  destruct (EncodeV0Belief_zero_facts game obs v0 len cc Hdim Hfit Hv0)
    as (raw & Hck & Hlen & Hsr & Hsv & Hcc & Hhands & Hsum).
  pose proof (CardKnowledgeSectionLength_nonneg game Hdim) as HL.
  assert (Hz : size (repeat 0%Q (Z.to_nat (CardKnowledgeSectionLength game)))
               = CardKnowledgeSectionLength game) by now apply size_repeat.
  split.
  - intros w. rewrite (EncodeV1Belief_run_loop game obs v0 raw len cc 0 w _
                         Hdim Hfit Hv0 Hck).
    rewrite for_range_nonpos by lia. cbn [bind].
    rewrite EncodeV1Belief_copy_all by lia. cbn [bind]. now rewrite Hsv, Hlen.
  - intros n Hn.
    rewrite (EncodeV1Belief_run_loop game obs v0 raw len cc n 0%Q _
               Hdim Hfit Hv0 Hck).
    destruct (for_range_progress
                (fun _ st =>
                   size (fst (fst st)) = BitsPerCard game /\
                   size (snd (fst st)) = CardKnowledgeSectionLength game /\
                   same_entries (snd st) v0)
                (EncodeV1Belief_step game obs 0%Q raw cc
                   (HandSize game * slot_width game) (slot_width game))
                n (repeat 0%Q (length cc), v0, v0) Hn)
      as (((tc & new) & v1) & Hrun & _ & _ & Hsame).
    + cbn [fst snd]. split; [|split; [assumption | apply same_entries_refl]].
      unfold size in *. rewrite repeat_length. exact Hcc.
    + intros i ((tc & new) & v) Hi (Htc & Hnew & Hsame).
      cbn [fst snd] in Htc, Hnew, Hsame.
      destruct (EncodeV1Belief_step_weight_0 game obs raw cc tc new v v0 i
                  Hdim Hfit Hhands Hcc Htc Hsr Hsv Hnew Hsum Hsame)
        as (tc' & new' & v' & Hstep & Htc' & Hnew' & Hsame').
      exists (tc', new', v'). split; [assumption|]. cbn [fst snd]. auto.
    + cbn [snd] in Hsame. rewrite Hrun. cbn [bind].
      rewrite EncodeV1Belief_copy_all by (rewrite (proj1 Hsame); lia).
      cbn [bind]. exists v1. split; [|assumption].
      now rewrite (proj1 Hsame), Hsv, Hlen.
Qed.

Lemma belief_index_split (game : HanabiGame.t) (j : Z) :
  positive_dimensions game ->
  0 <= j < NumPlayers game * HandSize game * BitsPerCard game ->
  exists p k i,
    0 <= p < NumPlayers game /\ 0 <= k < HandSize game /\
    0 <= i < BitsPerCard game /\ j = belief_slot game p k + i.
Proof.
  intros (HC & HR & HP & HH) Hj.
  assert (Hbits : 0 <= BitsPerCard game) by (unfold BitsPerCard; nia).
  destruct (index_split _ _ _ Hj Hbits) as (Hs & Hi & Ej).
  destruct (index_split _ _ _ Hs (Z.lt_le_incl _ _ HH)) as (Hp & Hk & Es).
  exists (j / BitsPerCard game / HandSize game),
    ((j / BitsPerCard game) mod HandSize game), (j mod BitsPerCard game).
  repeat split; try lia. unfold belief_slot. rewrite <- Es. exact Ej.
Qed.

Lemma ExtractBelief_same_entries (game : HanabiGame.t) (v1 v0 b1 b0 : vec) :
  positive_dimensions game ->
  same_entries v1 v0 ->
  ExtractBelief v1 game = Ok b1 -> ExtractBelief v0 game = Ok b0 ->
  same_entries b1 b0.
Proof.
  intros Hdim (Hsz & Hsame) H1 H0.
  destruct (ExtractBelief_inv _ _ _ Hdim H1) as (_ & Hs1 & Hg1).
  destruct (ExtractBelief_inv _ _ _ Hdim H0) as (_ & Hs0 & Hg0).
  split; [lia|]. intros j Hj.
  destruct (Z_lt_dec j (NumPlayers game * HandSize game * BitsPerCard game))
    as [Hlt|Hge].
  - destruct (belief_index_split game j Hdim (conj Hj Hlt))
      as (p & k & i & Hp & Hk & Hi & ->).
    rewrite (Hg1 p k i Hp Hk Hi), (Hg0 p k i Hp Hk Hi).
    apply Hsame.
    pose proof (slot_base_ge game 0 p k Hdim (proj1 Hp) (proj1 Hk)). lia.
  - rewrite !get_beyond by lia. reflexivity.
Qed.

(** C4 (amended): whenever the V0 accessor returns a belief, the V1 accessor
    run with 0 refinement steps returns that very vector, whatever the
    weight; run with weight 0 and any number of steps it returns a vector
    with the same entries when the arithmetic is exact (the entries are
    rationals here, compared with [==]); and V1 returns nothing when V0 does
    not.  In the binary32 arithmetic of the code the steps of weight 0 are
    not the identity: each divides a grid by its rounded total, which need
    not be 1, so the entries agree with those of V0 up to rounding only
    (the lemma after the witness). *)
Theorem EncodeV1Belief_weight_0_is_V0 (game : HanabiGame.t)
  (obs : HanabiObservation.t) :
  positive_dimensions game -> hands_fit game obs ->
  (forall b0, EncodeV0Belief game obs = Ok b0 ->
     (forall w, EncodeV1Belief_with 0 w game obs = Ok b0) /\
     (forall n, 0 <= n ->
        exists b1, EncodeV1Belief_with n 0%Q game obs = Ok b1 /\
                   same_entries b1 b0)) /\
  (forall n w b1, EncodeV1Belief_with n w game obs = Ok b1 ->
     exists b0, EncodeV0Belief game obs = Ok b0).
Proof.
  intros Hdim Hfit.
  pose proof (CardKnowledgeSectionLength_nonneg game Hdim) as HL.
  split.
  - intros b0 H. unfold EncodeV0Belief in H.
    rewrite new_vector_ok in H by assumption. cbn [bind] in H.
    apply bind_Ok in H. destruct H as (((v0 & len) & cc) & Hv0 & H).
    apply bind_Ok in H. destruct H as (u & Ha & Hex).
    apply assert_inv, Z.eqb_eq in Ha.
    destruct (EncodeV1Belief_run_weight_0 game obs v0 len cc Hdim Hfit Hv0)
      as (Hzero & Hweight).
    split.
    + intros w. unfold EncodeV1Belief_with.
      rewrite new_vector_ok by assumption. cbn [bind].
      rewrite Hzero. cbn [bind].
      rewrite (assert_true (len =? size v0)) by lia. cbn [bind]. exact Hex.
    + intros n Hn. destruct (Hweight n Hn) as (v1 & Hrun & Hsame).
      unfold EncodeV1Belief_with.
      rewrite new_vector_ok by assumption. cbn [bind].
      rewrite Hrun. cbn [bind].
      rewrite (assert_true (len =? size v1))
        by (rewrite (proj1 Hsame); lia).
      cbn [bind].
      destruct (ExtractBelief_inv _ _ _ Hdim Hex) as (Hs0 & _).
      destruct (ExtractBelief_spec game v1 Hdim) as (b1 & Hb1 & _).
      * rewrite (proj1 Hsame), Hs0, CardKnowledgeSectionLength_slots. lia.
      * exists b1. split; [assumption|].
        now apply (ExtractBelief_same_entries game v1 v0).
  - intros n w b1 H. unfold EncodeV1Belief_with in H.
    rewrite new_vector_ok in H by assumption. cbn [bind] in H.
    apply bind_Ok in H. destruct H as ((enc & len) & Hrun & _).
    unfold EncodeV1Belief_run in Hrun.
    rewrite new_vector_ok in Hrun by assumption. cbn [bind] in Hrun.
    apply bind_Ok in Hrun. destruct Hrun as ((raw & len0) & Hck & Hrun).
    apply bind_Ok in Hrun. destruct Hrun as (u & _ & Hrun).
    apply bind_Ok in Hrun.
    destruct Hrun as (((v0 & len1) & cc) & Hv0 & _).
    rewrite (EncodeV0Belief_on_raw _ _ _ _ _ _ Hdim Hck) in Hv0.
    destruct (EncodeV0Belief_zero_facts game obs v0 len1 cc Hdim Hfit Hv0)
      as (_ & _ & Hlen & _ & Hsv & _).
    unfold EncodeV0Belief. rewrite new_vector_ok by assumption.
    cbn [bind]. rewrite Hv0. cbn [bind].
    rewrite (assert_true (len1 =? size v0)) by lia. cbn [bind].
    destruct (ExtractBelief_spec game v0 Hdim) as (b0 & Hb0 & _).
    + rewrite Hsv, CardKnowledgeSectionLength_slots. lia.
    + now exists b0.
Qed.

Lemma EncodeV1Belief_weight_0_is_V0_witness :
  (forall b0, EncodeV0Belief standard_game hinted_observation = Ok b0 ->
     (forall w, EncodeV1Belief_with 0 w standard_game hinted_observation
                = Ok b0) /\
     (forall n, 0 <= n ->
        exists b1,
          EncodeV1Belief_with n 0%Q standard_game hinted_observation = Ok b1 /\
          same_entries b1 b0)) /\
  (forall n w b1,
     EncodeV1Belief_with n w standard_game hinted_observation = Ok b1 ->
     exists b0, EncodeV0Belief standard_game hinted_observation = Ok b0).
Proof.
  apply (EncodeV1Belief_weight_0_is_V0 standard_game hinted_observation).
  - exact standard_positive_dimensions.
  - exact hinted_hands_fit.
Defined.

(** C4 as stated fails in binary32.  For the hinted observation the V0 grid
    of the observer's first slot does not sum to 1 after rounding, and one
    step of weight 0 changes its first entry from [10956549 * 2^-28] to
    [10956550 * 2^-28], while 0 steps return the V0 belief itself; for the
    fresh observation the belief still differs from V0 after the 100 steps
    of the code.  The entries stay within [2^-24] of those of V0. *)
Lemma EncodeV1Belief_weight_0_rounds :
  (Binary32.EncodeV0Belief standard_game hinted_observation
   = Ok hinted_v0_binary32 /\
   Binary32.EncodeV1Belief_with 0 Binary32.zero standard_game
     hinted_observation = Ok hinted_v0_binary32 /\
   Binary32.EncodeV1Belief_with 1 Binary32.zero standard_game
     hinted_observation = Ok hinted_v1_binary32 /\
   occupied hinted_observation 0 0 /\
   Binary32.get hinted_v0_binary32 (belief_slot standard_game 0 0 + 0)
   = SpecFloat.S754_finite false 10956549 (-28) /\
   Binary32.get hinted_v1_binary32 (belief_slot standard_game 0 0 + 0)
   = SpecFloat.S754_finite false 10956550 (-28) /\
   close_entries two_pow_minus_24 hinted_v1_binary32 hinted_v0_binary32
   = true) /\
  (Binary32.EncodeV0Belief standard_game fresh_observation
   = Ok fresh_v0_binary32 /\
   Binary32.EncodeV1Belief_with V1_num_iters Binary32.zero standard_game
     fresh_observation = Ok fresh_v1_binary32 /\
   occupied fresh_observation 0 0 /\
   Binary32.get fresh_v0_binary32 (belief_slot standard_game 0 0 + 0)
   = SpecFloat.S754_finite false 16106127 (-28) /\
   Binary32.get fresh_v1_binary32 (belief_slot standard_game 0 0 + 0)
   = SpecFloat.S754_finite false 16106125 (-28) /\
   close_entries two_pow_minus_24 fresh_v1_binary32 fresh_v0_binary32
   = true).
Proof.
  split.
  - split; [vm_compute; reflexivity|].
    split; [vm_compute; reflexivity|].
    split; [vm_compute; reflexivity|].
    split.
    { exists fresh_own_hand. split; [lia|]. split; [reflexivity|].
      vm_compute. split; [discriminate | reflexivity]. }
    split; [vm_compute; reflexivity|].
    split; vm_compute; reflexivity.
  - split; [vm_compute; reflexivity|].
    split; [vm_compute; reflexivity|].
    split.
    { exists fresh_own_hand. split; [lia|]. split; [reflexivity|].
      vm_compute. split; [discriminate | reflexivity]. }
    split; [vm_compute; reflexivity|].
    split; vm_compute; reflexivity.
Qed.

(** ** The sections of the full encoding stay within their bounds *)

Lemma touched_refl lo hi enc : touched lo hi enc enc.
Proof. split; [reflexivity|]. intros j _. now left. Qed.

Lemma touched_trans lo hi e0 e1 e2 :
  touched lo hi e0 e1 -> touched lo hi e1 e2 -> touched lo hi e0 e2.
Proof.
  intros (S1 & H1) (S2 & H2). split; [congruence|]. intros j Hj.
  destruct (H2 j Hj) as [E2|(R2 & E2)]; [|right; auto].
  rewrite E2. apply H1. assumption.
Qed.

Lemma touched_weaken lo hi lo' hi' e e' :
  lo' <= lo -> hi <= hi' -> touched lo hi e e' -> touched lo' hi' e e'.
Proof.
  intros Hlo Hhi (S & H). split; [assumption|]. intros j Hj.
  destruct (H j Hj) as [E|(R & E)]; [now left | right; split; [lia|assumption]].
Qed.

Lemma touched_store lo hi e e' i :
  store e i 1%Q = Ok e' -> lo <= i < hi -> touched lo hi e e'.
Proof.
  intros H Hi. split; [now apply store_size in H|]. intros j Hj.
  rewrite (get_store _ _ _ _ _ H) by assumption.
  destruct (Z.eqb_spec j i) as [->|]; [right; auto | now left].
Qed.

Lemma touched_writes (W : Z -> Prop) lo hi e e' :
  writes W e e' -> (forall j, W j -> lo <= j < hi) -> touched lo hi e e'.
Proof.
  intros (S & _ & H) Hr. split; [assumption|]. intros j Hj.
  destruct (H j Hj) as [(Hw & E)|(_ & E)]; [right | now left].
  split; [now apply Hr | assumption].
Qed.

Lemma touched_bits lo hi e e' : touched lo hi e e' -> bits_only e -> bits_only e'.
Proof.
  intros (_ & H) Hb j Hj. destruct (H j Hj) as [->|(_ & ->)];
    [now apply Hb | now right].
Qed.

Lemma touched_outside lo hi e e' j :
  touched lo hi e e' -> 0 <= j -> ~ (lo <= j < hi) -> get e' j = get e j.
Proof.
  intros (_ & H) Hj Hout. destruct (H j Hj) as [E|(R & _)];
    [assumption | contradiction].
Qed.

(** A store inside both the buffer and the bounds. *)
Lemma store_touched lo hi (e : vec) i :
  0 <= i < size e -> lo <= i < hi ->
  exists e', store e i 1%Q = Ok e' /\ touched lo hi e e'.
Proof.
  intros Hi Hr. destruct (store_progress e i 1%Q Hi) as (e' & He & _).
  exists e'. split; [assumption|]. now apply (touched_store _ _ _ _ i).
Qed.

Lemma set_prefix_touched lo hi (e : vec) offset n :
  0 <= offset -> offset + n <= size e -> lo <= offset -> offset + n <= hi ->
  exists e', set_prefix offset n e = Ok e' /\ touched lo hi e e'.
Proof.
  intros Ho Hn Hlo Hhi.
  destruct (set_prefix_ok offset n e Ho Hn) as (e' & He).
  exists e'. split; [assumption|].
  apply (touched_writes _ _ _ _ _ (set_prefix_writes _ _ _ _ He)).
  intros j Hj. lia.
Qed.

(** *** Hands *)

Lemma EncodeHands_card_ok (game : HanabiGame.t) (show_own_cards : bool)
  (player num_cards offset : Z) (encoding : vec) (card : HanabiCard.t)
  (lo hi : Z) :
  (if (player =? 0) && negb show_own_cards
   then card_hidden game card else card_shown game card) ->
  0 <= offset -> offset + BitsPerCard game <= size encoding ->
  lo <= offset -> offset + BitsPerCard game <= hi ->
  exists encoding',
    EncodeHands_card game show_own_cards player (num_cards, offset, encoding)
                     card
    = Ok (num_cards + 1, offset + BitsPerCard game, encoding') /\
    touched lo hi encoding encoding'.
Proof.
  intros Hcard Ho Hsz Hlo Hhi. unfold EncodeHands_card.
  assert (Hlt : HanabiCard.Color card < NumColors game /\
                HanabiCard.Rank card < NumRanks game).
  { destruct ((player =? 0) && negb show_own_cards);
      destruct Hcard as (_ & ? & ?); lia. }
  destruct Hlt as (Hc & Hr).
  rewrite (assert_true (_ <? NumColors game)) by lia. cbn [bind].
  rewrite (assert_true (_ <? NumRanks game)) by lia. cbn [bind].
  assert (Hshown : card_shown game card ->
    exists encoding',
      (assert (HanabiCard.IsValid card) CardValid ;;
       store encoding
         (offset + CardIndex (HanabiCard.Color card) (HanabiCard.Rank card)
                             (NumRanks game)) 1%Q) = Ok encoding' /\
      touched lo hi encoding encoding').
  { intros (Hv & Hcol & Hrk). rewrite Hv. cbn [assert bind].
    pose proof (CardIndex_range (NumColors game) (NumRanks game) _ _ Hcol Hrk)
      as Hidx.
    unfold BitsPerCard in *. unfold CardIndex.
    apply store_touched; lia. }
  destruct (player =? 0); cbn [andb] in Hcard.
  - destruct show_own_cards; cbn [negb] in Hcard.
    + destruct (Hshown Hcard) as (e' & -> & T). cbn [bind]. eauto.
    + destruct Hcard as (-> & _). cbn [negb assert bind].
      exists encoding. split; [reflexivity | apply touched_refl].
  - destruct (Hshown Hcard) as (e' & -> & T). cbn [bind]. eauto.
Qed.

Lemma EncodeHands_player_ok (game : HanabiGame.t) (hands : list HanabiHand.t)
  (show_own_cards : bool) (player offset : Z) (encoding : vec)
  (hand : HanabiHand.t) (lo hi : Z) :
  0 <= BitsPerCard game ->
  0 <= player -> nth_error hands (Z.to_nat player) = Some hand ->
  size (HanabiHand.Cards hand) <= HandSize game ->
  (forall card, In card (HanabiHand.Cards hand) ->
     if (player =? 0) && negb show_own_cards
     then card_hidden game card else card_shown game card) ->
  0 <= offset -> offset + HandSize game * BitsPerCard game <= size encoding ->
  lo <= offset -> offset + HandSize game * BitsPerCard game <= hi ->
  exists encoding',
    EncodeHands_player game hands show_own_cards (offset, encoding) player
    = Ok (offset + HandSize game * BitsPerCard game, encoding') /\
    touched lo hi encoding encoding'.
Proof.
  intros Hbits Hp Hnth Hfit Hcards Ho Hsz Hlo Hhi. unfold EncodeHands_player.
  rewrite (load_nth_error _ _ _ Hp Hnth). cbn [bind].
  destruct (foldM_progress
    (fun k (st : Z * Z * vec) =>
       let '(num, off, e) := st in
       num = k /\ off = offset + k * BitsPerCard game /\
       touched lo hi encoding e)
    (EncodeHands_card game show_own_cards player)
    (HanabiHand.Cards hand) (0, offset, encoding))
    as (((num, off), e) & Hrun & Hnum & Hoff & T).
  - split; [reflexivity|]. split; [lia | apply touched_refl].
  - intros k card ((num, off), e) Hk Hcard (-> & -> & T).
    pose proof (nth_error_size _ _ _ Hk Hcard) as Hlt.
    destruct (EncodeHands_card_ok game show_own_cards player k
                (offset + k * BitsPerCard game) e card lo hi)
      as (e' & He & T').
    + apply Hcards. now apply nth_error_In in Hcard.
    + nia.
    + destruct T as (-> & _). nia.
    + nia.
    + nia.
    + exists (k + 1, offset + k * BitsPerCard game + BitsPerCard game, e').
      split; [assumption|]. split; [reflexivity|]. split; [lia|].
      now apply (touched_trans _ _ _ e).
  - rewrite Hrun. cbn [bind]. subst num off. exists e. split; [|assumption].
    f_equal. f_equal.
    destruct (Z.ltb_spec (size (HanabiHand.Cards hand)) (HandSize game));
      [lia|].
    replace (size (HanabiHand.Cards hand)) with (HandSize game) by lia.
    reflexivity.
Qed.

Lemma EncodeHands_ok (game : HanabiGame.t) (obs : HanabiObservation.t)
  (start : Z) (encoding : vec) (show_own_cards : bool) :
  positive_dimensions game ->
  hands_well_formed game obs show_own_cards ->
  0 <= start -> start + HandsSectionLength game <= size encoding ->
  exists encoding',
    EncodeHands game obs start encoding show_own_cards
    = Ok (encoding', HandsSectionLength game) /\
    touched start (start + HandsSectionLength game) encoding encoding'.
Proof.
  intros (HC & HR & HP & HH) (Hsize & Hfit & Hcards) Hstart Hroom.
  unfold EncodeHands. cbv zeta.
  rewrite (assert_true (_ =? _)) by lia. cbn [bind].
  assert (Hbits : 0 < BitsPerCard game) by (unfold BitsPerCard; nia).
  set (len := HandsSectionLength game) in *.
  assert (Hlen : len = NumPlayers game * (HandSize game * BitsPerCard game)
                       + NumPlayers game)
    by (unfold len, HandsSectionLength; ring).
  assert (Hmono : forall p, 0 <= p < NumPlayers game ->
            0 <= p * (HandSize game * BitsPerCard game) /\
            p * (HandSize game * BitsPerCard game)
            + HandSize game * BitsPerCard game
            <= NumPlayers game * (HandSize game * BitsPerCard game)) by (intros; nia).
  assert (HP0 : 0 <= NumPlayers game) by lia.
  assert (Hhb : 0 <= HandSize game * BitsPerCard game) by nia.
  set (hb := HandSize game * BitsPerCard game) in *.
  destruct (for_range_progress
    (fun p (st : Z * vec) =>
       fst st = start + p * hb /\
       touched start (start + len) encoding (snd st))
    (EncodeHands_player game (Hands obs) show_own_cards)
    (NumPlayers game) (start, encoding) HP0)
    as ((off, e) & Hrun & Hoff & T).
  - cbn [fst snd]. split; [lia | apply touched_refl].
  - intros p (off, e) Hp (Hoff & T). cbn [fst snd] in *. subst off.
    destruct (nth_error (Hands obs) (Z.to_nat p)) as [hand|] eqn:Hnth.
    2:{ apply nth_error_None in Hnth. unfold size in Hsize. lia. }
    destruct (EncodeHands_player_ok game (Hands obs) show_own_cards p
                (start + p * hb) e hand
                start (start + len)) as (e' & He & T');
      fold hb; pose proof (Hmono p Hp) as Hm;
      pose proof (proj1 T) as ST; try lia.
    + assumption.
    + apply Hfit. now apply nth_error_In in Hnth.
    + intros card Hin. apply (Hcards p hand card); [lia|assumption..].
    + exists (start + p * (HandSize game * BitsPerCard game)
              + HandSize game * BitsPerCard game, e').
      split; [assumption|]. cbn [fst snd]. split; [lia|].
      now apply (touched_trans _ _ _ e).
  - cbn [fst snd] in *. rewrite Hrun. cbn [bind]. subst off.
    destruct (for_range_progress
      (fun (p : Z) (e' : vec) => touched start (start + len) encoding e')
      (EncodeHands_missing game (Hands obs)
         (start + NumPlayers game * hb))
      (NumPlayers game) e HP0 T) as (e' & Hrun' & T').
    + intros p t Hp Tt. unfold EncodeHands_missing.
      destruct (nth_error (Hands obs) (Z.to_nat p)) as [hand|] eqn:Hnth.
      2:{ apply nth_error_None in Hnth. unfold size in Hsize. lia. }
      rewrite (load_nth_error _ _ _ (proj1 Hp) Hnth). cbn [bind].
      destruct (_ <? _).
      * destruct (store_touched start (start + len) t
           (start + NumPlayers game * hb + p))
          as (t' & Ht' & Tt').
        { destruct Tt as (-> & _). lia. }
        { lia. }
        exists t'. split; [assumption|]. now apply (touched_trans _ _ _ t).
      * exists t. split; [reflexivity | assumption].
    + rewrite Hrun'. cbn [bind].
      rewrite (assert_true (_ =? _)) by lia. cbn [bind].
      exists e'. split; [|assumption]. f_equal. f_equal. lia.
Qed.

(** *** Board *)

Lemma EncodeBoard_fireworks_ok (game : HanabiGame.t) (fireworks : list Z)
  (offset : Z) (encoding : vec) (lo hi : Z) :
  0 <= NumColors game -> 0 <= NumRanks game ->
  NumColors game <= size fireworks ->
  (forall c, 0 <= c < NumColors game -> getz fireworks c <= NumRanks game) ->
  0 <= offset ->
  offset + NumColors game * NumRanks game <= size encoding ->
  lo <= offset -> offset + NumColors game * NumRanks game <= hi ->
  exists encoding',
    for_range (NumColors game) (EncodeBoard_firework game fireworks)
              (offset, encoding)
    = Ok (offset + NumColors game * NumRanks game, encoding') /\
    touched lo hi encoding encoding'.
Proof.
  intros HC HR Hfw Hle Ho Hsz Hlo Hhi.
  destruct (for_range_progress
    (fun c (st : Z * vec) =>
       fst st = offset + c * NumRanks game /\ touched lo hi encoding (snd st))
    (EncodeBoard_firework game fireworks) (NumColors game)
    (offset, encoding) HC) as ((off, e) & Hrun & Hoff & T).
  - cbn [fst snd]. split; [lia | apply touched_refl].
  - intros c (off, e) Hc (Hoff & T). cbn [fst snd] in *. subst off.
    unfold EncodeBoard_firework.
    rewrite (load_ok fireworks c 0) by lia. cbn [bind].
    fold (getz fireworks c). pose proof (Hle c Hc) as Hfwc.
    assert (Hm : 0 <= c * NumRanks game /\
                 c * NumRanks game + NumRanks game
                 <= NumColors game * NumRanks game) by nia.
    destruct (Z.gtb_spec (getz fireworks c) 0) as [Hpos|Hnpos].
    + destruct (store_touched lo hi e
                  (offset + c * NumRanks game + getz fireworks c - 1))
        as (e' & -> & T'); [destruct T as (-> & _); lia | lia |].
      cbn [bind]. eexists. split; [reflexivity|]. cbn [fst snd].
      split; [lia | now apply (touched_trans _ _ _ e)].
    + cbn [bind]. eexists. split; [reflexivity|]. cbn [fst snd].
      split; [lia | assumption].
  - cbn [fst snd] in *. subst off. exists e. split; [|assumption].
    rewrite Hrun. reflexivity.
Qed.

Lemma EncodeBoard_ok (game : HanabiGame.t) (obs : HanabiObservation.t)
  (start : Z) (encoding : vec) :
  valid_game game -> board_well_formed game obs ->
  0 <= start -> start + BoardSectionLength game <= size encoding ->
  exists encoding',
    EncodeBoard game obs start encoding
    = Ok (encoding', BoardSectionLength game) /\
    touched start (start + BoardSectionLength game) encoding encoding'.
Proof.
  intros ((HC & HR & HP & HH) & _ & _ & Hdeck & Hinfo & Hlife)
         (Hd & Hfw & Hle & Hi & Hl) Hstart Hroom.
  unfold EncodeBoard. cbv zeta.
  set (len := BoardSectionLength game) in *.
  assert (Hlen : len = MaxDeckSize game - NumPlayers game * HandSize game
                       + NumColors game * NumRanks game
                       + MaxInformationTokens game + MaxLifeTokens game)
    by reflexivity.
  assert (HCR : 0 <= NumColors game * NumRanks game) by nia.
  replace (HandSize game * NumPlayers game)
    with (NumPlayers game * HandSize game) by ring.
  set (o1 := start + (MaxDeckSize game - NumPlayers game * HandSize game)).
  destruct (set_prefix_touched start (start + len) encoding start
              (DeckSize obs)) as (e1 & -> & T1); try lia.
  cbn [bind].
  destruct (EncodeBoard_fireworks_ok game (Fireworks obs) o1 e1
              start (start + len)) as (e2 & -> & T2);
    try assumption; try (destruct T1 as (S1 & _); unfold o1; lia).
  cbn [bind].
  rewrite (assert_true (_ >=? 0)) by lia. cbn [bind].
  rewrite (assert_true (_ <=? _)) by lia. cbn [bind].
  pose proof (proj1 T1) as S1. pose proof (proj1 T2) as S2.
  destruct (set_prefix_touched start (start + len) e2
              (o1 + NumColors game * NumRanks game)
              (InformationTokens obs)) as (e3 & -> & T3);
    try (unfold o1; lia).
  cbn [bind].
  rewrite (assert_true (_ >=? 0)) by lia. cbn [bind].
  rewrite (assert_true (_ <=? _)) by lia. cbn [bind].
  pose proof (proj1 T3) as S3.
  destruct (set_prefix_touched start (start + len) e3
              (o1 + NumColors game * NumRanks game
               + MaxInformationTokens game)
              (LifeTokens obs)) as (e4 & -> & T4);
    try (unfold o1; lia).
  cbn [bind].
  rewrite (assert_true (_ =? _)) by (unfold o1; lia). cbn [bind].
  exists e4. split; [f_equal; f_equal; unfold o1; lia|].
  apply (touched_trans _ _ _ e1); [assumption|].
  apply (touched_trans _ _ _ e2); [assumption|].
  now apply (touched_trans _ _ _ e3).
Qed.

(** *** Last action *)

Lemma to_int8_small (z : Z) : 0 <= z < 128 -> to_int8 z = z.
Proof. intros H. unfold to_int8. rewrite Z.mod_small by lia. lia. Qed.

Lemma EncodeLastAction_outcome_touched (bm off n : Z) (enc : vec) (lo hi : Z) :
  0 <= off -> off + n <= size enc -> lo <= off -> off + n <= hi ->
  exists m enc',
    for_range n (EncodeLastAction_outcome bm off) (1, enc) = Ok (m, enc') /\
    touched lo hi enc enc'.
Proof.
  intros Hoff Hn Hlo Hhi.
  destruct (EncodeLastAction_outcome_loop bm off n enc Hoff Hn)
    as (m & enc' & Hrun & Hw).
  exists m, enc'. split; [assumption|].
  apply (touched_writes _ _ _ _ _ Hw). intros j (i & Hi & _ & ->). lia.
Qed.

(** One store of the section: it is in bounds, and the bounds of what has
    been written so far are kept. *)
Ltac touch lo hi T :=
  match goal with
  | |- context [bind (store ?e ?i 1%Q) _] =>
      let e' := fresh "e" in
      let E := fresh "E" in
      let T' := fresh "T" in
      destruct (store_touched lo hi e i) as (e' & E & T');
      [ pose proof (proj1 T); lia
      | lia
      | rewrite E; cbn [bind];
        apply (touched_trans _ _ _ _ _ T) in T'; clear T E; rename T' into T ]
  end.

Lemma EncodeLastAction_move_ok (game : HanabiGame.t)
  (item : HanabiHistoryItem.t) (start : Z) (encoding : vec) :
  valid_game game ->
  0 <= HanabiHistoryItem.player item < NumPlayers game ->
  match HanabiMove.MoveType (HanabiHistoryItem.move item) with
  | HanabiMove.kPlay | HanabiMove.kDiscard =>
      0 <= HanabiMove.CardIndex (HanabiHistoryItem.move item) < HandSize game /\
      0 <= HanabiHistoryItem.color item < NumColors game /\
      0 <= HanabiHistoryItem.rank item < NumRanks game
  | HanabiMove.kRevealColor =>
      0 <= HanabiMove.TargetOffset (HanabiHistoryItem.move item) /\
      0 <= HanabiMove.Color (HanabiHistoryItem.move item) < NumColors game
  | HanabiMove.kRevealRank =>
      0 <= HanabiMove.TargetOffset (HanabiHistoryItem.move item) /\
      0 <= HanabiMove.Rank (HanabiHistoryItem.move item) < NumRanks game
  | _ => False
  end ->
  0 <= start -> start + LastActionSectionLength game <= size encoding ->
  exists encoding',
    EncodeLastAction_move game item start encoding
    = Ok (encoding', start + LastActionSectionLength game) /\
    touched start (start + LastActionSectionLength game) encoding encoding'.
Proof.
  intros ((HC & HR & HP & HH) & _ & HP128 & _) Hpl Hmove Hstart Hroom.
  unfold EncodeLastAction_move. cbv zeta.
  set (hi := start + LastActionSectionLength game).
  assert (Hbits : 0 < NumColors game * NumRanks game) by nia.
  assert (Hhi : hi = start + (NumPlayers game + 4 + NumPlayers game
                              + NumColors game + NumRanks game
                              + HandSize game + HandSize game
                              + NumColors game * NumRanks game + 2))
    by reflexivity.
  assert (Hroom' : hi <= size encoding) by (unfold hi; lia).
  clearbody hi. unfold BitsPerCard.
  pose proof (touched_refl start hi encoding) as T.
  assert (Htarget : forall offset,
    0 <= HanabiMove.TargetOffset (HanabiHistoryItem.move item) ->
    exists t, 0 <= t < NumPlayers game /\
      (r <- int_rem (HanabiHistoryItem.player item
                     + HanabiMove.TargetOffset (HanabiHistoryItem.move item))
                    (NumPlayers game) ;;
       store offset (start + NumPlayers game + 4 + to_int8 r) 1%Q)
      = store offset (start + NumPlayers game + 4 + t) 1%Q).
  { intros offset Ht. unfold int_rem.
    replace (NumPlayers game =? 0) with false by lia. cbn [bind].
    pose proof (Z.rem_bound_pos
                  (HanabiHistoryItem.player item
                   + HanabiMove.TargetOffset (HanabiHistoryItem.move item))
                  (NumPlayers game) ltac:(lia) HP) as Hb.
    eexists. split; [exact Hb|]. rewrite to_int8_small by lia. reflexivity. }
  touch start hi T.
  destruct (HanabiMove.MoveType (HanabiHistoryItem.move item)) eqn:Hty;
    try contradiction;
    cbn [HanabiMove.is_reveal HanabiMove.is_play_or_discard].
  - (* play *)
    destruct Hmove as (Hci & Hcol & Hrk).
    pose proof (CardIndex_range _ _ _ _ Hcol Hrk) as Hidx.
    touch start hi T. cbn [bind]. touch start hi T.
    rewrite (assert_true (_ >=? 0)) by lia. cbn [bind].
    rewrite (assert_true (_ >=? 0)) by lia. cbn [bind].
    unfold CardIndex. touch start hi T.
    destruct (HanabiHistoryItem.scored item);
      destruct (HanabiHistoryItem.information_token item);
      cbn [bind]; repeat touch start hi T;
      (eexists; split; [f_equal; f_equal; lia | exact T]).
  - (* discard *)
    destruct Hmove as (Hci & Hcol & Hrk).
    pose proof (CardIndex_range _ _ _ _ Hcol Hrk) as Hidx.
    touch start hi T. cbn [bind]. touch start hi T.
    rewrite (assert_true (_ >=? 0)) by lia. cbn [bind].
    rewrite (assert_true (_ >=? 0)) by lia. cbn [bind].
    unfold CardIndex. touch start hi T. cbn [bind].
    eexists; split; [f_equal; f_equal; lia | exact T].
  - (* color hint *)
    destruct Hmove as (Hto & Hcol).
    touch start hi T.
    destruct (Htarget e0 Hto) as (t & Ht & ->).
    touch start hi T. touch start hi T. cbn [bind].
    destruct (EncodeLastAction_outcome_touched
                (HanabiHistoryItem.reveal_bitmask item)
                (start + NumPlayers game + 4 + NumPlayers game
                 + NumColors game + NumRanks game)
                (HandSize game) e2 start hi) as (m & e3 & -> & T3);
      try (pose proof (proj1 T); lia).
    cbn [bind].
    eexists; split; [f_equal; f_equal; lia |].
    now apply (touched_trans _ _ _ e2).
  - (* rank hint *)
    destruct Hmove as (Hto & Hrk).
    touch start hi T.
    destruct (Htarget e0 Hto) as (t & Ht & ->).
    touch start hi T. cbn [bind]. touch start hi T.
    destruct (EncodeLastAction_outcome_touched
                (HanabiHistoryItem.reveal_bitmask item)
                (start + NumPlayers game + 4 + NumPlayers game
                 + NumColors game + NumRanks game)
                (HandSize game) e2 start hi) as (m & e3 & -> & T3);
      try (pose proof (proj1 T); lia).
    cbn [bind].
    eexists; split; [f_equal; f_equal; lia |].
    now apply (touched_trans _ _ _ e2).
Qed.

Lemma EncodeLastAction_ok (game : HanabiGame.t) (obs : HanabiObservation.t)
  (start : Z) (encoding : vec) :
  valid_game game -> last_move_well_formed game obs ->
  0 <= start -> start + LastActionSectionLength game <= size encoding ->
  exists encoding',
    EncodeLastAction_ game obs start encoding
    = Ok (encoding', LastActionSectionLength game) /\
    touched start (start + LastActionSectionLength game) encoding encoding'.
Proof.
  intros Hgame Hmove Hstart Hroom. unfold EncodeLastAction_. cbv zeta.
  unfold last_move_well_formed in Hmove.
  destruct (GetLastNonDealMove (LastMoves obs)) as [item|].
  - destruct Hmove as (Hpl & Hmove).
    destruct (EncodeLastAction_move_ok game item start encoding
                Hgame Hpl Hmove Hstart Hroom) as (e' & -> & T).
    cbn [bind]. rewrite (assert_true (_ =? _)) by lia. cbn [bind].
    exists e'. split; [f_equal; f_equal; lia | assumption].
  - cbn [bind]. rewrite (assert_true (_ =? _)) by lia. cbn [bind].
    exists encoding. split; [f_equal; f_equal; lia | apply touched_refl].
Qed.

(** *** Discards *)

Lemma EncodeDiscards_ok (game : HanabiGame.t) (obs : HanabiObservation.t)
  (start : Z) (encoding : vec) :
  deck_complete game -> discards_from_deck game obs ->
  0 <= start -> start + DiscardSectionLength game <= size encoding ->
  exists encoding',
    EncodeDiscards game obs start encoding
    = Ok (encoding', DiscardSectionLength game) /\
    touched start (start + DiscardSectionLength game) encoding encoding'.
Proof.
  unfold DiscardSectionLength.
  intros Hdeck (Hpile & Hcount) Hstart Hroom.
  pose proof Hdeck as (HC & HR & Hinst & Htotal).
  assert (HN : 0 <= NumColors game * NumRanks game) by nia.
  destruct (count_discards game (DiscardPile obs)
              (repeat 0 (Z.to_nat (NumColors game * NumRanks game))) Hpile
              (size_repeat 0 _ HN)) as (dc & Hdc & Hsz & Hget).
  assert (Hle : forall q, 0 <= q < NumColors game * NumRanks game ->
                  getz dc q <= field_width game q).
  { intros q Hq. destruct (index_split _ _ _ Hq HR) as (Hc & Hr & E).
    rewrite E at 1. rewrite (Hget _ _ Hc Hr), getz_repeat_0.
    now apply Hcount. }
  destruct (EncodeDiscards_colors game dc start encoding Hdeck Hsz Hle
              Hstart Hroom) as ((offset & enc') & Hrun & Hoff & Hw).
  cbn [fst snd] in Hoff, Hw. rewrite Htotal in Hoff.
  exists enc'. split.
  - unfold EncodeDiscards. rewrite new_vector_ok by assumption. cbn [bind].
    rewrite Hdc. cbn [bind]. rewrite Hrun. cbn [bind].
    unfold DiscardSectionLength. subst offset.
    replace (start + MaxDeckSize game - start) with (MaxDeckSize game) by lia.
    now rewrite Z.eqb_refl.
  - apply (touched_writes _ _ _ _ _ Hw). intros j (q & Hq & Hjq).
    pose proof (Hle q Hq) as Hdq.
    assert (Hlo : 0 <= fields_before game q).
    { rewrite <- (fields_before_0 game).
      apply fields_before_mono; [assumption | lia | lia]. }
    assert (Hhi : fields_before game q + field_width game q
                  <= MaxDeckSize game).
    { rewrite <- fields_before_succ, <- Htotal by lia.
      apply fields_before_mono; [assumption | lia | lia]. }
    lia.
Qed.

(** ** Counts that make the belief section well defined *)

(** The sum of a list of counts, entry by entry. *)
Lemma sum_list_entries (n : Z) :
  0 <= n ->
  forall l f, size l = n -> (forall q, 0 <= q < n -> getz l q = f q) ->
              sum_list l = sum_list (map f (range n)).
Proof.
  intros Hn. pattern n. apply natlike_ind; [| |exact Hn]; clear n Hn.
  - intros l f Hsz _. destruct l; [reflexivity | discriminate Hsz].
  - intros n Hn IH l f Hsz Hget. unfold Z.succ in *.
    rewrite range_succ, map_app, sum_list_app by assumption.
    cbn [map sum_list fold_right].
    destruct (exists_last (l := l)) as (l' & a & ->).
    { intros ->. unfold size in Hsz. simpl in Hsz. lia. }
    unfold size in Hsz. rewrite length_app in Hsz. cbn [length] in Hsz.
    assert (Hl' : length l' = Z.to_nat n) by lia.
    rewrite sum_list_app. cbn [sum_list fold_right].
    rewrite (IH l' f).
    + rewrite <- (Hget n) by lia. unfold getz.
      rewrite <- Hl', nth_middle. reflexivity.
    + unfold size. lia.
    + intros q Hq. rewrite <- (Hget q) by lia. unfold getz.
      rewrite app_nth1 by lia. reflexivity.
Qed.

Lemma qsum_nonneg (f : Z -> Q) (n : Z) :
  0 <= n -> (forall i, 0 <= i < n -> (0 <= f i)%Q) -> (0 <= qsum f n)%Q.
Proof.
  intros Hn. pattern n. apply natlike_ind; [| |exact Hn]; clear n Hn.
  - intros _. rewrite qsum_0. apply Qle_refl.
  - intros n Hn IH Hf. unfold Z.succ in *. rewrite qsum_succ by assumption.
    replace 0%Q with (0 + 0)%Q by reflexivity.
    apply Qplus_le_compat; [apply IH; intros i Hi; apply Hf; lia|].
    apply Hf. lia.
Qed.

(** A sum of non-negative terms, one of which is positive. *)
Lemma qsum_pos (f : Z -> Q) (n i0 : Z) :
  0 <= i0 < n -> (forall i, 0 <= i < n -> (0 <= f i)%Q) -> (0 < f i0)%Q ->
  (0 < qsum f n)%Q.
Proof.
  intros Hi0 Hf Hpos.
  assert (Hn : 0 <= n) by lia. revert Hi0 Hf.
  pattern n. apply natlike_ind; [| |exact Hn]; clear n Hn.
  - intros Hi0. lia.
  - intros n Hn IH Hi0 Hf. unfold Z.succ in *. rewrite qsum_succ by assumption.
    destruct (Z.eq_dec i0 n) as [->|Hne].
    + apply (Qlt_le_trans _ (0 + f n)); [rewrite Qplus_0_l; exact Hpos|].
      apply Qplus_le_compat; [|apply Qle_refl].
      apply qsum_nonneg; [assumption|]. intros i Hi. apply Hf. lia.
    + replace 0%Q with (0 + 0)%Q by reflexivity.
      apply Qplus_lt_le_compat; [|apply Hf; lia].
      apply IH; [lia|]. intros i Hi. apply Hf. lia.
Qed.

Lemma grid_bit_nonneg (game : HanabiGame.t) (obs : HanabiObservation.t)
  (p k i : Z) : (0 <= grid_bit game obs p k i)%Q.
Proof. unfold grid_bit. destruct (slot_plausible _ _ _ _ _); discriminate. Qed.

(** For a well-formed observation the estimator returns the unseen copies
    of every card, and the grid of every occupied slot has a positive
    total. *)
Lemma belief_well_formed_counts (game : HanabiGame.t)
  (obs : HanabiObservation.t) :
  positive_dimensions game -> belief_well_formed game obs ->
  exists cc,
    ComputeCardCount game obs = Ok cc /\
    forall p k, occupied obs p k ->
      (0 < weighted_total game obs cc p k)%Q.
Proof.
  intros (HC & HR & _) (_ & _ & Hpiles & Hdeck & Htotal & Hcand).
  destruct (ComputeCardCount_entries game obs ltac:(lia) ltac:(lia) Hpiles)
    as (cc & Hsz & Hget & Hrun).
  assert (HN : 0 <= NumColors game * NumRanks game) by nia.
  assert (Hq : forall q, 0 <= q < NumColors game * NumRanks game ->
             getz cc q
             = remaining game obs (q / NumRanks game) (q mod NumRanks game)).
  { intros q Hq. destruct (index_split _ _ _ Hq ltac:(lia)) as (Hc & Hr & E).
    rewrite E at 1. now apply Hget. }
  assert (Hsum : sum_list cc = unseen_total game obs)
    by (apply (sum_list_entries _ HN); assumption).
  exists cc. split.
  - rewrite Hrun, Hsum, Htotal, Z.eqb_refl. reflexivity.
  - intros p k Hocc.
    destruct (Hcand p k Hocc) as (c & r & Hc & Hr & Hpl & Hrem).
    pose proof (CardIndex_range _ _ _ _ Hc Hr) as Hidx.
    unfold weighted_total, BitsPerCard.
    apply (qsum_pos _ _ (c * NumRanks game + r) Hidx).
    + intros i Hi. apply Qmult_le_0_compat; [apply grid_bit_nonneg|].
      rewrite (Hq i Hi).
      destruct (index_split _ _ _ Hi ltac:(lia)) as (Hc' & Hr' & _).
      specialize (Hdeck _ _ Hc' Hr'). unfold remaining.
      change 0%Q with (inject_Z 0). rewrite <- Zle_Qle. lia.
    + rewrite (Hget c r Hc Hr).
      assert (Hbit : grid_bit game obs p k (c * NumRanks game + r) = 1%Q).
      { unfold grid_bit.
        rewrite Z.add_comm, Z.div_add, Z.mod_add by lia.
        rewrite Z.div_small, Z.mod_small by lia. simpl (0 + c).
        now rewrite Hpl. }
      rewrite Hbit, Qmult_1_l.
      change 0%Q with (inject_Z 0). rewrite <- Zlt_Qlt. exact Hrem.
Qed.

(** ** The raw entries of the card-knowledge section *)

Lemma slot_offset_inj (game : HanabiGame.t) (start p k p' k' o o' : Z) :
  0 <= k < HandSize game -> 0 <= k' < HandSize game ->
  0 <= o < slot_width game -> 0 <= o' < slot_width game ->
  slot_base game start p k + o = slot_base game start p' k' + o' ->
  p = p' /\ k = k' /\ o = o'.
Proof.
  intros Hk Hk' Ho Ho' E. unfold slot_base in E.
  assert (E' : (p * HandSize game + k) * slot_width game + o
               = (p' * HandSize game + k') * slot_width game + o') by lia.
  apply CardIndex_inj in E'; [|lia|lia]. destruct E' as (E' & ->).
  apply CardIndex_inj in E'; [|lia|lia]. destruct E' as (-> & ->). auto.
Qed.

Lemma slot_knowledge_In (obs : HanabiObservation.t) (p k : Z)
  (kn : CardKnowledge.t) :
  slot_knowledge obs p k = Some kn ->
  exists hand, nth_error (Hands obs) (Z.to_nat p) = Some hand /\
               nth_error (HanabiHand.Knowledge hand) (Z.to_nat k) = Some kn.
Proof.
  unfold slot_knowledge. intros H.
  destruct (nth_error (Hands obs) (Z.to_nat p)) as [hand|]; [|discriminate].
  now exists hand.
Qed.

(** What the knowledge of a card sets lies in the block of its slot. *)
Lemma knowledge_writes_offset (game : HanabiGame.t) (kn : CardKnowledge.t)
  (base j : Z) :
  positive_dimensions game ->
  (CardKnowledge.ColorHinted kn = true ->
   0 <= CardKnowledge.Color kn < NumColors game) ->
  (CardKnowledge.RankHinted kn = true ->
   0 <= CardKnowledge.Rank kn < NumRanks game) ->
  knowledge_writes game kn base j ->
  exists o, 0 <= o < slot_width game /\ j = base + o.
Proof.
  intros (HC & HR & _) Hcol Hrk
         [(c & r & Hc & Hr & _ & ->)|[(Hh & ->)|(Hh & ->)]];
    unfold slot_width, BitsPerCard, CardIndex.
  - pose proof (CardIndex_range _ _ _ _ Hc Hr).
    exists (c * NumRanks game + r). lia.
  - specialize (Hcol Hh).
    exists (NumColors game * NumRanks game + CardKnowledge.Color kn). nia.
  - specialize (Hrk Hh).
    exists (NumColors game * NumRanks game + NumColors game
            + CardKnowledge.Rank kn). nia.
Qed.

(** On a section that was zero, an entry of a slot is 1 exactly when the
    knowledge of that slot makes the encoder set it. *)
Lemma EncodeCardKnowledge_raw_entry (game : HanabiGame.t)
  (obs : HanabiObservation.t) (start : Z) (enc raw : vec) (len : Z) :
  positive_dimensions game -> knowledge_in_range game obs -> 0 <= start ->
  EncodeCardKnowledge game obs start enc = Ok (raw, len) ->
  (forall j, start <= j < start + CardKnowledgeSectionLength game ->
             get enc j = 0%Q) ->
  forall p k o, 0 <= p < NumPlayers game -> 0 <= k < HandSize game ->
    0 <= o < slot_width game ->
    (get raw (slot_base game start p k + o) = 1%Q /\
     exists kn, slot_knowledge obs p k = Some kn /\
                knowledge_writes game kn (slot_base game start p k)
                                 (slot_base game start p k + o)) \/
    (get raw (slot_base game start p k + o) = 0%Q /\
     forall kn, slot_knowledge obs p k = Some kn ->
                ~ knowledge_writes game kn (slot_base game start p k)
                                   (slot_base game start p k + o)).
Proof.
  intros Hdim Hkr Hstart Hck Hzero p k o Hp Hk Ho.
  destruct (EncodeCardKnowledge_inv _ _ _ _ _ _ Hdim Hck)
    as (_ & Hhands & Hsizes & Hw).
  pose proof (slot_in_section game start p k Hdim Hstart Hp Hk) as (Hlo & Hhi).
  pose proof (slot_base_ge game start p k Hdim (proj1 Hp) (proj1 Hk)) as Hge.
  set (base := slot_base game start p k) in *.
  assert (Hj : 0 <= base + o) by lia.
  destruct (proj2 (proj2 Hw) (base + o) Hj) as [(HW & E)|(HW & E)].
  - left. split; [exact E|].
    destruct HW as (p' & hand & Hp' & Hnth & k' & kn & Hk' & Hkn & Hkw).
    pose proof (nth_error_size _ _ _ Hk' Hkn) as Hk'sz.
    pose proof (Hsizes p' hand Hp' Hnth) as Hfit.
    assert (Hoff : start + p' * (HandSize game * slot_width game)
                   + k' * slot_width game = slot_base game start p' k')
      by (unfold slot_base; lia).
    rewrite Hoff in Hkw.
    destruct (Hkr hand kn (hands_nth_In _ _ _ Hnth) (hands_nth_In _ _ _ Hkn))
      as (Hcol & Hrk).
    destruct (knowledge_writes_offset game kn _ _ Hdim Hcol Hrk Hkw)
      as (o' & Ho' & Ej).
    destruct (slot_offset_inj game start p k p' k' o o' Hk ltac:(lia) Ho Ho'
                Ej) as (<- & <- & <-).
    exists kn. split; [|exact Hkw].
    unfold slot_knowledge. now rewrite Hnth.
  - right. split; [rewrite E; apply Hzero; lia|].
    intros kn Hkn Hkw. apply HW.
    apply slot_knowledge_In in Hkn. destruct Hkn as (hand & Hnth & Hkn).
    exists p, hand. split; [lia|]. split; [assumption|].
    exists k, kn. split; [lia|]. split; [assumption|].
    replace (start + p * (HandSize game * slot_width game)
             + k * slot_width game) with base
      by (unfold base, slot_base; lia).
    exact Hkw.
Qed.

(** The hint entries of the raw section. *)
Lemma EncodeCardKnowledge_hint_bits (game : HanabiGame.t)
  (obs : HanabiObservation.t) (start : Z) (enc raw : vec) (len : Z) :
  positive_dimensions game -> knowledge_in_range game obs -> 0 <= start ->
  EncodeCardKnowledge game obs start enc = Ok (raw, len) ->
  (forall j, start <= j < start + CardKnowledgeSectionLength game ->
             get enc j = 0%Q) ->
  forall p k, 0 <= p < NumPlayers game -> 0 <= k < HandSize game ->
    (forall c, 0 <= c < NumColors game ->
       get raw (slot_base game start p k + BitsPerCard game + c)
       = color_hint_bit obs p k c) /\
    (forall r, 0 <= r < NumRanks game ->
       get raw (slot_base game start p k + BitsPerCard game
                + NumColors game + r)
       = rank_hint_bit obs p k r).
Proof.
  intros Hdim Hkr Hstart Hck Hzero p k Hp Hk.
  pose proof Hdim as (HC & HR & HP & HH).
  assert (Hbits : 0 < BitsPerCard game) by (unfold BitsPerCard; nia).
  assert (Hin : forall kn, slot_knowledge obs p k = Some kn ->
            (CardKnowledge.ColorHinted kn = true ->
             0 <= CardKnowledge.Color kn < NumColors game) /\
            (CardKnowledge.RankHinted kn = true ->
             0 <= CardKnowledge.Rank kn < NumRanks game)).
  { intros kn Hkn. apply slot_knowledge_In in Hkn.
    destruct Hkn as (hand & Hnth & Hkn).
    exact (Hkr hand kn (hands_nth_In _ _ _ Hnth) (hands_nth_In _ _ _ Hkn)). }
  split.
  - intros c Hc.
    destruct (EncodeCardKnowledge_raw_entry game obs start enc raw len Hdim
                Hkr Hstart Hck Hzero p k (BitsPerCard game + c) Hp Hk)
      as [(E & kn & Hkn & Hkw)|(E & Hno)];
      [unfold slot_width; lia | |];
      rewrite Z.add_assoc in E; rewrite E; unfold color_hint_bit.
    + rewrite Hkn. destruct (Hin kn Hkn) as (Hcol & Hrk).
      destruct Hkw as [(c' & r' & Hc' & Hr' & _ & Ej)|[(Hh & Ej)|(Hh & Ej)]].
      * pose proof (CardIndex_range _ _ _ _ Hc' Hr').
        unfold CardIndex, BitsPerCard in *. lia.
      * rewrite Hh. replace (CardKnowledge.Color kn =? c) with true by lia.
        reflexivity.
      * specialize (Hrk Hh). lia.
    + destruct (slot_knowledge obs p k) as [kn|] eqn:Hkn; [|reflexivity].
      destruct (CardKnowledge.ColorHinted kn) eqn:Hh; [|reflexivity].
      destruct (Z.eqb_spec (CardKnowledge.Color kn) c) as [Ec|];
        [|reflexivity].
      exfalso. apply (Hno kn eq_refl). right. left.
      split; [assumption | lia].
  - intros r Hr.
    destruct (EncodeCardKnowledge_raw_entry game obs start enc raw len Hdim
                Hkr Hstart Hck Hzero p k
                (BitsPerCard game + NumColors game + r) Hp Hk)
      as [(E & kn & Hkn & Hkw)|(E & Hno)];
      [unfold slot_width; lia | |];
      rewrite !Z.add_assoc in E; rewrite E; unfold rank_hint_bit.
    + rewrite Hkn. destruct (Hin kn Hkn) as (Hcol & Hrk).
      destruct Hkw as [(c' & r' & Hc' & Hr' & _ & Ej)|[(Hh & Ej)|(Hh & Ej)]].
      * pose proof (CardIndex_range _ _ _ _ Hc' Hr').
        unfold CardIndex, BitsPerCard in *. lia.
      * specialize (Hcol Hh). lia.
      * rewrite Hh. replace (CardKnowledge.Rank kn =? r) with true by lia.
        reflexivity.
    + destruct (slot_knowledge obs p k) as [kn|] eqn:Hkn; [|reflexivity].
      destruct (CardKnowledge.RankHinted kn) eqn:Hh; [|reflexivity].
      destruct (Z.eqb_spec (CardKnowledge.Rank kn) r) as [Ec|];
        [|reflexivity].
      exfalso. apply (Hno kn eq_refl). right. right.
      split; [assumption | lia].
Qed.

(** ** The full encoding *)

Lemma section_lengths_nonneg (game : HanabiGame.t) :
  valid_game game ->
  0 <= HandsSectionLength game /\ 0 <= BoardSectionLength game /\
  0 <= DiscardSectionLength game /\ 0 <= LastActionSectionLength game /\
  0 <= CardKnowledgeSectionLength game.
Proof.
  intros (Hdim & _ & _ & Hdeck & Hinfo & Hlife).
  pose proof (CardKnowledgeSectionLength_nonneg game Hdim) as HK.
  destruct Hdim as (HC & HR & HP & HH).
  assert (HCR : 0 < NumColors game * NumRanks game) by nia.
  assert (HPH : 0 < NumPlayers game * HandSize game) by nia.
  unfold HandsSectionLength, BoardSectionLength, DiscardSectionLength,
    LastActionSectionLength, BitsPerCard.
  repeat (split; [nia|]). exact HK.
Qed.

Lemma FlatLength_Shape (game : HanabiGame.t) :
  FlatLength (Shape game)
  = belief_start game
    + (if is_minimal (ObservationType game) then 0
       else CardKnowledgeSectionLength game).
Proof. unfold FlatLength, Shape, belief_start. cbn [fold_left]. lia. Qed.

(** The four sections that every observation type has: each returns its
    length, and together they set entries below [belief_start] only. *)
Lemma Encode_sections_ok (game : HanabiGame.t) (obs : HanabiObservation.t)
  (show_own_cards : bool) (encoding : vec) :
  valid_game game ->
  hands_well_formed game obs show_own_cards ->
  board_well_formed game obs ->
  discards_from_deck game obs ->
  last_move_well_formed game obs ->
  belief_start game <= size encoding ->
  exists e1 e2 e3 e4,
    EncodeHands game obs 0 encoding show_own_cards
    = Ok (e1, HandsSectionLength game) /\
    EncodeBoard game obs (0 + HandsSectionLength game) e1
    = Ok (e2, BoardSectionLength game) /\
    EncodeDiscards game obs
      (0 + HandsSectionLength game + BoardSectionLength game) e2
    = Ok (e3, DiscardSectionLength game) /\
    EncodeLastAction_ game obs
      (0 + HandsSectionLength game + BoardSectionLength game
       + DiscardSectionLength game) e3
    = Ok (e4, LastActionSectionLength game) /\
    Encode_sections game obs show_own_cards encoding
    = Ok (e4, belief_start game) /\
    touched 0 (belief_start game) encoding e4.
Proof.
  intros Hgame Hhands Hboard Hdisc Hmove Hroom.
  pose proof (section_lengths_nonneg game Hgame)
    as (HH & HB & HD & HL & _).
  pose proof Hgame as (Hdim & Hdeck & _).
  unfold belief_start in *.
  destruct (EncodeHands_ok game obs 0 encoding show_own_cards Hdim Hhands)
    as (e1 & E1 & T1); [lia | lia |].
  pose proof (proj1 T1) as S1.
  destruct (EncodeBoard_ok game obs (0 + HandsSectionLength game) e1
              Hgame Hboard) as (e2 & E2 & T2); [lia | lia |].
  pose proof (proj1 T2) as S2.
  destruct (EncodeDiscards_ok game obs
              (0 + HandsSectionLength game + BoardSectionLength game) e2
              Hdeck Hdisc) as (e3 & E3 & T3); [lia | lia |].
  pose proof (proj1 T3) as S3.
  destruct (EncodeLastAction_ok game obs
              (0 + HandsSectionLength game + BoardSectionLength game
               + DiscardSectionLength game) e3 Hgame Hmove)
    as (e4 & E4 & T4); [lia | lia |].
  exists e1, e2, e3, e4.
  split; [exact E1|]. split; [exact E2|]. split; [exact E3|].
  split; [exact E4|]. split.
  - unfold Encode_sections. cbv zeta.
    rewrite E1. cbn [bind]. rewrite E2. cbn [bind].
    rewrite E3. cbn [bind]. rewrite E4. cbn [bind]. reflexivity.
  - apply (touched_trans _ _ _ e1);
      [eapply touched_weaken; [| |exact T1]; lia|].
    apply (touched_trans _ _ _ e2);
      [eapply touched_weaken; [| |exact T2]; lia|].
    apply (touched_trans _ _ _ e3);
      [eapply touched_weaken; [| |exact T3]; lia|].
    eapply touched_weaken; [| |exact T4]; lia.
Qed.

(** The belief section, written on a buffer that is still zero there. *)
Lemma EncodeV0Belief_section (game : HanabiGame.t)
  (obs : HanabiObservation.t) (start : Z) (enc : vec) :
  positive_dimensions game -> size (Hands obs) = NumPlayers game ->
  hands_fit game obs -> belief_well_formed game obs ->
  0 <= start -> start + CardKnowledgeSectionLength game <= size enc ->
  (forall j, start <= j < start + CardKnowledgeSectionLength game ->
             get enc j = 0%Q) ->
  exists cc raw out,
    ComputeCardCount game obs = Ok cc /\
    EncodeCardKnowledge game obs start enc
    = Ok (raw, CardKnowledgeSectionLength game) /\
    EncodeV0Belief_ game obs start enc
    = Ok (out, CardKnowledgeSectionLength game, cc) /\
    belief_of game obs start cc raw out /\
    size out = size enc.
Proof.
  intros Hdim Hhands Hfit Hwf Hstart Hroom Hzero.
  destruct (belief_well_formed_counts game obs Hdim Hwf) as (cc & Hcc & Hpos).
  destruct Hwf as (Hkfit & Hkr & _).
  destruct (EncodeCardKnowledge_ok game obs start enc) as (raw & Hck).
  - destruct Hdim as (_ & _ & ? & _). lia.
  - assumption.
  - intros p hand _ Hnth. apply Hkfit. now apply hands_nth_In in Hnth.
  - intros j Hj.
    pose proof (card_knowledge_writes_range game obs start j Hdim Hhands
                  Hkfit Hkr Hj). lia.
  - destruct (EncodeV0Belief_ok game obs start enc raw _ cc Hdim Hfit
                Hstart Hcc Hck Hroom) as (out & Hv0).
    + intros p k Hocc.
      destruct (raw_block_total game obs start enc raw _ cc p k Hdim Hfit
                  Hkr Hstart Hck Hzero Hocc) as (_ & ->).
      now apply Hpos.
    + destruct (EncodeV0Belief_inv _ _ _ _ _ _ _ Hdim Hfit Hstart Hv0)
        as (raw' & _ & Hck' & Hbel).
      assert (raw' = raw) by congruence. subst raw'.
      destruct (EncodeCardKnowledge_inv _ _ _ _ _ _ Hdim Hck)
        as (_ & _ & _ & Hw).
      exists cc, raw, out. repeat (split; [assumption|]).
      rewrite (proj1 Hbel). exact (writes_size _ _ _ Hw).
Qed.

(** What the belief section holds, slot by slot. *)
Lemma belief_of_in_place (game : HanabiGame.t) (obs : HanabiObservation.t)
  (enc raw out : vec) (cc : list Z) :
  positive_dimensions game -> size (Hands obs) = NumPlayers game ->
  hands_fit game obs -> knowledge_in_range game obs ->
  0 <= belief_start game ->
  EncodeCardKnowledge game obs (belief_start game) enc
  = Ok (raw, CardKnowledgeSectionLength game) ->
  (forall j, belief_start game <= j
             < belief_start game + CardKnowledgeSectionLength game ->
             get enc j = 0%Q) ->
  belief_of game obs (belief_start game) cc raw out ->
  belief_in_place game obs cc out.
Proof.
  intros Hdim Hhands Hfit Hkr Hstart Hck Hzero Hbel.
  pose proof Hdim as (HC & HR & HP & HH).
  assert (Hbits : 0 < BitsPerCard game) by (unfold BitsPerCard; nia).
  assert (Hsw : slot_width game
                = BitsPerCard game + NumColors game + NumRanks game)
    by reflexivity.
  assert (Hout : forall p k o, 0 <= p < NumPlayers game ->
            0 <= k < HandSize game -> 0 <= o < slot_width game ->
            (occupied obs p k -> BitsPerCard game <= o) ->
            get out (slot_base game (belief_start game) p k + o)
            = get raw (slot_base game (belief_start game) p k + o)).
  { intros p k o Hp Hk Ho Hfree.
    pose proof (slot_base_ge game (belief_start game) p k Hdim (proj1 Hp)
                  (proj1 Hk)) as Hge.
    apply (proj2 (proj2 Hbel)); [lia|].
    intros (p' & k' & Hocc & _ & Hj).
    pose proof (occupied_fits _ _ _ _ Hfit Hocc) as (Hp' & Hk').
    destruct (slot_offset_inj game (belief_start game) p k p' k' o
                (slot_base game (belief_start game) p k + o
                 - slot_base game (belief_start game) p' k') Hk Hk' Ho)
      as (<- & <- & Eo); [lia | lia |].
    specialize (Hfree Hocc). lia. }
  split.
  - intros p k Hocc. split.
    + exact (belief_of_sums game obs _ cc raw out Hdim Hbel p k Hocc).
    + exact (proj2 (belief_of_grid game obs _ enc raw out _ cc p k Hdim Hfit
                      Hkr Hstart Hck Hzero Hbel Hocc)).
  - intros p k Hp Hk.
    destruct (EncodeCardKnowledge_hint_bits game obs _ enc raw _ Hdim Hkr
                Hstart Hck Hzero p k Hp Hk) as (Hcol & Hrk).
    split; [|split].
    + intros Hfree i Hi. rewrite Hout; [|assumption|assumption|lia|tauto].
      exact (EncodeCardKnowledge_grid_bits game obs _ enc raw _ Hdim Hkr
               Hstart Hck Hzero p k i Hp Hk Hi).
    + intros c Hc. rewrite <- Hcol by assumption.
      rewrite <- !Z.add_assoc. apply Hout; [assumption|assumption|lia|lia].
    + intros r Hr. rewrite <- Hrk by assumption.
      rewrite <- !Z.add_assoc. apply Hout; [assumption|assumption|lia|lia].
Qed.

(** The whole run of [Encode] on a well-formed observation. *)
Lemma Encode_ok (game : HanabiGame.t) (obs : HanabiObservation.t)
  (show_own_cards : bool) :
  valid_game game -> well_formed game obs show_own_cards ->
  exists e1 e2 e3 e4 out,
    EncodeHands game obs 0 (repeat 0%Q (Z.to_nat (FlatLength (Shape game))))
                show_own_cards
    = Ok (e1, HandsSectionLength game) /\
    EncodeBoard game obs (0 + HandsSectionLength game) e1
    = Ok (e2, BoardSectionLength game) /\
    EncodeDiscards game obs
      (0 + HandsSectionLength game + BoardSectionLength game) e2
    = Ok (e3, DiscardSectionLength game) /\
    EncodeLastAction_ game obs
      (0 + HandsSectionLength game + BoardSectionLength game
       + DiscardSectionLength game) e3
    = Ok (e4, LastActionSectionLength game) /\
    (if is_minimal (ObservationType game) then out = e4
     else exists cc,
       ComputeCardCount game obs = Ok cc /\
       EncodeV0Belief_ game obs (belief_start game) e4
       = Ok (out, CardKnowledgeSectionLength game, cc) /\
       belief_in_place game obs cc out) /\
    Encode game obs show_own_cards = Ok out /\
    size out = FlatLength (Shape game).
Proof.
  intros Hgame (Hhands & Hboard & Hdisc & Hmove & Hbelief).
  pose proof (section_lengths_nonneg game Hgame)
    as (HH & HB & HD & HL & HK).
  pose proof Hgame as (Hdim & _).
  pose proof (FlatLength_Shape game) as Hflat.
  assert (Hstart : 0 <= belief_start game) by (unfold belief_start; lia).
  assert (Hlen : 0 <= FlatLength (Shape game))
    by (rewrite Hflat; destruct (is_minimal _); lia).
  set (zeros := repeat 0%Q (Z.to_nat (FlatLength (Shape game)))).
  assert (Hsz : size zeros = FlatLength (Shape game))
    by now apply size_repeat.
  destruct (Encode_sections_ok game obs show_own_cards zeros Hgame Hhands
              Hboard Hdisc Hmove) as (e1 & e2 & e3 & e4 & E1 & E2 & E3 & E4
                                      & Erun & T).
  { rewrite Hsz, Hflat. destruct (is_minimal _); lia. }
  pose proof (proj1 T) as S4.
  exists e1, e2, e3, e4.
  unfold Encode. rewrite new_vector_ok by assumption. cbn [bind].
  fold zeros. rewrite Erun. cbn [bind].
  destruct (is_minimal (ObservationType game)) eqn:Hmin; cbn [negb bind].
  - exists e4. repeat (split; [assumption || reflexivity|]).
    rewrite (assert_true (_ =? _)) by lia. cbn [bind].
    split; [reflexivity | lia].
  - destruct Hhands as (Hn & Hfit & _).
    pose proof (Hbelief eq_refl) as Hbwf.
    assert (Hzero : forall j, belief_start game <= j
                      < belief_start game + CardKnowledgeSectionLength game ->
                      get e4 j = 0%Q).
    { intros j Hj.
      rewrite (touched_outside _ _ _ _ j T) by lia.
      apply get_repeat. exact 0%Q. }
    destruct (EncodeV0Belief_section game obs (belief_start game) e4 Hdim Hn
                Hfit Hbwf Hstart ltac:(lia) Hzero)
      as (cc & raw & out & Hcc & Hck & Hv0 & Hbel & Sout).
    exists out. repeat (split; [assumption|]).
    split; [|split].
    + exists cc. split; [assumption|]. split; [assumption|].
      destruct Hbwf as (_ & Hkr & _).
      exact (belief_of_in_place game obs e4 raw out cc Hdim Hn Hfit Hkr
               Hstart Hck Hzero Hbel).
    + rewrite Hv0. cbn [bind].
      rewrite (assert_true (_ =? _)) by lia. reflexivity.
    + lia.
Qed.

(** C3: for a valid game and a well-formed observation, each section
    encoder that [Encode] calls -- Hands, Board, Discards, LastAction and,
    unless the observation type is minimal, the belief section computed on
    the card knowledge -- returns, on the buffer its predecessor left and
    at the offset the lengths before it add up to, exactly its section
    length (so no section-length assertion fires); the lengths add up to
    the product of [Shape], and [Encode] returns a vector of that size
    (so its final check of the cursor against the size passes). *)
Theorem Encode_cursor_reaches_Shape (game : HanabiGame.t)
  (obs : HanabiObservation.t) (show_own_cards : bool) :
  valid_game game -> well_formed game obs show_own_cards ->
  exists e1 e2 e3 e4 out,
    EncodeHands game obs 0 (repeat 0%Q (Z.to_nat (FlatLength (Shape game))))
                show_own_cards
    = Ok (e1, HandsSectionLength game) /\
    EncodeBoard game obs (0 + HandsSectionLength game) e1
    = Ok (e2, BoardSectionLength game) /\
    EncodeDiscards game obs
      (0 + HandsSectionLength game + BoardSectionLength game) e2
    = Ok (e3, DiscardSectionLength game) /\
    EncodeLastAction_ game obs
      (0 + HandsSectionLength game + BoardSectionLength game
       + DiscardSectionLength game) e3
    = Ok (e4, LastActionSectionLength game) /\
    (if is_minimal (ObservationType game) then out = e4
     else exists cc,
       EncodeV0Belief_ game obs (belief_start game) e4
       = Ok (out, CardKnowledgeSectionLength game, cc)) /\
    HandsSectionLength game + BoardSectionLength game
    + DiscardSectionLength game + LastActionSectionLength game
    + (if is_minimal (ObservationType game) then 0
       else CardKnowledgeSectionLength game)
    = FlatLength (Shape game) /\
    Encode game obs show_own_cards = Ok out /\
    size out = FlatLength (Shape game).
Proof.
  intros Hgame Hwf.
  destruct (Encode_ok game obs show_own_cards Hgame Hwf)
    as (e1 & e2 & e3 & e4 & out & E1 & E2 & E3 & E4 & E5 & Erun & Hsize).
  exists e1, e2, e3, e4, out.
  split; [exact E1|]. split; [exact E2|]. split; [exact E3|].
  split; [exact E4|]. split; [|split; [|split; assumption]].
  - destruct (is_minimal (ObservationType game)); [exact E5|].
    destruct E5 as (cc & _ & E5 & _). now exists cc.
  - symmetry. apply FlatLength_Shape.
Qed.

Lemma Encode_cursor_reaches_Shape_witness :
  exists e1 e2 e3 e4 out,
    EncodeHands standard_game fresh_observation 0
      (repeat 0%Q (Z.to_nat (FlatLength (Shape standard_game)))) false
    = Ok (e1, HandsSectionLength standard_game) /\
    EncodeBoard standard_game fresh_observation
      (0 + HandsSectionLength standard_game) e1
    = Ok (e2, BoardSectionLength standard_game) /\
    EncodeDiscards standard_game fresh_observation
      (0 + HandsSectionLength standard_game
       + BoardSectionLength standard_game) e2
    = Ok (e3, DiscardSectionLength standard_game) /\
    EncodeLastAction_ standard_game fresh_observation
      (0 + HandsSectionLength standard_game
       + BoardSectionLength standard_game
       + DiscardSectionLength standard_game) e3
    = Ok (e4, LastActionSectionLength standard_game) /\
    (if is_minimal (ObservationType standard_game) then out = e4
     else exists cc,
       EncodeV0Belief_ standard_game fresh_observation
         (belief_start standard_game) e4
       = Ok (out, CardKnowledgeSectionLength standard_game, cc)) /\
    HandsSectionLength standard_game + BoardSectionLength standard_game
    + DiscardSectionLength standard_game
    + LastActionSectionLength standard_game
    + (if is_minimal (ObservationType standard_game) then 0
       else CardKnowledgeSectionLength standard_game)
    = FlatLength (Shape standard_game) /\
    Encode standard_game fresh_observation false = Ok out /\
    size out = FlatLength (Shape standard_game).
Proof.
  apply (Encode_cursor_reaches_Shape standard_game fresh_observation false).
  - exact standard_valid_game.
  - exact fresh_well_formed.
Defined.



(** The first slot of the partner in that encoding: the hint was green and
    the card is no 3, so the grid holds the shares 3/8, 2/8, 2/8 and 1/8 of
    the green 1, 2, 4 and 5 and is zero elsewhere, and the color-hint
    entries are one-hot at green. *)
Lemma Encode_hinted_partner_slot :
  exists out,
    Encode standard_game hinted_observation false = Ok out /\
    let base := slot_base standard_game (belief_start standard_game) 1 0 in
    firstn 35 (skipn (Z.to_nat base) out)
    = repeat (0 # 8) 10
      ++ [3 # 8; 2 # 8; 0 # 8; 2 # 8; 1 # 8]
      ++ repeat (0 # 8) 10
      ++ [0%Q; 0%Q; 1%Q; 0%Q; 0%Q] ++ repeat 0%Q 5.
Proof. eexists. split; [vm_compute; reflexivity|]. vm_compute. reflexivity. Qed.

(** * Further properties of the encoder *)

(** ** Helpers of the sections *)

(** X1: [GetLastNonDealMove] returns the first item of the history that
    is not a deal -- every item before it is a deal -- and returns nothing
    exactly when the history holds deals only. *)
Theorem GetLastNonDealMove_first (past_moves : list HanabiHistoryItem.t) :
  match GetLastNonDealMove past_moves with
  | Some item =>
      exists before after,
        past_moves = before ++ item :: after /\
        (forall d, In d before ->
           HanabiMove.MoveType (HanabiHistoryItem.move d) = HanabiMove.kDeal) /\
        HanabiMove.MoveType (HanabiHistoryItem.move item) <> HanabiMove.kDeal
  | None =>
      forall d, In d past_moves ->
        HanabiMove.MoveType (HanabiHistoryItem.move d) = HanabiMove.kDeal
  end.
Proof.
  unfold GetLastNonDealMove.
  induction past_moves as [|m l IH]; cbn [find]; [intros d []|].
  destruct (HanabiMove.MoveType (HanabiHistoryItem.move m)) eqn:Hty;
    cbn [HanabiMove.is_deal negb].
  1-5: exists [], l; split; [reflexivity|]; split; [intros d []|];
       rewrite Hty; discriminate.
  destruct (find _ l) as [item|].
  - destruct IH as (before & after & -> & Hdeals & Hitem).
    exists (m :: before), after. split; [reflexivity|]. split; [|exact Hitem].
    intros d [<-|Hd]; [exact Hty | now apply Hdeals].
  - intros d [<-|Hd]; [exact Hty | now apply IH].
Qed.

(** X2: with a positive number of ranks, [CardIndex] maps the cards of
    [C] colors one to one onto the indices below [C * R]: the index of a card
    is in range, two cards with one index are the same card, and every index
    in range is that of the card with color [q / R] and rank [q mod R]. *)
Theorem CardIndex_bijective (C R : Z) :
  0 < R ->
  (forall c r, 0 <= c < C -> 0 <= r < R -> 0 <= CardIndex c r R < C * R) /\
  (forall c r c' r', 0 <= r < R -> 0 <= r' < R ->
     CardIndex c r R = CardIndex c' r' R -> c = c' /\ r = r') /\
  (forall q, 0 <= q < C * R ->
     0 <= q / R < C /\ 0 <= q mod R < R /\
     CardIndex (q / R) (q mod R) R = q).
Proof.
  intros HR. unfold CardIndex. split; [|split].
  - intros c r Hc Hr. now apply CardIndex_range.
  - intros c r c' r'. apply CardIndex_inj.
  - intros q Hq. destruct (index_split C R q Hq ltac:(lia)) as (Hc & Hr & E).
    split; [assumption|]. split; [assumption|]. lia.
Qed.

Lemma CardIndex_bijective_witness :
  (forall c r, 0 <= c < 5 -> 0 <= r < 5 -> 0 <= CardIndex c r 5 < 5 * 5) /\
  (forall c r c' r', 0 <= r < 5 -> 0 <= r' < 5 ->
     CardIndex c r 5 = CardIndex c' r' 5 -> c = c' /\ r = r') /\
  (forall q, 0 <= q < 5 * 5 ->
     0 <= q / 5 < 5 /\ 0 <= q mod 5 < 5 /\
     CardIndex (q / 5) (q mod 5) 5 = q).
Proof. apply (CardIndex_bijective 5 5). lia. Defined.

(** ** The belief accessors *)

(** X3: [ExtractBelief] accepts exactly the vectors as long as a
    card-knowledge section (another length fails its assertion), and returns
    the plausibility grids of the slots, in order, with the hint entries of
    every slot removed. *)
Theorem ExtractBelief_keeps_grids (game : HanabiGame.t) (encoding : vec) :
  positive_dimensions game ->
  (size encoding = CardKnowledgeSectionLength game ->
   exists belief,
     ExtractBelief encoding game = Ok belief /\
     size belief = NumPlayers game * HandSize game * BitsPerCard game /\
     forall p k i, 0 <= p < NumPlayers game -> 0 <= k < HandSize game ->
       0 <= i < BitsPerCard game ->
       get belief (belief_slot game p k + i)
       = get encoding (slot_base game 0 p k + i)) /\
  (size encoding <> CardKnowledgeSectionLength game ->
   ExtractBelief encoding game = Fail (AssertFailed EncodingSize)).
Proof.
  intros Hdim. split.
  - intros Hsize. apply ExtractBelief_spec; [assumption|].
    rewrite Hsize, CardKnowledgeSectionLength_slots. lia.
  - intros Hsize. unfold ExtractBelief. cbv zeta.
    fold (slot_width game).
    replace (slot_width game * HandSize game * NumPlayers game
             =? size encoding) with false; [reflexivity|].
    symmetry. apply Z.eqb_neq. intros E. apply Hsize.
    rewrite CardKnowledgeSectionLength_slots. lia.
Qed.

Lemma ExtractBelief_keeps_grids_witness :
  (exists belief,
     ExtractBelief raw_hinted_knowledge standard_game = Ok belief /\
     size belief = NumPlayers standard_game * HandSize standard_game
                   * BitsPerCard standard_game /\
     forall p k i, 0 <= p < NumPlayers standard_game ->
       0 <= k < HandSize standard_game ->
       0 <= i < BitsPerCard standard_game ->
       get belief (belief_slot standard_game p k + i)
       = get raw_hinted_knowledge (slot_base standard_game 0 p k + i)) /\
  ExtractBelief (repeat 1%Q 70) standard_game
  = Fail (AssertFailed EncodingSize).
Proof.
  split.
  - apply (proj1 (ExtractBelief_keeps_grids standard_game
                    raw_hinted_knowledge standard_positive_dimensions)).
    vm_compute. reflexivity.
  - apply (proj2 (ExtractBelief_keeps_grids standard_game (repeat 1%Q 70)
                    standard_positive_dimensions)).
    vm_compute. discriminate.
Defined.

(** The card-knowledge section written on a zero section of a buffer. *)
Lemma EncodeCardKnowledge_on_zeros (game : HanabiGame.t)
  (obs : HanabiObservation.t) (start : Z) (enc : vec) :
  positive_dimensions game -> size (Hands obs) = NumPlayers game ->
  knowledge_fits game obs -> knowledge_in_range game obs ->
  0 <= start -> start + CardKnowledgeSectionLength game <= size enc ->
  exists raw,
    EncodeCardKnowledge game obs start enc
    = Ok (raw, CardKnowledgeSectionLength game) /\
    writes (card_knowledge_writes game obs start) enc raw.
Proof.
  intros Hdim Hhands Hkfit Hkr Hstart Hroom.
  destruct (EncodeCardKnowledge_ok game obs start enc) as (raw & Hck).
  - destruct Hdim as (_ & _ & ? & _). lia.
  - assumption.
  - intros p hand _ Hnth. apply Hkfit. now apply hands_nth_In in Hnth.
  - intros j Hj.
    pose proof (card_knowledge_writes_range game obs start j Hdim Hhands
                  Hkfit Hkr Hj). lia.
  - exists raw. split; [exact Hck|].
    now destruct (EncodeCardKnowledge_inv _ _ _ _ _ _ Hdim Hck)
      as (_ & _ & _ & Hw).
Qed.

(** X4: on a section of the buffer that is still zero, and for knowledge
    that fits the hands and whose hints are in range, [EncodeCardKnowledge]
    returns the section length and leaves, in the block of every slot, the
    plausibility grid of the slot, then the one-hot hinted color, then the
    one-hot hinted rank (all zero for a slot without knowledge or without
    that hint); nothing outside the section changes. *)
Theorem EncodeCardKnowledge_layout (game : HanabiGame.t)
  (obs : HanabiObservation.t) (start : Z) (enc : vec) :
  positive_dimensions game -> size (Hands obs) = NumPlayers game ->
  knowledge_fits game obs -> knowledge_in_range game obs ->
  0 <= start -> start + CardKnowledgeSectionLength game <= size enc ->
  all_zero enc start (CardKnowledgeSectionLength game) ->
  exists raw,
    EncodeCardKnowledge game obs start enc
    = Ok (raw, CardKnowledgeSectionLength game) /\
    size raw = size enc /\
    (forall p k, 0 <= p < NumPlayers game -> 0 <= k < HandSize game ->
       (forall i, 0 <= i < BitsPerCard game ->
          get raw (slot_base game start p k + i) = grid_bit game obs p k i) /\
       (forall c, 0 <= c < NumColors game ->
          get raw (slot_base game start p k + BitsPerCard game + c)
          = color_hint_bit obs p k c) /\
       (forall r, 0 <= r < NumRanks game ->
          get raw (slot_base game start p k + BitsPerCard game
                   + NumColors game + r)
          = rank_hint_bit obs p k r)) /\
    (forall j, 0 <= j ->
       j < start \/ start + CardKnowledgeSectionLength game <= j ->
       get raw j = get enc j).
Proof.
  intros Hdim Hhands Hkfit Hkr Hstart Hroom Hzero.
  destruct (EncodeCardKnowledge_on_zeros game obs start enc Hdim Hhands
              Hkfit Hkr Hstart Hroom) as (raw & Hck & Hw).
  assert (Hz : forall j, start <= j < start + CardKnowledgeSectionLength game ->
                 get enc j = 0%Q).
  { intros j Hj. replace j with (start + (j - start)) by lia.
    apply Hzero. lia. }
  exists raw. split; [exact Hck|]. split; [exact (writes_size _ _ _ Hw)|].
  split.
  - intros p k Hp Hk. split.
    + intros i Hi.
      exact (EncodeCardKnowledge_grid_bits game obs start enc raw _ Hdim Hkr
               Hstart Hck Hz p k i Hp Hk Hi).
    + exact (EncodeCardKnowledge_hint_bits game obs start enc raw _ Hdim Hkr
               Hstart Hck Hz p k Hp Hk).
  - intros j Hj Hout. apply (writes_out _ _ _ _ Hw Hj). intros HW.
    pose proof (card_knowledge_writes_range game obs start j Hdim Hhands
                  Hkfit Hkr HW). lia.
Qed.

Lemma EncodeCardKnowledge_layout_witness :
  exists raw,
    EncodeCardKnowledge standard_game hinted_observation 0 (repeat 0%Q 350)
    = Ok (raw, CardKnowledgeSectionLength standard_game) /\
    size raw = size (repeat 0%Q 350) /\
    (forall p k, 0 <= p < NumPlayers standard_game ->
       0 <= k < HandSize standard_game ->
       (forall i, 0 <= i < BitsPerCard standard_game ->
          get raw (slot_base standard_game 0 p k + i)
          = grid_bit standard_game hinted_observation p k i) /\
       (forall c, 0 <= c < NumColors standard_game ->
          get raw (slot_base standard_game 0 p k
                   + BitsPerCard standard_game + c)
          = color_hint_bit hinted_observation p k c) /\
       (forall r, 0 <= r < NumRanks standard_game ->
          get raw (slot_base standard_game 0 p k + BitsPerCard standard_game
                   + NumColors standard_game + r)
          = rank_hint_bit hinted_observation p k r)) /\
    (forall j, 0 <= j ->
       j < 0 \/ 0 + CardKnowledgeSectionLength standard_game <= j ->
       get raw j = get (repeat 0%Q 350) j).
Proof.
  apply (EncodeCardKnowledge_layout standard_game hinted_observation 0
           (repeat 0%Q 350)).
  - exact standard_positive_dimensions.
  - reflexivity.
  - exact hinted_knowledge_fits.
  - exact hinted_knowledge_in_range.
  - lia.
  - vm_compute. discriminate.
  - intros i _. apply get_repeat. exact 0%Q.
Defined.

(** X5: [EncodeCardKnowledge] only sets entries, so running it again on
    its own output returns that output unchanged. *)
Theorem EncodeCardKnowledge_twice (game : HanabiGame.t)
  (obs : HanabiObservation.t) (start : Z) (enc enc' : vec) (len : Z) :
  positive_dimensions game ->
  EncodeCardKnowledge game obs start enc = Ok (enc', len) ->
  EncodeCardKnowledge game obs start enc' = Ok (enc', len) /\
  forall j, 0 <= j -> get enc' j = get enc j \/ get enc' j = 1%Q.
Proof.
  intros Hdim H. split.
  - exact (EncodeCardKnowledge_idempotent game obs start enc enc' len Hdim H).
  - destruct (EncodeCardKnowledge_inv _ _ _ _ _ _ Hdim H)
      as (_ & _ & _ & Hw).
    intros j Hj. destruct (proj2 (proj2 Hw) j Hj) as [(_ & E)|(_ & E)]; auto.
Qed.

Lemma EncodeCardKnowledge_twice_witness :
  EncodeCardKnowledge standard_game hinted_observation 0 raw_hinted_knowledge
  = Ok (raw_hinted_knowledge, 350) /\
  forall j, 0 <= j ->
    get raw_hinted_knowledge j = get (repeat 0%Q 350) j \/
    get raw_hinted_knowledge j = 1%Q.
Proof.
  apply (EncodeCardKnowledge_twice standard_game hinted_observation 0
           (repeat 0%Q 350) raw_hinted_knowledge 350).
  - exact standard_positive_dimensions.
  - reflexivity.
Defined.

(** X6: for knowledge that fits the hands and whose hints are in range,
    [EncodeHandMask] returns, slot by slot, the plausibility grid of the
    slot: entry [(c, r)] of a slot is 1 when the knowledge of the slot
    allows the color [c] and the rank [r], and 0 otherwise or when the hand
    has no knowledge of the slot. *)
Theorem EncodeHandMask_plausibility (game : HanabiGame.t)
  (obs : HanabiObservation.t) :
  positive_dimensions game -> size (Hands obs) = NumPlayers game ->
  knowledge_fits game obs -> knowledge_in_range game obs ->
  exists mask,
    EncodeHandMask game obs = Ok mask /\
    size mask = NumPlayers game * HandSize game * BitsPerCard game /\
    forall p k c r, 0 <= p < NumPlayers game -> 0 <= k < HandSize game ->
      0 <= c < NumColors game -> 0 <= r < NumRanks game ->
      get mask (belief_slot game p k + CardIndex c r (NumRanks game))
      = if slot_plausible obs p k c r then 1%Q else 0%Q.
Proof.
  intros Hdim Hhands Hkfit Hkr.
  pose proof (CardKnowledgeSectionLength_nonneg game Hdim) as HL.
  unfold EncodeHandMask. rewrite new_vector_ok by assumption. cbn [bind].
  set (enc0 := repeat 0%Q (Z.to_nat (CardKnowledgeSectionLength game))).
  assert (Hsz0 : size enc0 = CardKnowledgeSectionLength game)
    by now apply size_repeat.
  destruct (EncodeCardKnowledge_on_zeros game obs 0 enc0 Hdim Hhands Hkfit
              Hkr (Z.le_refl 0)) as (raw & Hck & Hw); [lia|].
  rewrite Hck. cbn [bind].
  destruct (ExtractBelief_spec game raw Hdim) as (mask & Hm & Hsize & Hget).
  { rewrite (writes_size _ _ _ Hw), Hsz0, CardKnowledgeSectionLength_slots.
    lia. }
  exists mask. split; [exact Hm|]. split; [exact Hsize|].
  intros p k c r Hp Hk Hc Hr.
  pose proof (CardIndex_range _ _ _ _ Hc Hr) as Hidx.
  rewrite Hget by (unfold CardIndex, BitsPerCard; lia).
  rewrite (EncodeCardKnowledge_grid_bits game obs 0 enc0 raw _ Hdim Hkr
             (Z.le_refl 0) Hck)
    by (try (intros j _; apply get_repeat; exact 0%Q);
        unfold CardIndex, BitsPerCard; lia).
  unfold grid_bit, CardIndex.
  rewrite Z.add_comm, Z.div_add, Z.mod_add by lia.
  rewrite Z.div_small, Z.mod_small by lia. reflexivity.
Qed.

Lemma EncodeHandMask_plausibility_witness :
  exists mask,
    EncodeHandMask standard_game hinted_observation = Ok mask /\
    size mask = NumPlayers standard_game * HandSize standard_game
                * BitsPerCard standard_game /\
    forall p k c r, 0 <= p < NumPlayers standard_game ->
      0 <= k < HandSize standard_game ->
      0 <= c < NumColors standard_game -> 0 <= r < NumRanks standard_game ->
      get mask (belief_slot standard_game p k
                + CardIndex c r (NumRanks standard_game))
      = if slot_plausible hinted_observation p k c r then 1%Q else 0%Q.
Proof.
  apply (EncodeHandMask_plausibility standard_game hinted_observation).
  - exact standard_positive_dimensions.
  - reflexivity.
  - exact hinted_knowledge_fits.
  - exact hinted_knowledge_in_range.
Defined.

(** The entries of what the V0 accessor returns: the grid of a slot that
    holds a card is weighted and normalized, the grid of any other slot is
    raw. *)
Lemma EncodeV0Belief_accessor_entries (game : HanabiGame.t)
  (obs : HanabiObservation.t) (cc : list Z) (belief : vec) :
  positive_dimensions game -> hands_fit game obs ->
  knowledge_in_range game obs ->
  ComputeCardCount game obs = Ok cc ->
  EncodeV0Belief game obs = Ok belief ->
  size (Hands obs) = NumPlayers game /\
  forall p k i, 0 <= p < NumPlayers game -> 0 <= k < HandSize game ->
    0 <= i < BitsPerCard game ->
    (occupied obs p k ->
     (0 < weighted_total game obs cc p k)%Q /\
     get belief (belief_slot game p k + i)
     = (grid_bit game obs p k i * inject_Z (getz cc i)
        / weighted_total game obs cc p k)%Q) /\
    (~ occupied obs p k ->
     get belief (belief_slot game p k + i) = grid_bit game obs p k i).
Proof.
  intros Hdim Hfit Hkr Hcc H. unfold EncodeV0Belief in H.
  apply bind_Ok in H. destruct H as (enc0 & H0 & H).
  apply new_vector_inv in H0. destruct H0 as (HL & ->).
  apply bind_Ok in H. destruct H as (((enc' & len) & cc') & Hv0 & H).
  apply bind_Ok in H. destruct H as (u & _ & Hex).
  destruct (EncodeV0Belief_inv _ _ _ _ _ _ _ Hdim Hfit (Z.le_refl 0) Hv0)
    as (raw & Hcc' & Hck & Hbel).
  assert (cc' = cc) by congruence. subst cc'.
  destruct (EncodeCardKnowledge_inv _ _ _ _ _ _ Hdim Hck)
    as (_ & Hhands & _ & _).
  destruct (ExtractBelief_inv _ _ _ Hdim Hex) as (_ & _ & Hget).
  assert (Hzero : forall j, 0 <= j < 0 + CardKnowledgeSectionLength game ->
                    get (repeat 0%Q
                           (Z.to_nat (CardKnowledgeSectionLength game))) j
                    = 0%Q)
    by (intros j _; apply get_repeat; exact 0%Q).
  split; [exact Hhands|].
  intros p k i Hp Hk Hi. rewrite (Hget p k i Hp Hk Hi). split.
  - intros Hocc.
    destruct (belief_of_grid game obs 0 _ raw enc' len cc p k Hdim Hfit Hkr
                (Z.le_refl 0) Hck Hzero Hbel Hocc) as (Hpos & Hin).
    split; [exact Hpos | exact (Hin i Hi)].
  - intros Hfree.
    pose proof (slot_base_ge game 0 p k Hdim (proj1 Hp) (proj1 Hk)) as Hge.
    rewrite (proj2 (proj2 Hbel)); [|lia|].
    + exact (EncodeCardKnowledge_grid_bits game obs 0 _ raw len Hdim Hkr
               (Z.le_refl 0) Hck Hzero p k i Hp Hk Hi).
    + intros (p' & k' & Hocc & _ & Hj).
      pose proof (occupied_fits _ _ _ _ Hfit Hocc) as (Hp' & Hk').
      assert (Hsw : BitsPerCard game <= slot_width game).
      { destruct Hdim as (HC & HR & _). unfold slot_width. lia. }
      destruct (slot_offset_inj game 0 p k p' k' i
                  (slot_base game 0 p k + i - slot_base game 0 p' k')
                  Hk Hk' ltac:(lia) ltac:(lia) ltac:(lia)) as (<- & <- & _).
      contradiction.
Qed.

Lemma occupied_dec (obs : HanabiObservation.t) (p k : Z) :
  occupied obs p k \/ ~ occupied obs p k.
Proof.
  unfold occupied.
  destruct (Z_lt_le_dec p 0) as [Hp|Hp];
    [right; intros (hand & ? & _); lia|].
  destruct (nth_error (Hands obs) (Z.to_nat p)) as [hand|] eqn:Hnth;
    [|right; intros (hand & _ & ? & _); discriminate].
  destruct (Z_lt_le_dec k 0) as [Hk|Hk];
    [right; intros (h & _ & _ & ?); lia|].
  destruct (Z_lt_le_dec k (size (HanabiHand.Cards hand))) as [Hlt|Hge].
  - left. exists hand. auto.
  - right. intros (h & _ & E & ?). injection E as <-. lia.
Qed.

Lemma occupied_in_game (game : HanabiGame.t) (obs : HanabiObservation.t)
  (p k : Z) :
  size (Hands obs) = NumPlayers game -> hands_fit game obs ->
  occupied obs p k -> 0 <= p < NumPlayers game /\ 0 <= k < HandSize game.
Proof.
  intros Hhands Hfit Hocc.
  pose proof (occupied_fits _ _ _ _ Hfit Hocc) as (Hp & Hk).
  destruct Hocc as (hand & _ & Hnth & _).
  pose proof (nth_error_size _ _ _ Hp Hnth). lia.
Qed.

Lemma qsum_term_le (f : Z -> Q) (n i0 : Z) :
  0 <= i0 < n -> (forall i, 0 <= i < n -> (0 <= f i)%Q) ->
  (f i0 <= qsum f n)%Q.
Proof.
  intros Hi0 Hf. assert (Hn : 0 <= n) by lia. revert Hi0 Hf.
  pattern n. apply natlike_ind; [| |exact Hn]; clear n Hn.
  - intros Hi0. lia.
  - intros n Hn IH Hi0 Hf. unfold Z.succ in *. rewrite qsum_succ by assumption.
    destruct (Z.eq_dec i0 n) as [->|Hne].
    + rewrite <- (Qplus_0_l (f n)) at 1.
      apply Qplus_le_compat; [|apply Qle_refl].
      apply qsum_nonneg; [assumption|]. intros i Hi. apply Hf. lia.
    + rewrite <- (Qplus_0_r (f i0)).
      apply Qplus_le_compat; [|apply Hf; lia].
      apply IH; [lia|]. intros i Hi. apply Hf. lia.
Qed.

(** X7: in what the V0 accessor returns, the entry of card [(c, r)] in the
    grid of a slot that holds a card is the count of that card divided by
    the total count of the cards the knowledge of the slot allows, when it
    allows [(c, r)], and 0 when it does not.  (Arithmetic is exact.) *)
Theorem EncodeV0Belief_shares (game : HanabiGame.t)
  (obs : HanabiObservation.t) (cc : list Z) (belief : vec) :
  positive_dimensions game -> hands_fit game obs ->
  knowledge_in_range game obs ->
  ComputeCardCount game obs = Ok cc ->
  EncodeV0Belief game obs = Ok belief ->
  forall p k c r, occupied obs p k ->
    0 <= c < NumColors game -> 0 <= r < NumRanks game ->
    (get belief (belief_slot game p k + CardIndex c r (NumRanks game))
     == if slot_plausible obs p k c r
        then inject_Z (getz cc (CardIndex c r (NumRanks game)))
             / weighted_total game obs cc p k
        else 0)%Q.
Proof.
  intros Hdim Hfit Hkr Hcc H p k c r Hocc Hc Hr.
  destruct (EncodeV0Belief_accessor_entries game obs cc belief Hdim Hfit Hkr
              Hcc H) as (Hhands & Hent).
  destruct (occupied_in_game game obs p k Hhands Hfit Hocc) as (Hp & Hk).
  pose proof (CardIndex_range _ _ _ _ Hc Hr) as Hidx.
  destruct (Hent p k (CardIndex c r (NumRanks game)) Hp Hk Hidx)
    as (Hin & _).
  destruct (Hin Hocc) as (_ & ->).
  assert (Hbit : grid_bit game obs p k (CardIndex c r (NumRanks game))
                 = if slot_plausible obs p k c r then 1%Q else 0%Q).
  { unfold grid_bit, CardIndex.
    rewrite Z.add_comm, Z.div_add, Z.mod_add by lia.
    rewrite Z.div_small, Z.mod_small by lia. reflexivity. }
  rewrite Hbit. destruct (slot_plausible obs p k c r).
  - now rewrite Qmult_1_l.
  - unfold Qdiv. ring.
Qed.

Lemma hinted_partner_first_occupied : occupied hinted_observation 1 0.
Proof.
  exists hinted_partner_hand. split; [lia|]. split; [reflexivity|].
  vm_compute. split; [discriminate | reflexivity].
Qed.

Lemma EncodeV0Belief_shares_witness :
  (get hinted_belief
       (belief_slot standard_game 1 0
        + CardIndex 2 0 (NumRanks standard_game))
   == if slot_plausible hinted_observation 1 0 2 0
      then inject_Z (getz hinted_counts
                          (CardIndex 2 0 (NumRanks standard_game)))
           / weighted_total standard_game hinted_observation
                            hinted_counts 1 0
      else 0)%Q.
Proof.
  apply (EncodeV0Belief_shares standard_game hinted_observation
           hinted_counts hinted_belief).
  - exact standard_positive_dimensions.
  - exact hinted_hands_fit.
  - exact hinted_knowledge_in_range.
  - reflexivity.
  - reflexivity.
  - exact hinted_partner_first_occupied.
  - vm_compute. split; [discriminate | reflexivity].
  - vm_compute. split; [discriminate | reflexivity].
Defined.

(** X8: when no count of [ComputeCardCount] is negative, every entry of
    what the V0 accessor returns lies between 0 and 1.  (Arithmetic is
    exact.) *)
Theorem EncodeV0Belief_probabilities (game : HanabiGame.t)
  (obs : HanabiObservation.t) (cc : list Z) (belief : vec) :
  positive_dimensions game -> hands_fit game obs ->
  knowledge_in_range game obs ->
  ComputeCardCount game obs = Ok cc ->
  (forall i, 0 <= i < BitsPerCard game -> 0 <= getz cc i) ->
  EncodeV0Belief game obs = Ok belief ->
  forall p k i, 0 <= p < NumPlayers game -> 0 <= k < HandSize game ->
    0 <= i < BitsPerCard game ->
    (0 <= get belief (belief_slot game p k + i) <= 1)%Q.
Proof.
  intros Hdim Hfit Hkr Hcc Hnn H p k i Hp Hk Hi.
  destruct (EncodeV0Belief_accessor_entries game obs cc belief Hdim Hfit Hkr
              Hcc H) as (Hhands & Hent).
  destruct (Hent p k i Hp Hk Hi) as (Hin & Hout).
  assert (Hterm : forall i', 0 <= i' < BitsPerCard game ->
            (0 <= grid_bit game obs p k i' * inject_Z (getz cc i'))%Q).
  { intros i' Hi'. apply Qmult_le_0_compat; [apply grid_bit_nonneg|].
    change 0%Q with (inject_Z 0). rewrite <- Zle_Qle. now apply Hnn. }
  destruct (occupied_dec obs p k) as [Hocc|Hfree].
  - destruct (Hin Hocc) as (Hpos & ->). split.
    + apply Qle_shift_div_l; [assumption|]. rewrite Qmult_0_l.
      now apply Hterm.
    + apply Qle_shift_div_r; [assumption|]. rewrite Qmult_1_l.
      unfold weighted_total.
      exact (qsum_term_le
               (fun i' => (grid_bit game obs p k i'
                           * inject_Z (getz cc i'))%Q) _ i Hi Hterm).
  - rewrite (Hout Hfree). unfold grid_bit.
    destruct (slot_plausible _ _ _ _ _); split; discriminate.
Qed.

Lemma EncodeV0Belief_probabilities_witness :
  (0 <= get hinted_belief (belief_slot standard_game 1 0 + 10) <= 1)%Q.
Proof.
  apply (EncodeV0Belief_probabilities standard_game hinted_observation
           hinted_counts hinted_belief).
  - exact standard_positive_dimensions.
  - exact hinted_hands_fit.
  - exact hinted_knowledge_in_range.
  - reflexivity.
  - intros i Hi. change (BitsPerCard standard_game) with 25 in Hi.
    destruct (nth_in_or_default (Z.to_nat i) hinted_counts 0) as [Hn|Hn].
    + unfold getz. revert Hn. generalize (nth (Z.to_nat i) hinted_counts 0).
      intros z Hz. unfold hinted_counts in Hz. cbn in Hz.
      repeat (destruct Hz as [<-|Hz]; [lia|]). destruct Hz.
    + unfold getz. rewrite Hn. lia.
  - reflexivity.
  - vm_compute. split; [discriminate | reflexivity].
  - vm_compute. split; [discriminate | reflexivity].
  - vm_compute. split; [discriminate | reflexivity].
Defined.

(** ** Own-hand summary *)

(** X9: the own-hand accessor returns only for an observation whose own
    hand is shown: at most five cards, each valid, with a color and a rank of
    the game and a firework to compare with.  A hidden card in the
    observer's hand makes it fail. *)
Theorem EncodeOwnHand_requires_shown_hand (game : HanabiGame.t)
  (obs : HanabiObservation.t) (enc : vec) :
  EncodeOwnHand game obs = Ok enc -> own_hand_visible game obs.
Proof.
  intros H. unfold EncodeOwnHand in H. cbv zeta in H.
  apply bind_Ok in H. destruct H as (enc0 & _ & H).
  apply bind_Ok in H. destruct H as ((e & offset) & Hrun & H).
  apply bind_Ok in H. destruct H as (u & Hle & _).
  apply assert_inv, Z.leb_le in Hle.
  unfold EncodeOwnHand_ in Hrun.
  apply bind_Ok in Hrun. destruct Hrun as (hand & Hhand & Hrun).
  apply load_inv in Hhand. destruct Hhand as (_ & Hhand).
  apply bind_Ok in Hrun. destruct Hrun as ((off & e') & Hloop & Hrun).
  injection Hrun as <- <-.
  pose proof
    (foldM_inv
       (fun k st =>
          fst st = 0 + 3 * k /\
          forall k' card, 0 <= k' < k ->
            nth_error (HanabiHand.Cards hand) (Z.to_nat k') = Some card ->
            HanabiCard.IsValid card = true /\
            0 <= HanabiCard.Color card < NumColors game /\
            HanabiCard.Color card < size (Fireworks obs) /\
            HanabiCard.Rank card < NumRanks game)
       _ _ _ _ Hloop) as Hinv.
  cbn [fst snd] in Hinv.
  destruct Hinv as (Hoff & Hcards).
  - split; [lia|]. intros; lia.
  - intros k card (o & t) (o' & t') Hk Hnth (Ho & Hprev) Hbody.
    cbn [fst snd] in *. unfold EncodeOwnHand_card in Hbody.
    apply bind_Ok in Hbody. destruct Hbody as (u1 & Hc & Hbody).
    apply assert_inv, Z.ltb_lt in Hc.
    apply bind_Ok in Hbody. destruct Hbody as (u2 & Hr & Hbody).
    apply assert_inv, Z.ltb_lt in Hr.
    apply bind_Ok in Hbody. destruct Hbody as (u3 & Hv & Hbody).
    apply assert_inv in Hv.
    apply bind_Ok in Hbody. destruct Hbody as (fw & Hfw & Hbody).
    apply load_inv in Hfw. destruct Hfw as (Hfw & _).
    apply bind_Ok in Hbody. destruct Hbody as (t'' & _ & Hbody).
    injection Hbody as <- <-. split; [lia|].
    intros k' card' Hk' Hnth'.
    destruct (Z.eq_dec k' k) as [->|Hne];
      [|apply (Hprev k'); [lia|assumption]].
    assert (card' = card) by congruence. subst card'.
    repeat split; try assumption; lia.
  - exists hand. split; [exact Hhand|]. split; [lia|].
    intros card Hin. apply In_nth_error in Hin. destruct Hin as (n & Hn).
    assert (Hlt : (n < length (HanabiHand.Cards hand))%nat)
      by (apply nth_error_Some; congruence).
    apply (Hcards (Z.of_nat n)); [unfold size; lia|].
    now rewrite Nat2Z.id.
Qed.

Lemma EncodeOwnHand_requires_shown_hand_witness :
  own_hand_visible standard_game shown_observation.
Proof.
  apply (EncodeOwnHand_requires_shown_hand standard_game shown_observation
           shown_summary).
  reflexivity.
Defined.

(** ** Board section *)

(** The entries that the loop over the fireworks sets. *)
Lemma EncodeBoard_fireworks_writes (game : HanabiGame.t)
  (fireworks : list Z) (offset : Z) (enc enc' : vec) (off' : Z) :
  0 <= NumColors game ->
  for_range (NumColors game) (EncodeBoard_firework game fireworks)
            (offset, enc) = Ok (off', enc') ->
  off' = offset + NumColors game * NumRanks game /\
  writes (fun j => exists c, 0 <= c < NumColors game /\
                     0 < getz fireworks c /\
                     j = offset + c * NumRanks game + getz fireworks c - 1)
         enc enc'.
Proof.
  intros HC Hrun.
  pose proof
    (for_range_inv
       (fun n (st : Z * vec) =>
          fst st = offset + n * NumRanks game /\
          writes (fun j => exists c, 0 <= c < n /\ 0 < getz fireworks c /\
                     j = offset + c * NumRanks game + getz fireworks c - 1)
                 enc (snd st))
       _ _ _ _ HC Hrun) as Hinv.
  cbn [fst snd] in Hinv. apply Hinv; clear Hinv.
  - split; [lia|]. eapply writes_ext; [|apply writes_none].
    intros j. split; [intros [] | intros (c & Hc & _); lia].
  - intros c (o & t) (o' & t') Hc (Ho & Hw) Hbody. cbn [fst snd] in *.
    subst o. unfold EncodeBoard_firework in Hbody.
    apply bind_Ok in Hbody. destruct Hbody as (fw & Hfw & Hbody).
    apply load_inv in Hfw. destruct Hfw as (_ & Hfw).
    assert (Efw : getz fireworks c = fw)
      by (unfold getz; now apply nth_error_nth).
    apply bind_Ok in Hbody. destruct Hbody as (t'' & Hst & Hbody).
    injection Hbody as <- <-. split; [lia|].
    destruct (Z.gtb_spec fw 0) as [Hpos|Hnpos].
    + eapply writes_ext;
        [|exact (writes_trans _ _ _ _ _ Hw (writes_store _ _ _ Hst))].
      intros j. split.
      * intros [(c' & Hc' & Hf & ->)| ->];
          [exists c' | exists c]; (split; [lia|]); split; lia || auto.
      * intros (c' & Hc' & Hf & ->).
        destruct (Z.eq_dec c' c) as [->|Hne];
          [right; lia | left; exists c'; split; [lia|]; auto].
    + injection Hst as <-. eapply writes_ext; [|exact Hw].
      intros j. split.
      * intros (c' & Hc' & Hf & ->). exists c'. split; [lia|]. auto.
      * intros (c' & Hc' & Hf & ->).
        destruct (Z.eq_dec c' c) as [->|Hne];
          [lia | exists c'; split; [lia|]; auto].
Qed.

(** Whatever [EncodeBoard] returns, it has set exactly the entries of
    [board_writes], and the tokens were in range. *)
Lemma EncodeBoard_writes (game : HanabiGame.t) (obs : HanabiObservation.t)
  (start : Z) (enc enc' : vec) (n : Z) :
  0 <= NumColors game ->
  EncodeBoard game obs start enc = Ok (enc', n) ->
  n = BoardSectionLength game /\
  0 <= InformationTokens obs <= MaxInformationTokens game /\
  0 <= LifeTokens obs <= MaxLifeTokens game /\
  writes (board_writes game obs start) enc enc'.
Proof.
  intros HC H. unfold EncodeBoard in H. cbv zeta in H.
  apply bind_Ok in H. destruct H as (e1 & H1 & H).
  apply set_prefix_writes in H1.
  apply bind_Ok in H. destruct H as ((o2 & e2) & H2 & H).
  apply (EncodeBoard_fireworks_writes game _ _ _ _ _ HC) in H2.
  destruct H2 as (-> & H2).
  apply bind_Ok in H. destruct H as (u1 & Ha1 & H).
  apply assert_inv in Ha1.
  apply bind_Ok in H. destruct H as (u2 & Ha2 & H).
  apply assert_inv in Ha2.
  apply bind_Ok in H. destruct H as (e3 & H3 & H).
  apply set_prefix_writes in H3.
  apply bind_Ok in H. destruct H as (u3 & Ha3 & H).
  apply assert_inv in Ha3.
  apply bind_Ok in H. destruct H as (u4 & Ha4 & H).
  apply assert_inv in Ha4.
  apply bind_Ok in H. destruct H as (e4 & H4 & H).
  apply set_prefix_writes in H4.
  apply bind_Ok in H. destruct H as (u5 & Ha5 & H).
  apply assert_inv, Z.eqb_eq in Ha5. injection H as <- <-.
  split; [exact Ha5|]. split; [lia|]. split; [lia|].
  eapply writes_ext;
    [|exact (writes_trans _ _ _ _ _
               (writes_trans _ _ _ _ _ (writes_trans _ _ _ _ _ H1 H2) H3)
               H4)].
  intros j. unfold board_writes, BoardField.life, BoardField.information,
    BoardField.fireworks.
  replace (HandSize game * NumPlayers game)
    with (NumPlayers game * HandSize game) by ring.
  split.
  - intros [[[Hd|(c & Hc & Hf & ->)]|Hi]|Hl].
    + left. lia.
    + right; left. exists c. split; [lia|]. split; [lia|]. lia.
    + right; right; left. lia.
    + right; right; right. lia.
  - intros [Hd|[(c & Hc & Hf & ->)|[Hi|Hl]]].
    + left; left; left. lia.
    + left; left; right. exists c. split; [lia|]. split; [lia|]. lia.
    + left; right. lia.
    + right. lia.
Qed.

Lemma board_writes_range (game : HanabiGame.t) (obs : HanabiObservation.t)
  (start j : Z) :
  valid_game game -> board_well_formed game obs ->
  board_writes game obs start j ->
  start <= j < start + BoardSectionLength game.
Proof.
  intros ((HC & HR & HP & HH) & _ & _ & Hdeck & Hinfo & Hlife)
         (Hd & Hfw & Hle & Hi & Hl).
  unfold board_writes, BoardField.life, BoardField.information,
    BoardField.fireworks, BoardSectionLength.
  assert (HCR : 0 <= NumColors game * NumRanks game) by nia.
  intros [H|[(c & Hc & Hf & ->)|[H|H]]]; try lia.
  pose proof (Hle c Hc).
  assert (0 <= c * NumRanks game /\
          c * NumRanks game + NumRanks game <= NumColors game * NumRanks game)
    by nia.
  lia.
Qed.

Lemma board_writes_shift (game : HanabiGame.t) (obs : HanabiObservation.t)
  (start j : Z) :
  board_writes game obs start (start + j) <-> board_writes game obs 0 j.
Proof.
  unfold board_writes. split.
  - intros [H|[(c & Hc & Hf & E)|[H|H]]].
    + left. lia.
    + right; left. exists c. split; [lia|]. split; [lia|]. lia.
    + right; right; left. lia.
    + right; right; right. lia.
  - intros [H|[(c & Hc & Hf & E)|[H|H]]].
    + left. lia.
    + right; left. exists c. split; [lia|]. split; [lia|]. lia.
    + right; right; left. lia.
    + right; right; right. lia.
Qed.

(** X10: for a valid game and a board within its bounds (deck no larger
    than its field, fireworks at most complete, tokens at most their
    maximum), on a section of the buffer that is still zero, [EncodeBoard]
    returns the section length and leaves the deck size as a thermometer,
    one entry per card of each firework with the entry of the top card set
    (none for an empty firework), and the information and the life tokens
    as thermometers; nothing outside the section changes. *)
Theorem EncodeBoard_layout (game : HanabiGame.t) (obs : HanabiObservation.t)
  (start : Z) (enc : vec) :
  valid_game game -> board_well_formed game obs ->
  0 <= start -> start + BoardSectionLength game <= size enc ->
  all_zero enc start (BoardSectionLength game) ->
  exists enc',
    EncodeBoard game obs start enc = Ok (enc', BoardSectionLength game) /\
    size enc' = size enc /\
    board_layout game obs start enc' /\
    (forall j, 0 <= j ->
       j < start \/ start + BoardSectionLength game <= j ->
       get enc' j = get enc j).
Proof.
  intros Hgame Hwf Hstart Hroom Hzero.
  destruct (EncodeBoard_ok game obs start enc Hgame Hwf Hstart Hroom)
    as (enc' & Hrun & _).
  pose proof Hgame as ((HC & HR & HP & HH) & _ & _ & Hdeck & Hinfo & Hlife).
  destruct (EncodeBoard_writes game obs start enc enc' _ ltac:(lia) Hrun)
    as (_ & _ & _ & Hw).
  pose proof Hwf as (Hd & Hfw & Hle & Hi & Hl).
  assert (HCR : 0 <= NumColors game * NumRanks game) by nia.
  assert (Hval : forall j, 0 <= j < BoardSectionLength game ->
            (board_writes game obs start (start + j) ->
             get enc' (start + j) = 1%Q) /\
            (~ board_writes game obs start (start + j) ->
             get enc' (start + j) = 0%Q)).
  { intros j Hj. split; intros HW.
    - exact (writes_in _ _ _ _ Hw HW).
    - rewrite (writes_out _ _ _ _ Hw) by (lia || assumption).
      now apply Hzero. }
  assert (Hrows : forall c, 0 <= c < NumColors game ->
            0 <= c * NumRanks game /\
            c * NumRanks game + NumRanks game
            <= NumColors game * NumRanks game) by (intros; nia).
  exists enc'. split; [exact Hrun|]. split; [exact (writes_size _ _ _ Hw)|].
  split; [|intros j Hj Hout; apply (writes_out _ _ _ _ Hw Hj); intros HW;
           pose proof (board_writes_range game obs start j Hgame Hwf HW); lia].
  unfold board_layout, thermometer, board_writes, BoardField.deck,
    BoardField.life, BoardField.information, BoardField.fireworks,
    BoardSectionLength, CardIndex in *.
  split; [|split; [|split]].
  - intros i Hi'.
    destruct (Hval (0 + i) ltac:(lia)) as (Hin & Hout).
    replace (start + (0 + i)) with (start + 0 + i) in * by lia.
    destruct (Z.ltb_spec i (DeckSize obs)).
    + apply Hin. left. lia.
    + apply Hout. intros [H'|[(c & Hc & Hf & E)|[H'|H']]]; try lia;
        pose proof (Hrows c Hc); pose proof (Hle c Hc); lia.
  - intros c r Hc Hr. pose proof (Hrows c Hc) as Hrow.
    destruct (Hval (MaxDeckSize game - NumPlayers game * HandSize game
                    + (c * NumRanks game + r)) ltac:(lia)) as (Hin & Hout).
    rewrite !Z.add_assoc in Hin, Hout. rewrite !Z.add_assoc.
    destruct (Z.eqb_spec (r + 1) (getz (Fireworks obs) c)) as [E|E].
    + apply Hin. right; left. exists c. split; [lia|]. split; lia.
    + apply Hout. intros [H'|[(c' & Hc' & Hf & E')|[H'|H']]]; try lia;
        [].
      pose proof (Hle c' Hc').
      assert (Hsame : c' * NumRanks game + (getz (Fireworks obs) c' - 1)
                      = c * NumRanks game + r) by lia.
      apply CardIndex_inj in Hsame; [|lia|lia]. destruct Hsame as (-> & ?).
      lia.
  - intros i Hi'.
    destruct (Hval (MaxDeckSize game - NumPlayers game * HandSize game
                    + NumColors game * NumRanks game + i) ltac:(lia))
      as (Hin & Hout).
    rewrite !Z.add_assoc in Hin, Hout. rewrite !Z.add_assoc.
    destruct (Z.ltb_spec i (InformationTokens obs)).
    + apply Hin. right; right; left. lia.
    + apply Hout. intros [H'|[(c & Hc & Hf & E)|[H'|H']]]; try lia;
        pose proof (Hrows c Hc); pose proof (Hle c Hc); lia.
  - intros i Hi'.
    destruct (Hval (MaxDeckSize game - NumPlayers game * HandSize game
                    + NumColors game * NumRanks game
                    + MaxInformationTokens game + i) ltac:(lia))
      as (Hin & Hout).
    rewrite !Z.add_assoc in Hin, Hout. rewrite !Z.add_assoc.
    destruct (Z.ltb_spec i (LifeTokens obs)).
    + apply Hin. right; right; right. lia.
    + apply Hout. intros [H'|[(c & Hc & Hf & E)|[H'|H']]]; try lia;
        pose proof (Hrows c Hc); pose proof (Hle c Hc); lia.
Qed.

Lemma midgame_board_well_formed :
  board_well_formed standard_game midgame_observation.
Proof.
  split; [cbn; lia|]. split; [vm_compute; discriminate|].
  split; [|cbn; lia].
  intros c Hc. change (NumColors standard_game) with 5 in Hc.
  five_cases c; vm_compute; discriminate.
Qed.

Lemma EncodeBoard_layout_witness :
  exists enc',
    EncodeBoard standard_game midgame_observation 0 (repeat 0%Q 76)
    = Ok (enc', BoardSectionLength standard_game) /\
    size enc' = size (repeat 0%Q 76) /\
    board_layout standard_game midgame_observation 0 enc' /\
    (forall j, 0 <= j ->
       j < 0 \/ 0 + BoardSectionLength standard_game <= j ->
       get enc' j = get (repeat 0%Q 76) j).
Proof.
  apply (EncodeBoard_layout standard_game midgame_observation 0
           (repeat 0%Q 76)).
  - exact standard_valid_game.
  - exact midgame_board_well_formed.
  - lia.
  - vm_compute. discriminate.
  - intros i _. apply get_repeat. exact 0%Q.
Defined.

(** X11: [EncodeBoard] checks the tokens and nothing else of the board:
    whenever it returns, it returns the section length, the information and
    the life tokens are between 0 and their maximum, and every entry from
    the start of the section up to the deck size is set -- past the deck
    field when the deck is larger than the field. *)
Theorem EncodeBoard_checks_tokens_only (game : HanabiGame.t)
  (obs : HanabiObservation.t) (start : Z) (enc enc' : vec) (n : Z) :
  0 <= NumColors game ->
  EncodeBoard game obs start enc = Ok (enc', n) ->
  n = BoardSectionLength game /\
  0 <= InformationTokens obs <= MaxInformationTokens game /\
  0 <= LifeTokens obs <= MaxLifeTokens game /\
  forall i, 0 <= i < DeckSize obs -> get enc' (start + i) = 1%Q.
Proof.
  intros HC H.
  destruct (EncodeBoard_writes game obs start enc enc' n HC H)
    as (Hn & Hi & Hl & Hw).
  split; [exact Hn|]. split; [exact Hi|]. split; [exact Hl|].
  intros i Hi'. apply (writes_in _ _ _ _ Hw). left. lia.
Qed.

Lemma EncodeBoard_checks_tokens_only_witness :
  76 = BoardSectionLength standard_game /\
  0 <= InformationTokens shown_observation
    <= MaxInformationTokens standard_game /\
  0 <= LifeTokens shown_observation <= MaxLifeTokens standard_game /\
  forall i, 0 <= i < DeckSize shown_observation ->
            get overfull_board (0 + i) = 1%Q.
Proof.
  apply (EncodeBoard_checks_tokens_only standard_game shown_observation 0
           (repeat 0%Q 76) overfull_board 76).
  - vm_compute. discriminate.
  - reflexivity.
Defined.

(** ** Hands section *)

Lemma EncodeHands_card_writes (game : HanabiGame.t) (show_own_cards : bool)
  (player num offset : Z) (enc : vec) (card : HanabiCard.t)
  (num' offset' : Z) (enc' : vec) :
  EncodeHands_card game show_own_cards player (num, offset, enc) card
  = Ok (num', offset', enc') ->
  num' = num + 1 /\ offset' = offset + BitsPerCard game /\
  card_checked game show_own_cards player card /\
  writes (fun j => shows_hand show_own_cards player = true /\
                   j = offset + CardIndex (HanabiCard.Color card)
                                          (HanabiCard.Rank card)
                                          (NumRanks game))
         enc enc'.
Proof.
  intros H. unfold EncodeHands_card in H.
  apply bind_Ok in H. destruct H as (u1 & Hc & H).
  apply assert_inv, Z.ltb_lt in Hc.
  apply bind_Ok in H. destruct H as (u2 & Hr & H).
  apply assert_inv, Z.ltb_lt in Hr.
  apply bind_Ok in H. destruct H as (e & He & H).
  injection H as <- <- <-. split; [reflexivity|]. split; [reflexivity|].
  unfold card_checked, shows_hand.
  assert (Hstore : forall e',
    (assert (HanabiCard.IsValid card) CardValid ;;
     store enc (offset + CardIndex (HanabiCard.Color card)
                                   (HanabiCard.Rank card) (NumRanks game))
           1%Q) = Ok e' ->
    HanabiCard.IsValid card = true /\
    writes (fun j => j = offset + CardIndex (HanabiCard.Color card)
                                            (HanabiCard.Rank card)
                                            (NumRanks game)) enc e').
  { intros e' He'. apply bind_Ok in He'. destruct He' as (u & Hv & Hst).
    apply assert_inv in Hv. split; [exact Hv | now apply writes_store]. }
  destruct (player =? 0); cbn [negb orb].
  - destruct show_own_cards.
    + destruct (Hstore e He) as (Hv & Hw). split; [auto|].
      eapply writes_ext; [|exact Hw]. intros j; tauto.
    + apply bind_Ok in He. destruct He as (u & Hv & He).
      apply assert_inv in Hv. injection He as <-.
      split; [split; [now destruct (HanabiCard.IsValid card) | auto]|].
      eapply writes_ext; [|apply writes_none].
      intros j. split; [intros [] | intros (? & _); discriminate].
  - destruct (Hstore e He) as (Hv & Hw). split; [auto|].
    eapply writes_ext; [|exact Hw]. intros j; tauto.
Qed.

(** One player: the offset advances by a whole hand, or by the cards of
    the hand when they are more. *)
Lemma EncodeHands_player_writes (game : HanabiGame.t)
  (hands : list HanabiHand.t) (show_own_cards : bool)
  (player offset : Z) (enc : vec) (offset' : Z) (enc' : vec)
  (hand : HanabiHand.t) :
  nth_error hands (Z.to_nat player) = Some hand ->
  EncodeHands_player game hands show_own_cards (offset, enc) player
  = Ok (offset', enc') ->
  offset' = offset + Z.max (size (HanabiHand.Cards hand)) (HandSize game)
                     * BitsPerCard game /\
  (forall card, In card (HanabiHand.Cards hand) ->
     card_checked game show_own_cards player card) /\
  writes (fun j => exists k card, 0 <= k /\
            nth_error (HanabiHand.Cards hand) (Z.to_nat k) = Some card /\
            shows_hand show_own_cards player = true /\
            j = offset + k * BitsPerCard game
                + CardIndex (HanabiCard.Color card) (HanabiCard.Rank card)
                            (NumRanks game))
         enc enc'.
Proof.
  intros Hnth H. unfold EncodeHands_player in H.
  apply bind_Ok in H. destruct H as (hand' & Hload & H).
  apply load_inv in Hload. destruct Hload as (_ & Hload).
  assert (hand' = hand) by congruence. subst hand'.
  apply bind_Ok in H. destruct H as (((num & off) & e) & Hloop & H).
  injection H as <- <-.
  pose proof
    (foldM_inv
       (fun k (st : Z * Z * vec) =>
          let '(num, off, e) := st in
          num = k /\ off = offset + k * BitsPerCard game /\
          (forall k' card, 0 <= k' < k ->
             nth_error (HanabiHand.Cards hand) (Z.to_nat k') = Some card ->
             card_checked game show_own_cards player card) /\
          writes (fun j => exists k' card, 0 <= k' < k /\
                    nth_error (HanabiHand.Cards hand) (Z.to_nat k')
                    = Some card /\
                    shows_hand show_own_cards player = true /\
                    j = offset + k' * BitsPerCard game
                        + CardIndex (HanabiCard.Color card)
                                    (HanabiCard.Rank card) (NumRanks game))
                 enc e)
       _ _ _ _ Hloop) as Hinv.
  cbv beta iota in Hinv. destruct Hinv as (Hnum & Hoff & Hvalid & Hw).
  - split; [reflexivity|]. split; [lia|]. split; [intros; lia|].
    eapply writes_ext; [|apply writes_none].
    intros j. split; [intros [] | intros (k & c & Hk & _); lia].
  - intros k card ((n & o) & t) ((n' & o') & t') Hk Hcard
           (-> & -> & Hval & Hwr) Hbody.
    destruct (EncodeHands_card_writes _ _ _ _ _ _ _ _ _ _ Hbody)
      as (-> & -> & Hv & Hwc).
    split; [reflexivity|]. split; [lia|]. split.
    + intros k' card' Hk' Hnth'.
      destruct (Z.eq_dec k' k) as [->|Hne];
        [|apply (Hval k'); [lia|assumption]].
      assert (card' = card) by congruence. now subst card'.
    + eapply writes_ext; [|exact (writes_trans _ _ _ _ _ Hwr Hwc)].
      intros j. split.
      * intros [(k' & c' & Hk' & Hn' & Hs & ->)|(Hs & ->)].
        -- exists k', c'. split; [lia|]. auto.
        -- exists k, card. split; [lia|]. auto.
      * intros (k' & c' & Hk' & Hn' & Hs & ->).
        destruct (Z.eq_dec k' k) as [->|Hne].
        -- right. assert (c' = card) by congruence. subst c'. auto.
        -- left. exists k', c'. split; [lia|]. auto.
  - subst num off. split; [|split].
    + destruct (Z.ltb_spec (size (HanabiHand.Cards hand)) (HandSize game));
        [rewrite Z.max_r by lia | rewrite Z.max_l by lia]; lia.
    + intros card Hin. apply In_nth_error in Hin. destruct Hin as (n & Hn).
      assert (Hlt : (n < length (HanabiHand.Cards hand))%nat)
        by (apply nth_error_Some; congruence).
      apply (Hvalid (Z.of_nat n)); [unfold size; lia|].
      now rewrite Nat2Z.id.
    + eapply writes_ext; [|exact Hw].
      intros j. split.
      * intros (k & c & Hk & Hn & Hs & ->). exists k, c. split; [lia|]. auto.
      * intros (k & c & Hk & Hn & Hs & ->). exists k, c.
        pose proof (nth_error_size _ _ _ Hk Hn). split; [lia|]. auto.
Qed.

(** Whatever [EncodeHands] returns for hands that fit, it has set exactly
    the entries of [hands_writes], and the cards were valid exactly in the
    hands that are written. *)
Lemma EncodeHands_writes (game : HanabiGame.t) (obs : HanabiObservation.t)
  (start : Z) (enc : vec) (show_own_cards : bool) (enc' : vec) (n : Z) :
  0 <= NumPlayers game -> hands_fit game obs ->
  EncodeHands game obs start enc show_own_cards = Ok (enc', n) ->
  n = HandsSectionLength game /\
  size (Hands obs) = NumPlayers game /\
  (forall p hand card, 0 <= p ->
     nth_error (Hands obs) (Z.to_nat p) = Some hand ->
     In card (HanabiHand.Cards hand) ->
     card_checked game show_own_cards p card) /\
  writes (hands_writes game obs show_own_cards start) enc enc'.
Proof.
  intros HP Hfit H. unfold EncodeHands in H. cbv zeta in H.
  apply bind_Ok in H. destruct H as (u & Hsz & H).
  apply assert_inv, Z.eqb_eq in Hsz.
  apply bind_Ok in H. destruct H as ((off & e1) & Hloop & H).
  apply bind_Ok in H. destruct H as (e2 & Hmiss & H).
  apply bind_Ok in H. destruct H as (u' & Hlen & H).
  apply assert_inv, Z.eqb_eq in Hlen. injection H as <- <-.
  split; [exact Hlen|]. split; [exact Hsz|].
  set (hb := HandSize game * BitsPerCard game) in *.
  pose proof
    (for_range_inv
       (fun p (st : Z * vec) =>
          fst st = start + p * hb /\
          (forall p' hand card, 0 <= p' < p ->
             nth_error (Hands obs) (Z.to_nat p') = Some hand ->
             In card (HanabiHand.Cards hand) ->
             card_checked game show_own_cards p' card) /\
          writes (fun j => exists p' k card, 0 <= p' < p /\ 0 <= k /\
                    hand_card obs p' k = Some card /\
                    shows_hand show_own_cards p' = true /\
                    j = hand_slot game start p' k
                        + CardIndex (HanabiCard.Color card)
                                    (HanabiCard.Rank card) (NumRanks game))
                 enc (snd st))
       _ _ _ _ HP Hloop) as Hinv.
  cbn [fst snd] in Hinv. destruct Hinv as (Hoff & Hvalid & Hw).
  - split; [lia|]. split; [intros; lia|].
    eapply writes_ext; [|apply writes_none].
    intros j. split; [intros [] | intros (p & k & c & Hp & _); lia].
  - intros p (o & t) (o' & t') Hp (Ho & Hval & Hwr) Hbody.
    cbn [fst snd] in *. subst o.
    destruct (nth_error (Hands obs) (Z.to_nat p)) as [hand|] eqn:Hnth.
    2:{ apply nth_error_None in Hnth. unfold size in Hsz. lia. }
    destruct (EncodeHands_player_writes game (Hands obs) show_own_cards p _ _
                _ _ hand Hnth Hbody) as (-> & Hv & Hwp).
    rewrite Z.max_r by exact (Hfit hand (nth_error_In _ _ Hnth)).
    split; [unfold hb; lia|]. split.
    + intros p' hand' card Hp' Hnth' Hin.
      destruct (Z.eq_dec p' p) as [->|Hne];
        [|apply (Hval p' hand'); [lia|assumption..]].
      assert (hand' = hand) by congruence. subst hand'. now apply Hv.
    + eapply writes_ext; [|exact (writes_trans _ _ _ _ _ Hwr Hwp)].
      intros j. unfold hand_slot, hand_card. split.
      * intros [(p' & k & c & Hp' & Hk & Hc & Hs & ->)
               |(k & c & Hk & Hc & Hs & ->)].
        -- exists p', k, c. split; [lia|]. auto.
        -- exists p, k, c. split; [lia|]. split; [lia|].
           rewrite Hnth. split; [assumption|]. split; [assumption|].
           unfold hb. lia.
      * intros (p' & k & c & Hp' & Hk & Hc & Hs & ->).
        destruct (Z.eq_dec p' p) as [->|Hne].
        -- right. rewrite Hnth in Hc. exists k, c.
           split; [lia|]. split; [assumption|]. split; [assumption|].
           unfold hb. lia.
        -- left. exists p', k, c. split; [lia|]. auto.
  - split.
    + intros p hand card Hp Hnth Hin.
      apply (Hvalid p hand card); [|assumption..].
      pose proof (nth_error_size _ _ _ Hp Hnth). lia.
    + apply (writes_for_range
               (fun p j => exists hand,
                  nth_error (Hands obs) (Z.to_nat p) = Some hand /\
                  size (HanabiHand.Cards hand) < HandSize game /\
                  j = off + p)) in Hmiss.
      * eapply writes_ext; [|exact (writes_trans _ _ _ _ _ Hw Hmiss)].
        intros j. unfold hands_writes, missing_card_field. split.
        -- intros [(p & k & c & Hp & Hk & Hc & Hs & ->)
                  |(p & Hp & hand & Hnth & Hlt & ->)].
           ++ left. exists p, k, c. split; [lia|]. auto.
           ++ right. exists p, hand. split; [lia|]. split; [assumption|].
              split; [assumption|]. unfold hb in Hoff. lia.
        -- intros [(p & k & c & Hp & Hk & Hc & Hs & ->)
                  |(p & hand & Hp & Hnth & Hlt & ->)].
           ++ left. exists p, k, c. split; [|auto].
              unfold hand_card in Hc.
              destruct (nth_error (Hands obs) (Z.to_nat p)) eqn:Hnth;
                [|discriminate].
              pose proof (nth_error_size _ _ _ Hp Hnth). lia.
           ++ right. exists p.
              pose proof (nth_error_size _ _ _ Hp Hnth).
              split; [lia|]. exists hand. split; [assumption|].
              split; [assumption|]. unfold hb in Hoff. lia.
      * intros p t t' Hp Hbody. unfold EncodeHands_missing in Hbody.
        apply bind_Ok in Hbody. destruct Hbody as (hand & Hload & Hbody).
        apply load_inv in Hload. destruct Hload as (_ & Hload).
        destruct (Z.ltb_spec (size (HanabiHand.Cards hand)) (HandSize game)).
        -- eapply writes_ext; [|exact (writes_store _ _ _ Hbody)].
           intros j. split; [intros ->; eauto | intros (h & _ & _ & ->); auto].
        -- injection Hbody as <-.
           eapply writes_ext; [|apply writes_none].
           intros j. split; [intros [] | intros (h & E & Hlt & _)].
           assert (h = hand) by congruence. subst h. lia.
Qed.

Lemma hand_slot_inj (game : HanabiGame.t) (start p k p' k' i i' : Z) :
  0 <= k < HandSize game -> 0 <= k' < HandSize game ->
  0 <= i < BitsPerCard game -> 0 <= i' < BitsPerCard game ->
  hand_slot game start p k + i = hand_slot game start p' k' + i' ->
  p = p' /\ k = k' /\ i = i'.
Proof.
  intros Hk Hk' Hi Hi' E. unfold hand_slot in E.
  assert (E' : (p * HandSize game + k) * BitsPerCard game + i
               = (p' * HandSize game + k') * BitsPerCard game + i') by lia.
  apply CardIndex_inj in E'; [|lia|lia]. destruct E' as (E' & ->).
  apply CardIndex_inj in E'; [|lia|lia]. destruct E' as (-> & ->). auto.
Qed.

Lemma hand_slot_range (game : HanabiGame.t) (start p k : Z) :
  positive_dimensions game ->
  0 <= p < NumPlayers game -> 0 <= k < HandSize game ->
  start <= hand_slot game start p k /\
  hand_slot game start p k + BitsPerCard game
  <= start + missing_card_field game.
Proof.
  intros (HC & HR & HP & HH) Hp Hk. unfold hand_slot, missing_card_field.
  assert (Hbits : 0 < BitsPerCard game) by (unfold BitsPerCard; nia).
  set (s := p * HandSize game + k).
  assert (Hs0 : 0 <= s) by (unfold s; nia).
  assert (Hs1 : s + 1 <= NumPlayers game * HandSize game) by (unfold s; nia).
  nia.
Qed.

(** The card of a slot of a well-formed observation, when its hand is
    written, is a card of the game. *)
Lemma hand_card_shown (game : HanabiGame.t) (obs : HanabiObservation.t)
  (show_own_cards : bool) (p k : Z) (card : HanabiCard.t) :
  hands_well_formed game obs show_own_cards ->
  0 <= p -> 0 <= k -> hand_card obs p k = Some card ->
  0 <= p < NumPlayers game /\ 0 <= k < HandSize game /\
  (shows_hand show_own_cards p = true -> card_shown game card).
Proof.
  intros (Hsz & Hfit & Hcards) Hp Hk Hc. unfold hand_card in Hc.
  destruct (nth_error (Hands obs) (Z.to_nat p)) as [hand|] eqn:Hnth;
    [|discriminate].
  pose proof (nth_error_size _ _ _ Hp Hnth).
  pose proof (nth_error_size _ _ _ Hk Hc).
  pose proof (Hfit hand (nth_error_In _ _ Hnth)).
  split; [lia|]. split; [lia|]. intros Hs.
  specialize (Hcards p hand card Hp Hnth (nth_error_In _ _ Hc)).
  unfold shows_hand in Hs.
  destruct (p =? 0); destruct show_own_cards; cbn in Hs, Hcards;
    (assumption || discriminate).
Qed.

Lemma hands_writes_range (game : HanabiGame.t) (obs : HanabiObservation.t)
  (show_own_cards : bool) (start j : Z) :
  positive_dimensions game -> hands_well_formed game obs show_own_cards ->
  hands_writes game obs show_own_cards start j ->
  start <= j < start + HandsSectionLength game.
Proof.
  intros Hdim Hwf [(p & k & card & Hp & Hk & Hc & Hs & ->)
                  |(p & hand & Hp & Hnth & _ & ->)].
  - destruct (hand_card_shown game obs show_own_cards p k card Hwf Hp Hk Hc)
      as (Hp' & Hk' & Hshown).
    destruct (Hshown Hs) as (_ & Hcol & Hrk).
    pose proof (CardIndex_range _ _ _ _ Hcol Hrk).
    pose proof (hand_slot_range game start p k Hdim Hp' Hk').
    unfold HandsSectionLength, missing_card_field, BitsPerCard, CardIndex in *.
    destruct Hdim as (_ & _ & HP & _). lia.
  - destruct Hwf as (Hsz & _). pose proof (nth_error_size _ _ _ Hp Hnth).
    assert (0 <= missing_card_field game).
    { destruct Hdim as (HC & HR & HP & HH).
      unfold missing_card_field, BitsPerCard. nia. }
    unfold HandsSectionLength, missing_card_field in *. lia.
Qed.

Lemma hands_writes_shift (game : HanabiGame.t) (obs : HanabiObservation.t)
  (show_own_cards : bool) (start j : Z) :
  hands_writes game obs show_own_cards start (start + j)
  <-> hands_writes game obs show_own_cards 0 j.
Proof.
  unfold hands_writes, hand_slot. split.
  - intros [(p & k & card & Hp & Hk & Hc & Hs & E)|(p & hand & Hp & Hn & Hl & E)].
    + left. exists p, k, card. repeat (split; [assumption|]). lia.
    + right. exists p, hand. repeat (split; [assumption|]). lia.
  - intros [(p & k & card & Hp & Hk & Hc & Hs & E)|(p & hand & Hp & Hn & Hl & E)].
    + left. exists p, k, card. repeat (split; [assumption|]). lia.
    + right. exists p, hand. repeat (split; [assumption|]). lia.
Qed.

(** X12: for a well-formed observation, on a section of the buffer that
    is still zero, [EncodeHands] returns the section length and leaves, for
    every player but the observer (and for the observer too when
    [show_own_cards] is set), the block of each slot one-hot at the index of
    the card it holds; the blocks of the observer's hidden hand and of empty
    slots stay zero; after the blocks, the bit of a player is set exactly
    when the hand is short of a card; nothing outside the section
    changes. *)
Theorem EncodeHands_layout (game : HanabiGame.t) (obs : HanabiObservation.t)
  (start : Z) (enc : vec) (show_own_cards : bool) :
  positive_dimensions game -> hands_well_formed game obs show_own_cards ->
  0 <= start -> start + HandsSectionLength game <= size enc ->
  all_zero enc start (HandsSectionLength game) ->
  exists enc',
    EncodeHands game obs start enc show_own_cards
    = Ok (enc', HandsSectionLength game) /\
    size enc' = size enc /\
    hands_layout game obs show_own_cards start enc' /\
    (forall j, 0 <= j ->
       j < start \/ start + HandsSectionLength game <= j ->
       get enc' j = get enc j).
Proof.
  intros Hdim Hwf Hstart Hroom Hzero.
  destruct (EncodeHands_ok game obs start enc show_own_cards Hdim Hwf Hstart
              Hroom) as (enc' & Hrun & _).
  pose proof Hdim as (HC & HR & HP & HH).
  pose proof Hwf as (Hsz & Hfit & Hcards).
  destruct (EncodeHands_writes game obs start enc show_own_cards enc' _
              ltac:(lia) Hfit Hrun) as (_ & _ & _ & Hw).
  assert (Hbits : 0 < BitsPerCard game) by (unfold BitsPerCard; nia).
  assert (Hmcf : 0 <= missing_card_field game)
    by (unfold missing_card_field; nia).
  assert (Hlen : HandsSectionLength game
                 = missing_card_field game + NumPlayers game)
    by reflexivity.
  assert (Hval : forall j, start <= j < start + HandsSectionLength game ->
            (hands_writes game obs show_own_cards start j ->
             get enc' j = 1%Q) /\
            (~ hands_writes game obs show_own_cards start j ->
             get enc' j = 0%Q)).
  { intros j Hj. split; intros HW.
    - exact (writes_in _ _ _ _ Hw HW).
    - rewrite (writes_out _ _ _ _ Hw) by (lia || assumption).
      replace j with (start + (j - start)) by lia. apply Hzero. lia. }
  (* what is set in the block of a slot *)
  assert (Hslot : forall p k i, 0 <= p < NumPlayers game ->
            0 <= k < HandSize game -> 0 <= i < BitsPerCard game ->
            hands_writes game obs show_own_cards start
                         (hand_slot game start p k + i) ->
            exists card, hand_card obs p k = Some card /\
              shows_hand show_own_cards p = true /\
              i = CardIndex (HanabiCard.Color card) (HanabiCard.Rank card)
                            (NumRanks game)).
  { intros p k i Hp Hk Hi [(p' & k' & card & Hp' & Hk' & Hc & Hs & E)
                          |(p' & hand & Hp' & Hnth & _ & E)].
    - destruct (hand_card_shown game obs show_own_cards p' k' card Hwf Hp'
                  Hk' Hc) as (Hp'' & Hk'' & Hshown).
      destruct (Hshown Hs) as (_ & Hcol & Hrk).
      pose proof (CardIndex_range _ _ _ _ Hcol Hrk) as Hidx.
      destruct (hand_slot_inj game start p k p' k' i _ Hk Hk'' Hi Hidx E)
        as (<- & <- & ->).
      exists card. auto.
    - pose proof (hand_slot_range game start p k Hdim Hp Hk). lia. }
  exists enc'. split; [exact Hrun|]. split; [exact (writes_size _ _ _ Hw)|].
  split; [|intros j Hj Hout; apply (writes_out _ _ _ _ Hw Hj); intros HW;
           pose proof (hands_writes_range game obs show_own_cards start j
                         Hdim Hwf HW); lia].
  split.
  - intros p k Hp Hk.
    pose proof (hand_slot_range game start p k Hdim Hp Hk) as Hrange.
    assert (Hzero' : (forall i, 0 <= i < BitsPerCard game ->
                        ~ hands_writes game obs show_own_cards start
                            (hand_slot game start p k + i)) ->
                     all_zero enc' (hand_slot game start p k)
                              (BitsPerCard game)).
    { intros Hno i Hi. apply Hval; [lia | now apply Hno]. }
    destruct (hand_card obs p k) as [card|] eqn:Hc.
    + destruct (shows_hand show_own_cards p) eqn:Hs.
      * intros i Hi.
        destruct (Z.eqb_spec i (CardIndex (HanabiCard.Color card)
                                          (HanabiCard.Rank card)
                                          (NumRanks game))) as [->|Hne].
        -- apply Hval; [lia|]. left. exists p, k, card.
           split; [lia|]. split; [lia|]. auto.
        -- apply Hval; [lia|]. intros HW.
           destruct (Hslot p k i Hp Hk Hi HW) as (card' & Hc' & _ & E).
           assert (card' = card) by congruence. subst card'. contradiction.
      * apply Hzero'. intros i Hi HW.
        destruct (Hslot p k i Hp Hk Hi HW) as (_ & _ & Hs' & _). congruence.
    + apply Hzero'. intros i Hi HW.
      destruct (Hslot p k i Hp Hk Hi HW) as (card & Hc' & _). congruence.
  - intros p hand Hp Hnth. pose proof (nth_error_size _ _ _ Hp Hnth) as Hlt.
    destruct (Z.ltb_spec (size (HanabiHand.Cards hand)) (HandSize game))
      as [Hshort|Hfull].
    + apply Hval; [lia|]. right. exists p, hand. auto.
    + apply Hval; [lia|].
      intros [(p' & k' & card & Hp' & Hk' & Hc & Hs & E)
             |(p' & hand' & Hp' & Hnth' & Hshort & E)].
      * destruct (hand_card_shown game obs show_own_cards p' k' card Hwf Hp'
                    Hk' Hc) as (Hp'' & Hk'' & Hshown).
        destruct (Hshown Hs) as (_ & Hcol & Hrk).
        pose proof (CardIndex_range _ _ _ _ Hcol Hrk) as Hidx.
        pose proof (hand_slot_range game start p' k' Hdim Hp'' Hk'').
        unfold BitsPerCard, CardIndex in *. lia.
      * assert (p' = p) by lia. subst p'.
        assert (hand' = hand) by congruence. subst hand'. lia.
Qed.

Lemma EncodeHands_layout_witness :
  exists enc',
    EncodeHands standard_game hinted_observation 0 (repeat 0%Q 252) false
    = Ok (enc', HandsSectionLength standard_game) /\
    size enc' = size (repeat 0%Q 252) /\
    hands_layout standard_game hinted_observation false 0 enc' /\
    (forall j, 0 <= j ->
       j < 0 \/ 0 + HandsSectionLength standard_game <= j ->
       get enc' j = get (repeat 0%Q 252) j).
Proof.
  apply (EncodeHands_layout standard_game hinted_observation 0
           (repeat 0%Q 252) false).
  - exact standard_positive_dimensions.
  - exact hinted_hands_well_formed.
  - lia.
  - vm_compute. discriminate.
  - intros i _. apply get_repeat. exact 0%Q.
Defined.

(** A hand of more than [HandSize] cards moves the offset past the end of
    the section, and the check of the section length fails. *)
Lemma EncodeHands_fits (game : HanabiGame.t) (obs : HanabiObservation.t)
  (start : Z) (enc : vec) (show_own_cards : bool) (enc' : vec) (n : Z) :
  positive_dimensions game ->
  EncodeHands game obs start enc show_own_cards = Ok (enc', n) ->
  hands_fit game obs.
Proof.
  intros (HC & HR & HP & HH) H. unfold EncodeHands in H. cbv zeta in H.
  apply bind_Ok in H. destruct H as (u & Hsz & H).
  apply assert_inv, Z.eqb_eq in Hsz.
  apply bind_Ok in H. destruct H as ((off & e1) & Hloop & H).
  apply bind_Ok in H. destruct H as (e2 & _ & H).
  apply bind_Ok in H. destruct H as (u' & Hlen & _).
  apply assert_inv, Z.eqb_eq in Hlen.
  assert (Hbits : 0 < BitsPerCard game) by (unfold BitsPerCard; nia).
  set (hb := HandSize game * BitsPerCard game) in *.
  assert (HP0 : 0 <= NumPlayers game) by lia.
  pose proof
    (for_range_inv
       (fun p (st : Z * vec) =>
          start + p * hb <= fst st /\
          (fst st = start + p * hb ->
           forall p' hand, 0 <= p' < p ->
             nth_error (Hands obs) (Z.to_nat p') = Some hand ->
             size (HanabiHand.Cards hand) <= HandSize game))
       _ _ _ _ HP0 Hloop) as Hinv.
  cbn [fst snd] in Hinv. destruct Hinv as (Hge & Hfit).
  - split; [lia | intros; lia].
  - intros p (o & t) (o' & t') Hp (Ho & Hprev) Hbody. cbn [fst snd] in *.
    destruct (nth_error (Hands obs) (Z.to_nat p)) as [hand|] eqn:Hnth.
    2:{ apply nth_error_None in Hnth. unfold size in Hsz. lia. }
    destruct (EncodeHands_player_writes game (Hands obs) show_own_cards p _ _
                _ _ hand Hnth Hbody) as (-> & _ & _).
    assert (Hmax : hb <= Z.max (size (HanabiHand.Cards hand)) (HandSize game)
                         * BitsPerCard game)
      by (unfold hb; apply Z.mul_le_mono_nonneg_r; lia).
    split; [lia|]. intros E p' hand' Hp' Hnth'.
    assert (Ho' : o = start + p * hb) by lia.
    destruct (Z.eq_dec p' p) as [->|Hne];
      [|apply (Hprev Ho' p'); [lia|assumption]].
    assert (hand' = hand) by congruence. subst hand'.
    assert (Hmax' : Z.max (size (HanabiHand.Cards hand)) (HandSize game)
                    * BitsPerCard game = hb) by lia.
    unfold hb in Hmax'. apply Z.mul_reg_r in Hmax'; lia.
  - intros hand Hin. apply In_nth_error in Hin. destruct Hin as (k & Hk).
    assert (Hlt : (k < length (Hands obs))%nat)
      by (apply nth_error_Some; congruence).
    apply (Hfit ltac:(unfold HandsSectionLength in Hlen; unfold hb; lia)
                (Z.of_nat k)); [unfold size in Hsz; lia|].
    now rewrite Nat2Z.id.
Qed.

(** X13: [EncodeHands] returns only if the observation has one hand per
    player, no hand holds more than [HandSize] cards, every card of the
    observer is invalid (hidden) unless [show_own_cards] is set, every
    other card is valid, and every card has a color and a rank below those
    of the game; it then returns the section length. *)
Theorem EncodeHands_requires (game : HanabiGame.t)
  (obs : HanabiObservation.t) (start : Z) (enc : vec)
  (show_own_cards : bool) (enc' : vec) (n : Z) :
  positive_dimensions game ->
  EncodeHands game obs start enc show_own_cards = Ok (enc', n) ->
  n = HandsSectionLength game /\
  size (Hands obs) = NumPlayers game /\
  hands_fit game obs /\
  forall p hand card, 0 <= p ->
    nth_error (Hands obs) (Z.to_nat p) = Some hand ->
    In card (HanabiHand.Cards hand) ->
    HanabiCard.IsValid card = (negb (p =? 0) || show_own_cards) /\
    HanabiCard.Color card < NumColors game /\
    HanabiCard.Rank card < NumRanks game.
Proof.
  intros Hdim H.
  pose proof (EncodeHands_fits _ _ _ _ _ _ _ Hdim H) as Hfit.
  destruct Hdim as (_ & _ & HP & _).
  destruct (EncodeHands_writes game obs start enc show_own_cards enc' n
              ltac:(lia) Hfit H) as (Hn & Hsz & Hvalid & _).
  split; [exact Hn|]. split; [exact Hsz|]. split; [exact Hfit|].
  intros p hand card Hp Hnth Hin. exact (Hvalid p hand card Hp Hnth Hin).
Qed.

Lemma EncodeHands_requires_witness :
  252 = HandsSectionLength standard_game /\
  size (Hands hinted_observation) = NumPlayers standard_game /\
  hands_fit standard_game hinted_observation /\
  forall p hand card, 0 <= p ->
    nth_error (Hands hinted_observation) (Z.to_nat p) = Some hand ->
    In card (HanabiHand.Cards hand) ->
    HanabiCard.IsValid card = (negb (p =? 0) || false) /\
    HanabiCard.Color card < NumColors standard_game /\
    HanabiCard.Rank card < NumRanks standard_game.
Proof.
  apply (EncodeHands_requires standard_game hinted_observation 0
           (repeat 0%Q 252) false hinted_hands_section 252).
  - exact standard_positive_dimensions.
  - reflexivity.
Defined.

(** ** Last-action section *)

(** *** What each step of the branch sets *)

Lemma writes_store_if (b : bool) (enc enc' : vec) (i : Z) :
  (if b then store enc i 1%Q else Ok enc) = Ok enc' ->
  writes (fun j => b = true /\ j = i) enc enc'.
Proof.
  destruct b; intros H.
  - eapply writes_ext; [|exact (writes_store _ _ _ H)]. intros j; tauto.
  - injection H as <-. eapply writes_ext; [|apply writes_none].
    intros j. split; [intros [] | intros (? & _); discriminate].
Qed.

Lemma EncodeLastAction_type_writes (ty : HanabiMove.Type_)
  (enc enc' : vec) (offset : Z) :
  match ty with
  | HanabiMove.kPlay => store enc offset 1%Q
  | HanabiMove.kDiscard => store enc (offset + 1) 1%Q
  | HanabiMove.kRevealColor => store enc (offset + 2) 1%Q
  | HanabiMove.kRevealRank => store enc (offset + 3) 1%Q
  | _ => Fail Aborted
  end = Ok enc' ->
  0 <= type_index ty < 4 /\
  writes (fun j => j = offset + type_index ty) enc enc'.
Proof.
  destruct ty; intros H; try discriminate H; cbn [type_index];
    (split; [lia|]); apply writes_store in H;
    (eapply writes_ext; [|exact H]); intros j; cbv beta; lia.
Qed.

Lemma EncodeLastAction_target_writes (b : bool) (a P offset : Z)
  (enc enc' : vec) :
  (if b then r <- int_rem a P ;; store enc (offset + to_int8 r) 1%Q
   else Ok enc) = Ok enc' ->
  writes (fun j => b = true /\ j = offset + to_int8 (Z.rem a P)) enc enc'.
Proof.
  destruct b; intros H.
  - unfold int_rem in H. destruct (P =? 0); [discriminate H|].
    cbn [bind] in H.
    eapply writes_ext; [|exact (writes_store _ _ _ H)]. intros j; tauto.
  - injection H as <-. eapply writes_ext; [|apply writes_none].
    intros j. split; [intros [] | intros (? & _); discriminate].
Qed.

Lemma EncodeLastAction_color_writes (ty : HanabiMove.Type_)
  (enc enc' : vec) (i : Z) :
  match ty with
  | HanabiMove.kRevealColor => store enc i 1%Q
  | _ => Ok enc
  end = Ok enc' ->
  writes (fun j => ty = HanabiMove.kRevealColor /\ j = i) enc enc'.
Proof.
  destruct ty; intros H;
    try (injection H as <-; eapply writes_ext; [|apply writes_none];
         intros j; split; [intros [] | intros (? & _); discriminate]).
  eapply writes_ext; [|exact (writes_store _ _ _ H)]. intros j; tauto.
Qed.

Lemma EncodeLastAction_rank_writes (ty : HanabiMove.Type_)
  (enc enc' : vec) (i : Z) :
  match ty with
  | HanabiMove.kRevealRank => store enc i 1%Q
  | _ => Ok enc
  end = Ok enc' ->
  writes (fun j => ty = HanabiMove.kRevealRank /\ j = i) enc enc'.
Proof.
  destruct ty; intros H;
    try (injection H as <-; eapply writes_ext; [|apply writes_none];
         intros j; split; [intros [] | intros (? & _); discriminate]).
  eapply writes_ext; [|exact (writes_store _ _ _ H)]. intros j; tauto.
Qed.

(** The loop over the reveal bitmask, whatever the size of the buffer. *)
Lemma EncodeLastAction_outcome_writes (bm off n : Z) (enc : vec)
  (m : Z) (enc' : vec) :
  0 <= n ->
  for_range n (EncodeLastAction_outcome bm off) (1, enc) = Ok (m, enc') ->
  writes (fun j => exists i, 0 <= i < n /\ Z.testbit bm i = true
                             /\ j = off + i) enc enc'.
Proof.
  intros Hn Hrun.
  pose proof
    (for_range_inv
       (fun k (st : Z * vec) =>
          fst st = 2 ^ k /\
          writes (fun j => exists i, 0 <= i < k /\ Z.testbit bm i = true
                                     /\ j = off + i) enc (snd st))
       _ _ _ _ Hn Hrun) as Hinv.
  cbn [fst snd] in Hinv. apply Hinv; clear Hinv.
  - split; [reflexivity|]. eapply writes_ext; [|apply writes_none].
    intros j. split; [intros [] | intros (i & Hi & _); lia].
  - intros i (mask & t) (mask' & t') Hi (Hm & Hw) Hbody.
    cbn [fst snd] in *. subst mask.
    unfold EncodeLastAction_outcome in Hbody.
    rewrite land_pow2 in Hbody by lia.
    assert (Hp : 0 < 2 ^ i) by (apply Z.pow_pos_nonneg; lia).
    apply bind_Ok in Hbody. destruct Hbody as (t'' & Hst & Hbody).
    injection Hbody as <- <-. split.
    { transitivity (2 * 2 ^ i); [destruct (2 ^ i); reflexivity|].
      rewrite Z.pow_add_r by lia. lia. }
    destruct (Z.testbit bm i) eqn:Hb.
    + replace (2 ^ i >? 0) with true in Hst by lia.
      eapply writes_ext;
        [|exact (writes_trans _ _ _ _ _ Hw (writes_store _ _ _ Hst))].
      intros j. split.
      * intros [(k & Hk & Hbk & ->)| ->];
          [exists k | exists i]; repeat split; auto; lia.
      * intros (k & Hk & Hbk & ->). destruct (Z.eq_dec k i) as [->|Hne];
          [now right | left; exists k; repeat split; auto; lia].
    + replace (0 >? 0) with false in Hst by lia. injection Hst as <-.
      eapply writes_ext; [|exact Hw].
      intros j. split.
      * intros (k & Hk & Hbk & ->). exists k. repeat split; auto; lia.
      * intros (k & Hk & Hbk & ->). destruct (Z.eq_dec k i) as [->|Hne];
          [congruence | exists k; repeat split; auto; lia].
Qed.

Lemma EncodeLastAction_outcome_step (b : bool) (bm off n : Z)
  (enc enc' : vec) :
  0 <= n ->
  (if b then
     '(_, encoding) <-
       for_range n (EncodeLastAction_outcome bm off) (1, enc) ;;
     Ok encoding
   else Ok enc) = Ok enc' ->
  writes (fun j => b = true /\
            exists i, 0 <= i < n /\ Z.testbit bm i = true /\ j = off + i)
         enc enc'.
Proof.
  intros Hn. destruct b; intros H.
  - apply bind_Ok in H. destruct H as ((m & e) & Hrun & H).
    injection H as <-.
    eapply writes_ext;
      [|exact (EncodeLastAction_outcome_writes _ _ _ _ _ _ Hn Hrun)].
    intros j; tauto.
  - injection H as <-. eapply writes_ext; [|apply writes_none].
    intros j. split; [intros [] | intros (? & _); discriminate].
Qed.

Lemma EncodeLastAction_card_writes (b : bool) (color rank i : Z)
  (enc enc' : vec) :
  (if b then
     assert (color >=? 0) KnownCard ;;
     assert (rank >=? 0) KnownCard ;;
     store enc i 1%Q
   else Ok enc) = Ok enc' ->
  (b = true -> 0 <= color /\ 0 <= rank) /\
  writes (fun j => b = true /\ j = i) enc enc'.
Proof.
  destruct b; intros H.
  - apply bind_Ok in H. destruct H as (u1 & Hc & H).
    apply assert_inv in Hc.
    apply bind_Ok in H. destruct H as (u2 & Hr & H).
    apply assert_inv in Hr. split; [intros _; lia|].
    eapply writes_ext; [|exact (writes_store _ _ _ H)]. intros j; tauto.
  - injection H as <-. split; [discriminate|].
    eapply writes_ext; [|apply writes_none].
    intros j. split; [intros [] | intros (? & _); discriminate].
Qed.

Lemma EncodeLastAction_play_writes (ty : HanabiMove.Type_)
  (scored information_token : bool) (offset : Z) (enc enc' : vec) :
  match ty with
  | HanabiMove.kPlay =>
      encoding <- (if scored then store enc offset 1%Q else Ok enc) ;;
      if information_token then store encoding (offset + 1) 1%Q
      else Ok encoding
  | _ => Ok enc
  end = Ok enc' ->
  writes (fun j =>
            (ty = HanabiMove.kPlay /\ scored = true /\ j = offset) \/
            (ty = HanabiMove.kPlay /\ information_token = true /\
             j = offset + 1)) enc enc'.
Proof.
  destruct ty; intros H;
    try (injection H as <-; eapply writes_ext; [|apply writes_none];
         intros j; split;
         [intros [] | intros [(? & _)|(? & _)]; discriminate]).
  apply bind_Ok in H. destruct H as (e & H1 & H2).
  apply writes_store_if in H1. apply writes_store_if in H2.
  eapply writes_ext; [|exact (writes_trans _ _ _ _ _ H1 H2)].
  intros j; cbv beta; tauto.
Qed.

(** Whatever the branch returns, it has consumed the section length and
    set exactly the entries of [move_writes]; the move was a play, a
    discard or a hint, and the card of a play or a discard was known. *)
Lemma EncodeLastAction_move_writes (game : HanabiGame.t)
  (item : HanabiHistoryItem.t) (start : Z) (enc enc' : vec) (off : Z) :
  0 <= HandSize game ->
  EncodeLastAction_move game item start enc = Ok (enc', off) ->
  off = start + LastActionSectionLength game /\
  0 <= type_index (HanabiMove.MoveType (HanabiHistoryItem.move item)) < 4 /\
  (HanabiMove.is_play_or_discard
     (HanabiMove.MoveType (HanabiHistoryItem.move item)) = true ->
   0 <= HanabiHistoryItem.color item /\ 0 <= HanabiHistoryItem.rank item) /\
  writes (move_writes game item start) enc enc'.
Proof.
  intros HH H. unfold EncodeLastAction_move in H. cbv zeta in H.
  apply bind_Ok in H. destruct H as (e1 & H1 & H).
  apply writes_store in H1.
  apply bind_Ok in H. destruct H as (e2 & H2 & H).
  apply EncodeLastAction_type_writes in H2. destruct H2 as (Hty & H2).
  apply bind_Ok in H. destruct H as (e3 & H3 & H).
  apply EncodeLastAction_target_writes in H3.
  apply bind_Ok in H. destruct H as (e4 & H4 & H).
  apply EncodeLastAction_color_writes in H4.
  apply bind_Ok in H. destruct H as (e5 & H5 & H).
  apply EncodeLastAction_rank_writes in H5.
  apply bind_Ok in H. destruct H as (e6 & H6 & H).
  apply (EncodeLastAction_outcome_step _ _ _ _ _ _ HH) in H6.
  apply bind_Ok in H. destruct H as (e7 & H7 & H).
  apply writes_store_if in H7.
  apply bind_Ok in H. destruct H as (e8 & H8 & H).
  apply EncodeLastAction_card_writes in H8. destruct H8 as (Hknown & H8).
  apply bind_Ok in H. destruct H as (e9 & H9 & H).
  apply EncodeLastAction_play_writes in H9.
  injection H as <- <-.
  split; [unfold LastActionSectionLength; lia|].
  split; [exact Hty|]. split; [exact Hknown|].
  eapply writes_ext;
    [|exact (writes_trans _ _ _ _ _
               (writes_trans _ _ _ _ _
                  (writes_trans _ _ _ _ _
                     (writes_trans _ _ _ _ _
                        (writes_trans _ _ _ _ _
                           (writes_trans _ _ _ _ _
                              (writes_trans _ _ _ _ _
                                 (writes_trans _ _ _ _ _ H1 H2) H3) H4) H5)
                        H6) H7) H8) H9)].
  intros j. unfold move_writes, hint_target. cbv zeta beta. tauto.
Qed.

Lemma EncodeLastAction_writes (game : HanabiGame.t)
  (obs : HanabiObservation.t) (start : Z) (enc enc' : vec) (n : Z) :
  0 <= HandSize game ->
  EncodeLastAction_ game obs start enc = Ok (enc', n) ->
  n = LastActionSectionLength game /\
  writes (last_action_writes game obs start) enc enc'.
Proof.
  intros HH H. unfold EncodeLastAction_ in H. cbv zeta in H.
  unfold last_action_writes.
  apply bind_Ok in H. destruct H as ((e & off) & Hmove & H).
  apply bind_Ok in H. destruct H as (u & Hlen & H).
  apply assert_inv, Z.eqb_eq in Hlen. injection H as <- <-.
  split; [exact Hlen|].
  destruct (GetLastNonDealMove (LastMoves obs)) as [item|].
  - now destruct (EncodeLastAction_move_writes game item start enc e off HH
                    Hmove) as (_ & _ & _ & Hw).
  - injection Hmove as <- _. apply writes_none.
Qed.

Lemma hint_target_small (game : HanabiGame.t) (item : HanabiHistoryItem.t) :
  0 < NumPlayers game <= 128 ->
  0 <= HanabiHistoryItem.player item ->
  0 <= HanabiMove.TargetOffset (HanabiHistoryItem.move item) ->
  hint_target game item
  = Z.rem (HanabiHistoryItem.player item
           + HanabiMove.TargetOffset (HanabiHistoryItem.move item))
          (NumPlayers game) /\
  0 <= hint_target game item < NumPlayers game.
Proof.
  intros HP Hpl Hto. unfold hint_target.
  pose proof (Z.rem_bound_pos
                (HanabiHistoryItem.player item
                 + HanabiMove.TargetOffset (HanabiHistoryItem.move item))
                (NumPlayers game) ltac:(lia) ltac:(lia)) as Hb.
  rewrite to_int8_small by lia. split; [reflexivity | exact Hb].
Qed.

Lemma last_action_writes_range (game : HanabiGame.t)
  (obs : HanabiObservation.t) (start j : Z) :
  valid_game game -> last_move_well_formed game obs ->
  last_action_writes game obs start j ->
  start <= j < start + LastActionSectionLength game.
Proof.
  intros ((HC & HR & HP & HH) & _ & HP128 & _) Hwf.
  unfold last_action_writes, last_move_well_formed in *.
  destruct (GetLastNonDealMove (LastMoves obs)) as [item|]; [|intros []].
  cbv zeta in Hwf. destruct Hwf as (Hpl & Hmove).
  assert (HCR : 0 < NumColors game * NumRanks game) by nia.
  unfold move_writes, LastActionSectionLength, BitsPerCard. cbv zeta.
  destruct (HanabiMove.MoveType (HanabiHistoryItem.move item)) eqn:Hty;
    try contradiction;
    cbn [HanabiMove.is_reveal HanabiMove.is_play_or_discard type_index];
    intros HW.
  - destruct Hmove as (Hci & Hcol & Hrk).
    pose proof (CardIndex_range _ _ _ _ Hcol Hrk). unfold CardIndex in HW.
    decompose [and or ex] HW; try congruence; lia.
  - destruct Hmove as (Hci & Hcol & Hrk).
    pose proof (CardIndex_range _ _ _ _ Hcol Hrk). unfold CardIndex in HW.
    decompose [and or ex] HW; try congruence; lia.
  - destruct Hmove as (Hto & Hcol).
    destruct (hint_target_small game item ltac:(lia) ltac:(lia) Hto)
      as (_ & Htg).
    decompose [and or ex] HW; try congruence; lia.
  - destruct Hmove as (Hto & Hrk).
    destruct (hint_target_small game item ltac:(lia) ltac:(lia) Hto)
      as (_ & Htg).
    decompose [and or ex] HW; try congruence; lia.
Qed.

Lemma last_action_writes_shift (game : HanabiGame.t)
  (obs : HanabiObservation.t) (start j : Z) :
  last_action_writes game obs start (start + j)
  <-> last_action_writes game obs 0 j.
Proof.
  unfold last_action_writes.
  destruct (GetLastNonDealMove (LastMoves obs)) as [item|]; [|tauto].
  unfold move_writes. cbv zeta.
  split; intros HW;
    repeat match type of HW with
           | _ \/ _ => destruct HW as [HW|HW]; [|right]
           end;
    try (left; lia);
    try (left; destruct HW as (? & ?); split; [assumption | lia]);
    try (left; destruct HW as (? & ? & ?);
         split; [assumption|]; split; [assumption | lia]);
    try (left; destruct HW as (? & i & ? & ? & ?); split; [assumption|];
         exists i; split; [assumption|]; split; [assumption | lia]);
    try lia;
    try (destruct HW as (? & ? & ?);
         split; [assumption|]; split; [assumption | lia]).
Qed.

(** Splits a hypothesis of membership in [move_writes], for a move whose
    type is known, into its cases and closes those that contradict the
    bounds at hand. *)
Ltac no_write Hty HW :=
  unfold move_writes, BitsPerCard, CardIndex in HW; cbv zeta in HW;
  rewrite ?Hty in HW;
  cbn [HanabiMove.is_reveal HanabiMove.is_play_or_discard type_index] in HW;
  decompose [and or ex] HW; try congruence; try lia.

Ltac yes_write Hty :=
  unfold move_writes, BitsPerCard, CardIndex; cbv zeta; rewrite ?Hty;
  cbn [HanabiMove.is_reveal HanabiMove.is_play_or_discard type_index].

(** The disjunct of [move_writes] of a field, by its position. *)
Ltac pick n :=
  match n with
  | 1%nat => left
  | 10%nat => do 9 right
  | S ?m => right; pick m
  end.

Ltac field_zero Hval Hty :=
  let i := fresh "i" in
  let Hi := fresh "Hi" in
  let HW := fresh "HW" in
  intros i Hi; apply Hval; [lia | intros HW; no_write Hty HW].

Ltac field_one_hot Hval Hty k n :=
  let i := fresh "i" in
  let Hi := fresh "Hi" in
  let HW := fresh "HW" in
  intros i Hi; destruct (Z.eqb_spec i k) as [->|Hne];
  [ apply Hval; [lia | yes_write Hty; pick n; repeat split; auto; try lia]
  | apply Hval; [lia | intros HW; no_write Hty HW] ].

Ltac field_flag Hval Hty b n :=
  let Hb := fresh "Hb" in
  let HW := fresh "HW" in
  destruct b eqn:Hb;
  [ apply Hval; [lia | yes_write Hty; pick n; repeat split; auto; try lia]
  | apply Hval; [lia | intros HW; no_write Hty HW] ].

Ltac field_outcome Hval Hty item :=
  let i := fresh "i" in
  let Hi := fresh "Hi" in
  let Hb := fresh "Hb" in
  let HW := fresh "HW" in
  intros i Hi;
  destruct (Z.testbit (HanabiHistoryItem.reveal_bitmask item) i) eqn:Hb;
  [ apply Hval; [lia | yes_write Hty; pick 6%nat; split; [reflexivity|];
                       exists i; repeat split; auto; lia]
  | apply Hval; [lia | intros HW; no_write Hty HW;
                       match goal with
                       | H : Z.testbit _ ?i0 = true |- _ =>
                           assert (i0 = i) by lia; subst i0; congruence
                       end] ].

(** X14: for a valid game and a well-formed last move [item], on a
    section of the buffer that is still zero, [EncodeLastAction_] returns
    the section length and leaves the fields of [last_action_layout]: the
    acting player and the move type one-hot (play, discard, color hint,
    rank hint, in this order); for a hint the target player, the color or
    the rank one-hot and the touched slots as a bit set; for a play or a
    discard the slot and the card one-hot; for a play the flags of a score
    and of an earned token; every other field zero, and nothing outside the
    section changed. *)
Theorem EncodeLastAction_layout (game : HanabiGame.t)
  (obs : HanabiObservation.t) (item : HanabiHistoryItem.t) (start : Z)
  (enc : vec) :
  valid_game game -> last_move_well_formed game obs ->
  GetLastNonDealMove (LastMoves obs) = Some item ->
  0 <= start -> start + LastActionSectionLength game <= size enc ->
  all_zero enc start (LastActionSectionLength game) ->
  exists enc',
    EncodeLastAction_ game obs start enc
    = Ok (enc', LastActionSectionLength game) /\
    size enc' = size enc /\
    last_action_layout game item start enc' /\
    (forall j, 0 <= j ->
       j < start \/ start + LastActionSectionLength game <= j ->
       get enc' j = get enc j).
Proof.
  intros Hgame Hwf Hlast Hstart Hroom Hzero.
  destruct (EncodeLastAction_ok game obs start enc Hgame Hwf Hstart Hroom)
    as (enc' & Hrun & _).
  pose proof Hgame as ((HC & HR & HP & HH) & _ & HP128 & _).
  destruct (EncodeLastAction_writes game obs start enc enc' _ ltac:(lia) Hrun)
    as (_ & Hw).
  assert (Hrange : forall j, last_action_writes game obs start j ->
                     start <= j < start + LastActionSectionLength game)
    by (intros j; now apply last_action_writes_range).
  unfold last_action_writes in Hw, Hrange. rewrite Hlast in Hw, Hrange.
  unfold last_move_well_formed in Hwf. rewrite Hlast in Hwf.
  cbv zeta in Hwf. destruct Hwf as (Hpl & Hmove).
  assert (HCR : 0 < NumColors game * NumRanks game) by nia.
  assert (Hval : forall j, start <= j < start + LastActionSectionLength game ->
            (move_writes game item start j -> get enc' j = 1%Q) /\
            (~ move_writes game item start j -> get enc' j = 0%Q)).
  { intros j Hj. split; intros HW.
    - exact (writes_in _ _ _ _ Hw HW).
    - rewrite (writes_out _ _ _ _ Hw) by (lia || assumption).
      replace j with (start + (j - start)) by lia. apply Hzero. lia. }
  exists enc'. split; [exact Hrun|]. split; [exact (writes_size _ _ _ Hw)|].
  split; [|intros j Hj Hout; apply (writes_out _ _ _ _ Hw Hj); intros HW;
           apply Hrange in HW; lia].
  clear Hrun Hw Hrange Hzero Hlast.
  unfold last_action_layout, one_hot_if, one_hot, all_zero, is_type,
    LastActionField.play, LastActionField.card, LastActionField.position,
    LastActionField.outcome, LastActionField.rank, LastActionField.color,
    LastActionField.target_player, LastActionField.move_type,
    LastActionField.acting_player, LastActionSectionLength, BitsPerCard in *.
  cbv zeta.
  destruct (HanabiMove.MoveType (HanabiHistoryItem.move item)) eqn:Hty;
    try contradiction;
    cbn [HanabiMove.is_reveal HanabiMove.is_play_or_discard type_index
         Z.eqb andb Pos.eqb].
  - (* play *)
    destruct Hmove as (Hci & Hcol & Hrk).
    pose proof (CardIndex_range _ _ _ _ Hcol Hrk) as Hidx.
    unfold CardIndex in *.
    split; [field_one_hot Hval Hty (HanabiHistoryItem.player item) 1%nat|].
    split; [field_one_hot Hval Hty 0 2%nat|].
    split; [field_zero Hval Hty|].
    split; [field_zero Hval Hty|].
    split; [field_zero Hval Hty|].
    split; [field_zero Hval Hty|].
    split; [field_one_hot Hval Hty
              (HanabiMove.CardIndex (HanabiHistoryItem.move item)) 7%nat|].
    split; [field_one_hot Hval Hty
              (HanabiHistoryItem.color item * NumRanks game
               + HanabiHistoryItem.rank item) 8%nat|].
    split.
    + field_flag Hval Hty (HanabiHistoryItem.scored item) 9%nat.
    + field_flag Hval Hty (HanabiHistoryItem.information_token item) 10%nat.
  - (* discard *)
    destruct Hmove as (Hci & Hcol & Hrk).
    pose proof (CardIndex_range _ _ _ _ Hcol Hrk) as Hidx.
    unfold CardIndex in *.
    split; [field_one_hot Hval Hty (HanabiHistoryItem.player item) 1%nat|].
    split; [field_one_hot Hval Hty 1 2%nat|].
    split; [field_zero Hval Hty|].
    split; [field_zero Hval Hty|].
    split; [field_zero Hval Hty|].
    split; [field_zero Hval Hty|].
    split; [field_one_hot Hval Hty
              (HanabiMove.CardIndex (HanabiHistoryItem.move item)) 7%nat|].
    split; [field_one_hot Hval Hty
              (HanabiHistoryItem.color item * NumRanks game
               + HanabiHistoryItem.rank item) 8%nat|].
    split; (apply Hval; [lia | intros HW; no_write Hty HW]).
  - (* color hint *)
    destruct Hmove as (Hto & Hcol).
    destruct (hint_target_small game item ltac:(lia) ltac:(lia) Hto)
      as (Etg & Htg).
    rewrite <- Etg.
    split; [field_one_hot Hval Hty (HanabiHistoryItem.player item) 1%nat|].
    split; [field_one_hot Hval Hty 2 2%nat|].
    split; [field_one_hot Hval Hty (hint_target game item) 3%nat|].
    split; [field_one_hot Hval Hty
              (HanabiMove.Color (HanabiHistoryItem.move item)) 4%nat|].
    split; [field_zero Hval Hty|].
    split; [field_outcome Hval Hty item|].
    split; [field_zero Hval Hty|].
    split; [field_zero Hval Hty|].
    split; (apply Hval; [lia | intros HW; no_write Hty HW]).
  - (* rank hint *)
    destruct Hmove as (Hto & Hrk).
    destruct (hint_target_small game item ltac:(lia) ltac:(lia) Hto)
      as (Etg & Htg).
    rewrite <- Etg.
    split; [field_one_hot Hval Hty (HanabiHistoryItem.player item) 1%nat|].
    split; [field_one_hot Hval Hty 3 2%nat|].
    split; [field_one_hot Hval Hty (hint_target game item) 3%nat|].
    split; [field_zero Hval Hty|].
    split; [field_one_hot Hval Hty
              (HanabiMove.Rank (HanabiHistoryItem.move item)) 5%nat|].
    split; [field_outcome Hval Hty item|].
    split; [field_zero Hval Hty|].
    split; [field_zero Hval Hty|].
    split; (apply Hval; [lia | intros HW; no_write Hty HW]).
Qed.

Lemma played_last_move_well_formed :
  last_move_well_formed standard_game played_observation.
Proof. unfold last_move_well_formed. cbn. lia. Qed.

Lemma EncodeLastAction_layout_witness :
  exists enc',
    EncodeLastAction_ standard_game played_observation 0 (repeat 0%Q 55)
    = Ok (enc', LastActionSectionLength standard_game) /\
    size enc' = size (repeat 0%Q 55) /\
    last_action_layout standard_game play_item 0 enc' /\
    (forall j, 0 <= j ->
       j < 0 \/ 0 + LastActionSectionLength standard_game <= j ->
       get enc' j = get (repeat 0%Q 55) j).
Proof.
  apply (EncodeLastAction_layout standard_game played_observation play_item 0
           (repeat 0%Q 55)).
  - exact standard_valid_game.
  - exact played_last_move_well_formed.
  - reflexivity.
  - lia.
  - vm_compute. discriminate.
  - intros i _. apply get_repeat. exact 0%Q.
Defined.

(** X15: [EncodeLastAction_] returns only if the last move other than a
    deal, when there is one, is a play, a discard or a hint (another type
    aborts) and, for a play or a discard, the card is known (its color and
    its rank are not negative); it then returns the section length. *)
Theorem EncodeLastAction_requires (game : HanabiGame.t)
  (obs : HanabiObservation.t) (start : Z) (enc enc' : vec) (n : Z)
  (item : HanabiHistoryItem.t) :
  0 <= HandSize game ->
  GetLastNonDealMove (LastMoves obs) = Some item ->
  EncodeLastAction_ game obs start enc = Ok (enc', n) ->
  n = LastActionSectionLength game /\
  (HanabiMove.is_reveal (HanabiMove.MoveType (HanabiHistoryItem.move item))
   || HanabiMove.is_play_or_discard
        (HanabiMove.MoveType (HanabiHistoryItem.move item)) = true) /\
  (HanabiMove.is_play_or_discard
     (HanabiMove.MoveType (HanabiHistoryItem.move item)) = true ->
   0 <= HanabiHistoryItem.color item /\ 0 <= HanabiHistoryItem.rank item).
Proof.
  intros HH Hlast H.
  destruct (EncodeLastAction_writes game obs start enc enc' n HH H)
    as (Hn & _).
  split; [exact Hn|].
  unfold EncodeLastAction_ in H. cbv zeta in H. rewrite Hlast in H.
  apply bind_Ok in H. destruct H as ((e & off) & Hmove & _).
  destruct (EncodeLastAction_move_writes game item start enc e off HH Hmove)
    as (_ & Hty & Hknown & _).
  split; [|exact Hknown].
  destruct (HanabiMove.MoveType (HanabiHistoryItem.move item));
    cbn in Hty |- *; (reflexivity || lia).
Qed.

Lemma EncodeLastAction_requires_witness :
  55 = LastActionSectionLength standard_game /\
  (HanabiMove.is_reveal
     (HanabiMove.MoveType (HanabiHistoryItem.move play_item))
   || HanabiMove.is_play_or_discard
        (HanabiMove.MoveType (HanabiHistoryItem.move play_item)) = true) /\
  (HanabiMove.is_play_or_discard
     (HanabiMove.MoveType (HanabiHistoryItem.move play_item)) = true ->
   0 <= HanabiHistoryItem.color play_item /\
   0 <= HanabiHistoryItem.rank play_item).
Proof.
  apply (EncodeLastAction_requires standard_game played_observation 0
           (repeat 0%Q 55) played_last_action 55 play_item).
  - vm_compute. discriminate.
  - reflexivity.
  - reflexivity.
Defined.

(** ** The full encoding, section by section *)

Lemma get_app (a b : vec) (j : Z) :
  0 <= j ->
  get (a ++ b) j = if j <? size a then get a j else get b (j - size a).
Proof.
  intros Hj. unfold get, size. destruct (Z.ltb_spec j (Z.of_nat (length a))).
  - apply app_nth1. lia.
  - rewrite app_nth2 by lia. f_equal. lia.
Qed.

Lemma size_app (a b : vec) : size (a ++ b) = size a + size b.
Proof. unfold size. rewrite length_app. lia. Qed.

Lemma size_zeros (n : Z) : 0 <= n -> size (zeros n) = n.
Proof. apply size_repeat. Qed.

Lemma get_zeros (n j : Z) : get (zeros n) j = 0%Q.
Proof. apply get_repeat. exact 0%Q. Qed.

(** Two runs that set the same entries, relative to the start of a
    section that was zero, leave the same section. *)
Lemma writes_section_agree (W1 W2 : Z -> Prop) (start len : Z)
  (enc1 enc1' enc2 enc2' : vec) :
  writes W1 enc1 enc1' -> writes W2 enc2 enc2' ->
  (forall j, 0 <= j < len -> W1 (start + j) <-> W2 j) ->
  (forall j, 0 <= j < len -> get enc1 (start + j) = 0%Q) ->
  (forall j, 0 <= j < len -> get enc2 j = 0%Q) ->
  0 <= start ->
  forall j, 0 <= j < len -> get enc1' (start + j) = get enc2' j.
Proof.
  intros Hw1 Hw2 HW Hz1 Hz2 Hstart j Hj.
  destruct (proj2 (proj2 Hw1) (start + j) ltac:(lia)) as [(Y1 & E1)|(N1 & E1)];
    destruct (proj2 (proj2 Hw2) j ltac:(lia)) as [(Y2 & E2)|(N2 & E2)].
  - congruence.
  - exfalso. apply N2. now apply HW.
  - exfalso. apply N1. now apply HW.
  - rewrite E1, E2, Hz1, Hz2 by assumption. reflexivity.
Qed.

(** *** Discards *)

Lemma EncodeDiscards_writes (game : HanabiGame.t)
  (obs : HanabiObservation.t) (start : Z) (enc : vec) :
  deck_complete game -> discards_from_deck game obs ->
  0 <= start -> start + DiscardSectionLength game <= size enc ->
  exists enc',
    EncodeDiscards game obs start enc
    = Ok (enc', DiscardSectionLength game) /\
    writes (discards_writes game obs start) enc enc'.
Proof.
  unfold DiscardSectionLength.
  intros Hdeck (Hpile & Hcount) Hstart Hroom.
  pose proof Hdeck as (HC & HR & Hinst & Htotal).
  assert (HN : 0 <= NumColors game * NumRanks game) by nia.
  destruct (count_discards game (DiscardPile obs)
              (repeat 0 (Z.to_nat (NumColors game * NumRanks game))) Hpile
              (size_repeat 0 _ HN)) as (dc & Hdc & Hsz & Hget).
  assert (Hdq : forall q, 0 <= q < NumColors game * NumRanks game ->
                  getz dc q
                  = discarded obs (q / NumRanks game) (q mod NumRanks game)).
  { intros q Hq. destruct (index_split _ _ _ Hq HR) as (Hc & Hr & E).
    rewrite E at 1. rewrite (Hget _ _ Hc Hr), getz_repeat_0.
    reflexivity. }
  assert (Hle : forall q, 0 <= q < NumColors game * NumRanks game ->
                  getz dc q <= field_width game q).
  { intros q Hq. destruct (index_split _ _ _ Hq HR) as (Hc & Hr & E).
    rewrite (Hdq q Hq). now apply Hcount. }
  destruct (EncodeDiscards_colors game dc start enc Hdeck Hsz Hle
              Hstart Hroom) as ((offset & enc') & Hrun & Hoff & Hw).
  cbn [fst snd] in Hoff, Hw. rewrite Htotal in Hoff.
  exists enc'. split.
  - unfold EncodeDiscards. rewrite new_vector_ok by assumption. cbn [bind].
    rewrite Hdc. cbn [bind]. rewrite Hrun. cbn [bind].
    unfold DiscardSectionLength. subst offset.
    replace (start + MaxDeckSize game - start) with (MaxDeckSize game) by lia.
    now rewrite Z.eqb_refl.
  - eapply writes_ext; [|exact Hw]. intros j. unfold discards_writes. split.
    + intros (q & Hq & Hj). exists q. split; [assumption|].
      pose proof (Hdq q Hq). lia.
    + intros (q & Hq & Hj). exists q. split; [assumption|].
      pose proof (Hdq q Hq). lia.
Qed.

Lemma discards_writes_range (game : HanabiGame.t)
  (obs : HanabiObservation.t) (start j : Z) :
  deck_complete game -> discards_from_deck game obs ->
  discards_writes game obs start j ->
  start <= j < start + DiscardSectionLength game.
Proof.
  intros Hdeck (_ & Hcount) (q & Hq & Hj).
  pose proof Hdeck as (HC & HR & Hinst & Htotal).
  destruct (index_split _ _ _ Hq HR) as (Hc & Hr & E).
  pose proof (Hcount _ _ Hc Hr) as Hdq. fold (field_width game q) in Hdq.
  assert (Hlo : 0 <= fields_before game q).
  { rewrite <- (fields_before_0 game).
    apply fields_before_mono; [assumption | lia | lia]. }
  assert (Hhi : fields_before game q + field_width game q
                <= MaxDeckSize game).
  { rewrite <- fields_before_succ, <- Htotal by lia.
    apply fields_before_mono; [assumption | lia | lia]. }
  unfold DiscardSectionLength. lia.
Qed.

Lemma discards_writes_shift (game : HanabiGame.t)
  (obs : HanabiObservation.t) (start j : Z) :
  discards_writes game obs start (start + j)
  <-> discards_writes game obs 0 j.
Proof.
  unfold discards_writes.
  split; intros (q & Hq & Hj); exists q; (split; [assumption | lia]).
Qed.

(** *** Card knowledge and belief *)

Lemma knowledge_writes_shift (game : HanabiGame.t) (kn : CardKnowledge.t)
  (b1 b2 o : Z) :
  knowledge_writes game kn b1 (b1 + o) -> knowledge_writes game kn b2 (b2 + o).
Proof.
  intros [(c & r & Hc & Hr & Hpl & E)|[(Hh & E)|(Hh & E)]].
  - left. exists c, r. repeat (split; [assumption|]). lia.
  - right; left. split; [assumption | lia].
  - right; right. split; [assumption | lia].
Qed.

Lemma slot_index_split (game : HanabiGame.t) (j : Z) :
  positive_dimensions game ->
  0 <= j < CardKnowledgeSectionLength game ->
  exists p k o,
    0 <= p < NumPlayers game /\ 0 <= k < HandSize game /\
    0 <= o < slot_width game /\ j = slot_base game 0 p k + o.
Proof.
  intros Hdim Hj. pose proof (slot_width_pos game Hdim) as Hsw.
  destruct Hdim as (HC & HR & HP & HH).
  rewrite CardKnowledgeSectionLength_slots in Hj.
  replace (NumPlayers game * (HandSize game * slot_width game))
    with (NumPlayers game * HandSize game * slot_width game) in Hj by ring.
  destruct (index_split _ _ _ Hj (Z.lt_le_incl _ _ Hsw)) as (Hs & Ho & Ej).
  destruct (index_split _ _ _ Hs (Z.lt_le_incl _ _ HH)) as (Hp & Hk & Es).
  exists (j / slot_width game / HandSize game),
    ((j / slot_width game) mod HandSize game), (j mod slot_width game).
  split; [assumption|]. split; [assumption|]. split; [assumption|].
  unfold slot_base. rewrite <- Es. lia.
Qed.

(** Outside the grids of the slots that hold a card, the belief section
    is the raw card-knowledge section. *)
Lemma belief_of_frame (game : HanabiGame.t) (obs : HanabiObservation.t)
  (start : Z) (cc : list Z) (raw out : vec) (p k o : Z) :
  positive_dimensions game -> hands_fit game obs -> 0 <= start ->
  belief_of game obs start cc raw out ->
  0 <= p < NumPlayers game -> 0 <= k < HandSize game ->
  0 <= o < slot_width game ->
  (occupied obs p k -> BitsPerCard game <= o) ->
  get out (slot_base game start p k + o)
  = get raw (slot_base game start p k + o).
Proof.
  intros Hdim Hfit Hstart Hbel Hp Hk Ho Hfree.
  pose proof (slot_base_ge game start p k Hdim (proj1 Hp) (proj1 Hk)) as Hge.
  assert (Hsw : BitsPerCard game <= slot_width game).
  { destruct Hdim as (HC & HR & _). unfold slot_width. lia. }
  apply (proj2 (proj2 Hbel)); [lia|].
  intros (p' & k' & Hocc & _ & Hj).
  pose proof (occupied_fits _ _ _ _ Hfit Hocc) as (Hp' & Hk').
  destruct (slot_offset_inj game start p k p' k' o
              (slot_base game start p k + o - slot_base game start p' k')
              Hk Hk' Ho) as (<- & <- & Eo); [lia | lia |].
  specialize (Hfree Hocc). lia.
Qed.

(** The belief section does not depend on where it is computed. *)
Lemma belief_sections_agree (game : HanabiGame.t)
  (obs : HanabiObservation.t) (cc : list Z)
  (s1 : Z) (enc1 raw1 out1 : vec) (s2 : Z) (enc2 raw2 out2 : vec) :
  positive_dimensions game -> hands_fit game obs ->
  knowledge_in_range game obs -> 0 <= s1 -> 0 <= s2 ->
  EncodeCardKnowledge game obs s1 enc1
  = Ok (raw1, CardKnowledgeSectionLength game) ->
  (forall j, s1 <= j < s1 + CardKnowledgeSectionLength game ->
             get enc1 j = 0%Q) ->
  belief_of game obs s1 cc raw1 out1 ->
  EncodeCardKnowledge game obs s2 enc2
  = Ok (raw2, CardKnowledgeSectionLength game) ->
  (forall j, s2 <= j < s2 + CardKnowledgeSectionLength game ->
             get enc2 j = 0%Q) ->
  belief_of game obs s2 cc raw2 out2 ->
  forall j, 0 <= j < CardKnowledgeSectionLength game ->
    get out1 (s1 + j) = get out2 (s2 + j).
Proof.
  intros Hdim Hfit Hkr Hs1 Hs2 Hck1 Hz1 Hb1 Hck2 Hz2 Hb2 j Hj.
  destruct (slot_index_split game j Hdim Hj) as (p & k & o & Hp & Hk & Ho & ->).
  replace (s1 + (slot_base game 0 p k + o))
    with (slot_base game s1 p k + o) by (unfold slot_base; lia).
  replace (s2 + (slot_base game 0 p k + o))
    with (slot_base game s2 p k + o) by (unfold slot_base; lia).
  assert (Hraw : get raw1 (slot_base game s1 p k + o)
                 = get raw2 (slot_base game s2 p k + o)).
  { destruct (EncodeCardKnowledge_raw_entry game obs s1 enc1 raw1 _ Hdim Hkr
                Hs1 Hck1 Hz1 p k o Hp Hk Ho)
      as [(E1 & kn1 & Hkn1 & Hw1)|(E1 & Hno1)];
      destruct (EncodeCardKnowledge_raw_entry game obs s2 enc2 raw2 _ Hdim
                  Hkr Hs2 Hck2 Hz2 p k o Hp Hk Ho)
        as [(E2 & kn2 & Hkn2 & Hw2)|(E2 & Hno2)]; try congruence.
    - exfalso. apply (Hno2 kn1 Hkn1).
      exact (knowledge_writes_shift game kn1 _ _ o Hw1).
    - exfalso. apply (Hno1 kn2 Hkn2).
      exact (knowledge_writes_shift game kn2 _ _ o Hw2). }
  destruct (Z_lt_le_dec o (BitsPerCard game)) as [Hgrid|Hhint].
  - destruct (occupied_dec obs p k) as [Hocc|Hfree].
    + destruct (belief_of_grid game obs s1 enc1 raw1 out1 _ cc p k Hdim Hfit
                  Hkr Hs1 Hck1 Hz1 Hb1 Hocc) as (_ & G1).
      destruct (belief_of_grid game obs s2 enc2 raw2 out2 _ cc p k Hdim Hfit
                  Hkr Hs2 Hck2 Hz2 Hb2 Hocc) as (_ & G2).
      rewrite G1, G2 by lia. reflexivity.
    + rewrite (belief_of_frame game obs s1 cc raw1 out1 p k o Hdim Hfit Hs1
                 Hb1 Hp Hk Ho) by (intros; contradiction).
      rewrite (belief_of_frame game obs s2 cc raw2 out2 p k o Hdim Hfit Hs2
                 Hb2 Hp Hk Ho) by (intros; contradiction).
      exact Hraw.
  - rewrite (belief_of_frame game obs s1 cc raw1 out1 p k o Hdim Hfit Hs1
               Hb1 Hp Hk Ho) by (intros; lia).
    rewrite (belief_of_frame game obs s2 cc raw2 out2 p k o Hdim Hfit Hs2
               Hb2 Hp Hk Ho) by (intros; lia).
    exact Hraw.
Qed.

(** Outside its section the belief encoder leaves the buffer as it was. *)
Lemma EncodeV0Belief_outside (game : HanabiGame.t)
  (obs : HanabiObservation.t) (start : Z) (enc raw out : vec) (cc : list Z)
  (j : Z) :
  positive_dimensions game -> size (Hands obs) = NumPlayers game ->
  hands_fit game obs -> knowledge_fits game obs ->
  knowledge_in_range game obs -> 0 <= start ->
  EncodeCardKnowledge game obs start enc
  = Ok (raw, CardKnowledgeSectionLength game) ->
  belief_of game obs start cc raw out ->
  0 <= j -> ~ (start <= j < start + CardKnowledgeSectionLength game) ->
  get out j = get enc j.
Proof.
  intros Hdim Hhands Hfit Hkfit Hkr Hstart Hck Hbel Hj Hout.
  destruct (EncodeCardKnowledge_inv _ _ _ _ _ _ Hdim Hck) as (_ & _ & _ & Hw).
  rewrite (proj2 (proj2 Hbel) j Hj).
  - apply (writes_out _ _ _ _ Hw Hj). intros HW. apply Hout.
    exact (card_knowledge_writes_range game obs start j Hdim Hhands Hkfit
             Hkr HW).
  - intros (p & k & Hocc & _ & Hin). apply Hout.
    pose proof (occupied_fits _ _ _ _ Hfit Hocc) as (Hp & Hk).
    destruct Hocc as (hand & _ & Hnth & _).
    pose proof (nth_error_size _ _ _ Hp Hnth) as Hp'. rewrite Hhands in Hp'.
    pose proof (slot_in_section game start p k Hdim Hstart
                  (conj Hp Hp') Hk) as (_ & Hhi).
    pose proof (slot_base_ge game start p k Hdim Hp (proj1 Hk)).
    assert (BitsPerCard game <= slot_width game)
      by (destruct Hdim as (? & ? & _); unfold slot_width; lia).
    lia.
Qed.

(** *** Each section, computed alone *)

Lemma EncodeHands_alone (game : HanabiGame.t) (obs : HanabiObservation.t)
  (show_own_cards : bool) (start : Z) (enc enc' : vec) :
  positive_dimensions game ->
  hands_well_formed game obs show_own_cards ->
  0 <= start -> 0 <= HandsSectionLength game ->
  (forall j, 0 <= j < HandsSectionLength game -> get enc (start + j) = 0%Q) ->
  EncodeHands game obs start enc show_own_cards
  = Ok (enc', HandsSectionLength game) ->
  exists hands,
    EncodeHands game obs 0 (zeros (HandsSectionLength game)) show_own_cards
    = Ok (hands, HandsSectionLength game) /\
    size hands = HandsSectionLength game /\
    forall j, 0 <= j < HandsSectionLength game ->
      get enc' (start + j) = get hands j.
Proof.
  intros Hdim Hwf Hstart Hlen Hzero Hrun.
  pose proof Hdim as (_ & _ & HP & _). pose proof Hwf as (_ & Hfit & _).
  destruct (EncodeHands_ok game obs 0 (zeros (HandsSectionLength game))
              show_own_cards Hdim Hwf)
    as (hands & Halone & T); [lia | rewrite size_zeros; lia |].
  exists hands. split; [exact Halone|].
  split; [rewrite (proj1 T); now apply size_zeros|].
  destruct (EncodeHands_writes _ _ _ _ _ _ _ (Z.lt_le_incl _ _ HP) Hfit Hrun)
    as (_ & _ & _ & W1).
  destruct (EncodeHands_writes _ _ _ _ _ _ _ (Z.lt_le_incl _ _ HP) Hfit
              Halone) as (_ & _ & _ & W2).
  apply (writes_section_agree _ _ _ _ _ _ _ _ W1 W2); try assumption.
  - intros j _. apply hands_writes_shift.
  - intros j _. apply get_zeros.
Qed.

Lemma EncodeBoard_alone (game : HanabiGame.t) (obs : HanabiObservation.t)
  (start : Z) (enc enc' : vec) :
  valid_game game -> board_well_formed game obs ->
  0 <= start -> 0 <= BoardSectionLength game ->
  (forall j, 0 <= j < BoardSectionLength game -> get enc (start + j) = 0%Q) ->
  EncodeBoard game obs start enc = Ok (enc', BoardSectionLength game) ->
  exists board,
    EncodeBoard game obs 0 (zeros (BoardSectionLength game))
    = Ok (board, BoardSectionLength game) /\
    size board = BoardSectionLength game /\
    forall j, 0 <= j < BoardSectionLength game ->
      get enc' (start + j) = get board j.
Proof.
  intros Hgame Hwf Hstart Hlen Hzero Hrun.
  pose proof Hgame as ((HC & _) & _).
  destruct (EncodeBoard_ok game obs 0 (zeros (BoardSectionLength game))
              Hgame Hwf)
    as (board & Halone & T); [lia | rewrite size_zeros; lia |].
  exists board. split; [exact Halone|].
  split; [rewrite (proj1 T); now apply size_zeros|].
  destruct (EncodeBoard_writes _ _ _ _ _ _ (Z.lt_le_incl _ _ HC) Hrun)
    as (_ & _ & _ & W1).
  destruct (EncodeBoard_writes _ _ _ _ _ _ (Z.lt_le_incl _ _ HC) Halone)
    as (_ & _ & _ & W2).
  apply (writes_section_agree _ _ _ _ _ _ _ _ W1 W2); try assumption.
  - intros j _. apply board_writes_shift.
  - intros j _. apply get_zeros.
Qed.

Lemma EncodeDiscards_alone (game : HanabiGame.t) (obs : HanabiObservation.t)
  (start : Z) (enc enc' : vec) :
  deck_complete game -> discards_from_deck game obs ->
  0 <= start -> 0 <= DiscardSectionLength game ->
  start + DiscardSectionLength game <= size enc ->
  (forall j, 0 <= j < DiscardSectionLength game ->
             get enc (start + j) = 0%Q) ->
  EncodeDiscards game obs start enc = Ok (enc', DiscardSectionLength game) ->
  exists discards,
    EncodeDiscards game obs 0 (zeros (DiscardSectionLength game))
    = Ok (discards, DiscardSectionLength game) /\
    size discards = DiscardSectionLength game /\
    forall j, 0 <= j < DiscardSectionLength game ->
      get enc' (start + j) = get discards j.
Proof.
  intros Hdeck Hwf Hstart Hlen Hroom Hzero Hrun.
  destruct (EncodeDiscards_writes game obs 0
              (zeros (DiscardSectionLength game)) Hdeck Hwf)
    as (discards & Halone & W2); [lia | rewrite size_zeros; lia |].
  destruct (EncodeDiscards_writes game obs start enc Hdeck Hwf Hstart Hroom)
    as (enc2 & Hrun2 & W1).
  assert (enc2 = enc') by congruence. subst enc2.
  exists discards. split; [exact Halone|].
  split; [rewrite (writes_size _ _ _ W2); now apply size_zeros|].
  apply (writes_section_agree _ _ _ _ _ _ _ _ W1 W2); try assumption.
  - intros j _. apply discards_writes_shift.
  - intros j _. apply get_zeros.
Qed.

Lemma EncodeLastAction_alone (game : HanabiGame.t)
  (obs : HanabiObservation.t) (start : Z) (enc enc' : vec) :
  valid_game game -> last_move_well_formed game obs ->
  0 <= start -> 0 <= LastActionSectionLength game ->
  (forall j, 0 <= j < LastActionSectionLength game ->
             get enc (start + j) = 0%Q) ->
  EncodeLastAction_ game obs start enc
  = Ok (enc', LastActionSectionLength game) ->
  exists last_action,
    EncodeLastAction game obs = Ok last_action /\
    size last_action = LastActionSectionLength game /\
    forall j, 0 <= j < LastActionSectionLength game ->
      get enc' (start + j) = get last_action j.
Proof.
  intros Hgame Hwf Hstart Hlen Hzero Hrun.
  pose proof Hgame as ((_ & _ & _ & HH) & _).
  destruct (EncodeLastAction_ok game obs 0
              (zeros (LastActionSectionLength game)) Hgame Hwf)
    as (last_action & Halone & T); [lia | rewrite size_zeros; lia |].
  assert (Hsize : size last_action = LastActionSectionLength game)
    by (rewrite (proj1 T); now apply size_zeros).
  exists last_action. split; [|split; [exact Hsize|]].
  - unfold EncodeLastAction. rewrite new_vector_ok by assumption. cbn [bind].
    fold (zeros (LastActionSectionLength game)). rewrite Halone. cbn [bind].
    rewrite (assert_true (_ =? _)) by lia. reflexivity.
  - destruct (EncodeLastAction_writes _ _ _ _ _ _ (Z.lt_le_incl _ _ HH) Hrun)
      as (_ & W1).
    destruct (EncodeLastAction_writes _ _ _ _ _ _ (Z.lt_le_incl _ _ HH)
                Halone) as (_ & W2).
    apply (writes_section_agree _ _ _ _ _ _ _ _ W1 W2); try assumption.
    + intros j _. apply last_action_writes_shift.
    + intros j _. apply get_zeros.
Qed.

Lemma EncodeV0Belief_alone (game : HanabiGame.t) (obs : HanabiObservation.t)
  (start : Z) (enc : vec) :
  positive_dimensions game -> size (Hands obs) = NumPlayers game ->
  hands_fit game obs -> belief_well_formed game obs ->
  0 <= start -> start + CardKnowledgeSectionLength game <= size enc ->
  (forall j, start <= j < start + CardKnowledgeSectionLength game ->
             get enc j = 0%Q) ->
  exists cc out belief,
    EncodeV0Belief_ game obs start enc
    = Ok (out, CardKnowledgeSectionLength game, cc) /\
    EncodeV0Belief_ game obs 0 (zeros (CardKnowledgeSectionLength game))
    = Ok (belief, CardKnowledgeSectionLength game, cc) /\
    size out = size enc /\
    size belief = CardKnowledgeSectionLength game /\
    (forall j, 0 <= j < CardKnowledgeSectionLength game ->
               get out (start + j) = get belief j) /\
    (forall j, 0 <= j ->
               ~ (start <= j < start + CardKnowledgeSectionLength game) ->
               get out j = get enc j).
Proof.
  intros Hdim Hhands Hfit Hwf Hstart Hroom Hzero.
  pose proof (CardKnowledgeSectionLength_nonneg game Hdim) as HK.
  destruct (EncodeV0Belief_section game obs start enc Hdim Hhands Hfit Hwf
              Hstart Hroom Hzero)
    as (cc & raw & out & Hcc & Hck & Hv0 & Hbel & Sout).
  destruct (EncodeV0Belief_section game obs 0
              (zeros (CardKnowledgeSectionLength game)) Hdim Hhands Hfit Hwf)
    as (cc' & raw' & belief & Hcc' & Hck' & Hv0' & Hbel' & Sbel);
    [lia | rewrite size_zeros; lia | intros; apply get_zeros |].
  assert (cc' = cc) by congruence. subst cc'.
  destruct Hwf as (Hkfit & Hkr & _).
  exists cc, out, belief.
  split; [exact Hv0|]. split; [exact Hv0'|]. split; [exact Sout|].
  split; [rewrite Sbel; now apply size_zeros|]. split.
  - intros j Hj.
    rewrite (belief_sections_agree game obs cc start enc raw out 0
               (zeros (CardKnowledgeSectionLength game)) raw' belief
               Hdim Hfit Hkr Hstart (Z.le_refl 0) Hck Hzero Hbel Hck'
               ltac:(intros; apply get_zeros) Hbel' j Hj).
    reflexivity.
  - intros j Hj Hout.
    exact (EncodeV0Belief_outside game obs start enc raw out cc j Hdim
             Hhands Hfit Hkfit Hkr Hstart Hck Hbel Hj Hout).
Qed.

(** X16: for a valid game and a well-formed observation, the vector that
    [Encode] returns is the concatenation of its sections, each computed
    alone at offset 0 on a zero vector of its own length: the hands, the
    board, the discards, the vector that the accessor [EncodeLastAction]
    returns and, unless the observation type is minimal, the vector that
    [EncodeV0Belief_] leaves (with a minimal type the last part is
    empty).  No section depends on the ones written before it. *)
Theorem Encode_is_concatenation (game : HanabiGame.t)
  (obs : HanabiObservation.t) (show_own_cards : bool) :
  valid_game game -> well_formed game obs show_own_cards ->
  exists hands board discards last_action belief,
    EncodeHands game obs 0 (zeros (HandsSectionLength game)) show_own_cards
    = Ok (hands, HandsSectionLength game) /\
    EncodeBoard game obs 0 (zeros (BoardSectionLength game))
    = Ok (board, BoardSectionLength game) /\
    EncodeDiscards game obs 0 (zeros (DiscardSectionLength game))
    = Ok (discards, DiscardSectionLength game) /\
    EncodeLastAction game obs = Ok last_action /\
    (if is_minimal (ObservationType game) then belief = []
     else exists cc,
       EncodeV0Belief_ game obs 0 (zeros (CardKnowledgeSectionLength game))
       = Ok (belief, CardKnowledgeSectionLength game, cc)) /\
    Encode game obs show_own_cards
    = Ok (hands ++ board ++ discards ++ last_action ++ belief).
Proof.
  intros Hgame (Hhands & Hboard & Hdisc & Hmove & Hbelief).
  pose proof (section_lengths_nonneg game Hgame)
    as (HH & HB & HD & HL & HK).
  pose proof Hgame as (Hdim & Hdeck & _).
  pose proof (FlatLength_Shape game) as Hflat.
  unfold belief_start in Hflat.
  assert (Hlen : 0 <= FlatLength (Shape game))
    by (rewrite Hflat; destruct (is_minimal _); lia).
  assert (Hsz : size (zeros (FlatLength (Shape game)))
                = FlatLength (Shape game)) by now apply size_zeros.
  assert (Hroom : HandsSectionLength game + BoardSectionLength game
                  + DiscardSectionLength game + LastActionSectionLength game
                  <= size (zeros (FlatLength (Shape game))))
    by (rewrite Hsz, Hflat; destruct (is_minimal _); lia).
  destruct (EncodeHands_ok game obs 0 (zeros (FlatLength (Shape game)))
              show_own_cards Hdim Hhands)
    as (e1 & E1 & T1); [lia | lia |].
  pose proof (proj1 T1) as S1.
  destruct (EncodeBoard_ok game obs (0 + HandsSectionLength game) e1
              Hgame Hboard) as (e2 & E2 & T2); [lia | lia |].
  pose proof (proj1 T2) as S2.
  destruct (EncodeDiscards_ok game obs
              (0 + HandsSectionLength game + BoardSectionLength game) e2
              Hdeck Hdisc) as (e3 & E3 & T3); [lia | lia |].
  pose proof (proj1 T3) as S3.
  destruct (EncodeLastAction_ok game obs
              (0 + HandsSectionLength game + BoardSectionLength game
               + DiscardSectionLength game) e3 Hgame Hmove)
    as (e4 & E4 & T4); [lia | lia |].
  pose proof (proj1 T4) as S4.
  (* each section is still zero when its encoder starts *)
  assert (Z1 : forall j, 0 <= j < BoardSectionLength game ->
                 get e1 (0 + HandsSectionLength game + j) = 0%Q).
  { intros j Hj. rewrite (touched_outside _ _ _ _ _ T1) by lia.
    apply get_zeros. }
  assert (Z2 : forall j, 0 <= j < DiscardSectionLength game ->
                 get e2 (0 + HandsSectionLength game
                         + BoardSectionLength game + j) = 0%Q).
  { intros j Hj. rewrite (touched_outside _ _ _ _ _ T2) by lia.
    rewrite (touched_outside _ _ _ _ _ T1) by lia. apply get_zeros. }
  assert (Z3 : forall j, 0 <= j < LastActionSectionLength game ->
                 get e3 (0 + HandsSectionLength game
                         + BoardSectionLength game
                         + DiscardSectionLength game + j) = 0%Q).
  { intros j Hj. rewrite (touched_outside _ _ _ _ _ T3) by lia.
    rewrite (touched_outside _ _ _ _ _ T2) by lia.
    rewrite (touched_outside _ _ _ _ _ T1) by lia. apply get_zeros. }
  assert (Z4 : forall j, HandsSectionLength game + BoardSectionLength game
                         + DiscardSectionLength game
                         + LastActionSectionLength game <= j ->
                 get e4 j = 0%Q).
  { intros j Hj. rewrite (touched_outside _ _ _ _ _ T4) by lia.
    rewrite (touched_outside _ _ _ _ _ T3) by lia.
    rewrite (touched_outside _ _ _ _ _ T2) by lia.
    rewrite (touched_outside _ _ _ _ _ T1) by lia. apply get_zeros. }
  (* each section alone *)
  destruct (EncodeHands_alone game obs show_own_cards 0
              (zeros (FlatLength (Shape game))) e1 Hdim Hhands
              (Z.le_refl 0) HH ltac:(intros; apply get_zeros) E1)
    as (hands & Ahands & Shands & Ghands).
  destruct (EncodeBoard_alone game obs (0 + HandsSectionLength game) e1 e2
              Hgame Hboard ltac:(lia) HB Z1 E2)
    as (board & Aboard & Sboard & Gboard).
  destruct (EncodeDiscards_alone game obs
              (0 + HandsSectionLength game + BoardSectionLength game) e2 e3
              Hdeck Hdisc ltac:(lia) HD ltac:(lia) Z2 E3)
    as (discards & Adisc & Sdisc & Gdisc).
  destruct (EncodeLastAction_alone game obs
              (0 + HandsSectionLength game + BoardSectionLength game
               + DiscardSectionLength game) e3 e4
              Hgame Hmove ltac:(lia) HL Z3 E4)
    as (last_action & Alast & Slast & Glast).
  (* the four sections in the buffer after the fourth encoder *)
  assert (F1 : forall j, 0 <= j < HandsSectionLength game ->
                 get e4 j = get hands j).
  { intros j Hj. rewrite (touched_outside _ _ _ _ _ T4) by lia.
    rewrite (touched_outside _ _ _ _ _ T3) by lia.
    rewrite (touched_outside _ _ _ _ _ T2) by lia.
    now apply (Ghands j). }
  assert (F2 : forall j, 0 <= j < BoardSectionLength game ->
                 get e4 (HandsSectionLength game + j) = get board j).
  { intros j Hj. rewrite (touched_outside _ _ _ _ _ T4) by lia.
    rewrite (touched_outside _ _ _ _ _ T3) by lia.
    now apply (Gboard j). }
  assert (F3 : forall j, 0 <= j < DiscardSectionLength game ->
                 get e4 (HandsSectionLength game + BoardSectionLength game
                         + j) = get discards j).
  { intros j Hj. rewrite (touched_outside _ _ _ _ _ T4) by lia.
    now apply (Gdisc j). }
  assert (F4 : forall j, 0 <= j < LastActionSectionLength game ->
                 get e4 (HandsSectionLength game + BoardSectionLength game
                         + DiscardSectionLength game + j)
                 = get last_action j).
  { intros j Hj. now apply (Glast j). }
  assert (Hcat : forall (out belief : vec),
            size out = FlatLength (Shape game) ->
            size belief = (if is_minimal (ObservationType game) then 0
                           else CardKnowledgeSectionLength game) ->
            (forall j, 0 <= j < HandsSectionLength game
                               + BoardSectionLength game
                               + DiscardSectionLength game
                               + LastActionSectionLength game ->
                       get out j = get e4 j) ->
            (forall j, 0 <= j < size belief ->
                       get out (HandsSectionLength game
                                + BoardSectionLength game
                                + DiscardSectionLength game
                                + LastActionSectionLength game + j)
                       = get belief j) ->
            out = hands ++ board ++ discards ++ last_action ++ belief).
  { intros out belief Sout Sbel Glow Gbel. apply vec_ext.
    - rewrite !size_app, Sout, Hflat, Shands, Sboard, Sdisc, Slast, Sbel.
      lia.
    - intros j Hj. rewrite Sout, Hflat, <- Sbel in Hj.
      rewrite get_app by lia. rewrite Shands.
      destruct (Z.ltb_spec j (HandsSectionLength game)) as [H1|H1];
        [rewrite Glow by lia; apply F1; lia|].
      rewrite get_app by lia. rewrite Sboard.
      destruct (Z.ltb_spec (j - HandsSectionLength game)
                  (BoardSectionLength game)) as [H2|H2].
      { rewrite Glow by lia. rewrite <- F2 by lia. f_equal. lia. }
      rewrite get_app by lia. rewrite Sdisc.
      destruct (Z.ltb_spec (j - HandsSectionLength game
                            - BoardSectionLength game)
                  (DiscardSectionLength game)) as [H3|H3].
      { rewrite Glow by lia. rewrite <- F3 by lia. f_equal. lia. }
      rewrite get_app by lia. rewrite Slast.
      destruct (Z.ltb_spec (j - HandsSectionLength game
                            - BoardSectionLength game
                            - DiscardSectionLength game)
                  (LastActionSectionLength game)) as [H4|H4].
      { rewrite Glow by lia. rewrite <- F4 by lia. f_equal. lia. }
      rewrite <- Gbel by lia. f_equal. lia. }
  exists hands, board, discards, last_action.
  assert (Erun : Encode_sections game obs show_own_cards
                   (zeros (FlatLength (Shape game)))
                 = Ok (e4, belief_start game)).
  { unfold Encode_sections. cbv zeta.
    rewrite E1. cbn [bind]. rewrite E2. cbn [bind].
    rewrite E3. cbn [bind]. rewrite E4. cbn [bind]. reflexivity. }
  unfold Encode. rewrite new_vector_ok by assumption. cbn [bind].
  fold (zeros (FlatLength (Shape game))). rewrite Erun. cbn [bind].
  unfold belief_start.
  destruct (is_minimal (ObservationType game)) eqn:Hmin; cbn [negb bind].
  - exists []. repeat (split; [assumption || reflexivity|]).
    rewrite (assert_true (_ =? _)) by lia. cbn [bind]. f_equal.
    apply Hcat; [lia | reflexivity | reflexivity |].
    intros j Hj. cbn in Hj. lia.
  - destruct Hhands as (Hn & Hfit & _).
    pose proof (Hbelief eq_refl) as Hbwf.
    destruct (EncodeV0Belief_alone game obs
                (HandsSectionLength game + BoardSectionLength game
                 + DiscardSectionLength game + LastActionSectionLength game)
                e4 Hdim Hn Hfit Hbwf ltac:(lia) ltac:(lia)
                ltac:(intros; apply Z4; lia))
      as (cc & out & belief & Hv0 & Abel & Sout & Sbel & Gbel & Gout).
    exists belief. repeat (split; [assumption|]).
    split; [exists cc; exact Abel|].
    rewrite Hv0. cbn [bind].
    rewrite (assert_true (_ =? _)) by lia. cbn [bind]. f_equal.
    apply Hcat; [lia | exact Sbel | |].
    + intros j Hj. apply Gout; lia.
    + intros j Hj. apply Gbel. lia.
Qed.

Lemma Encode_is_concatenation_witness :
  exists hands board discards last_action belief,
    EncodeHands standard_game hinted_observation 0
      (zeros (HandsSectionLength standard_game)) false
    = Ok (hands, HandsSectionLength standard_game) /\
    EncodeBoard standard_game hinted_observation 0
      (zeros (BoardSectionLength standard_game))
    = Ok (board, BoardSectionLength standard_game) /\
    EncodeDiscards standard_game hinted_observation 0
      (zeros (DiscardSectionLength standard_game))
    = Ok (discards, DiscardSectionLength standard_game) /\
    EncodeLastAction standard_game hinted_observation = Ok last_action /\
    (if is_minimal (ObservationType standard_game) then belief = []
     else exists cc,
       EncodeV0Belief_ standard_game hinted_observation 0
         (zeros (CardKnowledgeSectionLength standard_game))
       = Ok (belief, CardKnowledgeSectionLength standard_game, cc)) /\
    Encode standard_game hinted_observation false
    = Ok (hands ++ board ++ discards ++ last_action ++ belief).
Proof.
  apply (Encode_is_concatenation standard_game hinted_observation false).
  - exact standard_valid_game.
  - exact hinted_well_formed.
Defined.

(** ** The V1 belief, for any number of iterations and any weight *)

(** *** The loops of one slot *)

Lemma EncodeV1Belief_blend_inv (weight : Q) (new v : vec) (base bits : Z)
  (total : Q) (v' : vec) :
  0 <= bits -> 0 <= base ->
  for_range bits (EncodeV1Belief_blend weight new base) (0%Q, v)
  = Ok (total, v') ->
  size v' = size v /\
  total = qsum (fun i => blended weight v new (base + i)) bits /\
  (forall i, 0 <= i < bits ->
     get v' (base + i) = blended weight v new (base + i)) /\
  (forall j, 0 <= j -> ~ (base <= j < base + bits) -> get v' j = get v j).
Proof.
  intros Hbits Hbase Hrun.
  apply (for_range_inv
           (fun m st =>
              size (snd st) = size v /\
              fst st = qsum (fun i => blended weight v new (base + i)) m /\
              (forall i, 0 <= i < m ->
                 get (snd st) (base + i) = blended weight v new (base + i)) /\
              (forall j, 0 <= j -> ~ (base <= j < base + m) ->
                 get (snd st) j = get v j))
           _ _ _ _ Hbits Hrun).
  - cbn [fst snd]. repeat split; intros; lia.
  - intros m (t & e) st' Hm (Hs & Ht & Hin & Hout) Hbody.
    cbn [fst snd] in *. unfold EncodeV1Belief_blend in Hbody.
    apply bind_Ok in Hbody. destruct Hbody as (x & Hx & Hbody).
    apply bind_Ok in Hbody. destruct Hbody as (n & Hn & Hbody).
    apply bind_Ok in Hbody. destruct Hbody as (e' & He & Hbody).
    injection Hbody as <-. cbn [fst snd].
    pose proof (proj1 (load_inv _ _ _ Hx)) as Hidx.
    apply load_get in Hx, Hn.
    rewrite (Hout (m + base)) in Hx by lia. subst x n.
    rewrite (Z.add_comm m base) in *.
    split; [rewrite (store_size _ _ _ _ He); exact Hs|].
    split; [rewrite qsum_succ by lia; rewrite Ht; reflexivity|]. split.
    + intros i Hi. rewrite (get_store _ _ _ _ _ He) by lia.
      destruct (Z.eqb_spec (base + i) (base + m)) as [E|E].
      * replace i with m by lia. reflexivity.
      * apply Hin. lia.
    + intros j Hj Hnot. rewrite (get_store _ _ _ _ _ He) by lia.
      replace (j =? base + m) with false by lia. apply Hout; [assumption|lia].
Qed.

Lemma EncodeV1Belief_divide_inv (total : Q) (base bits : Z) (v v' : vec) :
  0 <= bits -> 0 <= base ->
  for_range bits (EncodeV1Belief_divide total base) v = Ok v' ->
  size v' = size v /\
  (forall i, 0 <= i < bits ->
     get v' (base + i) = (get v (base + i) / total)%Q) /\
  (forall j, 0 <= j -> ~ (base <= j < base + bits) -> get v' j = get v j).
Proof.
  intros Hbits Hbase Hrun.
  apply (for_range_inv
           (fun m e =>
              size e = size v /\
              (forall i, 0 <= i < m ->
                 get e (base + i) = (get v (base + i) / total)%Q) /\
              (forall j, 0 <= j -> ~ (base <= j < base + m) ->
                 get e j = get v j))
           _ _ _ _ Hbits Hrun).
  - repeat split; intros; lia.
  - intros m e e' Hm (Hs & Hin & Hout) Hbody.
    unfold EncodeV1Belief_divide in Hbody.
    apply bind_Ok in Hbody. destruct Hbody as (x & Hx & He).
    pose proof (proj1 (load_inv _ _ _ Hx)) as Hidx.
    apply load_get in Hx. rewrite (Hout (m + base)) in Hx by lia. subst x.
    rewrite (Z.add_comm m base) in *.
    split; [rewrite (store_size _ _ _ _ He); exact Hs|]. split.
    + intros i Hi. rewrite (get_store _ _ _ _ _ He) by lia.
      destruct (Z.eqb_spec (base + i) (base + m)) as [E|E].
      * replace i with m by lia. reflexivity.
      * apply Hin. lia.
    + intros j Hj Hnot. rewrite (get_store _ _ _ _ _ He) by lia.
      replace (j =? base + m) with false by lia. apply Hout; [assumption|lia].
Qed.

(** A slot that is interpolated and normalized. *)
Lemma EncodeV1Belief_slot_inv (bits : Z) (weight : Q) (new : vec) (base : Z)
  (v v' : vec) :
  0 <= bits -> 0 <= base ->
  EncodeV1Belief_slot bits weight new base v = Ok v' ->
  size v' = size v /\
  (forall j, 0 <= j -> ~ (base <= j < base + bits) -> get v' j = get v j) /\
  normalized_blend bits weight new base v v'.
Proof.
  intros Hbits Hbase H. unfold EncodeV1Belief_slot in H.
  apply bind_Ok in H. destruct H as ((total & e1) & H1 & H).
  apply bind_Ok in H. destruct H as (u & Ha & H2).
  apply assert_inv, Qpositive_spec in Ha.
  destruct (EncodeV1Belief_blend_inv _ _ _ _ _ _ _ Hbits Hbase H1)
    as (S1 & Ht & Hin1 & Hout1).
  destruct (EncodeV1Belief_divide_inv _ _ _ _ _ Hbits Hbase H2)
    as (S2 & Hin2 & Hout2).
  split; [congruence|]. split.
  - intros j Hj Hnot. rewrite Hout2, Hout1 by assumption. reflexivity.
  - split; [rewrite <- Ht; exact Ha|].
    intros i Hi. rewrite Hin2, Hin1, Ht by assumption. reflexivity.
Qed.

(** The candidate belief of a slot. *)
Lemma EncodeV1Belief_candidate_inv (card_knowledge total_cards v1 : vec)
  (base bits : Z) (new new' : vec) :
  0 <= bits -> 0 <= base ->
  for_range bits
    (EncodeV1Belief_candidate card_knowledge total_cards v1 base) new
  = Ok new' ->
  size new' = size new /\
  (forall j, 0 <= j -> ~ (base <= j < base + bits) -> get new' j = get new j) /\
  candidate_of bits card_knowledge total_cards v1 base new new'.
Proof.
  intros Hbits Hbase Hrun.
  apply (for_range_inv
           (fun m e =>
              size e = size new /\
              (forall j, 0 <= j -> ~ (base <= j < base + m) ->
                 get e j = get new j) /\
              candidate_of m card_knowledge total_cards v1 base new e)
           _ _ _ _ Hbits Hrun).
  - split; [reflexivity|]. split; [reflexivity|]. intros i Hi. lia.
  - intros m e e' Hm (Hs & Hout & Hin) Hbody.
    unfold EncodeV1Belief_candidate in Hbody. cbv zeta in Hbody.
    apply bind_Ok in Hbody. destruct Hbody as (u & _ & Hbody).
    apply bind_Ok in Hbody. destruct Hbody as (t & Ht & Hbody).
    apply bind_Ok in Hbody. destruct Hbody as (x & Hx & Hbody).
    apply bind_Ok in Hbody. destruct Hbody as (k & Hk & He).
    pose proof (proj1 (load_inv _ _ _ Hx)) as Hidx.
    apply load_get in Ht, Hx, Hk. subst t x k.
    split; [rewrite (store_size _ _ _ _ He); exact Hs|]. split.
    + intros j Hj Hnot. rewrite (get_store _ _ _ _ _ He) by lia.
      replace (j =? base + m) with false by lia. apply Hout; [assumption|lia].
    + intros i Hi. rewrite (get_store _ _ _ _ _ He) by lia.
      destruct (Z.eqb_spec (base + i) (base + m)) as [E|E].
      * replace i with m by lia. reflexivity.
      * apply Hin. lia.
Qed.

(** *** A loop over the occupied slots *)

Lemma slots_done_ext (game : HanabiGame.t) (obs : HanabiObservation.t)
  (Rel : Z -> vec -> vec -> Prop) (v0 : vec) (D D' : Z -> Z -> Prop)
  (v : vec) :
  (forall p k, occupied obs p k -> (D p k <-> D' p k)) ->
  slots_done game obs Rel v0 D v -> slots_done game obs Rel v0 D' v.
Proof.
  intros E (Hs & Hrel & Hout). split; [assumption|]. split.
  - intros p k Hocc HD. apply Hrel; [assumption|]. now apply E.
  - intros j Hj Hnot. apply Hout; [assumption|].
    intros (p & k & Hocc & HD & Hin). apply Hnot.
    exists p, k. split; [assumption|]. split; [now apply E | assumption].
Qed.

Lemma slots_done_step (game : HanabiGame.t) (obs : HanabiObservation.t)
  (Rel : Z -> vec -> vec -> Prop) (v0 : vec) (D : Z -> Z -> Prop)
  (t t' : vec) (p k : Z) :
  positive_dimensions game -> hands_fit game obs ->
  (forall base v v1 u u1,
     (forall i, 0 <= i < BitsPerCard game ->
                get v (base + i) = get u (base + i)) ->
     (forall i, 0 <= i < BitsPerCard game ->
                get v1 (base + i) = get u1 (base + i)) ->
     Rel base v v1 -> Rel base u u1) ->
  slots_done game obs Rel v0 D t ->
  occupied obs p k -> ~ D p k ->
  size t' = size t ->
  (forall j, 0 <= j ->
     ~ (slot_base game 0 p k <= j
        < slot_base game 0 p k + BitsPerCard game) ->
     get t' j = get t j) ->
  Rel (slot_base game 0 p k) t t' ->
  slots_done game obs Rel v0 (fun p' k' => D p' k' \/ (p' = p /\ k' = k)) t'.
Proof.
  intros Hdim Hfit Hext (Hs & Hrel & Hout) Hocc HnD Hs' Hout' Hrel'.
  pose proof (occupied_fits _ _ _ _ Hfit Hocc) as (Hp & Hk).
  pose proof (slot_base_ge game 0 p k Hdim Hp (proj1 Hk)) as Hge.
  split; [congruence|]. split.
  - intros p' k' Hocc' [HD|(-> & ->)].
    + pose proof (occupied_fits _ _ _ _ Hfit Hocc') as (Hp' & Hk').
      pose proof (slot_base_ge game 0 p' k' Hdim Hp' (proj1 Hk')) as Hge'.
      apply (Hext _ v0 t v0 t'); [reflexivity | | now apply Hrel].
      intros i Hi. symmetry. apply Hout'; [lia|]. intros Hin.
      destruct (slot_grids_disjoint game 0 p k p' k'
                  (slot_base game 0 p' k' + i - slot_base game 0 p k) i
                  Hdim Hk Hk') as (-> & ->); [lia | lia | lia |].
      contradiction.
    + apply (Hext _ t t' v0 t'); [|reflexivity|assumption].
      intros i Hi. apply Hout; [lia|].
      intros (q & l & Hocc2 & HD & Hin).
      pose proof (occupied_fits _ _ _ _ Hfit Hocc2) as (Hq & Hl).
      destruct (slot_grids_disjoint game 0 p k q l i
                  (slot_base game 0 p k + i - slot_base game 0 q l)
                  Hdim Hk Hl) as (-> & ->); [lia | lia | lia |].
      contradiction.
  - intros j Hj Hnot. rewrite Hout'.
    + apply Hout; [assumption|].
      intros (p' & k' & Hocc' & HD & Hin). apply Hnot.
      exists p', k'. split; [assumption|]. split; [now left | assumption].
    + assumption.
    + intros Hin. apply Hnot. exists p, k.
      split; [assumption|]. split; [now right | assumption].
Qed.

(** The loops over the players and their cards, with any body [F] that
    works on the grid of its slot only. *)
Lemma slot_loops_inv (game : HanabiGame.t) (obs : HanabiObservation.t)
  (F : Z -> vec -> result vec) (Rel : Z -> vec -> vec -> Prop)
  (v0 v' : vec) :
  positive_dimensions game -> hands_fit game obs ->
  size (Hands obs) = NumPlayers game ->
  (forall base v v1, 0 <= base -> F base v = Ok v1 ->
     size v1 = size v /\
     (forall j, 0 <= j -> ~ (base <= j < base + BitsPerCard game) ->
        get v1 j = get v j) /\
     Rel base v v1) ->
  (forall base v v1 u u1,
     (forall i, 0 <= i < BitsPerCard game ->
                get v (base + i) = get u (base + i)) ->
     (forall i, 0 <= i < BitsPerCard game ->
                get v1 (base + i) = get u1 (base + i)) ->
     Rel base v v1 -> Rel base u u1) ->
  for_range (NumPlayers game)
    (fun v p =>
       hand <- load (Hands obs) p ;;
       for_range (size (HanabiHand.Cards hand))
         (fun v k =>
            F (HandSize game * slot_width game * p + k * slot_width game) v)
         v)
    v0 = Ok v' ->
  slots_done game obs Rel v0 (fun _ _ => True) v'.
Proof.
  intros Hdim Hfit Hhands HF Hext Hrun.
  assert (HP : 0 <= NumPlayers game) by (destruct Hdim as (_ & _ & ? & _); lia).
  apply (slots_done_ext game obs Rel v0 (fun p' _ => p' < NumPlayers game)).
  { intros p k Hocc. split; [trivial|]. intros _.
    now destruct (occupied_in_game game obs p k Hhands Hfit Hocc). }
  apply (for_range_inv
           (fun p v => slots_done game obs Rel v0 (fun p' _ => p' < p) v)
           _ _ _ _ HP Hrun).
  - split; [reflexivity|]. split.
    + intros p k Hocc Hlt. destruct Hocc as (hand & Hp & _). lia.
    + intros j Hj _. reflexivity.
  - intros p t t' Hp Ht Hbody.
    apply bind_Ok in Hbody. destruct Hbody as (hand & Hhand & Hbody).
    apply load_inv in Hhand. destruct Hhand as (_ & Hnth).
    assert (Hn : 0 <= size (HanabiHand.Cards hand)) by (unfold size; lia).
    apply (slots_done_ext game obs Rel v0
             (fun p' k' => p' < p \/
                           (p' = p /\ k' < size (HanabiHand.Cards hand)))).
    { intros p' k' (hand' & Hp' & Hnth' & Hk'). split.
      - intros [H|(-> & _)]; lia.
      - intros Hlt. destruct (Z.eq_dec p' p) as [->|Hne]; [right|left; lia].
        split; [reflexivity|]. assert (hand' = hand) by congruence.
        subst hand'. lia. }
    apply (for_range_inv
             (fun k v => slots_done game obs Rel v0
                           (fun p' k' => p' < p \/ (p' = p /\ k' < k)) v)
             _ _ _ _ Hn Hbody).
    + apply (slots_done_ext game obs Rel v0 (fun p' _ => p' < p));
        [|assumption].
      intros p' k' (hand' & _ & _ & Hk'). split; [now left|].
      intros [H|(_ & H)]; [assumption | lia].
    + intros k u u' Hk Hu Hslot.
      replace (HandSize game * slot_width game * p + k * slot_width game)
        with (slot_base game 0 p k) in Hslot by (unfold slot_base; lia).
      assert (Hocc : occupied obs p k)
        by (exists hand; repeat split; try assumption; lia).
      pose proof (occupied_fits _ _ _ _ Hfit Hocc) as (_ & HkH).
      pose proof (slot_base_ge game 0 p k Hdim (proj1 Hp) (proj1 Hk)) as Hge.
      destruct (HF _ _ _ Hge Hslot) as (Hs' & Hout' & Hrel').
      apply (slots_done_ext game obs Rel v0
               (fun p' k' => (p' < p \/ (p' = p /\ k' < k))
                             \/ (p' = p /\ k' = k))).
      { intros p' k' _. lia. }
      apply (slots_done_step game obs Rel v0 _ u u' p k Hdim Hfit Hext Hu
               Hocc); [lia | assumption | assumption | assumption].
Qed.

(** *** One refinement step *)

Lemma candidate_of_ext (bits : Z) (card_knowledge total_cards v1 : vec)
  (base : Z) (v w u x : vec) :
  (forall i, 0 <= i < bits -> get v (base + i) = get u (base + i)) ->
  (forall i, 0 <= i < bits -> get w (base + i) = get x (base + i)) ->
  candidate_of bits card_knowledge total_cards v1 base v w ->
  candidate_of bits card_knowledge total_cards v1 base u x.
Proof. intros _ E H i Hi. rewrite <- E by assumption. now apply H. Qed.

Lemma normalized_blend_ext (bits : Z) (weight : Q) (new : vec) (base : Z)
  (v w u x : vec) :
  (forall i, 0 <= i < bits -> get v (base + i) = get u (base + i)) ->
  (forall i, 0 <= i < bits -> get w (base + i) = get x (base + i)) ->
  normalized_blend bits weight new base v w ->
  normalized_blend bits weight new base u x.
Proof.
  intros E1 E2 (Hpos & Hin).
  assert (Et : qsum (fun i => blended weight v new (base + i)) bits
               = qsum (fun i => blended weight u new (base + i)) bits).
  { apply qsum_ext. intros i Hi. unfold blended. now rewrite E1. }
  split; [rewrite <- Et; exact Hpos|].
  intros i Hi. rewrite <- E2, <- Et, Hin by assumption.
  unfold blended. now rewrite E1.
Qed.

(** One step computes a candidate for every occupied slot, then
    interpolates and normalizes every occupied slot. *)
Lemma EncodeV1Belief_step_inv (game : HanabiGame.t)
  (obs : HanabiObservation.t) (weight : Q) (card_knowledge : vec)
  (cc : list Z) (tc new v1 : vec) (step : Z) (tc' new' v1' : vec) :
  positive_dimensions game -> hands_fit game obs ->
  size (Hands obs) = NumPlayers game ->
  EncodeV1Belief_step game obs weight card_knowledge cc
    (HandSize game * slot_width game) (slot_width game) (tc, new, v1) step
  = Ok (tc', new', v1') ->
  slots_done game obs
    (candidate_of (BitsPerCard game) card_knowledge tc' v1) new
    (fun _ _ => True) new' /\
  slots_done game obs
    (normalized_blend (BitsPerCard game) weight new') v1
    (fun _ _ => True) v1'.
Proof.
  intros Hdim Hfit Hhands H.
  assert (Hbits : 0 <= BitsPerCard game)
    by (destruct Hdim as (HC & HR & _); unfold BitsPerCard; nia).
  unfold EncodeV1Belief_step in H. cbv zeta in H.
  apply bind_Ok in H. destruct H as (tc1 & _ & H).
  apply bind_Ok in H. destruct H as (new1 & H2 & H).
  apply bind_Ok in H. destruct H as (v2 & H3 & H).
  injection H as <- <- <-. split.
  - apply (slot_loops_inv game obs
             (fun base new0 =>
                for_range (BitsPerCard game)
                  (EncodeV1Belief_candidate card_knowledge tc1 v1 base) new0)
             _ new new1 Hdim Hfit Hhands).
    + intros base v u Hbase Hrun.
      exact (EncodeV1Belief_candidate_inv _ _ _ _ _ _ _ Hbits Hbase Hrun).
    + intros base. apply candidate_of_ext.
    + exact H2.
  - apply (slot_loops_inv game obs
             (EncodeV1Belief_slot (BitsPerCard game) weight new1)
             _ v1 v2 Hdim Hfit Hhands).
    + intros base v u Hbase Hrun.
      exact (EncodeV1Belief_slot_inv _ _ _ _ _ _ Hbits Hbase Hrun).
    + intros base. apply normalized_blend_ext.
    + exact H3.
Qed.

Lemma fmax0_nonneg (p : Q) : (0 <= fmax0 p)%Q.
Proof.
  unfold fmax0. destruct (Qle_bool 0 p) eqn:E.
  - now apply Qle_bool_iff.
  - apply Qle_refl.
Qed.

Lemma normalized_blend_sum (bits : Z) (weight : Q) (new : vec) (base : Z)
  (v v' : vec) :
  0 <= bits -> normalized_blend bits weight new base v v' ->
  (qsum (fun i => get v' (base + i)) bits == 1)%Q.
Proof.
  intros Hbits (Hpos & Hin).
  rewrite (qsum_ext _ _ _ Hin).
  rewrite (qsum_div (fun i => blended weight v new (base + i)) _ _ Hbits).
  now apply Qdiv_self.
Qed.

(** A step keeps the grids normalized and zero where the card knowledge
    is zero. *)
Lemma refined_belief_step (game : HanabiGame.t) (obs : HanabiObservation.t)
  (weight : Q) (card_knowledge tc new new' v1 v1' : vec) :
  positive_dimensions game ->
  slots_done game obs
    (candidate_of (BitsPerCard game) card_knowledge tc v1) new
    (fun _ _ => True) new' ->
  slots_done game obs
    (normalized_blend (BitsPerCard game) weight new') v1
    (fun _ _ => True) v1' ->
  refined_belief game obs card_knowledge v1 ->
  refined_belief game obs card_knowledge v1'.
Proof.
  intros Hdim (_ & Hcand & _) (Hs & Hnorm & _) (Hsize & Hsum & Hzero).
  assert (Hbits : 0 <= BitsPerCard game)
    by (destruct Hdim as (HC & HR & _); unfold BitsPerCard; nia).
  split; [congruence|]. split.
  - intros p k Hocc.
    exact (normalized_blend_sum _ _ _ _ _ _ Hbits (Hnorm p k Hocc I)).
  - intros p k i Hocc Hi Hraw.
    destruct (Hnorm p k Hocc I) as (Hpos & Hin).
    rewrite (Hin i Hi). unfold blended.
    rewrite (Hcand p k Hocc I i Hi), Hraw.
    generalize (fmax0 (get tc i + get v1 (slot_base game 0 p k + i))).
    intros f. pose proof (Hzero p k i Hocc Hi Hraw) as Hv.
    revert Hv. generalize (get v1 (slot_base game 0 p k + i)).
    intros x Hx. rewrite Hx. unfold Qdiv. ring.
Qed.

(** With a weight between 0 and 1 and card knowledge that is not negative,
    a step keeps the grids non-negative. *)
Lemma grids_nonneg_step (game : HanabiGame.t) (obs : HanabiObservation.t)
  (weight : Q) (card_knowledge tc new new' v1 v1' : vec) :
  (0 <= weight <= 1)%Q ->
  (forall p k i, occupied obs p k -> 0 <= i < BitsPerCard game ->
     (0 <= get card_knowledge (slot_base game 0 p k + i))%Q) ->
  slots_done game obs
    (candidate_of (BitsPerCard game) card_knowledge tc v1) new
    (fun _ _ => True) new' ->
  slots_done game obs
    (normalized_blend (BitsPerCard game) weight new') v1
    (fun _ _ => True) v1' ->
  grids_nonneg game obs v1 -> grids_nonneg game obs v1'.
Proof.
  intros (Hw0 & Hw1) Hraw (_ & Hcand & _) (_ & Hnorm & _) Hnn p k i Hocc Hi.
  destruct (Hnorm p k Hocc I) as (Hpos & Hin).
  rewrite (Hin i Hi).
  apply Qle_shift_div_l; [assumption|]. rewrite Qmult_0_l.
  unfold blended. rewrite (Hcand p k Hocc I i Hi).
  replace 0%Q with (0 + 0)%Q by reflexivity.
  apply Qplus_le_compat.
  - apply Qmult_le_0_compat; [|now apply Hnn].
    unfold Qminus. rewrite <- (Qplus_opp_r weight).
    apply Qplus_le_compat; [assumption | apply Qle_refl].
  - apply Qmult_le_0_compat; [assumption|].
    apply Qmult_le_0_compat; [apply fmax0_nonneg | now apply Hraw].
Qed.

(** *** The accessor *)

(** What a run of the V1 accessor went through: the card knowledge, the
    V0 belief refined by the steps, and the extraction of the grids. *)
Lemma EncodeV1Belief_with_inv (game : HanabiGame.t)
  (obs : HanabiObservation.t) (n : Z) (weight : Q) (belief : vec) :
  positive_dimensions game -> hands_fit game obs ->
  knowledge_in_range game obs ->
  EncodeV1Belief_with n weight game obs = Ok belief ->
  exists raw v0 cc v1,
    EncodeCardKnowledge game obs 0
      (repeat 0%Q (Z.to_nat (CardKnowledgeSectionLength game)))
    = Ok (raw, CardKnowledgeSectionLength game) /\
    EncodeV0Belief_ game obs 0
      (repeat 0%Q (Z.to_nat (CardKnowledgeSectionLength game)))
    = Ok (v0, CardKnowledgeSectionLength game, cc) /\
    size (Hands obs) = NumPlayers game /\
    refined_belief game obs raw v1 /\
    ((0 <= weight <= 1)%Q -> grids_nonneg game obs v0 ->
     grids_nonneg game obs v1) /\
    ExtractBelief v1 game = Ok belief.
Proof.
  intros Hdim Hfit Hkr H.
  pose proof (CardKnowledgeSectionLength_nonneg game Hdim) as HL.
  assert (Hbits : 0 <= BitsPerCard game)
    by (destruct Hdim as (HC & HR & _); unfold BitsPerCard; nia).
  unfold EncodeV1Belief_with in H.
  rewrite new_vector_ok in H by assumption. cbn [bind] in H.
  apply bind_Ok in H. destruct H as ((enc & len) & Hrun & H).
  apply bind_Ok in H. destruct H as (u & _ & Hex).
  set (zero := repeat 0%Q (Z.to_nat (CardKnowledgeSectionLength game))) in *.
  assert (Hzero : forall j, 0 <= j < 0 + CardKnowledgeSectionLength game ->
                            get zero j = 0%Q)
    by (intros j _; apply get_repeat; exact 0%Q).
  (* the preamble *)
  pose proof Hrun as Hpre. unfold EncodeV1Belief_run in Hpre.
  rewrite new_vector_ok in Hpre by assumption. cbn [bind] in Hpre.
  fold zero in Hpre.
  apply bind_Ok in Hpre. destruct Hpre as ((raw & len0) & Hck & Hpre).
  apply bind_Ok in Hpre. destruct Hpre as (u0 & _ & Hpre).
  apply bind_Ok in Hpre.
  destruct Hpre as (((v0 & len1) & cc) & Hv0 & _).
  rewrite (EncodeV0Belief_on_raw _ _ _ _ _ _ Hdim Hck) in Hv0.
  destruct (EncodeV0Belief_zero_facts game obs v0 len1 cc Hdim Hfit Hv0)
    as (raw' & Hck' & Hlen & Hsr & Hsv & Hcc & Hhands & Hsum).
  fold zero in Hck'.
  assert (raw' = raw) by congruence. subst raw'.
  assert (len0 = len1) by congruence. subst len0 len1.
  destruct (EncodeV0Belief_inv _ _ _ _ _ _ _ Hdim Hfit (Z.le_refl 0) Hv0)
    as (raw' & _ & Hck2 & Hbel).
  assert (raw' = raw) by congruence. subst raw'.
  (* the V0 belief is zero where the card knowledge is *)
  assert (Hinit : refined_belief game obs raw v0).
  { split; [assumption|]. split; [assumption|].
    intros p k i Hocc Hi Hraw.
    destruct (occupied_in_game game obs p k Hhands Hfit Hocc) as (Hp & Hk).
    destruct (belief_of_grid game obs 0 zero raw v0 _ cc p k Hdim Hfit Hkr
                (Z.le_refl 0) Hck Hzero Hbel Hocc) as (_ & Hg).
    rewrite (Hg i Hi).
    rewrite <- (EncodeCardKnowledge_grid_bits game obs 0 zero raw _ Hdim Hkr
                  (Z.le_refl 0) Hck Hzero p k i Hp Hk Hi), Hraw.
    unfold Qdiv. ring. }
  assert (Hrawnn : forall p k i, occupied obs p k ->
                     0 <= i < BitsPerCard game ->
                     (0 <= get raw (slot_base game 0 p k + i))%Q).
  { intros p k i Hocc Hi.
    destruct (occupied_in_game game obs p k Hhands Hfit Hocc) as (Hp & Hk).
    rewrite (EncodeCardKnowledge_grid_bits game obs 0 zero raw _ Hdim Hkr
               (Z.le_refl 0) Hck Hzero p k i Hp Hk Hi).
    apply grid_bit_nonneg. }
  (* the steps *)
  rewrite (EncodeV1Belief_run_loop game obs v0 raw _ cc n weight zero
             Hdim Hfit Hv0 Hck) in Hrun.
  apply bind_Ok in Hrun. destruct Hrun as (((tc & new) & v1) & Hloop & Hrun).
  apply bind_Ok in Hrun. destruct Hrun as (enc' & Hcopy & Hrun).
  injection Hrun as <- <-.
  assert (Hinv : refined_belief game obs raw v1 /\
                 ((0 <= weight <= 1)%Q -> grids_nonneg game obs v0 ->
                  grids_nonneg game obs v1)).
  { destruct (Z_le_gt_dec 0 n) as [Hn|Hn].
    - apply (for_range_inv
               (fun _ st =>
                  refined_belief game obs raw (snd st) /\
                  ((0 <= weight <= 1)%Q -> grids_nonneg game obs v0 ->
                   grids_nonneg game obs (snd st)))
               _ _ _ _ Hn Hloop).
      + cbn [snd]. split; [assumption | auto].
      + intros i ((tc1 & new1) & w1) ((tc2 & new2) & w2) Hi (Href & Hnn)
               Hstep.
        cbn [snd] in *.
        destruct (EncodeV1Belief_step_inv game obs weight raw cc tc1 new1 w1
                    i tc2 new2 w2 Hdim Hfit Hhands Hstep) as (Hcand & Hnorm).
        split.
        * exact (refined_belief_step game obs weight raw tc2 new1 new2 w1 w2
                   Hdim Hcand Hnorm Href).
        * intros Hw Hv0nn.
          exact (grids_nonneg_step game obs weight raw tc2 new1 new2 w1 w2
                   Hw Hrawnn Hcand Hnorm (Hnn Hw Hv0nn)).
    - rewrite for_range_nonpos in Hloop by lia.
      injection Hloop as <- <- <-. split; [assumption | auto]. }
  destruct Hinv as (Href & Hnn).
  (* the copy *)
  rewrite EncodeV1Belief_copy_all in Hcopy
    by (unfold zero; rewrite size_repeat by assumption;
        symmetry; exact (proj1 Href)).
  injection Hcopy as <-.
  exists raw, v0, cc, v1. repeat (split; [assumption|]). assumption.
Qed.

(** X17: whatever the V1 accessor returns, for any number of refinement
    steps and any weight (so also for the 100 steps of weight 0.1 of
    [EncodeV1Belief]), holds for every occupied slot a grid that sums to 1
    and is 0 wherever the plausibility grid of the slot excludes the
    card.  (Arithmetic is exact.) *)
Theorem EncodeV1Belief_distribution (game : HanabiGame.t)
  (obs : HanabiObservation.t) (n : Z) (weight : Q) (belief : vec) :
  positive_dimensions game -> hands_fit game obs ->
  knowledge_in_range game obs ->
  EncodeV1Belief_with n weight game obs = Ok belief ->
  belief_distribution game obs belief.
Proof.
  intros Hdim Hfit Hkr H.
  destruct (EncodeV1Belief_with_inv game obs n weight belief Hdim Hfit Hkr H)
    as (raw & v0 & cc & v1 & Hck & _ & Hhands & (_ & Hsum & Hzero) & _ & Hex).
  destruct (ExtractBelief_inv _ _ _ Hdim Hex) as (_ & _ & Hget).
  intros p k Hocc.
  destruct (occupied_in_game game obs p k Hhands Hfit Hocc) as (Hp & Hk).
  split.
  - unfold slot_sum. rewrite <- (Hsum p k Hocc).
    apply qsum_Qeq. intros i Hi. rewrite (Hget p k i Hp Hk Hi). reflexivity.
  - intros c r Hc Hr Hpl.
    pose proof (CardIndex_range _ _ _ _ Hc Hr) as Hidx.
    assert (Hi : 0 <= CardIndex c r (NumRanks game) < BitsPerCard game)
      by (unfold BitsPerCard, CardIndex; lia).
    rewrite (Hget p k _ Hp Hk Hi). apply (Hzero p k _ Hocc Hi).
    rewrite (EncodeCardKnowledge_grid_bits game obs 0 _ raw _ Hdim Hkr
               (Z.le_refl 0) Hck) by
      (try (intros j _; apply get_repeat; exact 0%Q); assumption).
    unfold grid_bit, CardIndex.
    rewrite Z.add_comm, Z.div_add, Z.mod_add by lia.
    rewrite Z.div_small, Z.mod_small, Z.add_0_l by lia. now rewrite Hpl.
Qed.

Lemma hinted_v1_belief_run :
  EncodeV1Belief_with 1 (1 # 10) standard_game hinted_observation
  = Ok hinted_v1_belief.
Proof. vm_compute. reflexivity. Qed.

Lemma EncodeV1Belief_distribution_witness :
  (slot_sum standard_game hinted_v1_belief 1 0 == 1)%Q /\
  forall c r, 0 <= c < NumColors standard_game ->
    0 <= r < NumRanks standard_game ->
    slot_plausible hinted_observation 1 0 c r = false ->
    (get hinted_v1_belief
         (belief_slot standard_game 1 0
          + CardIndex c r (NumRanks standard_game)) == 0)%Q.
Proof.
  exact (EncodeV1Belief_distribution standard_game hinted_observation 1
           (1 # 10) hinted_v1_belief standard_positive_dimensions
           hinted_hands_fit hinted_knowledge_in_range hinted_v1_belief_run
           1 0 hinted_partner_first_occupied).
Defined.

(** X18: with a weight between 0 and 1 and no negative count of
    [ComputeCardCount], every entry that the V1 accessor returns for an
    occupied slot lies between 0 and 1, for any number of refinement steps
    (so also for [EncodeV1Belief], whose weight is 0.1).  (Arithmetic is
    exact.) *)
Theorem EncodeV1Belief_probabilities (game : HanabiGame.t)
  (obs : HanabiObservation.t) (cc : list Z) (n : Z) (weight : Q)
  (belief : vec) :
  positive_dimensions game -> hands_fit game obs ->
  knowledge_in_range game obs ->
  (0 <= weight <= 1)%Q ->
  ComputeCardCount game obs = Ok cc ->
  (forall i, 0 <= i < BitsPerCard game -> 0 <= getz cc i) ->
  EncodeV1Belief_with n weight game obs = Ok belief ->
  forall p k i, occupied obs p k -> 0 <= i < BitsPerCard game ->
    (0 <= get belief (belief_slot game p k + i) <= 1)%Q.
Proof.
  intros Hdim Hfit Hkr Hw Hcc Hnn H.
  destruct (EncodeV1Belief_with_inv game obs n weight belief Hdim Hfit Hkr H)
    as (raw & v0 & cc' & v1 & Hck & Hv0 & Hhands & (_ & Hsum & _) & Hkeep
        & Hex).
  destruct (ExtractBelief_inv _ _ _ Hdim Hex) as (_ & _ & Hget).
  destruct (EncodeV0Belief_inv _ _ _ _ _ _ _ Hdim Hfit (Z.le_refl 0) Hv0)
    as (raw' & Hcc' & Hck' & Hbel).
  assert (cc' = cc) by congruence. subst cc'.
  assert (raw' = raw) by congruence. subst raw'.
  assert (Hv0nn : grids_nonneg game obs v0).
  { intros p k i Hocc Hi.
    destruct (belief_of_grid game obs 0 _ raw v0 _ cc p k Hdim Hfit Hkr
                (Z.le_refl 0) Hck
                ltac:(intros j _; apply get_repeat; exact 0%Q) Hbel Hocc)
      as (Hpos & Hg).
    rewrite (Hg i Hi). apply Qle_shift_div_l; [assumption|].
    rewrite Qmult_0_l. apply Qmult_le_0_compat; [apply grid_bit_nonneg|].
    change 0%Q with (inject_Z 0). rewrite <- Zle_Qle. now apply Hnn. }
  pose proof (Hkeep Hw Hv0nn) as Hv1nn.
  intros p k i Hocc Hi.
  destruct (occupied_in_game game obs p k Hhands Hfit Hocc) as (Hp & Hk).
  rewrite (Hget p k i Hp Hk Hi). split; [now apply Hv1nn|].
  rewrite <- (Hsum p k Hocc).
  exact (qsum_term_le (fun i' => get v1 (slot_base game 0 p k + i')) _ i Hi
           (fun i' Hi' => Hv1nn p k i' Hocc Hi')).
Qed.

Lemma EncodeV1Belief_probabilities_witness :
  (0 <= get hinted_v1_belief (belief_slot standard_game 1 0 + 10) <= 1)%Q.
Proof.
  apply (EncodeV1Belief_probabilities standard_game hinted_observation
           hinted_counts 1 (1 # 10) hinted_v1_belief).
  - exact standard_positive_dimensions.
  - exact hinted_hands_fit.
  - exact hinted_knowledge_in_range.
  - split; discriminate.
  - exact hinted_card_counts.
  - intros i Hi. change (BitsPerCard standard_game) with 25 in Hi.
    assert (Hc : 0 <= i / 5 < 5)
      by (split; [apply Z.div_pos; lia | apply Z.div_lt_upper_bound; lia]).
    pose proof (Z.div_mod i 5 ltac:(lia)) as Hdm.
    pose proof (Z.mod_pos_bound i 5 ltac:(lia)) as Hm.
    replace i with (5 * (i / 5) + i mod 5) by lia.
    generalize dependent (i mod 5). generalize dependent (i / 5).
    intros c Hc r _ Hr.
    five_cases c; five_cases r; vm_compute; discriminate.
  - exact hinted_v1_belief_run.
  - exact hinted_partner_first_occupied.
  - vm_compute. split; [discriminate | reflexivity].
Defined.

(** ** The range of the entries of the full encoding *)

(** For a well-formed observation no count of [ComputeCardCount] is
    negative. *)
Lemma belief_well_formed_nonneg (game : HanabiGame.t)
  (obs : HanabiObservation.t) (cc : list Z) :
  positive_dimensions game -> belief_well_formed game obs ->
  ComputeCardCount game obs = Ok cc ->
  forall i, 0 <= i < BitsPerCard game -> 0 <= getz cc i.
Proof.
  intros (HC & HR & _) (_ & _ & Hpiles & Hdeck & _) Hcc i Hi.
  destruct (ComputeCardCount_entries game obs (Z.lt_le_incl _ _ HC)
              (Z.lt_le_incl _ _ HR) Hpiles) as (cc0 & _ & Hget & Hrun).
  rewrite Hcc in Hrun.
  destruct (sum_list cc0 =? _); [|discriminate]. injection Hrun as ->.
  unfold BitsPerCard in Hi.
  destruct (index_split _ _ _ Hi (Z.lt_le_incl _ _ HR)) as (Hc & Hr & E).
  rewrite E, (Hget _ _ Hc Hr). unfold remaining.
  specialize (Hdeck _ _ Hc Hr). lia.
Qed.

Lemma is_bit_unit (q : Q) : is_bit q -> (0 <= q <= 1)%Q.
Proof. intros [->| ->]; split; discriminate. Qed.

(** X19: for a valid game and a well-formed observation, every entry of
    what [Encode] returns before the belief section (hands, board,
    discards, last action) is 0 or 1, and every entry at all lies between
    0 and 1.  (Arithmetic is exact.) *)
Theorem Encode_entries_in_range (game : HanabiGame.t)
  (obs : HanabiObservation.t) (show_own_cards : bool) :
  valid_game game -> well_formed game obs show_own_cards ->
  exists out,
    Encode game obs show_own_cards = Ok out /\
    (forall j, 0 <= j < belief_start game -> is_bit (get out j)) /\
    (forall j, 0 <= j -> (0 <= get out j <= 1)%Q).
Proof.
  intros Hgame (Hhands & Hboard & Hdisc & Hmove & Hbelief).
  pose proof (section_lengths_nonneg game Hgame)
    as (HH & HB & HD & HL & HK).
  pose proof Hgame as (Hdim & _).
  pose proof (FlatLength_Shape game) as Hflat.
  assert (Hstart : 0 <= belief_start game) by (unfold belief_start; lia).
  assert (Hlen : 0 <= FlatLength (Shape game))
    by (rewrite Hflat; destruct (is_minimal _); lia).
  assert (Hsz : size (zeros (FlatLength (Shape game)))
                = FlatLength (Shape game)) by now apply size_zeros.
  destruct (Encode_sections_ok game obs show_own_cards
              (zeros (FlatLength (Shape game))) Hgame Hhands
              Hboard Hdisc Hmove) as (e1 & e2 & e3 & e4 & _ & _ & _ & _
                                      & Erun & T).
  { rewrite Hsz, Hflat. destruct (is_minimal _); lia. }
  pose proof (proj1 T) as S4.
  assert (Hbits4 : bits_only e4)
    by (apply (touched_bits _ _ _ _ T); apply bits_only_zeros).
  unfold Encode. rewrite new_vector_ok by assumption. cbn [bind].
  fold (zeros (FlatLength (Shape game))). rewrite Erun. cbn [bind].
  destruct (is_minimal (ObservationType game)) eqn:Hmin; cbn [negb bind].
  - exists e4. rewrite (assert_true (_ =? _)) by lia. cbn [bind].
    split; [reflexivity|]. split.
    + intros j Hj. apply Hbits4. lia.
    + intros j Hj. apply is_bit_unit. now apply Hbits4.
  - destruct Hhands as (Hn & Hfit & _).
    pose proof (Hbelief eq_refl) as Hbwf.
    assert (Hzero : forall j, belief_start game <= j
                      < belief_start game + CardKnowledgeSectionLength game ->
                      get e4 j = 0%Q).
    { intros j Hj.
      rewrite (touched_outside _ _ _ _ j T) by lia. apply get_zeros. }
    destruct (EncodeV0Belief_section game obs (belief_start game) e4 Hdim Hn
                Hfit Hbwf Hstart ltac:(lia) Hzero)
      as (cc & raw & out & Hcc & Hck & Hv0 & Hbel & Sout).
    pose proof (belief_well_formed_nonneg game obs cc Hdim Hbwf Hcc) as Hnn.
    destruct Hbwf as (Hkfit & Hkr & _).
    destruct (EncodeCardKnowledge_inv _ _ _ _ _ _ Hdim Hck)
      as (_ & _ & _ & Hw).
    pose proof (writes_bits _ _ _ Hw Hbits4) as Hbitsraw.
    assert (Hbelow : forall j, 0 <= j ->
              ~ (belief_start game <= j
                 < belief_start game + CardKnowledgeSectionLength game) ->
              get out j = get e4 j).
    { intros j Hj Hout.
      exact (EncodeV0Belief_outside game obs _ e4 raw out cc j Hdim Hn Hfit
               Hkfit Hkr Hstart Hck Hbel Hj Hout). }
    exists out. rewrite Hv0. cbn [bind].
    rewrite (assert_true (_ =? _)) by lia. cbn [bind].
    split; [reflexivity|]. split.
    + intros j Hj. rewrite Hbelow by lia. apply Hbits4. lia.
    + intros j Hj.
      destruct (Z_lt_le_dec j (belief_start game)) as [Hlo|Hlo];
        [rewrite Hbelow by lia; apply is_bit_unit; now apply Hbits4|].
      destruct (Z_lt_le_dec j (belief_start game
                               + CardKnowledgeSectionLength game))
        as [Hhi|Hhi];
        [|rewrite Hbelow by lia; apply is_bit_unit; now apply Hbits4].
      destruct (slot_index_split game (j - belief_start game) Hdim
                  ltac:(lia)) as (p & k & o & Hp & Hk & Ho & Ej).
      replace j with (slot_base game (belief_start game) p k + o)
        by (unfold slot_base in *; lia).
      destruct (occupied_dec obs p k) as [Hocc|Hfree];
        [destruct (Z_lt_le_dec o (BitsPerCard game)) as [Hgrid|Hhint]|].
      * destruct (belief_of_grid game obs _ e4 raw out _ cc p k Hdim Hfit
                    Hkr Hstart Hck Hzero Hbel Hocc) as (Hpos & Hg).
        rewrite (Hg o ltac:(lia)).
        assert (Hterm : forall i, 0 <= i < BitsPerCard game ->
                  (0 <= grid_bit game obs p k i * inject_Z (getz cc i))%Q).
        { intros i Hi. apply Qmult_le_0_compat; [apply grid_bit_nonneg|].
          change 0%Q with (inject_Z 0). rewrite <- Zle_Qle. now apply Hnn. }
        split.
        -- apply Qle_shift_div_l; [assumption|]. rewrite Qmult_0_l.
           apply Hterm. lia.
        -- apply Qle_shift_div_r; [assumption|]. rewrite Qmult_1_l.
           unfold weighted_total.
           exact (qsum_term_le
                    (fun i => (grid_bit game obs p k i
                               * inject_Z (getz cc i))%Q)
                    (BitsPerCard game) o (conj (proj1 Ho) Hgrid) Hterm).
      * rewrite (belief_of_frame game obs _ cc raw out p k o Hdim Hfit
                   Hstart Hbel Hp Hk Ho) by (intros; lia).
        apply is_bit_unit. apply Hbitsraw.
        pose proof (slot_base_ge game (belief_start game) p k Hdim
                      (proj1 Hp) (proj1 Hk)). lia.
      * rewrite (belief_of_frame game obs _ cc raw out p k o Hdim Hfit
                   Hstart Hbel Hp Hk Ho) by (intros; contradiction).
        apply is_bit_unit. apply Hbitsraw.
        pose proof (slot_base_ge game (belief_start game) p k Hdim
                      (proj1 Hp) (proj1 Hk)). lia.
Qed.

Lemma Encode_entries_in_range_witness :
  exists out,
    Encode standard_game hinted_observation false = Ok out /\
    (forall j, 0 <= j < belief_start standard_game -> is_bit (get out j)) /\
    (forall j, 0 <= j -> (0 <= get out j <= 1)%Q).
Proof.
  apply (Encode_entries_in_range standard_game hinted_observation false).
  - exact standard_valid_game.
  - exact hinted_well_formed.
Defined.
